(* ===== verification/_CoqProject ===== *)
-Q . S2P
Prelude.v
GoStd.v
Codec.v
Crypto.v
Protocol.v
Transport.v
Tss.v
TssFacts.v
TssProtocolFacts.v
Vm.v
VmFacts.v
Evm.v
Tendermint.v
Store.v
StoreFacts.v
Config.v
Llm.v
Analyzer.v
AnalyzerFacts.v
Telegram.v
PartyB.v
PartyBFacts.v
Solana.v
Idl.v
Anchor.v
BorshFacts.v
AnchorFacts.v
PartyA.v
PartyAFacts.v
Main.v
MainFacts.v
EdwardsPoint.v
Mnemonic.v
MnemonicFacts.v
Wizard.v
Effects.v
Certs.v
Deploy.v
DeployLocal.v
Install.v
DeployFacts.v
Handlers.v
Sweep.v
HandlersFacts.v
InstallFacts.v
LinkFacts.v
SweepFacts.v
PathFacts.v
Machine.v
ImportFacts.v
Zones.v
RemoteFacts.v
BorshTypes.v
StoreOpen.v
Dkg.v
Programs.v
Addresses.v
EndToEnd.v
