(* ===== verification/Prelude.v ===== *)
(** * A verification development for crypto-claw

    crypto-claw keeps a wallet's keys as 2-of-2 threshold shares on two machines.
    Party A serves an API, builds transactions and starts signing; Party B analyzes
    every request, asks its owner over Telegram where rules and language model do
    not decide, and takes part in a signature only then. An installer generates
    the keys from a recovery phrase, splits them as a trusted dealer and deploys
    both parties, and can recover keys from the phrase later. This library models
    the Go code under src/ and proves what makes it correct, and what is not.

    ** How the code is modelled

    A Go function is a Rocq function. [go A] (this file) is the outcome of a call:
    a value, an error with its message, or a panic. Machine integers are [Z] with
    their wrap-around written out; bytes are [list byte]; strings are [string],
    with Go's byte-wise functions on them in GoStd.v; maps are [gmap], and the
    order in which Go ranges over one is a parameter ([MapOrder]). A service's
    operations pass its state explicitly; what goroutines interleave is a step
    relation with reachability (Transport.v, PartyB.v) or, in the installer, a tree
    of calls to the environment executed among other goroutines (Effects.v). A Go
    interface is a class, with its contract as a class of laws where clients rely
    on one ([Store]/[StoreLaws], [AdapterLaws], [Codec]/[CodecLaws]). Packages that
    are not in the repository (tss-lib and its curves, go-ethereum, cosmos-sdk,
    solana-go, bip39, edwards25519, crypto/x509, JSON, HTTP, SSH, Docker, the
    database) are parameters; what is assumed of them is a class of laws with an
    instance to show it can hold. Hash functions (Crypto.v) are defined in full, so
    key derivation evaluates.

    ** The parts, their files and the code they model

    - Protocol.v, Transport.v: internal/transport/protocol.go, server.go, client.go.
      Frames over readers and writers; the server as connection steps; the client's
      pending calls, read loop and reconnection. Theorems: a stream of messages is
      read back; one live peer; a message completes exactly the call it answers.
    - Tss.v, TssFacts.v, TssProtocolFacts.v: internal/tss. Dealer, Shamir split,
      BIP-32 style derivation on shares, party numbering, message routing, and the
      loops of key generation, signing and resharing around tss-lib's machines.
      Theorems: dealt shares reconstruct and stay shares of one child key through
      any derivation, on both curves; paths round-trip; messages reach exactly
      their addressees; ceremonies keep chain code and key.
    - Vm.v, Evm.v, Tendermint.v, Solana.v with VmFacts.v: internal/vm. The adapter
      interface with its law, the registry, and the three adapters. Theorems: what
      an adapter builds decodes to the request and extracts to the claimed hash;
      signatures land in the right slots; blockhashes come from public hosts only.
    - Idl.v, Anchor.v, BorshFacts.v, AnchorFacts.v: internal/vm/solana/idl.go,
      anchor.go. IDL formats and accounts, caches, account resolution, Borsh. A byte
      slice that outlives a call points into a heap. Theorems: encodings by width,
      independence of map order, termination and where it fails, the cache
      invariant, who has to sign, and two calls sharing one backing array.
      BorshTypes.v: encodings are typed (a prefix code), and where they are not.
    - Config.v, Store.v, StoreFacts.v: internal/config, internal/store. The tables
      with encrypted shares, refining an abstract store on every fault schedule.
      StoreOpen.v: opening with its migration, closing, and what a restart finds.
    - Llm.v, Analyzer.v, AnalyzerFacts.v: internal/partyb/analyzer. Theorems: what
      an approval guarantees, and that honest transactions pass the check of the
      signable bytes, which accepts the claimed ones exactly when they are equal.
    - Telegram.v, PartyB.v, PartyBFacts.v: internal/partyb. The bot's updates and
      the co-signer as a transition system over goroutines and channels. Theorems:
      Party B signs only what was authorized; only the owner's presses decide;
      escalations end.
    - PartyA.v, PartyAFacts.v: internal/partya. Derivation, signing, the escalation
      queue and the API's handlers, one step per operation.
    - Main.v, MainFacts.v: cmd/party-a/main.go, cmd/party-b/main.go. The handler and
      callbacks that join the parts, and the two programs linked over the
      connection. Theorems: Party B's program refines its service; a derivation
      through the API leaves both stores with halves of one key; a transaction
      returned at once was analyzed, whitelisted and approved as it is.
    - Programs.v: how the three main functions start and where they give up, and the
      installer's front (cmd/installer/main.go): its port, CORS and pages.
    - Dkg.v: cmd/installer/dkg.go. The in-memory router and a ceremony of two
      goroutines as labelled steps around the loops of Tss.v. Theorems: the router
      delivers in order, and the two registrations race with the first sends.
    - EdwardsPoint.v, Mnemonic.v, MnemonicFacts.v: cmd/installer/mnemonic.go and the
      signer of ed25519_sign.go. Theorems: the point decoder inverts the encoder;
      the phrase recovers what the parties derived; a signature with a bare scalar
      verifies; indices wrap.
    - Wizard.v: cmd/installer/state.go (the state in groups of fields, its critical
      sections, the pre-parameters' channel) and the configuration of ssh.go.
    - Effects.v: calls, programs, [exec] (executions among other goroutines), [safe]
      (a proof rule for every execution, sound by [safe_sound]) and [run] (an
      execution by an oracle, to evaluate examples).
    - Certs.v, Deploy.v, DeployLocal.v, Install.v: transport/certs.go and
      cmd/installer/certs.go, ssh.go, deploy.go, and the pipeline, update and log
      stream of handlers.go. Handlers.v, Sweep.v: the other handlers, and
      ed25519_sign.go's transfers and RPC calls.
    - DeployFacts.v, InstallFacts.v: what an installation sends to whom, that the
      phrase recovers the installed keys, and the dead end of [WaitPreParams].
      HandlersFacts.v: exports agree with the adapters' curves; a skipped language
      model stays skipped. LinkFacts.v: whether the installed parties find each
      other. SweepFacts.v: a sweep sends nothing but its transfer.
    - PathFacts.v, Machine.v: the machine below an installation, its files by path,
      temporary directories and databases as views of the abstract store ([World],
      [reacts]), the executions it allows ([replay]), a weakest-precondition rule for
      them ([wlp], sound by [wlp_sound]) and an executable machine ([simulate]).
      Zones.v: a rely-guarantee rule ([rg]) for goroutines with files and databases of
      their own, put together in every interleaving by [wlp_par]. ImportFacts.v,
      RemoteFacts.v: each party's database ends up with its own half of each key,
      after a local and a remote installation, and how a full disk loses them.
    - EndToEnd.v: from the phrase through dealing, either installation and the
      databases to a derivation by both parties and back, for both curves: the exported
      key and its address are the ones the API returns. Addresses.v: the adapters and
      the export compute the same addresses where they call the same libraries.
    - GoStd.v, Codec.v, Crypto.v: the parts of Go's library the program calls.

    ** Bounds and fuel

    [Idl] and [Anchor] recurse on IDL types with fuel; [None] is running out of it,
    and BorshFacts.v shows which types have enough (those that do not contain
    themselves, and every JSON input, by its length). [project_root] has one unit
    per byte of the path plus one; each step shortens the path or stops. Polls
    ([poll_ready], [verify_poll]), ticks and a client's failed dials are counts the
    code or the environment gives. Escalations and streams have no bound: their
    theorems are about every execution.

    ** Not modelled

    Parsing of flags, shutdown signals, sockets and TLS handshakes; the contents of
    the embedded pages and of the API's documentation; the Telegram and HTTP
    transports; SQL beyond what each statement does to its table; log output other
    than the installer's log; request routing and JSON syntax. The web interface is
    not Go. The copying of bytes through the SSH tunnel is one call. The file system
    of Machine.v keeps what was written and knows no links or permissions; its disk
    can be written or not.

    ** Plan

    Next: liveness of a deployment on a machine whose commands succeed; routes of the
    two APIs. *)
From Stdlib Require Export ZArith Lia String Ascii List.
From Stdlib Require Export Strings.Byte ZifyBool.
From stdpp Require Export base option list strings gmap pretty.

Declare Scope go_scope.
Delimit Scope go_scope with go.

(** ** The outcome of a Go call

    A call returns a value, returns an error (its message is kept), or panics. *)
Inductive go (A : Type) : Type :=
| Ret (a : A)
| Err (msg : string)
| Panic.
Arguments Ret {A} a.
Arguments Err {A} msg.
Arguments Panic {A}.

#[export] Instance go_ret : MRet go := fun A a => Ret a.
#[export] Instance go_bind : MBind go := fun A B f m =>
  match m with Ret a => f a | Err e => Err e | Panic => Panic end.
#[export] Instance go_fmap : FMap go := fun A B f m =>
  match m with Ret a => Ret (f a) | Err e => Err e | Panic => Panic end.

(** [fmt.Errorf("p: %w", err)]: the error of [m], if any, wrapped under [p]. *)
Definition wrap_err {A} (p : string) (m : go A) : go A :=
  match m with Err e => Err (p +:+ ": " +:+ e) | _ => m end.

Notation "m '?:' p" := (wrap_err p m) (at level 50, left associativity) : go_scope.

(** [match]-style branching on an error that the caller swallows. *)
Definition is_ret {A} (m : go A) : bool := match m with Ret _ => true | _ => false end.

Definition from_option_err {A} (e : string) (o : option A) : go A :=
  match o with Some a => Ret a | None => Err e end.

Definition to_option {A} (m : go A) : option A :=
  match m with Ret a => Some a | _ => None end.

(** Run [f] over a list left to right, stopping at the first error (a Go
    [for ... range] loop whose body may [return]). *)
Fixpoint go_mapM {A B} (f : A -> go B) (l : list A) : go (list B) :=
  match l with
  | [] => Ret []
  | x :: l' => y ← f x; ys ← go_mapM f l'; Ret (y :: ys)
  end.

Fixpoint go_foldM {A S} (f : S -> A -> go S) (s : S) (l : list A) : go S :=
  match l with
  | [] => Ret s
  | x :: l' => s' ← f s x; go_foldM f s' l'
  end.

Lemma Ret_inj {A} (a b : A) : Ret a = Ret b -> a = b.
Proof. congruence. Qed.
Lemma go_bind_Ret {A B} (m : go A) (f : A -> go B) b :
  m ≫= f = Ret b -> exists a, m = Ret a /\ f a = Ret b.
Proof. destruct m; cbn; try discriminate; eauto. Qed.

Lemma wrap_err_Ret {A} p (m : go A) a : wrap_err p m = Ret a -> m = Ret a.
Proof. by destruct m. Qed.

Lemma go_mapM_length {A B} (f : A -> go B) l ys :
  go_mapM f l = Ret ys -> length ys = length l.
Proof.
  revert ys; induction l as [|x l IH]; intros ys; cbn; [by intros [= <-]|].
  intros (y & _ & (ys' & H' & [= <-])%go_bind_Ret)%go_bind_Ret; cbn; f_equal; auto.
Qed.

Lemma go_mapM_ext {A B} (f g : A -> go B) l :
  (forall x, In x l -> f x = g x) -> go_mapM f l = go_mapM g l.
Proof.
  induction l as [|x l IH]; intros H; cbn; [done|].
  rewrite H by (left; done). destruct (g x); cbn; try done.
  rewrite IH; [done|]. intros y Hy. apply H. by right.
Qed.

Lemma go_mapM_Ret {A B} (f : A -> B) l : go_mapM (fun x => Ret (f x)) l = Ret (map f l).
Proof. induction l as [|x l IH]; cbn; [done|]. by rewrite IH. Qed.

(** An invariant of a loop whose body may return early. *)
Lemma go_foldM_inv {A S} (P : S -> Prop) (f : S -> A -> go S) l s s' : P s ->
  (forall s x s', In x l -> P s -> f s x = Ret s' -> P s') -> go_foldM f s l = Ret s' -> P s'.
Proof.
  revert s. induction l as [|x l IH]; intros s Hs Hf; cbn; [by intros [= <-]|].
  intros (s1 & H1 & H2)%go_bind_Ret. apply (IH s1); [|by intros; eapply Hf; [right| |]|exact H2].
  eapply Hf; [by left|exact Hs|exact H1].
Qed.

Lemma go_mapM_In {A B} (f : A -> go B) l ys y :
  go_mapM f l = Ret ys -> In y ys -> exists x, In x l /\ f x = Ret y.
Proof.
  revert ys. induction l as [|x l IH]; intros ys; cbn; [by intros [= <-]|].
  intros (z & Hz & (ys' & Hys & [= <-])%go_bind_Ret)%go_bind_Ret [<-|Hin].
  - exists x. by split; [left|].
  - destruct (IH _ Hys Hin) as (x' & ? & ?). exists x'. by split; [right|].
Qed.

(** ** Bytes *)
Notation bytes := (list byte).

Definition Z_of_byte (b : byte) : Z := Z.of_N (Byte.to_N b).
Definition byte_of_Z (z : Z) : byte :=
  default x00 (Byte.of_N (Z.to_N (z mod 256))).

#[export] Instance byte_eq_dec : EqDecision byte := Byte.byte_eq_dec.

#[export] Instance byte_countable : Countable byte.
Proof.
  refine (inj_countable Byte.to_N Byte.of_N _). intros b. apply Byte.of_to_N.
Defined.

Lemma Z_of_byte_range b : (0 <= Z_of_byte b < 256)%Z.
Proof. unfold Z_of_byte. pose proof (Byte.to_N_bounded b). lia. Qed.

Lemma byte_of_Z_of_byte b : byte_of_Z (Z_of_byte b) = b.
Proof. by destruct b. Qed.

Lemma Z_of_byte_of_Z z : Z_of_byte (byte_of_Z z) = (z mod 256)%Z.
Proof.
  unfold Z_of_byte, byte_of_Z.
  pose proof (Z.mod_pos_bound z 256 ltac:(lia)) as Hb.
  destruct (Byte.of_N (Z.to_N (z mod 256))) as [b|] eqn:E; cbn.
  - apply Byte.to_of_N in E. rewrite E. lia.
  - apply Byte.of_N_None_iff in E. lia.
Qed.

Lemma Z_of_byte_inj a b : Z_of_byte a = Z_of_byte b -> a = b.
Proof. intros H. by rewrite <- (byte_of_Z_of_byte a), H, byte_of_Z_of_byte. Qed.

Lemma byte_of_Z_mod z : byte_of_Z (z mod 256) = byte_of_Z z.
Proof. unfold byte_of_Z. by rewrite Z.mod_mod by lia. Qed.

#[export] Hint Rewrite @byte_of_Z_of_byte Z_of_byte_of_Z byte_of_Z_mod : bytes.

(** Go strings are byte sequences. *)
Definition bytes_of (s : string) : bytes := String.list_byte_of_string s.
Definition string_of (b : bytes) : string := String.string_of_list_byte b.

Lemma string_of_bytes_of s : string_of (bytes_of s) = s.
Proof. apply String.string_of_list_byte_of_string. Qed.
Lemma bytes_of_string_of b : bytes_of (string_of b) = b.
Proof. apply String.list_byte_of_string_of_list_byte. Qed.
Lemma bytes_of_inj s t : bytes_of s = bytes_of t -> s = t.
Proof. intros H. by rewrite <- (string_of_bytes_of s), H, string_of_bytes_of. Qed.
Lemma bytes_of_app s t : bytes_of (s +:+ t) = bytes_of s ++ bytes_of t.
Proof.
  induction s as [|c s IH]; [done|].
  change (bytes_of (String c s +:+ t)) with (byte_of_ascii c :: bytes_of (s +:+ t)).
  by rewrite IH.
Qed.

Lemma append_assoc s t u : s +:+ t +:+ u = (s +:+ t) +:+ u.
Proof. apply bytes_of_inj. by rewrite !bytes_of_app, app_assoc. Qed.
Lemma append_empty s : s +:+ "" = s.
Proof. apply bytes_of_inj. by rewrite bytes_of_app, app_nil_r. Qed.

(** Length of a Go string or slice, as an [int]. *)
Definition slen (s : string) : Z := Z.of_nat (String.length s).
Definition zlen {A} (l : list A) : Z := Z.of_nat (length l).

(** ** Automation *)

(** Invert hypotheses [m ≫= f = Ret _] and [wrap_err _ m = Ret _]. *)
Ltac go_inv :=
  repeat match goal with
  | H : mbind _ _ = Ret _ |- _ => apply go_bind_Ret in H; destruct H as (? & ? & ?)
  | H : wrap_err _ _ = Ret _ |- _ => apply wrap_err_Ret in H
  | H : Ret _ = Ret _ |- _ => injection H as H; try subst
  | H : Err _ = Ret _ |- _ => discriminate H
  | H : Panic = Ret _ |- _ => discriminate H
  end.

(** Split every [match]/[if] of the goal, closing contradictory branches. *)
Ltac crush_match :=
  repeat (case_match; cbn in *; simplify_eq; try done).

Create HintDb go.
#[export] Hint Resolve Z_of_byte_range : go.
