(* ===== verification/GoStd.v ===== *)
(** * GoStd: the parts of Go's standard library the program calls

    Executable models of [strings], [strconv], [encoding/hex],
    [encoding/base64], [encoding/binary], [math/big] and the UTF-8 decoding of
    [range] over a string. The two Unicode tables the library consults for
    code points at or above 0x80 are a parameter ([Unicode]). *)
From S2P Require Import Prelude.
Local Open Scope Z_scope.

(** ** Unicode tables

    [unicode.ToLower], [unicode.IsPrint] and [unicode.IsSpace] on code points
    outside ASCII. *)
Class Unicode := {
  unicode_to_lower : Z -> Z;
  unicode_is_print : Z -> bool;
  unicode_is_space : Z -> bool;
}.

(** ** UTF-8 *)
Module Utf8.

Definition RuneError : Z := 0xFFFD.

Definition in_range (lo hi x : Z) : bool := (lo <=? x) && (x <=? hi).
Definition cont (x : Z) : bool := in_range 0x80 0xBF x.

(** The runes [for _, c := range s] visits: a malformed byte yields
    [RuneError] and consumes one byte. *)
Fixpoint runes_of (l : bytes) : list Z :=
  match l with
  | [] => []
  | b0 :: t0 =>
    let x0 := Z_of_byte b0 in
    if x0 <? 0x80 then x0 :: runes_of t0 else
    match t0 with
    | [] => [RuneError]
    | b1 :: t1 =>
      let x1 := Z_of_byte b1 in
      if in_range 0xC2 0xDF x0 && cont x1 then
        (Z.land x0 0x1F * 64 + Z.land x1 0x3F) :: runes_of t1
      else
      match t1 with
      | [] => RuneError :: runes_of t0
      | b2 :: t2 =>
        let x2 := Z_of_byte b2 in
        let ok3 := in_range 0xE0 0xEF x0 && cont x2 &&
          (if x0 =? 0xE0 then in_range 0xA0 0xBF x1
           else if x0 =? 0xED then in_range 0x80 0x9F x1 else cont x1) in
        if ok3 then
          (Z.land x0 0x0F * 4096 + Z.land x1 0x3F * 64 + Z.land x2 0x3F) :: runes_of t2
        else
        match t2 with
        | [] => RuneError :: runes_of t0
        | b3 :: t3 =>
          let x3 := Z_of_byte b3 in
          let ok4 := in_range 0xF0 0xF4 x0 && cont x2 && cont x3 &&
            (if x0 =? 0xF0 then in_range 0x90 0xBF x1
             else if x0 =? 0xF4 then in_range 0x80 0x8F x1 else cont x1) in
          if ok4 then
            (Z.land x0 0x07 * 262144 + Z.land x1 0x3F * 4096
             + Z.land x2 0x3F * 64 + Z.land x3 0x3F) :: runes_of t3
          else RuneError :: runes_of t0
        end
      end
    end
  end.

(** [string(r)] for a rune [r] (surrogates and values past 0x10FFFF encode as
    [RuneError]). *)
Definition encode_rune (r : Z) : bytes :=
  let r := if (0 <=? r) && (r <=? 0x10FFFF) && negb (in_range 0xD800 0xDFFF r)
           then r else RuneError in
  if r <? 0x80 then [byte_of_Z r]
  else if r <? 0x800 then [byte_of_Z (0xC0 + r / 64); byte_of_Z (0x80 + r mod 64)]
  else if r <? 0x10000 then
    [byte_of_Z (0xE0 + r / 4096); byte_of_Z (0x80 + r / 64 mod 64); byte_of_Z (0x80 + r mod 64)]
  else [byte_of_Z (0xF0 + r / 262144); byte_of_Z (0x80 + r / 4096 mod 64);
        byte_of_Z (0x80 + r / 64 mod 64); byte_of_Z (0x80 + r mod 64)].

Definition is_ascii (l : bytes) : bool := forallb (fun b => Z_of_byte b <? 0x80) l.

Lemma runes_of_ascii l : is_ascii l = true -> runes_of l = map Z_of_byte l.
Proof.
  induction l as [|b l IH]; cbn [is_ascii forallb runes_of map]; [done|].
  intros [Hb Hl]%andb_prop. rewrite Hb. by rewrite IH.
Qed.

Lemma encode_rune_ascii b : Z_of_byte b < 0x80 -> encode_rune (Z_of_byte b) = [b].
Proof.
  intros H. pose proof (Z_of_byte_range b). unfold encode_rune, in_range.
  replace ((0 <=? Z_of_byte b) && (Z_of_byte b <=? 0x10FFFF)
           && negb ((0xD800 <=? Z_of_byte b) && (Z_of_byte b <=? 0xDFFF))) with true by lia.
  replace (Z_of_byte b <? 0x80) with true by lia. by rewrite byte_of_Z_of_byte.
Qed.

End Utf8.

(** ** package strings *)
Module Strings.

Fixpoint strip_prefix (p s : string) : option string :=
  match p, s with
  | EmptyString, _ => Some s
  | String a p', String b s' => if Ascii.eqb a b then strip_prefix p' s' else None
  | String _ _, EmptyString => None
  end.

Definition HasPrefix (s p : string) : bool :=
  match strip_prefix p s with Some _ => true | None => false end.
Definition TrimPrefix (s p : string) : string := default s (strip_prefix p s).

Fixpoint rev_onto (s acc : string) : string :=
  match s with EmptyString => acc | String c s' => rev_onto s' (String c acc) end.
Definition reverse (s : string) : string := rev_onto s "".

Definition HasSuffix (s p : string) : bool := HasPrefix (reverse s) (reverse p).
Definition TrimSuffix (s p : string) : string :=
  match strip_prefix (reverse p) (reverse s) with Some r => reverse r | None => s end.

(** The text after the first occurrence of [sub], with the text before it. *)
Fixpoint cut (s sub : string) : option (string * string) :=
  match strip_prefix sub s with
  | Some r => Some (EmptyString, r)
  | None => match s with
            | EmptyString => None
            | String c s' => '(a, b) ← cut s' sub; Some (String c a, b)
            end
  end.
Definition Contains (s sub : string) : bool :=
  match cut s sub with Some _ => true | None => false end.

(** [strings.Split(s, sep)] for a one-byte separator. *)
Fixpoint Split (s : string) (sep : ascii) : list string :=
  match s with
  | EmptyString => [EmptyString]
  | String c s' =>
    if Ascii.eqb c sep then EmptyString :: Split s' sep
    else match Split s' sep with
         | [] => [String c EmptyString]
         | w :: ws => String c w :: ws
         end
  end.

Fixpoint Join (l : list string) (sep : string) : string :=
  match l with
  | [] => EmptyString
  | [w] => w
  | w :: l' => w +:+ sep +:+ Join l' sep
  end.

(** [strings.Replace(s, old, new, 1)] for a nonempty [old]; [strings.SplitN(s, sep, 2)]. *)
Definition Replace1 (s old new : string) : string :=
  match cut s old with Some (a, b) => a +:+ new +:+ b | None => s end.
Definition SplitN2 (s sep : string) : list string :=
  match cut s sep with Some (a, b) => [a; b] | None => [s] end.

Definition mem_ascii (c : ascii) (cutset : string) : bool :=
  existsb (Ascii.eqb c) (list_ascii_of_string cutset).

Fixpoint TrimLeft (s cutset : string) : string :=
  match s with
  | String c s' => if mem_ascii c cutset then TrimLeft s' cutset else s
  | EmptyString => s
  end.
Definition TrimRight (s cutset : string) : string := reverse (TrimLeft (reverse s) cutset).

Definition lower_byte (b : byte) : byte :=
  let x := Z_of_byte b in
  if (0x41 <=? x) && (x <=? 0x5A) then byte_of_Z (x + 32) else b.

Section WithUnicode.
Context `{Unicode}.

(** [strings.ToLower]: byte-wise on ASCII strings, [Map(unicode.ToLower)]
    over the runes otherwise. *)
Definition lower_rune (r : Z) : Z :=
  if r <? 0x80 then (if (0x41 <=? r) && (r <=? 0x5A) then r + 32 else r)
  else unicode_to_lower r.
Definition ToLower (s : string) : string :=
  let l := bytes_of s in
  if Utf8.is_ascii l then string_of (map lower_byte l)
  else string_of (flat_map Utf8.encode_rune (map lower_rune (Utf8.runes_of l))).

Definition is_space (r : Z) : bool :=
  if r <? 0x80 then existsb (Z.eqb r) [9; 10; 11; 12; 13; 32] else unicode_is_space r.
Fixpoint drop_space (l : list Z) : list Z :=
  match l with r :: l' => if is_space r then drop_space l' else l | [] => [] end.
(** [strings.TrimSpace]. *)
Definition TrimSpace (s : string) : string :=
  string_of (flat_map Utf8.encode_rune
    (rev (drop_space (rev (drop_space (Utf8.runes_of (bytes_of s))))))).

End WithUnicode.

Lemma strip_prefix_spec p s r : strip_prefix p s = Some r <-> s = p +:+ r.
Proof.
  revert s; induction p as [|a p IH]; intros s; cbn;
    [change (EmptyString +:+ r) with r; split; congruence|].
  destruct s as [|b s]; cbn; [split; intros H; discriminate H|].
  destruct (Ascii.eqb_spec a b) as [->|Hn].
  - rewrite IH. change (String.append (String b p) r) with (String b (p +:+ r)). split; congruence.
  - split; [done|]. intros [= -> _]. done.
Qed.

Lemma TrimPrefix_app p r : TrimPrefix (p +:+ r) p = r.
Proof. unfold TrimPrefix. by rewrite (proj2 (strip_prefix_spec p _ r) eq_refl). Qed.

Lemma HasPrefix_app p r : HasPrefix (p +:+ r) p = true.
Proof. unfold HasPrefix. by rewrite (proj2 (strip_prefix_spec p _ r) eq_refl). Qed.

Lemma lower_byte_idem b : lower_byte (lower_byte b) = lower_byte b.
Proof. by destruct b. Qed.

Lemma lower_byte_ascii b : Z_of_byte b < 0x80 -> Z_of_byte (lower_byte b) < 0x80.
Proof. by destruct b. Qed.

Lemma ToLower_ascii_idem `{Unicode} s :
  Utf8.is_ascii (bytes_of s) = true -> ToLower (ToLower s) = ToLower s.
Proof.
  intros Ha. unfold ToLower at 2 3. rewrite Ha. unfold ToLower. rewrite bytes_of_string_of.
  assert (Utf8.is_ascii (map lower_byte (bytes_of s)) = true) as ->.
  { unfold Utf8.is_ascii in *. rewrite forallb_forall in *. intros x.
    rewrite in_map_iff. intros (y & <- & Hy). apply Z.ltb_lt, lower_byte_ascii, Z.ltb_lt; auto. }
  f_equal. rewrite map_map. apply map_ext. apply lower_byte_idem.
Qed.

(** *** Suffixes and separators *)

Lemma rev_onto_app s acc1 acc2 : rev_onto s (acc1 +:+ acc2) = rev_onto s acc1 +:+ acc2.
Proof.
  revert acc1. induction s as [|c s IH]; intros acc1; [done|].
  exact (IH (String c acc1)).
Qed.

Lemma rev_onto_snoc s c acc : rev_onto (s +:+ String c "") acc = String c (rev_onto s acc).
Proof.
  revert acc. induction s as [|d s IH]; intros acc; [done|]. exact (IH (String d acc)).
Qed.

Lemma reverse_snoc s c : reverse (s +:+ String c "") = String c (reverse s).
Proof. apply rev_onto_snoc. Qed.

Lemma HasSuffix_snoc s c d : HasSuffix (s +:+ String c "") (String d "") = Ascii.eqb d c.
Proof.
  unfold HasSuffix. rewrite reverse_snoc. unfold HasPrefix.
  change (reverse (String d "")) with (String d ""). cbn [strip_prefix].
  by destruct (Ascii.eqb d c).
Qed.

Lemma string_snoc s : s = "" \/ exists s' c, s = s' +:+ String c "".
Proof.
  induction s as [|c s IH]; [by left|right]. destruct IH as [->|(s' & d & ->)].
  - by exists "", c.
  - by exists (String c s'), d.
Qed.

Definition no_char (c : ascii) (s : string) : bool := negb (mem_ascii c s).

Lemma Split_not_nil s c : Split s c <> [].
Proof. destruct s as [|d s]; cbn; [done|]. repeat case_match; done. Qed.
Lemma Split_no_sep sep s : no_char sep s = true -> Split s sep = [s].
Proof.
  unfold no_char, mem_ascii. induction s as [|c s IH]; cbn; [done|].
  intros H. rewrite negb_orb in H. apply andb_true_iff in H as [Hc Hs].
  apply negb_true_iff in Hc. rewrite Ascii.eqb_sym, Hc, IH by exact Hs. done.
Qed.

Lemma Split_cons_sep sep s t :
  no_char sep s = true -> Split (s +:+ String sep t) sep = s :: Split t sep.
Proof.
  unfold no_char, mem_ascii. induction s as [|c s IH]; cbn.
  - intros _. change ("" +:+ String sep t) with (String sep t). cbn. by rewrite Ascii.eqb_refl.
  - intros H. rewrite negb_orb in H. apply andb_true_iff in H as [Hc Hs].
    change (String c s +:+ String sep t) with (String c (s +:+ String sep t)). cbn [Split].
    apply negb_true_iff in Hc. rewrite Ascii.eqb_sym, Hc, IH by exact Hs. done.
Qed.

(** [strings.Split] undoes [strings.Join] on words without the separator. *)
Lemma Split_Join sep l : l <> [] -> Forall (fun w => no_char sep w = true) l ->
  Split (Join l (String sep "")) sep = l.
Proof.
  intros Hne HF. induction l as [|w l IH]; [done|].
  apply Forall_cons in HF as [Hw HF]. destruct l as [|w' l]; [by apply Split_no_sep|].
  change (Join (w :: w' :: l) (String sep "")) with (w +:+ String sep (Join (w' :: l) (String sep ""))).
  rewrite Split_cons_sep by done. f_equal. by apply IH.
Qed.

End Strings.

(** ** encoding/binary *)
Module Binary.

Fixpoint be_Z_acc (acc : Z) (l : bytes) : Z :=
  match l with [] => acc | b :: l' => be_Z_acc (acc * 256 + Z_of_byte b) l' end.
(** The big-endian value of a byte string ([big.Int.SetBytes]). *)
Definition be_Z (l : bytes) : Z := be_Z_acc 0 l.

Fixpoint le_Z (l : bytes) : Z :=
  match l with [] => 0 | b :: l' => Z_of_byte b + 256 * le_Z l' end.

(** [n] bytes of [z], little end first ([PutUint16/32/64] after the
    conversion to the width, which keeps the low [8*n] bits). *)
Fixpoint le_bytes (n : nat) (z : Z) : bytes :=
  match n with O => [] | S n' => byte_of_Z z :: le_bytes n' (z / 256) end.
Definition be_bytes (n : nat) (z : Z) : bytes := rev (le_bytes n z).

#[global] Arguments be_bytes : simpl never.

Lemma length_le_bytes n z : length (le_bytes n z) = n.
Proof. revert z; induction n as [|n IH]; intros z; cbn; [done|]. by rewrite IH. Qed.
Lemma length_be_bytes n z : length (be_bytes n z) = n.
Proof. unfold be_bytes. by rewrite length_rev, length_le_bytes. Qed.

Lemma le_Z_le_bytes n z : le_Z (le_bytes n z) = z mod 256 ^ Z.of_nat n.
Proof.
  revert z; induction n as [|n IH]; intros z; cbn [le_bytes le_Z]; [by rewrite Z.mod_1_r|].
  rewrite IH, Z_of_byte_of_Z. rewrite Nat2Z.inj_succ, Z.pow_succ_r by lia.
  rewrite Z.rem_mul_r by lia. lia.
Qed.

Lemma le_bytes_le_Z l : le_bytes (length l) (le_Z l) = l.
Proof.
  induction l as [|b l IH]; cbn [le_Z length le_bytes]; [done|]. f_equal.
  - rewrite <- byte_of_Z_mod. pose proof (Z_of_byte_range b).
    replace ((Z_of_byte b + 256 * le_Z l) mod 256) with (Z_of_byte b)
      by (rewrite Z.mul_comm, Z.mod_add by lia; symmetry; apply Z.mod_small; lia).
    apply byte_of_Z_of_byte.
  - pose proof (Z_of_byte_range b).
    replace ((Z_of_byte b + 256 * le_Z l) / 256) with (le_Z l); [done|].
    rewrite Z.mul_comm, Z.div_add by lia. rewrite Z.div_small by lia. lia.
Qed.

Lemma le_Z_bound l : 0 <= le_Z l < 256 ^ zlen l.
Proof.
  unfold zlen. induction l as [|b l IH]; cbn [le_Z length]; [lia|].
  pose proof (Z_of_byte_range b). rewrite Nat2Z.inj_succ, Z.pow_succ_r by lia. lia.
Qed.

Lemma be_Z_acc_app acc l1 l2 : be_Z_acc acc (l1 ++ l2) = be_Z_acc (be_Z_acc acc l1) l2.
Proof. revert acc; induction l1 as [|b l1 IH]; intros acc; cbn; [done|]. apply IH. Qed.

Lemma be_Z_rev l : be_Z (rev l) = le_Z l.
Proof.
  unfold be_Z. induction l as [|b l IH]; cbn [rev le_Z]; [done|].
  rewrite be_Z_acc_app, IH; cbn. lia.
Qed.

Lemma be_Z_be_bytes n z : be_Z (be_bytes n z) = z mod 256 ^ Z.of_nat n.
Proof. unfold be_bytes. by rewrite be_Z_rev, le_Z_le_bytes. Qed.

Lemma be_bytes_be_Z l : be_bytes (length l) (be_Z l) = l.
Proof.
  unfold be_bytes. rewrite <- (rev_involutive l) at 2. rewrite be_Z_rev.
  rewrite <- (length_rev l), le_bytes_le_Z. apply rev_involutive.
Qed.

Lemma be_bytes_be_Z' n l : length l = n -> be_bytes n (be_Z l) = l.
Proof. intros <-. apply be_bytes_be_Z. Qed.

Lemma be_Z_bound l : 0 <= be_Z l < 256 ^ zlen l.
Proof.
  rewrite <- (rev_involutive l), be_Z_rev. unfold zlen. rewrite length_rev.
  pose proof (le_Z_bound (rev l)) as Hb. unfold zlen in Hb. by rewrite length_rev in *.
Qed.

End Binary.

(** ** math/big and strconv *)
Module Strconv.

Definition digit (c : ascii) : option Z :=
  let x := Z_of_byte (byte_of_ascii c) in
  if (0x30 <=? x) && (x <=? 0x39) then Some (x - 0x30) else None.

Fixpoint digits (acc : Z) (s : string) : option Z :=
  match s with
  | EmptyString => Some acc
  | String c s' => d ← digit c; digits (acc * 10 + d) s'
  end.
(** One or more decimal digits. *)
Definition decimal (s : string) : option Z :=
  match s with EmptyString => None | _ => digits 0 s end.

Definition hex_digit (n : Z) : ascii :=
  ascii_of_byte (byte_of_Z (if n <? 10 then 0x30 + n else 0x57 + n)).
Definition hex_digit_upper (n : Z) : ascii :=
  ascii_of_byte (byte_of_Z (if n <? 10 then 0x30 + n else 0x37 + n)).

Section WithUnicode.
Context `{Unicode}.

(** [strconv.Quote] on one rune; a rune that is not printable is escaped. *)
Definition quote_rune (r : Z) : string :=
  if r =? 0x22 then "\" +:+ String (ascii_of_byte (byte_of_Z 0x22)) "" else
  if r =? 0x5C then "\\" else
  if (0x20 <=? r) && (r <? 0x7F) then string_of [byte_of_Z r] else
  if (0x80 <=? r) && unicode_is_print r then string_of (Utf8.encode_rune r) else
  if r =? 7 then "\a" else if r =? 8 then "\b" else if r =? 12 then "\f" else
  if r =? 10 then "\n" else if r =? 13 then "\r" else if r =? 9 then "\t" else
  if r =? 11 then "\v" else
  if (r <? 0x20) || (r =? 0x7F)
  then "\x" +:+ String (hex_digit (r / 16)) (String (hex_digit (r mod 16)) "") else
  "\u" +:+ String (hex_digit (r / 4096 mod 16)) (String (hex_digit (r / 256 mod 16))
    (String (hex_digit (r / 16 mod 16)) (String (hex_digit (r mod 16)) ""))).
Definition dquote : string := String (ascii_of_byte (byte_of_Z 0x22)) "".
Definition Quote (s : string) : string :=
  dquote +:+ String.concat "" (map quote_rune (Utf8.runes_of (bytes_of s))) +:+ dquote.

Definition num_error (fn s what : string) : string :=
  "strconv." +:+ fn +:+ ": parsing " +:+ Quote s +:+ ": " +:+ what.

(** The loop of [strconv.ParseUint]: it stops at the first character that is
    no digit or that takes the value past [max]. [inl false] is a syntax error
    and [inl true] a range error. *)
Fixpoint parse_uint (max acc : Z) (s : string) : bool + Z :=
  match s with
  | EmptyString => inr acc
  | String c s' =>
    match digit c with
    | None => inl false
    | Some d => if max <? acc * 10 + d then inl true else parse_uint max (acc * 10 + d) s'
    end
  end.
Definition parse_base10 (s : string) (bits : Z) : bool + Z :=
  match s with EmptyString => inl false | _ => parse_uint (2 ^ bits - 1) 0 s end.

Definition range_or_syntax (b : bool) : string :=
  if b then "value out of range" else "invalid syntax".

(** [strconv.ParseUint(s, 10, bits)]. *)
Definition ParseUint (s : string) (bits : Z) : go Z :=
  match parse_base10 s bits with
  | inl b => Err (num_error "ParseUint" s (range_or_syntax b))
  | inr n => Ret n
  end.

(** [strconv.ParseInt(s, 10, 64)]. *)
Definition ParseInt64 (s : string) : go Z :=
  let '(neg, t) := match s with
    | String c t => if Ascii.eqb c "-"%char then (true, t)
                    else if Ascii.eqb c "+"%char then (false, t) else (false, s)
    | EmptyString => (false, s) end in
  match parse_base10 t 64 with
  | inl b => Err (num_error "ParseInt" s (range_or_syntax b))
  | inr n =>
    if neg then (if n <=? 2 ^ 63 then Ret (- n)
                 else Err (num_error "ParseInt" s "value out of range"))
    else (if n <? 2 ^ 63 then Ret n
          else Err (num_error "ParseInt" s "value out of range"))
  end.

End WithUnicode.

(** [new(big.Int).SetString(s, 10)]: an optional sign and decimal digits. *)
Definition SetString10 (s : string) : option Z :=
  match s with
  | String c t => if Ascii.eqb c "-"%char then Z.opp <$> decimal t
                  else if Ascii.eqb c "+"%char then decimal t else decimal s
  | EmptyString => None
  end.

(** [big.Int.String] and the [%d] verb. *)
Definition Itoa (z : Z) : string := pretty z.

(** The longest decimal prefix: its value, [None] when there is no digit. *)
Fixpoint digit_prefix (acc : option Z) (s : string) : option Z :=
  match s with
  | EmptyString => acc
  | String c s' => match digit c with
                   | Some d => digit_prefix (Some (default 0 acc * 10 + d)) s'
                   | None => acc
                   end
  end.
Fixpoint skip_blank (s : string) : string :=
  match s with
  | String c s' => if Ascii.eqb c " "%char || Ascii.eqb c "009"%char then skip_blank s' else s
  | EmptyString => s
  end.
(** [fmt.Sscanf(s, "%d", &x)] into a [uint64]: blanks, then the longest run of
    digits; what follows the digits is not read. *)
Definition SscanfUint64 (s : string) : go Z :=
  match digit_prefix None (skip_blank s) with
  | None => Err "expected integer"
  | Some n => if n <? 2 ^ 64 then Ret n else Err "integer overflow on token"
  end.

Lemma digit_bound c d : digit c = Some d -> 0 <= d < 10.
Proof. unfold digit. pose proof (Z_of_byte_range (byte_of_ascii c)). case_match; [|done]. intros [= <-]. lia. Qed.

Lemma digits_nonneg s acc n : 0 <= acc -> digits acc s = Some n -> 0 <= n.
Proof.
  revert acc; induction s as [|c s IH]; intros acc Hacc; cbn; [by intros [= <-]|].
  destruct (digit c) as [d|] eqn:Hd; cbn; [|done]. apply digit_bound in Hd.
  apply IH. lia.
Qed.

Lemma decimal_nonneg s n : decimal s = Some n -> 0 <= n.
Proof. destruct s; [done|]. apply digits_nonneg. lia. Qed.

Lemma parse_uint_range max s : forall acc n,
  0 <= acc <= max -> parse_uint max acc s = inr n -> 0 <= n <= max.
Proof.
  induction s as [|c s IH]; intros acc n Ha; cbn; [intros [= <-]; lia|].
  destruct (digit c) as [d|] eqn:Hd; [|done]. apply digit_bound in Hd.
  case_match; [done|]. apply IH. lia.
Qed.

Lemma parse_uint_digits max s : forall acc n,
  0 <= acc -> digits acc s = Some n -> n <= max -> parse_uint max acc s = inr n.
Proof.
  assert (Hmono : forall s acc n, 0 <= acc -> digits acc s = Some n -> acc <= n).
  { clear. induction s as [|c s IH]; intros acc n Ha; cbn; [intros [= <-]; lia|].
    destruct (digit c) as [d|] eqn:Hd; cbn; [|done]. apply digit_bound in Hd.
    intros H. apply IH in H; lia. }
  induction s as [|c s IH]; intros acc n Ha; cbn; [by intros [= <-]|].
  destruct (digit c) as [d|] eqn:Hd; cbn; [|done]. apply digit_bound in Hd.
  intros H Hn. assert (acc * 10 + d <= n) by (apply (Hmono s); [lia|exact H]).
  replace (max <? acc * 10 + d) with false by lia. apply IH; [lia|done|done].
Qed.

Lemma ParseUint_range `{Unicode} s bits n : 0 <= bits ->
  ParseUint s bits = Ret n -> 0 <= n < 2 ^ bits.
Proof.
  unfold ParseUint, parse_base10. intros Hb. assert (0 < 2 ^ bits) by (apply Z.pow_pos_nonneg; lia).
  destruct s; [done|]. destruct (parse_uint _ _ _) eqn:E; [done|]. intros [= <-].
  apply parse_uint_range in E; lia.
Qed.

Lemma ParseUint_decimal `{Unicode} s bits n : decimal s = Some n -> n < 2 ^ bits ->
  ParseUint s bits = Ret n.
Proof.
  unfold ParseUint, parse_base10, decimal. destruct s; [done|]. intros Hd Hn.
  erewrite parse_uint_digits; [done|lia|exact Hd|lia].
Qed.

(** *** Printing and reading back *)

Lemma digit_pretty_N_char x : (x < 10)%N -> digit (pretty_N_char x) = Some (Z.of_N x).
Proof.
  intros H. assert (Hin : x ∈ [0; 1; 2; 3; 4; 5; 6; 7; 8; 9]%N).
  { rewrite !elem_of_cons. lia. }
  rewrite !elem_of_cons in Hin. by repeat destruct Hin as [->|Hin]; [..|apply elem_of_nil in Hin].
Qed.

Lemma digits_pretty_N_go x : forall s, digits 0 (pretty_N_go x s) = digits (Z.of_N x) s.
Proof.
  induction x as [x IH] using (well_founded_induction N.lt_wf_0). intros s.
  destruct (decide (0 < x)%N) as [Hx|Hx].
  - rewrite pretty_N_go_step, IH by (done || apply N.div_lt; lia). cbn [digits].
    rewrite digit_pretty_N_char by (apply N.mod_lt; done). cbn [mbind option_bind].
    f_equal. rewrite N2Z.inj_div, N2Z.inj_mod by done.
    pose proof (Z.div_mod (Z.of_N x) 10 ltac:(lia)). cbn in *. lia.
  - assert (x = 0%N) as -> by lia. by rewrite pretty_N_go_0.
Qed.

Lemma pretty_N_nonempty (x : N) : pretty x <> "".
Proof.
  unfold pretty, pretty_N. case_decide; [done|]. intros E.
  apply (f_equal (digits 0)) in E. rewrite digits_pretty_N_go in E. cbn in E. injection E. lia.
Qed.

Lemma decimal_pretty_N (x : N) : decimal (pretty x) = Some (Z.of_N x).
Proof.
  assert (digits 0 (pretty x) = Some (Z.of_N x)) as <-.
  { unfold pretty, pretty_N. case_decide; [by subst|]. apply digits_pretty_N_go. }
  unfold decimal. destruct (pretty x) eqn:E; [|done]. by apply pretty_N_nonempty in E.
Qed.

Lemma Itoa_nonneg z : 0 <= z -> Itoa z = pretty (Z.to_N z).
Proof. destruct z; [done|done|lia]. Qed.

Lemma decimal_Itoa z : 0 <= z -> decimal (Itoa z) = Some z.
Proof. intros Hz. rewrite Itoa_nonneg, decimal_pretty_N by done. f_equal. lia. Qed.

(** The characters of a printed number. *)
Definition is_digit (c : ascii) : bool := match digit c with Some _ => true | None => false end.

Fixpoint forall_ascii (f : ascii -> bool) (s : string) : bool :=
  match s with EmptyString => true | String c s' => f c && forall_ascii f s' end.

Lemma digits_all_digits s : forall acc n, digits acc s = Some n -> forall_ascii is_digit s = true.
Proof.
  induction s as [|c s IH]; intros acc n; cbn; [done|]. unfold is_digit at 1.
  destruct (digit c); cbn; [apply IH|done].
Qed.

Lemma Itoa_digits z : 0 <= z -> forall_ascii is_digit (Itoa z) = true /\ Itoa z <> "".
Proof.
  intros Hz. pose proof (decimal_Itoa z Hz) as H. unfold decimal in H.
  destruct (Itoa z) eqn:E; [done|]. split; [|done]. by eapply digits_all_digits.
Qed.

Lemma forall_ascii_app f s t : forall_ascii f (s +:+ t) = forall_ascii f s && forall_ascii f t.
Proof.
  induction s as [|c s IH]; [done|].
  change (String c s +:+ t) with (String c (s +:+ t)). cbn. by rewrite IH, andb_assoc.
Qed.

Lemma digits_no_char c s : is_digit c = false -> forall_ascii is_digit s = true ->
  Strings.no_char c s = true.
Proof.
  intros Hc. unfold Strings.no_char, Strings.mem_ascii. induction s as [|d s IH]; cbn; [done|].
  intros [Hd Hs]%andb_true_iff. rewrite negb_orb, IH by done.
  destruct (Ascii.eqb_spec c d) as [->|]; [congruence|done].
Qed.

Lemma digits_no_suffix c s : is_digit c = false -> forall_ascii is_digit s = true ->
  Strings.HasSuffix s (String c "") = false.
Proof.
  intros Hc Hs. destruct (Strings.string_snoc s) as [->|(s' & d & ->)]; [done|].
  rewrite Strings.HasSuffix_snoc. rewrite forall_ascii_app in Hs. cbn in Hs.
  destruct (Ascii.eqb_spec c d) as [->|]; [|done]. rewrite Hc in Hs.
  by rewrite andb_false_r in Hs.
Qed.

End Strconv.

(** ** math/big.Int.Bytes *)
Module Big.

Fixpoint strip_zeros (l : bytes) : bytes :=
  match l with
  | b :: l' => if Z_of_byte b =? 0 then strip_zeros l' else l
  | [] => []
  end.

(** The minimal big-endian bytes of a non-negative integer. *)
Definition Bytes (z : Z) : bytes :=
  strip_zeros (Binary.be_bytes (Z.to_nat (Z.log2 (Z.abs z) / 8 + 1)) (Z.abs z)).

(** [copy(dst[off+w-len(b):], b)] into a zeroed field of [w] bytes: the number
    right-aligned; the slice expression panics when [b] is longer than the
    bytes that precede the end of the field. *)
Definition pad_left (w : nat) (b : bytes) : bytes := repeat x00 (w - length b) ++ b.

Lemma be_Z_repeat0 n acc l : acc = 0 -> Binary.be_Z_acc acc (repeat x00 n ++ l) = Binary.be_Z_acc 0 l.
Proof. intros ->. induction n as [|n IH]; cbn; [done|]. exact IH. Qed.

Lemma be_Z_pad_left w b : Binary.be_Z (pad_left w b) = Binary.be_Z b.
Proof. by apply be_Z_repeat0. Qed.

Lemma be_Z_strip_zeros l : Binary.be_Z (strip_zeros l) = Binary.be_Z l.
Proof.
  unfold Binary.be_Z. induction l as [|b l IH]; cbn [strip_zeros]; [done|].
  destruct (Z_of_byte b =? 0) eqn:E; [|done]. apply Z.eqb_eq in E.
  rewrite IH. cbn [Binary.be_Z_acc]. by rewrite E.
Qed.

Lemma be_Z_Bytes z : 0 <= z -> Binary.be_Z (Bytes z) = z.
Proof.
  intros Hz. unfold Bytes. rewrite be_Z_strip_zeros, Binary.be_Z_be_bytes, Z.abs_eq by done.
  pose proof (Z.log2_nonneg z). pose proof (Z.div_pos (Z.log2 z) 8 ltac:(lia) ltac:(lia)).
  apply Z.mod_small. split; [done|]. rewrite Z2Nat.id by lia.
  destruct (Z.eq_dec z 0) as [->|Hn]; [apply Z.pow_pos_nonneg; lia|].
  pose proof (Z.log2_spec z ltac:(lia)) as [_ Hlt].
  eapply Z.lt_le_trans; [exact Hlt|]. change 256 with (2 ^ 8). rewrite <- Z.pow_mul_r by lia.
  apply Z.pow_le_mono_r; [lia|].
  pose proof (Z.div_mod (Z.log2 z) 8 ltac:(lia)). pose proof (Z.mod_pos_bound (Z.log2 z) 8 ltac:(lia)). lia.
Qed.

Lemma length_strip_zeros_le l k :
  Binary.be_Z l < 256 ^ Z.of_nat k -> (length (strip_zeros l) <= k)%nat.
Proof.
  rewrite <- be_Z_strip_zeros. intros Hlt.
  destruct (strip_zeros l) as [|b l'] eqn:E; cbn [length]; [lia|].
  assert (Z_of_byte b <> 0) as Hb.
  { clear Hlt. revert E; induction l as [|c l IH]; cbn; [done|].
    destruct (Z_of_byte c =? 0) eqn:Ec; [apply IH|]. intros [= <- <-]. lia. }
  destruct (decide (length l' < k)%nat) as [?|Hk]; [lia|]. exfalso.
  pose proof (Z_of_byte_range b).
  assert (forall acc m, acc * 256 ^ zlen m <= Binary.be_Z_acc acc m) as Hacc.
  { intros acc m. revert acc. unfold zlen. induction m as [|c m IH]; intros acc; cbn [length Binary.be_Z_acc]; [lia|].
    pose proof (Z_of_byte_range c). specialize (IH (acc * 256 + Z_of_byte c)).
    rewrite Nat2Z.inj_succ, Z.pow_succ_r by lia. nia. }
  specialize (Hacc (Z_of_byte b) l'). unfold Binary.be_Z in Hlt. cbn [Binary.be_Z_acc] in Hlt.
  replace (0 * 256 + Z_of_byte b) with (Z_of_byte b) in Hlt by lia.
  assert (256 ^ Z.of_nat k <= 256 ^ zlen l') by (apply Z.pow_le_mono_r; unfold zlen; lia).
  nia.
Qed.

Lemma length_Bytes_le z k : 0 <= z < 256 ^ Z.of_nat k -> (length (Bytes z) <= k)%nat.
Proof.
  intros [Hz Hlt]. apply length_strip_zeros_le. rewrite <- be_Z_strip_zeros.
  change (strip_zeros _) with (Bytes z). by rewrite be_Z_Bytes.
Qed.

Lemma length_pad_left w b : (length b <= w)%nat -> length (pad_left w b) = w.
Proof. intros. unfold pad_left. rewrite length_app, repeat_length. lia. Qed.

(** Padding the minimal bytes to [w] is the [w]-byte big-endian encoding. *)
Lemma pad_left_Bytes w z :
  0 <= z < 256 ^ Z.of_nat w -> pad_left w (Bytes z) = Binary.be_bytes w z.
Proof.
  intros Hz. pose proof (length_Bytes_le z w Hz) as Hl.
  rewrite <- (Binary.be_bytes_be_Z (pad_left w (Bytes z))).
  rewrite length_pad_left, be_Z_pad_left, be_Z_Bytes by lia. done.
Qed.

End Big.

(** ** Slices *)
Module Slice.

(** [l[lo:hi]] of a slice whose capacity is its length. *)
Definition sub {A} (l : list A) (lo hi : Z) : go (list A) :=
  if (0 <=? lo) && (lo <=? hi) && (hi <=? zlen l)
  then Ret (take (Z.to_nat (hi - lo)) (drop (Z.to_nat lo) l)) else Panic.

(** [l[i]]. *)
Definition index {A} (l : list A) (i : Z) : go A :=
  if 0 <=? i then match l !! Z.to_nat i with Some x => Ret x | None => Panic end else Panic.

(** [copy(dst[lo:hi], src)]. *)
Definition copy_at (dst : bytes) (lo hi : Z) (src : bytes) : go bytes :=
  if (0 <=? lo) && (lo <=? hi) && (hi <=? zlen dst) then
    let n := Nat.min (Z.to_nat (hi - lo)) (length src) in
    Ret (take (Z.to_nat lo) dst ++ take n src ++ drop (Z.to_nat lo + n) dst)
  else Panic.

(** [copy(dst[w-len(src):w], src)] into the zeroed field that ends at [w]: the
    idiom by which the code left-pads big-endian integers. *)
Lemma copy_at_right dst w src :
  0 <= w <= zlen dst -> zlen src <= w ->
  copy_at dst (w - zlen src) w src
  = Ret (take (Z.to_nat w - length src) dst ++ src ++ drop (Z.to_nat w) dst).
Proof.
  unfold copy_at, zlen. intros Hw Hs.
  replace (_ && _ && _) with true by (symmetry; lia).
  replace (w - (w - Z.of_nat (length src))) with (Z.of_nat (length src)) by lia.
  rewrite Nat2Z.id, Nat.min_id, firstn_all.
  replace (Z.to_nat (w - Z.of_nat (length src))) with (Z.to_nat w - length src)%nat by lia.
  do 3 f_equal. f_equal. lia.
Qed.

(** Copying the big-endian bytes of [z] to the right end of a zeroed [k]-byte
    field gives its fixed-width encoding. *)
Lemma copy_Bytes pre post k z :
  0 <= z < 256 ^ Z.of_nat k ->
  copy_at (pre ++ repeat x00 k ++ post) (zlen pre + Z.of_nat k - zlen (Big.Bytes z)) (zlen pre + Z.of_nat k) (Big.Bytes z)
  = Ret (pre ++ Binary.be_bytes k z ++ post).
Proof.
  intros Hz. pose proof (Big.length_Bytes_le z k Hz) as Hl.
  assert (Hr : length (repeat x00 k) = k) by apply List.repeat_length.
  rewrite copy_at_right by (unfold zlen; rewrite ?length_app, ?Hr; lia).
  f_equal. rewrite <- Big.pad_left_Bytes by done. unfold Big.pad_left, zlen.
  replace (Z.to_nat (Z.of_nat (length pre) + Z.of_nat k)) with (length pre + k)%nat by lia.
  replace (length pre + k - length (Big.Bytes z))%nat
    with (length pre + (k - length (Big.Bytes z)))%nat by lia.
  rewrite take_app_add, drop_app_add, <- !app_assoc. f_equal.
  rewrite drop_app_ge, Hr, Nat.sub_diag by lia. cbn [drop].
  rewrite take_app_le by lia. f_equal.
  replace k with ((k - length (Big.Bytes z)) + length (Big.Bytes z))%nat at 2 by lia.
  rewrite repeat_app, take_app_length'; [done|]. by rewrite List.repeat_length.
Qed.

Lemma copy_Bytes_field k z : 0 <= z < 256 ^ Z.of_nat k ->
  copy_at (repeat x00 k) (Z.of_nat k - zlen (Big.Bytes z)) (Z.of_nat k) (Big.Bytes z)
  = Ret (Binary.be_bytes k z).
Proof. intros Hz. pose proof (copy_Bytes [] [] k z Hz) as H. by rewrite !app_nil_r in H. Qed.

Lemma sub_app {A} (a b c : list A) lo hi : lo = zlen a -> hi = zlen a + zlen b ->
  sub (a ++ b ++ c) lo hi = Ret b.
Proof.
  intros -> ->. unfold sub, zlen. rewrite !length_app.
  replace (_ && _ && _) with true by (symmetry; lia).
  rewrite Nat2Z.id, drop_app_length. do 2 f_equal.
  replace (Z.to_nat _) with (length b) by lia. apply take_app_length.
Qed.

Lemma sub_length {A} (l : list A) lo hi r : sub l lo hi = Ret r -> zlen r = hi - lo.
Proof.
  unfold sub, zlen. case_match eqn:E; [|done]. intros [= <-].
  rewrite length_take, length_drop. lia.
Qed.

End Slice.

(** ** Paths and addresses *)
Module Filepath.

(** The components of a cleaned path: empty and dot components are dropped,
    and a double dot removes the component before it; above the root it is dropped,
    and at the start of a relative path it stays. [acc] is in reverse. *)
Fixpoint resolve (rooted : bool) (acc parts : list string) : list string :=
  match parts with
  | [] => rev acc
  | p :: parts =>
    if bool_decide (p = "") || bool_decide (p = ".") then resolve rooted acc parts
    else if bool_decide (p = "..") then
      match acc with
      | [] => resolve rooted (if rooted then [] else [p]) parts
      | q :: acc' => if bool_decide (q = "..") then resolve rooted (p :: acc) parts else resolve rooted acc' parts
      end
    else resolve rooted (p :: acc) parts
  end.
Definition Clean (path : string) : string :=
  let rooted := Strings.HasPrefix path "/" in
  let p := Strings.Join (resolve rooted [] (Strings.Split path "/")) "/" in
  if rooted then "/" +:+ p else if bool_decide (p = "") then "." else p.
(** [filepath.Join] of two elements, empty ones left out. *)
Definition Join (a b : string) : string :=
  if bool_decide (a = "") then (if bool_decide (b = "") then "" else Clean b)
  else if bool_decide (b = "") then Clean a else Clean (a +:+ "/" +:+ b).
(** [filepath.Dir]: what precedes the last slash, cleaned. *)
Definition Dir (path : string) : string :=
  match rev (Strings.Split path "/") with
  | [] | [_] => "."
  | _ :: l => Clean (Strings.Join (rev l) "/" +:+ "/")
  end.

End Filepath.

Module Net.

(** [net.JoinHostPort]: a host with a colon or a percent sign is bracketed. *)
Definition JoinHostPort (host port : string) : string :=
  if Strings.Contains host ":" || Strings.Contains host "%" then "[" +:+ host +:+ "]:" +:+ port else host +:+ ":" +:+ port.
(** [net.SplitHostPort]. *)
Definition SplitHostPort (hostport : string) : go (string * string) :=
  let err why := Err ("address " +:+ hostport +:+ ": " +:+ why) in
  let bracket s := Strings.Contains s "[" || Strings.Contains s "]" in
  match Strings.strip_prefix "[" hostport with
  | Some s =>
    match Strings.cut s "]" with
    | None => err "missing ']' in address"
    | Some (host, rest) =>
      match Strings.strip_prefix ":" rest with
      | None => err "missing port in address"
      | Some port => if Strings.Contains port ":" then err "too many colons in address"
                     else if Strings.Contains host "[" || bracket port then err "unexpected bracket in address"
                     else Ret (host, port)
      end
    end
  | None =>
    match Strings.cut hostport ":" with
    | None => err "missing port in address"
    | Some (host, port) => if Strings.Contains port ":" then err "too many colons in address"
                           else if bracket hostport then err "unexpected bracket in address"
                           else Ret (host, port)
    end
  end.

End Net.

(** ** Maps *)

(** The order in which [for k, v := range m] visits [m]. *)
Class MapOrder := range : forall {V : Type}, gmap string V -> list (string * V).
Class MapOrderLaws `{MapOrder} : Prop :=
  range_perm : forall (V : Type) (m : gmap string V), Permutation (range m) (map_to_list m).
