(* ===== verification/Codec.v ===== *)
(** * Codec: hexadecimal and base64

    Go's [encoding/hex] and [encoding/base64] as the program uses them, and
    the program's own hexadecimal decoders: [hexDecode]/[hexVal]
    (internal/partya/api.go), [hexDecodeBytes]/[hexDigit]
    (internal/vm/solana/anchor.go), [hexToBytes]
    (internal/partyb/analyzer/abi.go). *)
From S2P Require Import Prelude GoStd.
Local Open Scope Z_scope.

(** ** Hexadecimal *)
Module Hex.

Definition hex_char (n : Z) : byte := byte_of_Z (if n <? 10 then 0x30 + n else 0x57 + n).

(** [hex.EncodeToString] and the [%x] verb on bytes. *)
Definition encode (l : bytes) : bytes :=
  flat_map (fun b => [hex_char (Z_of_byte b / 16); hex_char (Z_of_byte b mod 16)]) l.
Definition EncodeToString (l : bytes) : string := string_of (encode l).

(** The value of a hexadecimal digit, [0xFF] for any other byte. *)
Definition hexVal (c : byte) : Z :=
  let x := Z_of_byte c in
  if (0x30 <=? x) && (x <=? 0x39) then x - 0x30
  else if (0x61 <=? x) && (x <=? 0x66) then x - 0x61 + 10
  else if (0x41 <=? x) && (x <=? 0x46) then x - 0x41 + 10
  else 0xFF.

(** The anchor builder's copy of [hexVal]. *)
Definition hexDigit (c : byte) : Z :=
  let x := Z_of_byte c in
  if (0x30 <=? x) && (x <=? 0x39) then x - 0x30
  else if (0x61 <=? x) && (x <=? 0x66) then x - 0x61 + 10
  else if (0x41 <=? x) && (x <=? 0x46) then x - 0x41 + 10
  else 0xFF.

Definition is_hex (c : byte) : bool := negb (hexVal c =? 0xFF).

(** [hexDecode]: the loop reads [s[i]] and [s[i+1]], so a string of odd length
    whose pairs are valid indexes past its end. *)
Fixpoint hexDecode_bytes (l : bytes) : go bytes :=
  match l with
  | [] => Ret []
  | [_] => Panic
  | c0 :: c1 :: l' =>
    let high := hexVal c0 in
    let low := hexVal c1 in
    if (high =? 0xFF) || (low =? 0xFF) then Err "json: Unmarshal(nil)"
    else rest ← hexDecode_bytes l';
         Ret (byte_of_Z (Z.lor (Z.shiftl high 4) low) :: rest)
  end.
Definition hexDecode (s : string) : go bytes := hexDecode_bytes (bytes_of s).

(** [hexDecodeBytes]: strips "0x", prepends "0" to an odd string, and reports
    the position of the first bad pair. *)
Fixpoint hexDecodeBytes_loop (i : Z) (l : bytes) : go bytes :=
  match l with
  | [] => Ret []
  | [_] => Panic
  | c0 :: c1 :: l' =>
    let high := hexDigit c0 in
    let low := hexDigit c1 in
    if (high =? 0xFF) || (low =? 0xFF)
    then Err ("invalid hex byte at position " +:+ Strconv.Itoa i)
    else rest ← hexDecodeBytes_loop (i + 2) l';
         Ret (byte_of_Z (Z.lor (Z.shiftl high 4) low) :: rest)
  end.
Definition hexDecodeBytes (s : string) : go bytes :=
  let s := if Strings.HasPrefix s "0x" then Strings.TrimPrefix s "0x" else s in
  let s := if negb (slen s mod 2 =? 0) then "0" +:+ s else s in
  hexDecodeBytes_loop 0 (bytes_of s).

(** [hex.DecodeString]: the error names the first bad byte, or the odd
    length when every complete pair is valid. *)
Section WithUnicode.
Context `{Unicode}.

Definition invalid_byte (c : byte) : string :=
  let r := Z_of_byte c in
  "encoding/hex: invalid byte: U+00"
    +:+ String (Strconv.hex_digit_upper (r / 16)) (String (Strconv.hex_digit_upper (r mod 16)) "")
    +:+ (if ((0x20 <=? r) && (r <? 0x7F)) || ((0x80 <=? r) && unicode_is_print r)
         then " '" +:+ string_of (Utf8.encode_rune r) +:+ "'" else "").

Fixpoint decode (l : bytes) : go bytes :=
  match l with
  | [] => Ret []
  | [c] => if is_hex c then Err "encoding/hex: odd length hex string" else Err (invalid_byte c)
  | c0 :: c1 :: l' =>
    if negb (is_hex c0) then Err (invalid_byte c0)
    else if negb (is_hex c1) then Err (invalid_byte c1)
    else rest ← decode l'; Ret (byte_of_Z (Z.lor (Z.shiftl (hexVal c0) 4) (hexVal c1)) :: rest)
  end.
Definition DecodeString (s : string) : go bytes := decode (bytes_of s).

(** [hexToBytes] of the ABI resolver: both prefixes are stripped in turn. *)
Definition hexToBytes (s : string) : go bytes :=
  let s := Strings.TrimPrefix s "0x" in
  let s := Strings.TrimPrefix s "0X" in
  DecodeString s.

End WithUnicode.

Lemma hexVal_hex_char n : 0 <= n < 16 -> hexVal (hex_char n) = n.
Proof.
  intros Hn. assert (n ∈ seqZ 0 16) as Hin by (apply elem_of_seqZ; lia).
  revert n Hin Hn. change (seqZ 0 16) with [0;1;2;3;4;5;6;7;8;9;10;11;12;13;14;15].
  intros n Hin _. repeat (apply elem_of_cons in Hin as [->|Hin]; [reflexivity|]).
  by apply elem_of_nil in Hin.
Qed.

Lemma hex_pair b :
  byte_of_Z (Z.lor (Z.shiftl (Z_of_byte b / 16) 4) (Z_of_byte b mod 16)) = b.
Proof. by destruct b. Qed.

Lemma nibbles b : 0 <= Z_of_byte b / 16 < 16 /\ 0 <= Z_of_byte b mod 16 < 16.
Proof.
  pose proof (Z_of_byte_range b). split; [|apply Z.mod_pos_bound; lia].
  split; [apply Z.div_pos; lia|apply Z.div_lt_upper_bound; lia].
Qed.

Lemma hexDecode_bytes_cons c0 c1 l :
  hexVal c0 <> 0xFF -> hexVal c1 <> 0xFF ->
  hexDecode_bytes (c0 :: c1 :: l) =
  rest ← hexDecode_bytes l;
  Ret (byte_of_Z (Z.lor (Z.shiftl (hexVal c0) 4) (hexVal c1)) :: rest).
Proof. intros H0 H1. cbn [hexDecode_bytes]. apply Z.eqb_neq in H0, H1. by rewrite H0, H1. Qed.

Lemma hexDecode_encode l : hexDecode_bytes (encode l) = Ret l.
Proof.
  induction l as [|b l IH]; [done|]. cbn [encode flat_map app].
  destruct (nibbles b) as [H1 H2].
  rewrite hexDecode_bytes_cons by (rewrite hexVal_hex_char by done; lia).
  fold (encode l). rewrite IH; cbn. by rewrite !hexVal_hex_char, hex_pair by done.
Qed.

Lemma is_hex_encode l : forallb is_hex (encode l) = true.
Proof.
  induction l as [|b l IH]; [done|]. cbn [encode flat_map app forallb]. fold (encode l).
  destruct (nibbles b) as [H1 H2]. unfold is_hex at 1 2. rewrite !hexVal_hex_char, IH by done.
  assert (Z_of_byte b / 16 =? 0xFF = false) as -> by lia.
  by assert (Z_of_byte b mod 16 =? 0xFF = false) as -> by lia.
Qed.

(** The outcome of [hexDecode] on a string of hexadecimal digits depends on
    the parity of its length alone. *)
Lemma hexDecode_hex_digits_even_odd n l :
  (length l <= n)%nat -> forallb is_hex l = true ->
  (exists b, hexDecode_bytes l = Ret b /\ length l = (2 * length b)%nat) \/
  (Nat.Odd (length l) /\ hexDecode_bytes l = Panic).
Proof.
  revert l; induction n as [|n IH]; intros [|c0 [|c1 l]] Hn; cbn [length] in *; try lia.
  - left; by exists [].
  - left; by exists [].
  - intros _. right. split; [by exists 0%nat|done].
  - cbn [forallb]. intros (H0 & (H1 & Hl)%andb_prop)%andb_prop.
    apply negb_true_iff, Z.eqb_neq in H0, H1. rewrite hexDecode_bytes_cons by done.
    destruct (IH l ltac:(lia) Hl) as [(b & -> & Hb)|[Ho ->]]; cbn.
    + left. eexists. split; [done|]. cbn [length]. lia.
    + right. split; [|done]. destruct Ho as [k Hk]. exists (S k). lia.
Qed.

Lemma hexDecodeBytes_loop_even i l k :
  length l = (2 * k)%nat -> hexDecodeBytes_loop i l <> Panic.
Proof.
  revert i l; induction k as [|k IH]; intros i [|c0 [|c1 l]] Hl; cbn [length] in *; try lia; [done|].
  cbn [hexDecodeBytes_loop]. case_match; [done|].
  specialize (IH (i + 2) l ltac:(lia)). by destruct (hexDecodeBytes_loop (i + 2) l).
Qed.

End Hex.

(** ** [base64.StdEncoding] *)
Module Base64.

Definition pad : byte := x3d.  (* '=' *)
Definition is_newline (c : byte) : bool := (Z_of_byte c =? 10) || (Z_of_byte c =? 13).

Definition sextet_char (n : Z) : byte :=
  byte_of_Z (if n <? 26 then 0x41 + n else if n <? 52 then 0x61 + (n - 26)
             else if n <? 62 then 0x30 + (n - 52) else if n =? 62 then 0x2B else 0x2F).
Definition sextet (c : byte) : option Z :=
  let x := Z_of_byte c in
  if (0x41 <=? x) && (x <=? 0x5A) then Some (x - 0x41)
  else if (0x61 <=? x) && (x <=? 0x7A) then Some (x - 0x61 + 26)
  else if (0x30 <=? x) && (x <=? 0x39) then Some (x - 0x30 + 52)
  else if x =? 0x2B then Some 62 else if x =? 0x2F then Some 63 else None.

Fixpoint encode (l : bytes) : bytes :=
  match l with
  | [] => []
  | [a] => let v := Z_of_byte a * 65536 in
           [sextet_char (v / 262144); sextet_char (v / 4096 mod 64); pad; pad]
  | [a; b] => let v := Z_of_byte a * 65536 + Z_of_byte b * 256 in
              [sextet_char (v / 262144); sextet_char (v / 4096 mod 64);
               sextet_char (v / 64 mod 64); pad]
  | a :: b :: c :: l' =>
    let v := Z_of_byte a * 65536 + Z_of_byte b * 256 + Z_of_byte c in
    sextet_char (v / 262144) :: sextet_char (v / 4096 mod 64)
      :: sextet_char (v / 64 mod 64) :: sextet_char (v mod 64) :: encode l'
  end.
Definition EncodeToString (l : bytes) : string := string_of (encode l).

Definition corrupt (i : Z) : string :=
  "illegal base64 data at input byte " +:+ Strconv.Itoa i.

Fixpoint skip_newlines (i : Z) (l : bytes) : Z * bytes :=
  match l with
  | c :: l' => if is_newline c then skip_newlines (i + 1) l' else (i, l)
  | [] => (i, l)
  end.

(** The bytes of a quantum of two, three or four sextets. *)
Definition quantum (q : list Z) : bytes :=
  match q with
  | [a; b] => [byte_of_Z ((a * 262144 + b * 4096) / 65536)]
  | [a; b; c] => let v := a * 262144 + b * 4096 + c * 64 in
                 [byte_of_Z (v / 65536); byte_of_Z (v / 256 mod 256)]
  | [a; b; c; d] => let v := a * 262144 + b * 4096 + c * 64 + d in
                    [byte_of_Z (v / 65536); byte_of_Z (v / 256 mod 256); byte_of_Z (v mod 256)]
  | _ => []
  end.

(** [DecodeString] as one pass: [i] is the input offset, [q] the sextets of
    the current quantum. It returns the bytes decoded so far even when it
    fails; a newline is skipped, and after padding only newlines may follow. *)
Fixpoint decode_from (n : Z) (i : Z) (q : list Z) (l : bytes) : bytes * option string :=
  match l with
  | [] => match q with [] => ([], None) | _ => ([], Some (corrupt (i - zlen q))) end
  | c :: l' =>
    match sextet c with
    | Some v =>
      if (zlen q =? 3) then
        let '(r, e) := decode_from n (i + 1) [] l' in (quantum (q ++ [v]) ++ r, e)
      else decode_from n (i + 1) (q ++ [v]) l'
    | None =>
      if is_newline c then decode_from n (i + 1) q l'
      else if negb (Z_of_byte c =? Z_of_byte pad) then ([], Some (corrupt i))
      else if zlen q <? 2 then ([], Some (corrupt i))
      else
        let finish i2 l2 :=
          let '(i3, l3) := skip_newlines i2 l2 in
          match l3 with [] => (quantum q, None) | _ => (quantum q, Some (corrupt i3)) end in
        if zlen q =? 2 then
          let '(i1, l1) := skip_newlines (i + 1) l' in
          match l1 with
          | [] => ([], Some (corrupt n))
          | c1 :: l2 => if Z_of_byte c1 =? Z_of_byte pad then finish (i1 + 1) l2
                        else ([], Some (corrupt (i1 - 1)))
          end
        else finish (i + 1) l'
    end
  end.

(** The pair [(bytes, err)] of [DecodeString]. *)
Definition DecodeString2 (s : string) : bytes * option string :=
  let l := bytes_of s in decode_from (zlen l) 0 [] l.
(** The usual reading, where the caller discards the bytes on an error. *)
Definition DecodeString (s : string) : go bytes :=
  match DecodeString2 s with (b, None) => Ret b | (_, Some e) => Err e end.

Lemma sextet_sextet_char n : 0 <= n < 64 -> sextet (sextet_char n) = Some n.
Proof.
  intros Hn. assert (forallb (fun m => bool_decide (sextet (sextet_char m) = Some m)) (seqZ 0 64) = true)
    as Hall by (vm_compute; reflexivity).
  rewrite forallb_forall in Hall. specialize (Hall n).
  rewrite bool_decide_eq_true in Hall. apply Hall, list_elem_of_In, elem_of_seqZ. lia.
Qed.

Ltac byte_bounds :=
  repeat match goal with
  | b : byte |- _ => lazymatch goal with
                     | _ : 0 <= Z_of_byte b < 256 |- _ => fail
                     | _ => pose proof (Z_of_byte_range b)
                     end
  end.
Ltac div_lia := byte_bounds; Z.to_euclidean_division_equations; lia.

Lemma quantum4 v : 0 <= v < 16777216 ->
  quantum [v / 262144; v / 4096 mod 64; v / 64 mod 64; v mod 64]
  = [byte_of_Z (v / 65536); byte_of_Z (v / 256 mod 256); byte_of_Z (v mod 256)].
Proof.
  intros Hv. unfold quantum.
  by replace (v / 262144 * 262144 + v / 4096 mod 64 * 4096 + v / 64 mod 64 * 64 + v mod 64) with v
    by div_lia.
Qed.

Lemma byte_of_Z_eq z b : z mod 256 = Z_of_byte b -> byte_of_Z z = b.
Proof. intros H. by rewrite <- byte_of_Z_mod, H, byte_of_Z_of_byte. Qed.

Lemma decode_sextet n i q v l : 0 <= v < 64 -> zlen q <> 3 ->
  decode_from n i q (sextet_char v :: l) = decode_from n (i + 1) (q ++ [v]) l.
Proof.
  intros Hv Hq. cbn [decode_from]. rewrite sextet_sextet_char by done.
  by apply Z.eqb_neq in Hq as ->.
Qed.
Lemma decode_sextet4 n i a b c v l : 0 <= v < 64 ->
  decode_from n i [a; b; c] (sextet_char v :: l)
  = let '(r, e) := decode_from n (i + 1) [] l in (quantum [a; b; c; v] ++ r, e).
Proof. intros Hv. cbn [decode_from]. by rewrite sextet_sextet_char. Qed.
Lemma decode_pad2 n i a b : decode_from n i [a; b] [pad; pad] = (quantum [a; b], None).
Proof. reflexivity. Qed.
Lemma decode_pad1 n i a b c : decode_from n i [a; b; c] [pad] = (quantum [a; b; c], None).
Proof. reflexivity. Qed.

Lemma decode_encode n i l : decode_from n i [] (encode l) = (l, None).
Proof.
  assert (forall k m, (length m <= k)%nat -> forall j, decode_from n j [] (encode m) = (m, None)) as H;
    [|eapply H; reflexivity].
  induction k as [|k IH]; intros [|a [|b [|c m]]] Hk j; cbn [length] in *; try lia; try done;
    cbn [encode]; cbv zeta.
  - rewrite !decode_sextet by (first [div_lia | unfold zlen; cbn; lia]). cbn [app].
    rewrite decode_pad2. unfold quantum. do 2 f_equal. apply byte_of_Z_eq; div_lia.
  - rewrite !decode_sextet by (first [div_lia | unfold zlen; cbn; lia]). cbn [app].
    rewrite decode_pad1. unfold quantum. repeat f_equal; apply byte_of_Z_eq; div_lia.
  - rewrite 3!decode_sextet by (first [div_lia | unfold zlen; cbn; lia]). cbn [app].
    rewrite decode_sextet4 by div_lia. rewrite IH by lia. rewrite quantum4 by div_lia.
    cbn [app]. repeat f_equal; apply byte_of_Z_eq; div_lia.
Qed.

Lemma DecodeString_EncodeToString l : DecodeString (EncodeToString l) = Ret l.
Proof.
  unfold DecodeString, DecodeString2, EncodeToString. rewrite bytes_of_string_of.
  by rewrite decode_encode.
Qed.

End Base64.
#[export] Hint Rewrite Base64.DecodeString_EncodeToString : go.

(** ** JSON codecs

    [json.Marshal] and [json.Unmarshal] of one type. The structs of third-party
    libraries have marshallers of their own, so a codec is an argument; the
    development uses of it that it round-trips the values it represents exactly:
    for the program's own structs those whose strings are valid UTF-8. *)
Class Codec (A : Type) := {
  Marshal : A -> go bytes;
  Unmarshal : bytes -> go A;
  representable : A -> Prop;
}.
Class CodecLaws (A : Type) `{Codec A} := {
  Marshal_total (a : A) : representable a -> exists b, Marshal a = Ret b;
  Unmarshal_Marshal (a : A) b : representable a -> Marshal a = Ret b -> Unmarshal b = Ret a;
}.

(** A codec for any countable type, to instantiate the laws: the bits of the
    type's enumeration. *)
Module CountableCodec.
Fixpoint pos_bytes (p : positive) : bytes :=
  match p with xH => [] | xO p => x00 :: pos_bytes p | xI p => x01 :: pos_bytes p end.
Fixpoint bytes_pos (l : bytes) : positive :=
  match l with [] => xH | x00 :: l => xO (bytes_pos l) | _ :: l => xI (bytes_pos l) end.
Lemma bytes_pos_bytes p : bytes_pos (pos_bytes p) = p.
Proof. induction p; cbn; congruence. Qed.

Definition codec (A : Type) `{Countable A} : Codec A := {|
  Marshal := fun a => Ret (pos_bytes (encode a));
  Unmarshal := fun b => from_option_err "invalid character" (decode (bytes_pos b));
  representable := fun _ => True |}.

Lemma codec_laws A `{Countable A} : @CodecLaws A (codec A).
Proof.
  split; cbn; [by eexists|]. intros a b _ [= <-]. by rewrite bytes_pos_bytes, decode_encode.
Qed.
End CountableCodec.
