(* ===== verification/Crypto.v ===== *)
(** * Crypto: the hash functions of Go's crypto packages

    [Sha256.Sum256] (crypto/sha256), [Sha512.Sum512] (crypto/sha512) and
    [Hmac.Sum512], the [hmac.New(sha512.New, key)] of crypto/hmac, written out so
    that derivations can be evaluated. Both hashes are one Merkle-Damgard
    construction [Sha2] over a word size, rotation amounts and constants. *)
From S2P Require Import Prelude GoStd Codec.
Local Open Scope Z_scope.

Module Sha2.

(** The parameters that distinguish SHA-256 from SHA-512: word width in bits,
    the rotations of the two message-schedule and two round functions (the
    third amount of a schedule function is a shift), constants, initial state. *)
Record variant := {
  width : Z;
  s0_rot : Z * Z * Z; s1_rot : Z * Z * Z;
  S0_rot : Z * Z * Z; S1_rot : Z * Z * Z;
  K : list Z;
  H0 : list Z;
}.

Section Compression.
Context (v : variant).
Definition wrap (x : Z) : Z := x mod 2 ^ width v.
Definition rotr (k x : Z) : Z :=
  Z.lor (Z.shiftr x k) (wrap (Z.shiftl x (width v - k))).
Definition lnot (x : Z) : Z := 2 ^ width v - 1 - x.
Definition sig (r : Z * Z * Z) (x : Z) : Z :=
  let '(a, b, c) := r in Z.lxor (Z.lxor (rotr a x) (rotr b x)) (Z.shiftr x c).
Definition Sig (r : Z * Z * Z) (x : Z) : Z :=
  let '(a, b, c) := r in Z.lxor (Z.lxor (rotr a x) (rotr b x)) (rotr c x).
Definition ch (x y z : Z) : Z := Z.lxor (Z.land x y) (Z.land (lnot x) z).
Definition maj (x y z : Z) : Z := Z.lxor (Z.lxor (Z.land x y) (Z.land x z)) (Z.land y z).

(** The message schedule, most recent word first. *)
Fixpoint schedule (n : nat) (w : list Z) : list Z :=
  match n with
  | O => w
  | S n' =>
    let at_ i := nth i w 0 in
    schedule n' (wrap (sig (s1_rot v) (at_ 1%nat) + at_ 6%nat + sig (s0_rot v) (at_ 14%nat) + at_ 15%nat) :: w)
  end.

Definition round (s : list Z) (kw : Z * Z) : list Z :=
  match s with
  | [a; b; c; d; e; f; g; h] =>
    let t1 := h + Sig (S1_rot v) e + ch e f g + kw.1 + kw.2 in
    let t2 := Sig (S0_rot v) a + maj a b c in
    [wrap (t1 + t2); a; b; c; wrap (d + t1); e; f; g]
  | _ => s
  end.

Fixpoint words (fuel : nat) (l : bytes) : list Z :=
  match fuel, l with
  | S fuel', _ :: _ =>
    let n := Z.to_nat (width v / 8) in Binary.be_Z (take n l) :: words fuel' (drop n l)
  | _, _ => []
  end.

Definition compress (s : list Z) (block : bytes) : list Z :=
  let w := rev (schedule (length (K v) - 16) (rev (words 16 block))) in
  zip_with (fun x y => wrap (x + y)) s (fold_left round (combine (K v) w) s).

Definition block_size : nat := Z.to_nat (2 * width v).
Definition padding (n : nat) : bytes :=
  let len_bytes := Z.to_nat (width v / 4) in
  let zeros := Z.to_nat ((- (Z.of_nat n + 1 + Z.of_nat len_bytes)) mod Z.of_nat block_size) in
  x80 :: repeat x00 zeros ++ Binary.be_bytes len_bytes (8 * Z.of_nat n).

Fixpoint blocks (fuel : nat) (s : list Z) (l : bytes) : list Z :=
  match fuel, l with
  | S fuel', _ :: _ => blocks fuel' (compress s (take block_size l)) (drop block_size l)
  | _, _ => s
  end.

Definition sum (l : bytes) : bytes :=
  let m := l ++ padding (length l) in
  flat_map (Binary.be_bytes (Z.to_nat (width v / 8))) (blocks (length m) (H0 v) m).
End Compression.

Definition sha256 : variant := {|
  width := 32;
  s0_rot := (7, 18, 3); s1_rot := (17, 19, 10);
  S0_rot := (2, 13, 22); S1_rot := (6, 11, 25);
  K := [
  0x428A2F98; 0x71374491; 0xB5C0FBCF; 0xE9B5DBA5; 0x3956C25B; 0x59F111F1; 0x923F82A4;
  0xAB1C5ED5; 0xD807AA98; 0x12835B01; 0x243185BE; 0x550C7DC3; 0x72BE5D74; 0x80DEB1FE;
  0x9BDC06A7; 0xC19BF174; 0xE49B69C1; 0xEFBE4786; 0x0FC19DC6; 0x240CA1CC; 0x2DE92C6F;
  0x4A7484AA; 0x5CB0A9DC; 0x76F988DA; 0x983E5152; 0xA831C66D; 0xB00327C8; 0xBF597FC7;
  0xC6E00BF3; 0xD5A79147; 0x06CA6351; 0x14292967; 0x27B70A85; 0x2E1B2138; 0x4D2C6DFC;
  0x53380D13; 0x650A7354; 0x766A0ABB; 0x81C2C92E; 0x92722C85; 0xA2BFE8A1; 0xA81A664B;
  0xC24B8B70; 0xC76C51A3; 0xD192E819; 0xD6990624; 0xF40E3585; 0x106AA070; 0x19A4C116;
  0x1E376C08; 0x2748774C; 0x34B0BCB5; 0x391C0CB3; 0x4ED8AA4A; 0x5B9CCA4F; 0x682E6FF3;
  0x748F82EE; 0x78A5636F; 0x84C87814; 0x8CC70208; 0x90BEFFFA; 0xA4506CEB; 0xBEF9A3F7;
  0xC67178F2];
  H0 := [
  0x6A09E667; 0xBB67AE85; 0x3C6EF372; 0xA54FF53A; 0x510E527F; 0x9B05688C; 0x1F83D9AB;
  0x5BE0CD19] |}.

Definition sha512 : variant := {|
  width := 64;
  s0_rot := (1, 8, 7); s1_rot := (19, 61, 6);
  S0_rot := (28, 34, 39); S1_rot := (14, 18, 41);
  K := [
  0x428A2F98D728AE22; 0x7137449123EF65CD; 0xB5C0FBCFEC4D3B2F; 0xE9B5DBA58189DBBC;
  0x3956C25BF348B538; 0x59F111F1B605D019; 0x923F82A4AF194F9B; 0xAB1C5ED5DA6D8118;
  0xD807AA98A3030242; 0x12835B0145706FBE; 0x243185BE4EE4B28C; 0x550C7DC3D5FFB4E2;
  0x72BE5D74F27B896F; 0x80DEB1FE3B1696B1; 0x9BDC06A725C71235; 0xC19BF174CF692694;
  0xE49B69C19EF14AD2; 0xEFBE4786384F25E3; 0x0FC19DC68B8CD5B5; 0x240CA1CC77AC9C65;
  0x2DE92C6F592B0275; 0x4A7484AA6EA6E483; 0x5CB0A9DCBD41FBD4; 0x76F988DA831153B5;
  0x983E5152EE66DFAB; 0xA831C66D2DB43210; 0xB00327C898FB213F; 0xBF597FC7BEEF0EE4;
  0xC6E00BF33DA88FC2; 0xD5A79147930AA725; 0x06CA6351E003826F; 0x142929670A0E6E70;
  0x27B70A8546D22FFC; 0x2E1B21385C26C926; 0x4D2C6DFC5AC42AED; 0x53380D139D95B3DF;
  0x650A73548BAF63DE; 0x766A0ABB3C77B2A8; 0x81C2C92E47EDAEE6; 0x92722C851482353B;
  0xA2BFE8A14CF10364; 0xA81A664BBC423001; 0xC24B8B70D0F89791; 0xC76C51A30654BE30;
  0xD192E819D6EF5218; 0xD69906245565A910; 0xF40E35855771202A; 0x106AA07032BBD1B8;
  0x19A4C116B8D2D0C8; 0x1E376C085141AB53; 0x2748774CDF8EEB99; 0x34B0BCB5E19B48A8;
  0x391C0CB3C5C95A63; 0x4ED8AA4AE3418ACB; 0x5B9CCA4F7763E373; 0x682E6FF3D6B2B8A3;
  0x748F82EE5DEFB2FC; 0x78A5636F43172F60; 0x84C87814A1F0AB72; 0x8CC702081A6439EC;
  0x90BEFFFA23631E28; 0xA4506CEBDE82BDE9; 0xBEF9A3F7B2C67915; 0xC67178F2E372532B;
  0xCA273ECEEA26619C; 0xD186B8C721C0C207; 0xEADA7DD6CDE0EB1E; 0xF57D4F7FEE6ED178;
  0x06F067AA72176FBA; 0x0A637DC5A2C898A6; 0x113F9804BEF90DAE; 0x1B710B35131C471B;
  0x28DB77F523047D84; 0x32CAAB7B40C72493; 0x3C9EBE0A15C9BEBC; 0x431D67C49C100D4C;
  0x4CC5D4BECB3E42B6; 0x597F299CFC657E2A; 0x5FCB6FAB3AD6FAEC; 0x6C44198C4A475817];
  H0 := [
  0x6A09E667F3BCC908; 0xBB67AE8584CAA73B; 0x3C6EF372FE94F82B; 0xA54FF53A5F1D36F1;
  0x510E527FADE682D1; 0x9B05688C2B3E6C1F; 0x1F83D9ABFB41BD6B; 0x5BE0CD19137E2179] |}.

End Sha2.

Module Sha256.
Definition Sum256 (l : bytes) : bytes := Sha2.sum Sha2.sha256 l.
End Sha256.

Module Sha512.
Definition Sum512 (l : bytes) : bytes := Sha2.sum Sha2.sha512 l.
End Sha512.

Module Hmac.
(** [hmac.New(sha512.New, key)], [Write(data)], [Sum(nil)]. *)
Definition Sum512 (key data : bytes) : bytes :=
  let k := if (128 <? zlen key)%Z then Sha512.Sum512 key else key in
  let k := k ++ repeat x00 (128 - length k) in
  let pad c := map (fun b => byte_of_Z (Z.lxor (Z_of_byte b) c)) k in
  Sha512.Sum512 (pad 0x5C ++ Sha512.Sum512 (pad 0x36 ++ data)).
End Hmac.

(** ** Output lengths *)

Lemma length_round v s kw : length s = 8%nat -> length (Sha2.round v s kw) = 8%nat.
Proof. do 9 (destruct s as [|? s]; try done). Qed.

Lemma length_rounds v l : forall s,
  length s = 8%nat -> length (fold_left (Sha2.round v) l s) = 8%nat.
Proof. induction l as [|kw l IH]; intros s Hs; [done|]. cbn [fold_left]. by apply IH, length_round. Qed.

Lemma length_compress v s b : length s = 8%nat -> length (Sha2.compress v s b) = 8%nat.
Proof. intros Hs. unfold Sha2.compress. rewrite length_zip_with, length_rounds, Hs by done. done. Qed.

Lemma length_blocks v fuel : forall s l,
  length s = 8%nat -> length (Sha2.blocks v fuel s l) = 8%nat.
Proof.
  induction fuel as [|fuel IH]; intros s l Hs; [by destruct l|].
  destruct l; [done|]. cbn [Sha2.blocks]. by apply IH, length_compress.
Qed.

Lemma length_flat_map_const {A B} (f : A -> list B) n l :
  (forall x, length (f x) = n) -> length (flat_map f l) = (length l * n)%nat.
Proof. intros H. induction l as [|x l IH]; cbn; [done|]. rewrite length_app, H, IH. lia. Qed.

Lemma length_sum v l : length (Sha2.H0 v) = 8%nat ->
  length (Sha2.sum v l) = (8 * Z.to_nat (Sha2.width v / 8))%nat.
Proof.
  intros H. unfold Sha2.sum. erewrite length_flat_map_const by (intros; apply Binary.length_be_bytes).
  by rewrite length_blocks.
Qed.

Lemma length_Sum256 l : length (Sha256.Sum256 l) = 32%nat.
Proof. apply (length_sum Sha2.sha256 l). reflexivity. Qed.
Lemma length_Sum512 l : length (Sha512.Sum512 l) = 64%nat.
Proof. apply (length_sum Sha2.sha512 l). reflexivity. Qed.
Lemma length_Hmac k d : length (Hmac.Sum512 k d) = 64%nat.
Proof. apply length_Sum512. Qed.

(** ** Known answers *)
Example Sum256_abc : Hex.EncodeToString (Sha256.Sum256 (bytes_of "abc")) =
  "ba7816bf8f01cfea414140de5dae2223b00361a396177a9cb410ff61f20015ad". Proof. vm_compute. reflexivity. Qed.
Example Sum512_abc : Hex.EncodeToString (Sha512.Sum512 (bytes_of "abc")) =
  "ddaf35a193617abacc417349ae20413112e6fa4e89a97ea20a9eeee64b55d39a2192992a274fc1a836ba3c23a3feebbd454d4423643ce80e2a9ac94fa54ca49f". Proof. vm_compute. reflexivity. Qed.
