(* ===== verification/Protocol.v ===== *)
(** * Protocol: the framed wire format of internal/transport/protocol.go

    [WriteMessage] and [ReadMessage] over an abstract writer and reader, the
    payload records, and an in-memory buffer that implements both interfaces. *)
From S2P Require Import Prelude GoStd.
Local Open Scope Z_scope.

(** ** Message types *)
Definition MsgTSSRound : byte := x01.
Definition MsgDKGRound : byte := x02.
Definition MsgReshare : byte := x03.
Definition MsgSignRequest : byte := x10.
Definition MsgSignResponse : byte := x11.
Definition MsgDeriveReq : byte := x12.
Definition MsgDeriveResp : byte := x13.
Definition MsgTxStatusReq : byte := x14.
Definition MsgTxStatusResp : byte := x15.
Definition MsgSignApproved : byte := x16.
Definition MsgSignReady : byte := x17.
Definition MsgHealthCheck : byte := x20.
Definition MsgHealthResp : byte := x21.

Record Message := { Type_ : byte; ID : Z; Payload : bytes }.

Definition MaxMessageSize : Z := 16 * 1024 * 1024.

(** ** Payloads *)
Record SignRequestPayload := {
  srq_To : list string;
  srq_Value : string;
  srq_Data : string;
  srq_DerivationPath : string;
  srq_UnsignedTx : string;
  srq_SignableBytes : string;
}.

Record SignResponsePayload := { srs_Decision : string; srs_Reason : string; srs_TxID : string }.
Record SignApprovedPayload := { sap_TxID : string; sap_DerivationPath : string }.
Record SignReadyPayload := { srd_TxID : string; srd_SignableBytes : string }.
Record TxStatusResponsePayload := {
  tsr_TxID : string; tsr_Status : string; tsr_Reason : string; tsr_SignedTx : string }.

(** ** io.Writer and io.Reader

    [write w b] is one [w.Write(b)] and [read_full r n] one [io.ReadFull] into
    a slice of length [n]. *)
Class Writer (W : Type) := write : W -> bytes -> W * option string.
Class Reader (R : Type) := read_full : R -> Z -> R * go bytes.

Definition header_of (msg : Message) : bytes :=
  Type_ msg :: Binary.be_bytes 8 (ID msg) ++ Binary.be_bytes 4 (zlen (Payload msg)).

Definition too_large (n : Z) : string :=
  "message too large: " +:+ Strconv.Itoa n +:+ " > " +:+ Strconv.Itoa MaxMessageSize.

Definition WriteMessage `{Writer W} (w : W) (msg : Message) : W * option string :=
  if MaxMessageSize <? zlen (Payload msg) then (w, Some (too_large (zlen (Payload msg))))
  else
    match write w (header_of msg) with
    | (w1, Some e) => (w1, Some ("write header: " +:+ e))
    | (w1, None) =>
      if 0 <? zlen (Payload msg) then
        match write w1 (Payload msg) with
        | (w2, Some e) => (w2, Some ("write payload: " +:+ e))
        | (w2, None) => (w2, None)
        end
      else (w1, None)
    end.

Definition ReadMessage `{Reader R} (r : R) : R * go Message :=
  match read_full r 13 with
  | (r1, Ret header) =>
    let ty := default x00 (head header) in
    let id := Binary.be_Z (take 8 (drop 1 header)) in
    let payloadLen := Binary.be_Z (take 4 (drop 9 header)) in
    if MaxMessageSize <? payloadLen then (r1, Err (too_large payloadLen))
    else if 0 <? payloadLen then
      match read_full r1 payloadLen with
      | (r2, Ret payload) => (r2, Ret {| Type_ := ty; ID := id; Payload := payload |})
      | (r2, Err e) => (r2, Err ("read payload: " +:+ e))
      | (r2, Panic) => (r2, Panic)
      end
    else (r1, Ret {| Type_ := ty; ID := id; Payload := [] |})
  | (r1, Err e) => (r1, Err ("read header: " +:+ e))
  | (r1, Panic) => (r1, Panic)
  end.

(** An in-memory stream: writes append, and a short read consumes what is
    there and fails the way [io.ReadFull] does. *)
Record buffer := Buffer { contents : bytes }.
#[export] Instance buffer_writer : Writer buffer :=
  fun w b => (Buffer (contents w ++ b), None).
#[export] Instance buffer_reader : Reader buffer := fun r n =>
  let l := contents r in
  if n <=? zlen l then (Buffer (drop (Z.to_nat n) l), Ret (take (Z.to_nat n) l))
  else (Buffer [], Err (if zlen l =? 0 then "EOF" else "unexpected EOF")).

(** A message the protocol can carry: a 64-bit ID and a bounded payload. *)
Definition wf_message (msg : Message) : Prop :=
  0 <= ID msg < 2 ^ 64 /\ zlen (Payload msg) <= MaxMessageSize.

(** Write a list of messages, stopping at the first error. *)
Fixpoint WriteMessages `{Writer W} (w : W) (l : list Message) : W * option string :=
  match l with
  | [] => (w, None)
  | m :: l' => match WriteMessage w m with
               | (w1, None) => WriteMessages w1 l'
               | (w1, Some e) => (w1, Some e)
               end
  end.
(** The read loop of [handleConn] and [readLoop]: read until an error. *)
Fixpoint ReadMessages `{Reader R} (fuel : nat) (r : R) : list Message * go Message :=
  match fuel with
  | O => ([], Err "fuel")
  | S f => match ReadMessage r with
           | (r1, Ret m) => let '(ms, e) := ReadMessages f r1 in (m :: ms, e)
           | (_, e) => ([], e)
           end
  end.

(** ** Lemmas *)

Definition frame (msg : Message) : bytes := header_of msg ++ Payload msg.

Lemma length_header msg : length (header_of msg) = 13%nat.
Proof.
  unfold header_of; cbn [length]. rewrite length_app, !Binary.length_be_bytes. lia.
Qed.

Lemma zlen_nonneg {A} (l : list A) : 0 <= zlen l.
Proof. unfold zlen. lia. Qed.
#[export] Hint Resolve zlen_nonneg : go.
Lemma zlen_pos_nil {A} (l : list A) : (0 <? zlen l) = false -> l = [].
Proof. destruct l; [done|]. unfold zlen; cbn [length]. intros H. exfalso. lia. Qed.

Lemma write_buffer b msg :
  zlen (Payload msg) <= MaxMessageSize ->
  WriteMessage (Buffer b) msg = (Buffer (b ++ frame msg), None).
Proof.
  intros Hl. unfold WriteMessage. assert (MaxMessageSize <? zlen (Payload msg) = false) as -> by lia.
  unfold frame; cbn [write buffer_writer contents].
  case_match; cbn [write buffer_writer contents]; [by rewrite app_assoc|].
  rewrite (zlen_pos_nil (Payload msg)) by done. by rewrite app_nil_r.
Qed.

Lemma be_read n z : 0 <= z < 256 ^ Z.of_nat n -> Binary.be_Z (Binary.be_bytes n z) = z.
Proof. intros H. rewrite Binary.be_Z_be_bytes. by apply Z.mod_small. Qed.

Lemma read_full_app a b n :
  zlen a = n -> read_full (Buffer (a ++ b)) n = (Buffer b, Ret a).
Proof.
  intros <-. unfold read_full, buffer_reader, zlen; cbn [contents].
  rewrite length_app. assert (Z.of_nat (length a) <=? Z.of_nat (length a + length b) = true) as -> by lia.
  by rewrite Nat2Z.id, drop_app_length, take_app_length.
Qed.

Lemma read_frame msg rest :
  wf_message msg -> ReadMessage (Buffer (frame msg ++ rest)) = (Buffer rest, Ret msg).
Proof.
  intros [Hid Hlen]. unfold ReadMessage, frame. rewrite <- app_assoc.
  rewrite read_full_app by (unfold zlen; by rewrite length_header).
  set (h := header_of msg).
  assert (take 8 (drop 1 h) = Binary.be_bytes 8 (ID msg)) as ->.
  { unfold h, header_of. cbn [drop]. rewrite drop_0.
    rewrite <- (Binary.length_be_bytes 8 (ID msg)) at 1. apply take_app_length. }
  assert (take 4 (drop 9 h) = Binary.be_bytes 4 (zlen (Payload msg))) as ->.
  { unfold h, header_of. change (drop 9 (?x :: ?l)) with (drop 8 l).
    rewrite drop_app_length' by by rewrite Binary.length_be_bytes.
    rewrite take_ge; [done|]. by rewrite Binary.length_be_bytes. }
  rewrite !be_read by (unfold MaxMessageSize in *; pose proof (zlen_nonneg (Payload msg)); lia).
  change (default x00 (head h)) with (Type_ msg).
  assert (MaxMessageSize <? zlen (Payload msg) = false) as -> by lia.
  destruct (0 <? zlen (Payload msg)) eqn:E; cbn beta iota.
  - rewrite read_full_app by done. by destruct msg.
  - apply zlen_pos_nil in E. destruct msg as [ty id p]; cbn in *; by subst.
Qed.

Lemma read_full_Ret l n r b :
  0 <= n -> read_full (Buffer l) n = (r, Ret b) -> l = b ++ contents r /\ zlen b = n.
Proof.
  intros Hn. unfold read_full, buffer_reader; cbn [contents].
  destruct (Z.leb_spec n (zlen l)); [|done]. intros [= <- <-]. cbn [contents].
  split; [by rewrite take_drop|]. unfold zlen in *. rewrite length_take. lia.
Qed.

Lemma read_full_no_panic l n : (read_full (Buffer l) n).2 <> Panic.
Proof. unfold read_full, buffer_reader. by case_match. Qed.

(** The 13 bytes of any header are the header of the message they describe. *)
Lemma header_inv h p :
  zlen h = 13 -> Binary.be_Z (take 4 (drop 9 h)) = zlen p ->
  let m := {| Type_ := default x00 (head h); ID := Binary.be_Z (take 8 (drop 1 h)); Payload := p |} in
  header_of m = h /\ 0 <= ID m < 2 ^ 64.
Proof.
  intros Hl Hp m. subst m. unfold zlen in Hl. split.
  - destruct h as [|b h]; [by cbn in Hl|]. unfold header_of. cbn [head default Type_ ID Payload]. f_equal.
    rewrite <- Hp. change (drop 1 (b :: h)) with h. change (drop 9 (b :: h)) with (drop 8 h).
    cbn [length] in Hl. assert (length h = 12%nat) as Hh by lia.
    assert (length (take 8 h) = 8%nat) as H8 by (rewrite length_take; lia).
    assert (length (take 4 (drop 8 h)) = 4%nat) as H4 by (rewrite length_take, length_drop; lia).
    rewrite !Binary.be_bytes_be_Z' by done.
    rewrite (take_ge (drop 8 h)) by (rewrite length_drop; lia). apply take_drop.
  - cbn [ID]. pose proof (Binary.be_Z_bound (take 8 (drop 1 h))) as Hb.
    assert (zlen (take 8 (drop 1 h)) = 8) as E; [|by rewrite E in Hb].
    unfold zlen. rewrite length_take, length_drop. lia.
Qed.

Lemma ReadMessage_Ret l r m :
  ReadMessage (Buffer l) = (r, Ret m) -> wf_message m /\ l = frame m ++ contents r.
Proof.
  unfold ReadMessage. destruct (read_full (Buffer l) 13) as [r1 [h|e|]] eqn:E1; try done.
  apply read_full_Ret in E1 as [-> Hh]; [|lia].
  destruct (Z.ltb_spec MaxMessageSize (Binary.be_Z (take 4 (drop 9 h)))) as [|Hmax]; [done|].
  pose proof (Binary.be_Z_bound (take 4 (drop 9 h))) as [Hnn _].
  destruct (0 <? Binary.be_Z (take 4 (drop 9 h))) eqn:E0.
  - destruct r1 as [l1]. cbn [contents] in *.
    destruct (read_full (Buffer l1) _) as [r2 [p|e|]] eqn:E2; try done. intros [= <- <-].
    apply read_full_Ret in E2 as [-> Hp]; [|done].
    pose proof (header_inv h p Hh (eq_sym Hp)) as [Hhd Hid]. split.
    + split; [done|]. cbn [Payload]. lia.
    + unfold frame. rewrite Hhd. cbn [Payload]. by rewrite <- app_assoc.
  - intros [= <- <-]. assert (Binary.be_Z (take 4 (drop 9 h)) = zlen (@nil byte)) as Hp
      by (unfold zlen; cbn [length]; lia).
    pose proof (header_inv h [] Hh Hp) as [Hhd Hid]. split; [by split|].
    unfold frame. rewrite Hhd. cbn [Payload]. by rewrite app_nil_r.
Qed.

Lemma ReadMessage_no_panic l : (ReadMessage (Buffer l)).2 <> Panic.
Proof.
  unfold ReadMessage. pose proof (read_full_no_panic l 13).
  destruct (read_full (Buffer l) 13) as [[l1] [h|e|]]; cbn in *; try done.
  case_match; [done|]. case_match; [|done].
  pose proof (read_full_no_panic l1 (Binary.be_Z (take 4 (drop 9 h)))).
  by destruct (read_full (Buffer l1) _) as [? []].
Qed.

(** ** Properties *)

(** ReadMessage accepts exactly the well-formed frames. On any input
    stream it either returns a message whose ID fits 64 bits and whose payload
    is at most 16 MB, having consumed precisely that message's frame, or it
    returns an error and no well-formed frame is a prefix of the input. It
    never panics. *)
Theorem ReadMessage_exact (l : bytes) :
  match ReadMessage (Buffer l) with
  | (r, Ret m) => wf_message m /\ l = frame m ++ contents r
  | (_, Err _) => forall m rest, wf_message m -> l <> frame m ++ rest
  | (_, Panic) => False
  end.
Proof.
  destruct (ReadMessage (Buffer l)) as [r [m|e|]] eqn:E.
  - by apply ReadMessage_Ret in E.
  - intros m rest Hwf ->. by rewrite read_frame in E.
  - apply (ReadMessage_no_panic l). by rewrite E.
Qed.

Lemma read_stream l fuel :
  Forall wf_message l -> (length l < fuel)%nat ->
  ReadMessages fuel (Buffer (concat (map frame l))) = (l, Err "read header: EOF").
Proof.
  intros Hwf; revert fuel; induction Hwf as [|m l Hm Hl IH]; intros [|fuel] Hf;
    cbn [length map concat ReadMessages] in *; try lia; [reflexivity|].
  rewrite read_frame by done. by rewrite IH by lia.
Qed.

Lemma write_stream l b :
  Forall wf_message l ->
  WriteMessages (Buffer b) l = (Buffer (b ++ concat (map frame l)), None).
Proof.
  intros Hwf; revert b; induction Hwf as [|m l [_ Hm] Hl IH]; intros b;
    cbn [WriteMessages map concat]; [by rewrite app_nil_r|].
  rewrite write_buffer by done. by rewrite IH, app_assoc.
Qed.

(** C36: A sequence of well-formed messages written to a connection is read
    back by the peer's read loop as the same sequence, in order, and the loop
    then ends on end-of-file. *)
Theorem wire_stream_roundtrip (l : list Message) (fuel : nat) :
  Forall wf_message l -> (length l < fuel)%nat ->
  exists stream, WriteMessages (Buffer []) l = (stream, None) /\
    ReadMessages fuel stream = (l, Err "read header: EOF").
Proof.
  intros Hwf Hf. exists (Buffer (concat (map frame l))).
  split; [by apply (write_stream l [])|by apply read_stream].
Qed.

Lemma wire_stream_roundtrip_witness :
  let m1 := {| Type_ := MsgSignRequest; ID := 7; Payload := [x61; x62] |} in
  let m2 := {| Type_ := MsgTSSRound; ID := 0; Payload := [] |} in
  exists stream, WriteMessages (Buffer []) [m1; m2] = (stream, None) /\
    ReadMessages 3 stream = ([m1; m2], Err "read header: EOF").
Proof.
  intros m1 m2. apply wire_stream_roundtrip; [|cbn; lia].
  repeat constructor; vm_compute; congruence.
Defined.

(** A message whose payload exceeds 16 MB is refused before anything is
    written, whatever the writer, and every message that is written to a
    connection is one a peer accepts. *)
Theorem WriteMessage_bound `{Writer W} (w : W) (msg : Message) :
  (MaxMessageSize < zlen (Payload msg) ->
     WriteMessage w msg = (w, Some (too_large (zlen (Payload msg))))) /\
  (forall b s, 0 <= ID msg < 2 ^ 64 -> WriteMessage (Buffer b) msg = (s, None) ->
     exists f, contents s = b ++ f /\ forall rest, ReadMessage (Buffer (f ++ rest)) = (Buffer rest, Ret msg)).
Proof.
  split.
  - intros Hl. unfold WriteMessage. by assert (MaxMessageSize <? zlen (Payload msg) = true) as -> by lia.
  - intros b s Hid Hw. destruct (Z.ltb_spec MaxMessageSize (zlen (Payload msg))) as [Hl|Hl].
    + unfold WriteMessage in Hw. apply Z.ltb_lt in Hl. by rewrite Hl in Hw.
    + rewrite write_buffer in Hw by done. injection Hw as <-. exists (frame msg).
      split; [done|]. intros rest. by apply read_frame.
Qed.
