(* ===== verification/Transport.v ===== *)
(** * Transport: the mTLS server and client of internal/transport

    [Server] (server.go, Party B) and [Client] (client.go, Party A) as state
    machines: one definition per method or per iteration of a goroutine's
    loop, each atomic where the source holds a mutex. TLS and the sockets are
    outside the model: a connection is a number, and [net] records what was
    written to each connection and which connections are closed. *)
From S2P Require Import Prelude GoStd Protocol.
Local Open Scope Z_scope.

(** ** Connections *)
Record net := Net { net_out : gmap nat bytes; net_shut : gset nat }.
Definition net_close (c : nat) (n : net) : net := Net (net_out n) ({[c]} ∪ net_shut n).
Definition sent_on (c : nat) (n : net) : bytes := default [] (net_out n !! c).

Definition conn_writer (c : nat) : Writer net := fun n b =>
  if bool_decide (c ∈ net_shut n) then (n, Some "use of closed network connection")
  else (Net (<[c := sent_on c n ++ b]> (net_out n)) (net_shut n), None).

(** A TSS message with the party it came from (internal/tss/tss.go). *)
Record PartyID := { pid_ID : string; pid_Index : Z }.
Record IncomingMessage := { im_From : PartyID; im_Payload : bytes }.

(** A Go channel with a capacity: a send on a full channel blocks. *)
Record chan (A : Type) := Chan { ch_cap : nat; ch_buf : list A }.
Arguments Chan {A} _ _.
Arguments ch_cap {A} _.
Arguments ch_buf {A} _.
Definition chan_send {A} (x : A) (c : chan A) : option (chan A) :=
  if decide (length (ch_buf c) < ch_cap c)%nat then Some (Chan (ch_cap c) (ch_buf c ++ [x])) else None.
Definition chan_recv {A} (c : chan A) : option (A * chan A) :=
  match ch_buf c with [] => None | x :: l => Some (x, Chan (ch_cap c) l) end.

(** ** ServerRouter *)
Record ServerRouter := { sr_inCh : chan IncomingMessage }.
Definition NewServerRouter : ServerRouter := {| sr_inCh := Chan 100 [] |}.
(** [FeedMessage] blocks its caller while the channel is full. *)
Definition FeedMessage (r : ServerRouter) (from : PartyID) (payload : bytes) : option ServerRouter :=
  c ← chan_send {| im_From := from; im_Payload := payload |} (sr_inCh r);
  Some {| sr_inCh := c |}.
Definition Receive (r : ServerRouter) : chan IncomingMessage := sr_inCh r.

(** ** Server *)
Section Server.
Context {S : Type}.  (* the state of the service behind the handler *)

(** A handler's result: an error, or an optional response. *)
Definition MessageHandler := S -> Message -> S * go (option Message).

Record Server := {
  srv_started : bool;
  srv_listening : bool;
  srv_done : bool;
  srv_conn : option nat;
  srv_handler : option MessageHandler;
}.

Definition NewServer : Server :=
  {| srv_started := false; srv_listening := false; srv_done := false;
     srv_conn := None; srv_handler := None |}.

Definition with_conn (s : Server) (c : option nat) : Server :=
  {| srv_started := srv_started s; srv_listening := srv_listening s; srv_done := srv_done s;
     srv_conn := c; srv_handler := srv_handler s |}.

Definition SetHandler (s : Server) (h : MessageHandler) : Server :=
  {| srv_started := srv_started s; srv_listening := srv_listening s; srv_done := srv_done s;
     srv_conn := srv_conn s; srv_handler := Some h |}.

(** [Start]; [listen] is the error of [tls.Listen], if any. *)
Definition Start (s : Server) (listen : option string) : Server * option string :=
  if srv_started s then (s, Some "server already started")
  else
    let s1 := {| srv_started := true; srv_listening := srv_listening s; srv_done := srv_done s;
                 srv_conn := srv_conn s; srv_handler := srv_handler s |} in
    match listen with
    | Some e => (s1, Some ("listen: " +:+ e))
    | None => ({| srv_started := true; srv_listening := true; srv_done := srv_done s;
                  srv_conn := srv_conn s; srv_handler := srv_handler s |}, None)
    end.

(** One successful [Accept] of the accept loop: the previous peer's connection
    is closed and replaced. *)
Definition acceptLoop_accept (s : Server) (n : net) (c : nat) : Server * net :=
  (with_conn s (Some c), match srv_conn s with Some c0 => net_close c0 n | None => n end).

(** One iteration of [handleConn] on a message read from connection [c]: the
    flag says whether the loop goes on. A handler's panic takes the process
    down: nothing recovers it. *)
Definition handleConn_message (s : Server) (n : net) (w : S) (c : nat) (msg : Message)
    : go (net * S * bool) :=
  match srv_handler s with
  | None => Ret (n, w, true)
  | Some h =>
    match h w msg with
    | (w1, Ret (Some resp)) =>
      let resp := {| Type_ := Type_ resp; ID := ID msg; Payload := Payload resp |} in
      match WriteMessage (H := conn_writer c) n resp with
      | (n1, None) => Ret (n1, w1, true)
      | (n1, Some _) => Ret (n1, w1, false)
      end
    | (w1, Ret None) | (w1, Err _) => Ret (n, w1, true)
    | (_, Panic) => Panic
    end
  end.

(** The deferred exit of [handleConn]: it forgets the connection only when it
    is still the current one. *)
Definition handleConn_exit (s : Server) (n : net) (c : nat) : Server * net :=
  (if bool_decide (srv_conn s = Some c) then with_conn s None else s, net_close c n).

Definition Server_Send (s : Server) (n : net) (msg : Message) : net * option string :=
  match srv_conn s with
  | None => (n, Some "no client connected")
  | Some c => WriteMessage (H := conn_writer c) n msg
  end.

(** [close(s.done)] panics when the channel is already closed. *)
Definition Stop (s : Server) : go Server :=
  if srv_done s then Panic
  else Ret {| srv_started := srv_started s; srv_listening := false; srv_done := true;
              srv_conn := srv_conn s; srv_handler := srv_handler s |}.

Definition Server_IsConnected (s : Server) : bool :=
  match srv_conn s with Some _ => true | None => false end.

(** What the goroutines of the server do to its connections. [acc] collects
    the connections accepted so far; the runtime never reuses one. *)
Inductive server_step : (Server * net * list nat) -> (Server * net * list nat) -> Prop :=
| step_accept s n acc c :
    c ∉ acc -> c ∉ net_shut n ->
    let '(s1, n1) := acceptLoop_accept s n c in
    server_step (s, n, acc) (s1, n1, c :: acc)
| step_exit s n acc c :
    c ∈ acc ->
    let '(s1, n1) := handleConn_exit s n c in
    server_step (s, n, acc) (s1, n1, acc)
| step_message s n acc c w w1 msg n1 b :
    c ∈ acc -> handleConn_message s n w c msg = Ret (n1, w1, b) ->
    server_step (s, n, acc) (s, n1, acc)
| step_send s n acc msg n1 e :
    Server_Send s n msg = (n1, e) ->
    server_step (s, n, acc) (s, n1, acc).

Inductive server_reachable : (Server * net * list nat) -> Prop :=
| server_init s : srv_conn s = None -> server_reachable (s, Net ∅ ∅, [])
| server_next st st' : server_reachable st -> server_step st st' -> server_reachable st'.

Definition one_live_peer (st : Server * net * list nat) : Prop :=
  let '(s, n, acc) := st in
  forall c, c ∈ acc -> srv_conn s = Some c \/ c ∈ net_shut n.

End Server.
Arguments Server S : clear implicits.

(** ** Client *)
Section Client.
Context {S : Type}.

Record Client := {
  cl_conn : option nat;
  cl_done : bool;
  cl_msgIDSeq : Z;                          (* atomic.Uint64 *)
  cl_incomingCh : chan IncomingMessage;
  cl_handler : option (MessageHandler (S := S));
  cl_pending : gset Z;                      (* the keys of [pending] *)
  cl_calls : gmap Z (option Message);       (* the channel of each running [Request] *)
}.

Definition NewClient : Client :=
  {| cl_conn := None; cl_done := false; cl_msgIDSeq := 0; cl_incomingCh := Chan 100 [];
     cl_handler := None; cl_pending := ∅; cl_calls := ∅ |}.

Definition cl_set (c : Client) (conn : option nat) (seq : Z) (inc : chan IncomingMessage)
    (p : gset Z) (calls : gmap Z (option Message)) : Client :=
  {| cl_conn := conn; cl_done := cl_done c; cl_msgIDSeq := seq; cl_incomingCh := inc;
     cl_handler := cl_handler c; cl_pending := p; cl_calls := calls |}.
Definition cl_with_calls (c : Client) (p : gset Z) (calls : gmap Z (option Message)) : Client :=
  cl_set c (cl_conn c) (cl_msgIDSeq c) (cl_incomingCh c) p calls.

Definition Client_SendMessage (c : Client) (n : net) (msg : Message) : net * option string :=
  match cl_conn c with
  | None => (n, Some "not connected")
  | Some k => WriteMessage (H := conn_writer k) n msg
  end.

(** [c.msgIDSeq.Add(1)]. *)
Definition next_id (c : Client) : Z := (cl_msgIDSeq c + 1) mod 2 ^ 64.

(** [Request] up to its [select]: the ID, the pending entry and the write; on
    a write error the entry is removed and the call returns. *)
Definition Request_begin (c : Client) (n : net) (msg : Message) : Client * net * Z * option string :=
  let id := next_id c in
  let msg := {| Type_ := Type_ msg; ID := id; Payload := Payload msg |} in
  let c1 := cl_set c (cl_conn c) id (cl_incomingCh c)
                   ({[id]} ∪ cl_pending c) (<[id := None]> (cl_calls c)) in
  match Client_SendMessage c1 n msg with
  | (n1, None) => (c1, n1, id, None)
  | (n1, Some e) =>
    (cl_with_calls c1 (cl_pending c1 ∖ {[id]}) (delete id (cl_calls c1)), n1, id, Some e)
  end.

(** [case resp := <-ch] of call [id]. *)
Definition Request_receive (c : Client) (id : Z) : option (Client * Message) :=
  match cl_calls c !! id with
  | Some (Some resp) => Some (cl_with_calls c (cl_pending c) (delete id (cl_calls c)), resp)
  | _ => None
  end.

(** [case <-ctx.Done()] of call [id]. *)
Definition Request_cancel (c : Client) (id : Z) : Client :=
  cl_with_calls c (cl_pending c ∖ {[id]}) (delete id (cl_calls c)).

(** Where one message read by [readLoop] goes. *)
Inductive routed :=
| ToCaller (id : Z)
| ToTSS
| Dropped
| ToHandler.

Definition is_tss_type (t : byte) : bool :=
  bool_decide (t = MsgTSSRound) || bool_decide (t = MsgDKGRound) || bool_decide (t = MsgReshare).

(** One iteration of [readLoop] after a successful [ReadMessage]. *)
Definition readLoop_message (c : Client) (n : net) (w : S) (msg : Message)
    : go (Client * net * S * routed) :=
  if bool_decide (ID msg ∈ cl_pending c) then
    Ret (cl_with_calls c (cl_pending c ∖ {[ID msg]})
           (match cl_calls c !! ID msg with
            | Some None => <[ID msg := Some msg]> (cl_calls c)
            | _ => cl_calls c
            end), n, w, ToCaller (ID msg))
  else if is_tss_type (Type_ msg) then
    match chan_send {| im_From := {| pid_ID := "party-b"; pid_Index := 0 |};
                       im_Payload := Payload msg |} (cl_incomingCh c) with
    | Some ch => Ret (cl_set c (cl_conn c) (cl_msgIDSeq c) ch (cl_pending c) (cl_calls c), n, w, ToTSS)
    | None => Ret (c, n, w, Dropped)
    end
  else
    match cl_handler c with
    | None => Ret (c, n, w, ToHandler)
    | Some h =>
      match h w msg with
      | (w1, Ret (Some resp)) =>
        let '(n1, _) := Client_SendMessage c n
          {| Type_ := Type_ resp; ID := ID msg; Payload := Payload resp |} in
        Ret (c, n1, w1, ToHandler)
      | (w1, Ret None) | (w1, Err _) => Ret (c, n, w1, ToHandler)
      | (_, Panic) => Panic
      end
    end.

(** [Send] of the TSS router: it takes a fresh ID from the same sequence. *)
Definition Client_Send (c : Client) (n : net) (msg : bytes) : Client * net * option string :=
  let id := next_id c in
  let c1 := cl_set c (cl_conn c) id (cl_incomingCh c) (cl_pending c) (cl_calls c) in
  let '(n1, e) := Client_SendMessage c1 n
                    {| Type_ := MsgTSSRound; ID := id; Payload := msg |} in
  (c1, n1, e).

(** The successful and the final step of [connectWithRetry]/[readLoop]'s exit. *)
Definition connected (c : Client) (k : nat) : Client :=
  cl_set c (Some k) (cl_msgIDSeq c) (cl_incomingCh c) (cl_pending c) (cl_calls c).
Definition readLoop_exit (c : Client) (k : nat) : Client :=
  if bool_decide (cl_conn c = Some k)
  then cl_set c None (cl_msgIDSeq c) (cl_incomingCh c) (cl_pending c) (cl_calls c) else c.

Definition Client_Close (c : Client) (n : net) : go (Client * net) :=
  if cl_done c then Panic
  else Ret ({| cl_conn := cl_conn c; cl_done := true; cl_msgIDSeq := cl_msgIDSeq c;
               cl_incomingCh := cl_incomingCh c; cl_handler := cl_handler c;
               cl_pending := cl_pending c; cl_calls := cl_calls c |},
            match cl_conn c with Some k => net_close k n | None => n end).

Definition Client_IsConnected (c : Client) : bool :=
  match cl_conn c with Some _ => true | None => false end.

(** The steps the client's goroutines take on its shared state. [k] counts the
    IDs drawn so far. *)
Inductive client_step : Z -> Client -> Z -> Client -> Prop :=
| cs_request k c n msg c1 n1 id e :
    Request_begin c n msg = (c1, n1, id, e) -> client_step k c (k + 1) c1
| cs_tss_send k c n msg c1 n1 e :
    Client_Send c n msg = (c1, n1, e) -> client_step k c (k + 1) c1
| cs_receive k c id c1 msg :
    Request_receive c id = Some (c1, msg) -> client_step k c k c1
| cs_cancel k c id : client_step k c k (Request_cancel c id)
| cs_message k c n w msg c1 n1 w1 r :
    readLoop_message c n w msg = Ret (c1, n1, w1, r) -> client_step k c k c1
| cs_connected k c conn : client_step k c k (connected c conn)
| cs_disconnected k c conn : client_step k c k (readLoop_exit c conn).

Inductive client_reachable : Z -> Client -> Prop :=
| client_init : client_reachable 0 NewClient
| client_next k c k' c' :
    client_reachable k c -> client_step k c k' c' -> client_reachable k' c'.

(** The correlation invariant, as long as the 64-bit sequence has not wrapped. *)
Definition correlated (k : Z) (c : Client) : Prop :=
  cl_msgIDSeq c = k /\
  (forall id, id ∈ cl_pending c -> 1 <= id <= k /\ cl_calls c !! id = Some None) /\
  (forall id m, cl_calls c !! id = Some m ->
     1 <= id <= k /\ forall resp, m = Some resp -> ID resp = id).

End Client.
Arguments Client S : clear implicits.

(** *** Reconnection *)

Definition initialDelay : Z := 500 * 10 ^ 6.      (* nanoseconds *)
Definition maxBackoff : Z := 30 * 10 ^ 9.

(** [time.Duration(math.Min(float64(delay)*2, float64(c.maxBackoff)))]: the
    durations are far below 2^53 ns, so the float arithmetic is exact. *)
Definition next_delay (delay : Z) : Z := Z.min (delay * 2) maxBackoff.

(** The dial outcomes [connectWithRetry] sees, in order; it returns the
    connection with the delays it slept, or [None] when the outcomes run out
    (the loop is still waiting). *)
Fixpoint connectWithRetry (delay : Z) (dials : list (option nat)) : option nat * list Z :=
  match dials with
  | [] => (None, [])
  | Some k :: _ => (Some k, [])
  | None :: dials' =>
    let '(r, ds) := connectWithRetry (next_delay delay) dials' in (r, delay :: ds)
  end.

(** ** The server keeps one live peer *)

Lemma net_shut_write c n msg :
  net_shut (WriteMessage (H := conn_writer c) n msg).1 = net_shut n.
Proof.
  unfold WriteMessage. repeat case_match; cbn; try done;
    unfold write, conn_writer in *; repeat case_match; simplify_eq; done.
Qed.

Lemma net_shut_close c c' n : c' ∈ net_shut n -> c' ∈ net_shut (net_close c n).
Proof. unfold net_close; cbn. set_solver. Qed.

Lemma handleConn_message_shut {S} (s : Server S) n w c msg n1 w1 b :
  handleConn_message s n w c msg = Ret (n1, w1, b) -> net_shut n1 = net_shut n.
Proof.
  unfold handleConn_message. intros H. case_match; [|by simplify_eq].
  destruct (m w msg) as [w' [[resp|]|e|]]; simplify_eq; try done.
  destruct (WriteMessage n _) as [n' [e|]] eqn:E in H;
    apply (f_equal fst) in E; cbn in E; simplify_eq; apply net_shut_write.
Qed.

Lemma Server_Send_shut {S} (s : Server S) n msg n1 e :
  Server_Send s n msg = (n1, e) -> net_shut n1 = net_shut n.
Proof.
  unfold Server_Send. destruct (srv_conn s); intros H; [|by simplify_eq].
  apply (f_equal fst) in H; cbn in H; subst n1. apply net_shut_write.
Qed.

Lemma server_step_live {S} (st st' : Server S * net * list nat) :
  server_step st st' -> one_live_peer st -> one_live_peer st'.
Proof.
  intros Hs. inversion Hs as [s n acc c Hc Hn|s n acc c Hc|s n acc c w w1 msg n1 b Hc HM|
                              s n acc msg n1 e HM]; subst; unfold one_live_peer; cbn.
  - intros IH c'. rewrite elem_of_cons. intros [->|Hc']; [by left|].
    destruct (IH c' Hc') as [E|?]; right.
    + rewrite E. cbn. set_solver.
    + case_match; [by apply net_shut_close|done].
  - intros IH c' Hc'. destruct (decide (c' = c)) as [->|Hne]; [right; set_solver|].
    destruct (IH c' Hc') as [E|?]; [left|right; set_solver].
    rewrite bool_decide_eq_false_2 by congruence. done.
  - intros IH c' Hc'. rewrite (handleConn_message_shut _ _ _ _ _ _ _ _ HM). auto.
  - intros IH c' Hc'. rewrite (Server_Send_shut _ _ _ _ _ HM). auto.
Qed.

(** Whatever the order of accepts, reads, sends and disconnections, every
    connection the server ever accepted is either its current peer or closed:
    a reconnecting Party A takes the session over and no second peer stays. *)
Theorem server_one_live_peer {S} (st : Server S * net * list nat) :
  server_reachable st -> one_live_peer st.
Proof.
  induction 1 as [s Hs|st st' _ IH Hstep]; [|by eapply server_step_live].
  intros c Hc. by apply elem_of_nil in Hc.
Qed.

Lemma server_one_live_peer_witness :
  let s := with_conn (NewServer (S := unit)) (Some 2%nat) in
  server_reachable (s, net_close 1 (Net ∅ ∅), [2; 1]%nat) /\
  one_live_peer (s, net_close 1 (Net ∅ ∅), [2; 1]%nat).
Proof.
  assert (H : server_reachable (with_conn (NewServer (S := unit)) (Some 2%nat),
                                net_close 1 (Net ∅ ∅), [2; 1]%nat)).
  { apply (server_next (with_conn NewServer (Some 1%nat), Net ∅ ∅, [1]%nat)).
    - apply (server_next (NewServer, Net ∅ ∅, [])).
      + by apply server_init.
      + apply (step_accept NewServer (Net ∅ ∅) [] 1); set_solver.
    - apply (step_accept (with_conn NewServer (Some 1%nat)) (Net ∅ ∅) [1%nat] 2); set_solver. }
  split; [exact H|]. apply server_one_live_peer. exact H.
Defined.

(** ** Request/response correlation in the client *)

Lemma next_id_small {S} (c : Client S) k :
  cl_msgIDSeq c = k -> 0 <= k -> k + 1 < 2 ^ 64 -> next_id c = k + 1.
Proof. intros <- H1 H2. unfold next_id. apply Z.mod_small. lia. Qed.

Lemma correlated_calls {S} k (c : Client S) P calls :
  correlated k c ->
  (forall id, id ∈ P -> id ∈ cl_pending c /\ calls !! id = cl_calls c !! id) ->
  (forall id m, calls !! id = Some m ->
     is_Some (cl_calls c !! id) /\ forall resp, m = Some resp -> ID resp = id) ->
  correlated k (cl_with_calls c P calls).
Proof.
  intros (Hs & Hp & Hc) HP HC. split; [done|]. split; cbn.
  - intros id H. destruct (HP id H) as [H1 ->]. auto.
  - intros id m H. destruct (HC id m H) as [[m' Hm'] H']. split; [|done].
    by destruct (Hc _ _ Hm').
Qed.

Lemma correlated_draw {S} k (c : Client S) :
  correlated k c -> 0 <= k -> k + 1 < 2 ^ 64 ->
  correlated (k + 1) (cl_set c (cl_conn c) (next_id c) (cl_incomingCh c) (cl_pending c) (cl_calls c)).
Proof.
  intros (Hs & Hp & Hc) H0 H1. rewrite (next_id_small c k) by lia.
  split; [done|]. split; cbn; intros id; [intros H|intros m H].
  - destruct (Hp _ H). split; [lia|done].
  - destruct (Hc _ _ H). split; [lia|done].
Qed.

Lemma correlated_request {S} k (c : Client S) n msg c1 n1 id e :
  correlated k c -> 0 <= k -> k + 1 < 2 ^ 64 ->
  Request_begin c n msg = (c1, n1, id, e) -> correlated (k + 1) c1.
Proof.
  intros HI H0 H1. unfold Request_begin. rewrite (next_id_small c k) by (done || apply HI).
  destruct HI as (Hs & Hp & Hc).
  destruct (Client_SendMessage _ _ _) as [n' [e'|]]; intros [= <- <- <- <-];
    (split; [done|]); split; cbn; intros i.
  - intros Hi. destruct (decide (i = k + 1)) as [->|]; [set_solver|].
    destruct (Hp i) as [? ?]; [set_solver|]. split; [lia|].
    by rewrite lookup_delete_ne, lookup_insert_ne by done.
  - intros m. destruct (decide (i = k + 1)) as [->|]; [by rewrite lookup_delete_eq|].
    rewrite lookup_delete_ne, lookup_insert_ne by done. intros H.
    destruct (Hc _ _ H). split; [lia|done].
  - intros Hi. destruct (decide (i = k + 1)) as [->|].
    + rewrite lookup_insert_eq. split; [lia|done].
    + destruct (Hp i) as [? ?]; [set_solver|]. rewrite lookup_insert_ne by done. split; [lia|done].
  - intros m. destruct (decide (i = k + 1)) as [->|].
    + rewrite lookup_insert_eq. intros [= <-]. split; [lia|done].
    + rewrite lookup_insert_ne by done. intros H. destruct (Hc _ _ H). split; [lia|done].
Qed.

Lemma correlated_message {S} k (c : Client S) n w msg c1 n1 w1 r :
  correlated k c -> readLoop_message c n w msg = Ret (c1, n1, w1, r) -> correlated k c1.
Proof.
  intros HI. unfold readLoop_message. case_bool_decide as Hin.
  - intros [= <- _ _ _]. destruct HI as (Hs & Hp & Hc). destruct (Hp _ Hin) as [Hr HN].
    rewrite HN. apply correlated_calls; [done| |].
    + intros id Hid. assert (id <> ID msg) by set_solver.
      rewrite lookup_insert_ne by done. split; [set_solver|done].
    + intros id m. destruct (decide (id = ID msg)) as [->|Hne].
      * rewrite lookup_insert_eq. intros [= <-]. split; [by eexists|]. by intros resp [= <-].
      * rewrite lookup_insert_ne by done. intros H. split; [by eexists|].
        by destruct (Hc _ _ H).
  - repeat case_match; intros; simplify_eq; try done; by destruct HI as (? & ? & ?).
Qed.

Lemma client_step_correlated {S} k (c : Client S) k' c' :
  client_step k c k' c' -> 0 <= k -> k' < 2 ^ 64 -> correlated k c -> correlated k' c'.
Proof.
  intros Hs H0 H1 HI. destruct Hs as [k c n msg c1 n1 id e HR|k c n msg c1 n1 e HS|k c id c1 msg HR|
    k c id|k c n w msg c1 n1 w1 r HM|k c conn|k c conn].
  - by eapply correlated_request.
  - unfold Client_Send in HS. destruct (Client_SendMessage _ _ _). simplify_eq.
    by apply correlated_draw.
  - unfold Request_receive in HR. destruct HI as (Hs & Hp & Hc).
    destruct (cl_calls c !! id) as [[m|]|] eqn:E; simplify_eq.
    apply correlated_calls; [by split| |].
    + intros i Hi. split; [done|]. destruct (decide (i = id)) as [->|];
        [destruct (Hp _ Hi); congruence|by rewrite lookup_delete_ne].
    + intros i m. destruct (decide (i = id)) as [->|]; [by rewrite lookup_delete_eq|].
      rewrite lookup_delete_ne by done. intros H. split; [by eexists|]. by destruct (Hc _ _ H).
  - destruct HI as (Hs & Hp & Hc). apply correlated_calls; [by split| |].
    + intros i Hi. assert (i <> id) by set_solver. rewrite lookup_delete_ne by done. set_solver.
    + intros i m. destruct (decide (i = id)) as [->|]; [by rewrite lookup_delete_eq|].
      rewrite lookup_delete_ne by done. intros H. split; [by eexists|]. by destruct (Hc _ _ H).
  - by eapply correlated_message.
  - by destruct HI as (? & ? & ?).
  - unfold readLoop_exit. case_bool_decide; by destruct HI as (? & ? & ?).
Qed.

Lemma client_step_mono {S} k (c : Client S) k' c' : client_step k c k' c' -> k <= k'.
Proof. destruct 1; lia. Qed.

Lemma client_reachable_correlated {S} k (c : Client S) :
  client_reachable k c -> 0 <= k /\ (k < 2 ^ 64 -> correlated k c).
Proof.
  induction 1 as [|k c k' c' _ [H0 IH] Hs]; [split; [done|]|].
  - intros _. split; [done|]. split; cbn; [set_solver|done].
  - pose proof (client_step_mono _ _ _ _ Hs). split; [lia|]. intros Hk.
    apply (client_step_correlated _ _ _ _ Hs); [done|done|]. apply IH. lia.
Qed.


Definition example_begin : Client unit * net * Z * option string :=
  Request_begin (connected NewClient 0) (Net ∅ ∅) {| Type_ := MsgTxStatusReq; ID := 0; Payload := [] |}.
Definition example_request : Client unit := example_begin.1.1.1.
Definition example_response : Message := {| Type_ := MsgTxStatusResp; ID := 1; Payload := [x7b] |}.


(** ** Reconnection backoff *)

Lemma next_delay_pow n :
  next_delay (Z.min (initialDelay * 2 ^ Z.of_nat n) maxBackoff)
  = Z.min (initialDelay * 2 ^ Z.of_nat (Datatypes.S n)) maxBackoff.
Proof.
  unfold next_delay, initialDelay, maxBackoff. rewrite Nat2Z.inj_succ, Z.pow_succ_r by lia. lia.
Qed.

Lemma connectWithRetry_shift m : forall n k rest,
  connectWithRetry (Z.min (initialDelay * 2 ^ Z.of_nat n) maxBackoff)
    (replicate m None ++ Some k :: rest)
  = (Some k, map (fun i => Z.min (initialDelay * 2 ^ Z.of_nat i) maxBackoff) (seq n m)).
Proof.
  induction m as [|m IH]; intros n k rest; [done|].
  change (replicate (Datatypes.S m) None ++ Some k :: rest)
    with (None :: (replicate m None ++ Some k :: rest)).
  cbn [connectWithRetry]. rewrite next_delay_pow, IH. done.
Qed.

(** A client whose first [m] dials fail connects at the next one, having
    slept 0.5 s, 1 s, 2 s, ... doubling up to the cap of 30 s. *)
Theorem connectWithRetry_backoff m k rest :
  connectWithRetry initialDelay (replicate m None ++ Some k :: rest)
  = (Some k, map (fun i => Z.min (initialDelay * 2 ^ Z.of_nat i) maxBackoff) (seq 0 m)).
Proof. exact (connectWithRetry_shift m 0 k rest). Qed.
