(* ===== verification/Tss.v ===== *)
(** * Tss: threshold keys (internal/tss)

    Key shares and their HD derivation (derivation.go), the trusted-dealer
    setup (dealer.go), the party bookkeeping and message routing of dkg.go, and
    the dispatch and event loops of DKG, Sign and Reshare (dkg.go, signing.go,
    resharing.go). tss-lib's elliptic curves, its party state machines, the JSON
    form of its save data and [SortPartyIDs] are arguments: [EllipticCurve],
    [PartyMachine], [Codec], [TssLib]. *)
From S2P Require Import Prelude GoStd Codec Crypto Protocol Transport.
From Stdlib Require Import Znumtheory.
Local Open Scope Z_scope.
Local Open Scope go_scope.

(** ** Data of tss.go *)
Notation Curve := string (only parsing).
Definition CurveSecp256k1 : Curve := "secp256k1".
Definition CurveEd25519 : Curve := "ed25519".

Record KeyShare := {
  ks_Curve : Curve; ks_PartyID : PartyID; ks_Share : bytes;
  ks_PublicKey : bytes; ks_ChainCode : bytes }.
Record DerivedKey := {
  dk_Curve : Curve; dk_DerivationPath : string; dk_Share : bytes;
  dk_PublicKey : bytes; dk_Address : string }.
Record SignRequest := { sq_DerivationPath : string; sq_Message : bytes; sq_Curve : Curve }.
Record Signature := { sig_R : Z; sig_S : Z; sig_V : byte; sig_Bytes : bytes }.

(** [TSSError.Error]; every error of the package is one of the four sentinels
    with a cause, so an error is its message. *)
Record TSSError := { te_Code : string; te_Message : string; te_Cause : option string }.
Definition TSSError_Error (e : TSSError) : string :=
  match te_Cause e with Some c => te_Message e +:+ ": " +:+ c | None => te_Message e end.
Definition WithCause (e : TSSError) (c : string) : TSSError :=
  {| te_Code := te_Code e; te_Message := te_Message e; te_Cause := Some c |}.
Definition tss_error (code msg : string) : TSSError :=
  {| te_Code := code; te_Message := msg; te_Cause := None |}.
Definition ErrInvalidPublicKey := tss_error "INVALID_PUBLIC_KEY" "invalid public key format".
Definition ErrDKGFailed := tss_error "DKG_FAILED" "distributed key generation failed".
Definition ErrSigningFailed := tss_error "SIGNING_FAILED" "threshold signing failed".
Definition ErrDerivationFailed := tss_error "DERIVATION_FAILED" "key derivation failed".
Definition ErrResharingFailed := tss_error "RESHARING_FAILED" "key resharing failed".

(** [return nil, e.WithCause(err)] where [m] fails with [err]. *)
Definition cause {A} (e : TSSError) (m : go A) : go A :=
  match m with Err c => Err (TSSError_Error (WithCause e c)) | _ => m end.

Definition point : Type := Z * Z.

Definition ECDSAPublicKey (b : bytes) : go point :=
  if negb (zlen b =? 65) || negb (bool_decide (head b = Some x04))
  then Err (TSSError_Error ErrInvalidPublicKey)
  else Ret (Binary.be_Z (take 32 (drop 1 b)), Binary.be_Z (take 32 (drop 33 b))).

(** ** Curves

    An [elliptic.Curve] of tss-lib: order, membership, addition and the multiple
    of the base point by a big-endian scalar. *)
Record EllipticCurve := {
  ec_N : Z;
  IsOnCurve : point -> bool;
  Add : point -> point -> point;
  ScalarBaseMult : bytes -> point;
}.

(** [crypto.NewECPoint]. *)
Definition NewECPoint (c : EllipticCurve) (p : point) : go point :=
  if IsOnCurve c p then Ret p else Err "NewECPoint: the given point is not on the elliptic curve".

(** What the code relies on: [ScalarBaseMult] is a homomorphism from the
    integers modulo the order, and nonzero multiples are curve points, with
    256-bit coordinates. *)
Class CurveLaws (c : EllipticCurve) := {
  mulG : Z -> point;
  ec_N_pos : 1 < ec_N c;
  ScalarBaseMult_mulG b : ScalarBaseMult c b = mulG (Binary.be_Z b);
  mulG_mod k : mulG (k mod ec_N c) = mulG k;
  mulG_add j k : Add c (mulG j) (mulG k) = mulG (j + k);
  mulG_on_curve k : k mod ec_N c <> 0 -> IsOnCurve c (mulG k) = true;
  mulG_coords k : 0 <= (mulG k).1 < 2 ^ 256 /\ 0 <= (mulG k).2 < 2 ^ 256;
}.
Arguments mulG c {_} k.

Definition bit0 (z : Z) : bool := Z.odd z.

Definition compressPublicKey (p : point) : go bytes :=
  let first := if bit0 p.2 then x03 else x02 in
  let xBytes := Big.Bytes p.1 in
  Slice.copy_at (first :: repeat x00 32) (33 - zlen xBytes) 33 xBytes.

Definition edwardsPointToEd25519PubKey (p : point) : go bytes :=
  let yBytes := Big.Bytes p.2 in
  if 32 <? zlen yBytes then Panic  (* pubKey[i] with i = 32 *)
  else
    let pubKey := rev yBytes ++ repeat x00 (32 - length yBytes) in
    let last := default x00 (pubKey !! 31%nat) in
    Ret (if bit0 p.1 then take 31 pubKey ++ [byte_of_Z (Z.lor (Z_of_byte last) 0x80)] else pubKey).

(** ** Derivation paths *)
Definition hardenedOffset : Z := 0x80000000.

Section Paths.
Context `{Unicode}.

Definition drop_last (s : string) : string := String.substring 0 (String.length s - 1) s.

(** One path component; an empty one is skipped by the caller. *)
Definition parseComponent (part : string) : go Z :=
  let hardened := Strings.HasSuffix part "'" || Strings.HasSuffix part "h" || Strings.HasSuffix part "H" in
  let part := if hardened then drop_last part else part in
  idx ← Strconv.ParseUint part 31 ?: ("invalid path component " +:+ Strconv.Quote part);
  Ret (if hardened then idx + hardenedOffset else idx).

Definition parsePath (path : string) : go (list Z) :=
  let path := Strings.TrimPrefix path "m/" in
  if bool_decide (path = "") then Err "empty derivation path"
  else go_mapM parseComponent (filter (fun part => part <> "") (Strings.Split path "/")).

End Paths.

(** ** Save data and its derivation

    The fields of tss-lib's [LocalPartySaveData] the package reads or writes;
    [aux] is the rest (Paillier keys, ring-Pedersen parameters, ...), which for
    ed25519 is empty. *)
Record SaveData (aux : Type) := {
  sd_aux : aux;
  Xi : Z;
  ShareID : Z;
  Ks : list Z;
  BigXj : list (option point);
  Pub : option point;      (* ECDSAPub, EDDSAPub *)
}.
Arguments sd_aux {aux} _.
Arguments Xi {aux} _.
Arguments ShareID {aux} _.
Arguments Ks {aux} _.
Arguments BigXj {aux} _.
Arguments Pub {aux} _.

(** The derivation state of one loop iteration. *)
Record dstate := {
  d_pub : point; d_chain : bytes; d_Xi : Z; d_BigXj : list (option point) }.

(** [newX, newY := curve.Add(...); bigXj[j], _ = NewECPoint(...)]: the error is
    dropped and leaves a nil point. *)
Definition shift_point (c : EllipticCurve) (q : point) (o : option point) : option point :=
  p ← o; to_option (NewECPoint c (Add c p q)).

Definition derive_data (c : EllipticCurve) (s : dstate) (idx : Z) : go (bytes * bytes) :=
  compressed ← compressPublicKey (d_pub s);
  let mac := Hmac.Sum512 (d_chain s) (compressed ++ Binary.be_bytes 4 idx) in
  Ret (take 32 mac, drop 32 mac).

Definition d_advance (c : EllipticCurve) (s : dstate) (ilInt : Z) (ilG : point) (ir : bytes) : dstate :=
  {| d_pub := Add c (d_pub s) ilG; d_chain := ir;
     d_Xi := (d_Xi s + ilInt) mod ec_N c;
     d_BigXj := map (shift_point c ilG) (d_BigXj s) |}.

Definition deriveECDSA_step (c : EllipticCurve) (s : dstate) (idx : Z) : go dstate :=
  '(il, ir) ← derive_data c s idx;
  let ilInt := Binary.be_Z il in
  if ec_N c <=? ilInt then
    Err (TSSError_Error (WithCause ErrDerivationFailed
          ("derived key >= curve order at index " +:+ Strconv.Itoa idx)))
  else Ret (d_advance c s ilInt (ScalarBaseMult c il) ir).

Definition deriveEdDSA_step (c : EllipticCurve) (s : dstate) (idx : Z) : go dstate :=
  '(il, ir) ← derive_data c s idx;
  let ilInt := Binary.be_Z il mod ec_N c in
  let ilB := Big.Bytes ilInt in
  ilBytes ← Slice.copy_at (repeat x00 32) (32 - zlen ilB) 32 ilB;
  Ret (d_advance c s ilInt (ScalarBaseMult c ilBytes) ir).

Definition deref {A} (o : option A) : go A := match o with Some x => Ret x | None => Panic end.

(** [pubKeyBytes] of deriveECDSA: 0x04, then both coordinates left-padded. *)
Definition uncompressed (p : point) : go bytes :=
  let xBytes := Big.Bytes p.1 in
  let yBytes := Big.Bytes p.2 in
  b1 ← Slice.copy_at (x04 :: repeat x00 64) (33 - zlen xBytes) 33 xBytes;
  Slice.copy_at b1 (65 - zlen yBytes) 65 yBytes.

Definition init_state {aux} (c : EllipticCurve) (chain : bytes) (save : SaveData aux) (p : point) : dstate :=
  {| d_pub := p; d_chain := chain; d_Xi := Xi save;
     d_BigXj := map (fun o => p ← o; to_option (NewECPoint c p)) (BigXj save) |}.

Definition derived_save {aux} (save : SaveData aux) (s : dstate) (p : point) : SaveData aux :=
  {| sd_aux := sd_aux save; Xi := d_Xi s; ShareID := ShareID save; Ks := Ks save;
     BigXj := d_BigXj s; Pub := Some p |}.

(** Both derivations share this shape: decode the share, run the loop, encode
    the public key, check the derived point and re-encode the share. *)
Definition derive_with {aux} `{Codec (SaveData aux)} (c : EllipticCurve)
    (step : dstate -> Z -> go dstate) (encode_pub : point -> go bytes)
    (masterShare : KeyShare) (derivationPath : string) (indices : list Z) : go DerivedKey :=
  save ← cause ErrDerivationFailed ((Unmarshal (ks_Share masterShare) : go (SaveData aux)) ?: "unmarshal share");
  p0 ← deref (Pub save);
  s ← go_foldM step (init_state c (ks_ChainCode masterShare) save p0) indices;
  pubKeyBytes ← encode_pub (d_pub s);
  derivedPub ← cause ErrDerivationFailed (NewECPoint c (d_pub s) ?: "create derived public key point");
  derivedShareData ← cause ErrDerivationFailed
    (Marshal (derived_save save s derivedPub) ?: "marshal derived share");
  Ret {| dk_Curve := ks_Curve masterShare; dk_DerivationPath := derivationPath;
         dk_Share := derivedShareData; dk_PublicKey := pubKeyBytes; dk_Address := "" |}.

Definition deriveECDSA {aux} `{Codec (SaveData aux)} (c : EllipticCurve) :=
  derive_with c (deriveECDSA_step c) uncompressed.
Definition deriveEdDSA {aux} `{Codec (SaveData aux)} (c : EllipticCurve) :=
  derive_with c (deriveEdDSA_step c) edwardsPointToEd25519PubKey.

Section DeriveKey.
Context `{Unicode} {aux : Type} `{Codec (SaveData aux)} `{Codec (SaveData unit)}.
Context (S256 Edwards : EllipticCurve).

Definition DeriveKey (masterShare : KeyShare) (derivationPath : string) : go DerivedKey :=
  indices ← cause ErrDerivationFailed (parsePath derivationPath);
  if bool_decide (ks_Curve masterShare = CurveSecp256k1)
  then deriveECDSA (aux := aux) S256 masterShare derivationPath indices
  else if bool_decide (ks_Curve masterShare = CurveEd25519)
  then deriveEdDSA (aux := unit) Edwards masterShare derivationPath indices
  else Err (TSSError_Error (WithCause ErrDerivationFailed
              ("derivation not supported for curve " +:+ ks_Curve masterShare))).
End DeriveKey.

(** ** Parties *)

(** tss-lib's [tss.PartyID]. *)
Record tss_PartyID := { Id : string; Moniker : string; Key : bytes; Index : Z }.

(** [tss.SortPartyIDs], which orders by key and numbers the parties. *)
Class TssLib := SortPartyIDs : list tss_PartyID -> list tss_PartyID.

Definition string_ltb (a b : string) : bool :=
  match String.compare a b with Lt => true | _ => false end.
Fixpoint insert_sorted {A} (less : A -> A -> bool) (x : A) (l : list A) : list A :=
  match l with
  | [] => [x]
  | y :: l' => if less y x then y :: insert_sorted less x l' else x :: l
  end.
(** [sort.Slice]: a sort by [less]; on lists without equivalent elements the
    result is unique. *)
Definition sort_Slice {A} (less : A -> A -> bool) (l : list A) : list A :=
  foldr (insert_sorted less) [] l.

Section Parties.
Context `{TssLib}.

(** [tss.NewPartyID] keeps [key.Bytes()] and starts with index -1. *)
Definition NewPartyID (id moniker : string) (key : Z) : tss_PartyID :=
  {| Id := id; Moniker := moniker; Key := Big.Bytes key; Index := -1 |}.

Definition makeSortedPartyIDs (parties : list PartyID) : list tss_PartyID :=
  let sorted := sort_Slice (fun a b => string_ltb (pid_ID a) (pid_ID b)) parties in
  SortPartyIDs (map (fun p =>
    NewPartyID (pid_ID p) ("party-" +:+ Strconv.Itoa (pid_Index p))
               (Binary.be_Z (bytes_of (pid_ID p)))) sorted).

Definition findPartyID (sortedIDs : list tss_PartyID) (id : string) : option tss_PartyID :=
  List.find (fun pid => bool_decide (Id pid = id)) sortedIDs.

(** The entries of [a] then [b] whose ID was not seen before. *)
Fixpoint dedup_ids (seen : list string) (l : list tss_PartyID) : list tss_PartyID :=
  match l with
  | [] => []
  | p :: l' =>
    if bool_decide (Id p ∈ seen) then dedup_ids seen l' else p :: dedup_ids (Id p :: seen) l'
  end.
Definition mergeSortedPartyIDs (a b : list tss_PartyID) : list tss_PartyID :=
  SortPartyIDs (dedup_ids [] (a ++ b)).

Definition KeyInt (p : tss_PartyID) : Z := Binary.be_Z (Key p).
Definition party_of (p : tss_PartyID) : PartyID := {| pid_ID := Id p; pid_Index := Index p |}.

(** ** The trusted dealer (dealer.go) *)

(** One share: [xi] of the inner loop of [shamirSplit]. *)
Fixpoint eval_share (modulus k : Z) (coeffs : list Z) (xi kPower : Z) : Z :=
  match coeffs with
  | [] => xi
  | c :: cs =>
    let term := (c * kPower) mod modulus in
    eval_share modulus k cs ((xi + term) mod modulus) ((kPower * k) mod modulus)
  end.

(** [rand i] is the outcome of the [i]-th [rand.Int(rand.Reader, modulus)]. *)
Definition shamirSplit (rand : nat -> go Z) (secret : Z) (shareIDs : list Z) (threshold modulus : Z)
    : go (list Z) :=
  if threshold <? 0 then Panic
  else
    coeffs ← go_mapM (fun i => rand i ?: "generate random coefficient") (seq 0 (Z.to_nat threshold));
    Ret (map (fun k => eval_share modulus k coeffs secret k) shareIDs).

Definition bigX (c : EllipticCurve) (i : nat) (xi : Z) : go point :=
  NewECPoint c (ScalarBaseMult c (Big.Bytes xi))
    ?: ("compute BigXj[" +:+ Strconv.Itoa (Z.of_nat i) +:+ "]").

(** The loop that builds one [KeyShare] per party. *)
Definition build_shares {aux} `{Codec (SaveData aux)} (curve : Curve) (pubKeyBytes chainCode : bytes)
    (sortedIDs : list tss_PartyID) (auxs : list aux) (shares shareIDs : list Z)
    (bigXj : list point) (pub : point) : go (list KeyShare) :=
  go_mapM (fun i =>
    a ← Slice.index auxs (Z.of_nat i);
    xi ← Slice.index shares (Z.of_nat i);
    id ← Slice.index shareIDs (Z.of_nat i);
    pid ← Slice.index sortedIDs (Z.of_nat i);
    shareData ← Marshal {| sd_aux := a; Xi := xi; ShareID := id; Ks := shareIDs;
                           BigXj := map Some bigXj; Pub := Some pub |}
      ?: ("marshal save data for party " +:+ Strconv.Itoa (Z.of_nat i));
    Ret {| ks_Curve := curve; ks_PartyID := party_of pid; ks_Share := shareData;
           ks_PublicKey := pubKeyBytes; ks_ChainCode := chainCode |}) (seq 0 (length auxs)).

Context {preParams aux : Type} `{Codec (SaveData aux)} `{Codec (SaveData unit)}.
(** The non-Shamir part of party [i]'s save data: its own pre-parameters and
    the public parts of everybody's (NTildej, H1j, H2j, PaillierPKs). *)
Context (mk_aux : list preParams -> nat -> aux).
Context (S256 Edwards : EllipticCurve) (rand : nat -> go Z).

Definition DealerSetupECDSA (privateKey : Z) (pubKeyBytes chainCode : bytes)
    (parties : list PartyID) (pps : list preParams) : go (list KeyShare) :=
  if negb (zlen parties =? zlen pps) then Err "parties and preParams length mismatch"
  else
    let sortedIDs := makeSortedPartyIDs parties in
    let shareIDs := map KeyInt sortedIDs in
    shares ← shamirSplit rand privateKey shareIDs (zlen parties - 1) (ec_N S256) ?: "shamir split";
    bigXj ← go_mapM (fun '(i, xi) => bigX S256 i xi) (combine (seq 0 (length shares)) shares);
    xB ← Slice.sub pubKeyBytes 1 33;
    yB ← Slice.sub pubKeyBytes 33 65;
    ecdsaPub ← NewECPoint S256 (Binary.be_Z xB, Binary.be_Z yB) ?: "construct ECDSA pub point";
    build_shares CurveSecp256k1 pubKeyBytes chainCode sortedIDs
      (map (mk_aux pps) (seq 0 (length pps))) shares shareIDs bigXj ecdsaPub.

Definition DealerSetupEdDSA (signingScalar : Z) (pubKeyBytes chainCode : bytes)
    (parties : list PartyID) : go (list KeyShare) :=
  let sortedIDs := makeSortedPartyIDs parties in
  let shareIDs := map KeyInt sortedIDs in
  shares ← shamirSplit rand signingScalar shareIDs (zlen parties - 1) (ec_N Edwards) ?: "shamir split";
  bigXj ← go_mapM (fun '(i, xi) => bigX Edwards i xi) (combine (seq 0 (length shares)) shares);
  eddsaPub ← NewECPoint Edwards (ScalarBaseMult Edwards (Big.Bytes signingScalar))
    ?: "construct EdDSA pub point";
  build_shares CurveEd25519 pubKeyBytes chainCode sortedIDs
    (repeat tt (length parties)) shares shareIDs bigXj eddsaPub.
End Parties.

(** ** Message routing (dkg.go) *)

Record wireMessage := { wm_From : string; wm_IsBroadcast : bool; wm_Payload : bytes }.

(** What tss-lib gives for an outgoing message: sender, recipients, bytes. *)
Record tss_Message := {
  tm_From : tss_PartyID; tm_IsBroadcast : bool; tm_To : list tss_PartyID; tm_WireBytes : go bytes }.

(** A running tss-lib party. *)
Class PartyMachine (P : Type) := {
  UpdateFromBytes : P -> bytes -> tss_PartyID -> bool -> P * go unit;
}.

(** [tss.MessageRouter.Send]. *)
Class MessageRouter (R : Type) := router_Send : R -> PartyID -> bytes -> R * option string.

Section Routing.
Context `{Codec wireMessage} {R : Type} `{MessageRouter R} {P : Type} `{PartyMachine P}.

Fixpoint send_all (r : R) (data : bytes) (tos : list tss_PartyID) : R * go unit :=
  match tos with
  | [] => (r, Ret tt)
  | pid :: tos' =>
    match router_Send r (party_of pid) data with
    | (r1, Some e) => (r1, Err ("send to " +:+ Id pid +:+ ": " +:+ e))
    | (r1, None) => send_all r1 data tos'
    end
  end.

Definition routeMessage (msg : tss_Message) (sortedIDs : list tss_PartyID) (r : R) : R * go unit :=
  match tm_WireBytes msg ?: "wire bytes" with
  | Err e => (r, Err e)
  | Panic => (r, Panic)
  | Ret b =>
    match Marshal {| wm_From := Id (tm_From msg); wm_IsBroadcast := tm_IsBroadcast msg;
                     wm_Payload := b |} ?: "marshal wire message" with
    | Err e => (r, Err e)
    | Panic => (r, Panic)
    | Ret data =>
      send_all r data
        (if tm_IsBroadcast msg then filter (fun pid => Id pid <> Id (tm_From msg)) sortedIDs
         else tm_To msg)
    end
  end.

Definition handleIncoming (party : P) (incoming : IncomingMessage) (sortedIDs : list tss_PartyID)
    : P * go unit :=
  match (Unmarshal (im_Payload incoming) : go wireMessage) ?: "unmarshal wire message" with
  | Err e => (party, Err e)
  | Panic => (party, Panic)
  | Ret wireMsg =>
    match findPartyID sortedIDs (wm_From wireMsg) with
    | None => (party, Err ("unknown sender: " +:+ wm_From wireMsg))
    | Some from =>
      let '(party1, res) := UpdateFromBytes party (wm_Payload wireMsg) from (wm_IsBroadcast wireMsg) in
      (party1, res ?: "update from bytes")
    end
  end.

(** ** The event loops

    What the [select] of a protocol loop can take next. [RouteErr] is an error
    of the goroutine that drains the party's output channel; [Out] is the same
    message taken by the loop itself, as the resharing loops do. *)
Inductive event (save : Type) :=
| CtxDone (e : string)
| PartyErr (e : string)
| RouteErr (e : string)
| Out (msg : tss_Message)
| Incoming (msg : IncomingMessage)
| InClosed
| End_ (s : save).
Arguments CtxDone {save} e.
Arguments PartyErr {save} e.
Arguments RouteErr {save} e.
Arguments Out {save} msg.
Arguments Incoming {save} msg.
Arguments InClosed {save}.
Arguments End_ {save} s.

(** A loop over the events in the order [select] takes them: [None] while it
    still waits. *)
Fixpoint run_loop {save out} (err : TSSError) (finish : save -> go out)
    (sortedIDs : list tss_PartyID) (party : P) (r : R) (evs : list (event save)) : option (go out) :=
  let fail e := Some (Err (TSSError_Error (WithCause err e))) in
  match evs with
  | [] => None
  | CtxDone e :: _ => fail e
  | PartyErr e :: _ => fail ("tss error: " +:+ e)
  | RouteErr e :: _ => fail ("route error: " +:+ e)
  | InClosed :: _ => fail "incoming channel closed"
  | End_ s :: _ => Some (finish s)
  | Out msg :: evs' =>
    match routeMessage msg sortedIDs r with
    | (r1, Ret _) => run_loop err finish sortedIDs party r1 evs'
    | (_, Err e) => fail e
    | (_, Panic) => Some Panic
    end
  | Incoming msg :: evs' =>
    match handleIncoming party msg sortedIDs with
    | (party1, Ret _) => run_loop err finish sortedIDs party1 r evs'
    | (_, Err e) => fail e
    | (_, Panic) => Some Panic
    end
  end.
End Routing.
Arguments CtxDone {save} e.
Arguments PartyErr {save} e.
Arguments RouteErr {save} e.
Arguments Out {save} msg.
Arguments Incoming {save} msg.
Arguments InClosed {save}.
Arguments End_ {save} s.

(** ** Results of the protocols *)

(** crypto/elliptic's [Marshal] on a 256-bit curve. *)
Definition elliptic_Marshal (c : EllipticCurve) (p : point) : go bytes :=
  if IsOnCurve c p && (p.1 <? 2 ^ 256) && (p.2 <? 2 ^ 256)
  then Ret (x04 :: Binary.be_bytes 32 p.1 ++ Binary.be_bytes 32 p.2) else Panic.

Section Protocols.
Context `{TssLib} {preParams aux : Type} `{Codec (SaveData aux)} `{Codec (SaveData unit)} `{Codec wireMessage}.
Context {R : Type} `{MessageRouter R} {P : Type} `{PartyMachine P}.
Context (S256 Edwards : EllipticCurve).

Definition marshalECDSAKeyShare (curve : Curve) (pid : tss_PartyID) (save : SaveData aux) : go KeyShare :=
  shareData ← cause ErrDKGFailed (Marshal save ?: "marshal save data");
  pubKey ← deref (Pub save);
  pubKeyBytes ← elliptic_Marshal S256 pubKey;
  Ret {| ks_Curve := curve; ks_PartyID := party_of pid; ks_Share := shareData;
         ks_PublicKey := pubKeyBytes; ks_ChainCode := Sha256.Sum256 pubKeyBytes |}.

Definition marshalEdDSAKeyShare (pid : tss_PartyID) (save : SaveData unit) : go KeyShare :=
  shareData ← cause ErrDKGFailed (Marshal save ?: "marshal save data");
  pubKey ← deref (Pub save);
  pubKeyBytes ← edwardsPointToEd25519PubKey pubKey;
  Ret {| ks_Curve := CurveEd25519; ks_PartyID := party_of pid; ks_Share := shareData;
         ks_PublicKey := pubKeyBytes; ks_ChainCode := Sha256.Sum256 pubKeyBytes |}.

(** [TSSProtocol]; [GetPreParams] is optional. *)
Record TSSProtocol := {
  Threshold : Z;
  GetPreParams : option (PartyID -> go preParams) }.
Definition NewProtocol (threshold : Z) : TSSProtocol :=
  {| Threshold := threshold; GetPreParams := None |}.

(** tss-lib's party constructors, and its pre-parameter generator. *)
Context (GeneratePreParams : go preParams).
Context (new_dkgECDSA : list tss_PartyID -> tss_PartyID -> Z -> preParams -> P).
Context (new_dkgEdDSA : list tss_PartyID -> tss_PartyID -> Z -> P).
Context (new_signECDSA : Z -> list tss_PartyID -> tss_PartyID -> Z -> SaveData aux -> P).
Context (new_signEdDSA : Z -> list tss_PartyID -> tss_PartyID -> Z -> SaveData unit -> P).

Definition threshold_for (p : TSSProtocol) (parties : list PartyID) : Z :=
  if Threshold p =? 0 then zlen parties - 1 else Threshold p.

(** [fail] before the loop starts. *)
Definition start {A B} (m : go A) (k : A -> option (go B)) : option (go B) :=
  match m with Ret a => k a | Err e => Some (Err e) | Panic => Some Panic end.

Definition pre_params (p : TSSProtocol) (partyID : PartyID) : go preParams :=
  match GetPreParams p with
  | Some f => cause ErrDKGFailed (f partyID ?: "get pre-params")
  | None => cause ErrDKGFailed (GeneratePreParams ?: "generate pre-params")
  end.

Definition this_party (err : TSSError) (suffix : string) (sortedIDs : list tss_PartyID)
    (partyID : PartyID) : go tss_PartyID :=
  cause err (from_option_err ("party " +:+ pid_ID partyID +:+ suffix) (findPartyID sortedIDs (pid_ID partyID))).

Definition runDKGLoop (curve : Curve) (me : tss_PartyID) (sortedIDs : list tss_PartyID) (party : P)
    (r : R) (evs : list (event (SaveData aux))) : option (go KeyShare) :=
  run_loop ErrDKGFailed (marshalECDSAKeyShare curve me) sortedIDs party r evs.
Definition runEdDSADKGLoop (me : tss_PartyID) (sortedIDs : list tss_PartyID) (party : P)
    (r : R) (evs : list (event (SaveData unit))) : option (go KeyShare) :=
  run_loop ErrDKGFailed (marshalEdDSAKeyShare me) sortedIDs party r evs.

Definition dkgECDSA (p : TSSProtocol) (partyID : PartyID) (parties : list PartyID) (threshold : Z)
    (r : R) (evs : list (event (SaveData aux))) : option (go KeyShare) :=
  let sortedIDs := makeSortedPartyIDs parties in
  start (this_party ErrDKGFailed " not found in party list" sortedIDs partyID) (fun me =>
  start (pre_params p partyID) (fun pp =>
  runDKGLoop CurveSecp256k1 me sortedIDs (new_dkgECDSA sortedIDs me threshold pp) r evs)).

Definition dkgEdDSA (partyID : PartyID) (parties : list PartyID) (threshold : Z)
    (r : R) (evs : list (event (SaveData unit))) : option (go KeyShare) :=
  let sortedIDs := makeSortedPartyIDs parties in
  start (this_party ErrDKGFailed " not found in party list" sortedIDs partyID) (fun me =>
  runEdDSADKGLoop me sortedIDs (new_dkgEdDSA sortedIDs me threshold) r evs).

(** The events of the loop the curve selects; [DKG]'s two loops read the same
    kinds of events with different save data. *)
Definition DKG (p : TSSProtocol) (curve : Curve) (partyID : PartyID) (parties : list PartyID) (r : R)
    (evs : list (event (SaveData aux))) (evs' : list (event (SaveData unit))) : option (go KeyShare) :=
  let threshold := threshold_for p parties in
  if bool_decide (curve = CurveSecp256k1) then dkgECDSA p partyID parties threshold r evs
  else if bool_decide (curve = CurveEd25519) then dkgEdDSA partyID parties threshold r evs'
  else Some (Err (TSSError_Error (WithCause ErrDKGFailed ("unsupported curve: " +:+ curve)))).

(** tss-lib's [common.SignatureData]. *)
Record SignatureData := { sgd_R : bytes; sgd_S : bytes; sgd_Signature : bytes; sgd_SignatureRecovery : bytes }.

Definition convertSignature (d : SignatureData) : Signature :=
  {| sig_R := Binary.be_Z (sgd_R d); sig_S := Binary.be_Z (sgd_S d);
     sig_V := default x00 (head (sgd_SignatureRecovery d)); sig_Bytes := sgd_Signature d |}.

Definition runSignLoop (sortedIDs : list tss_PartyID) (party : P) (r : R)
    (evs : list (event SignatureData)) : option (go Signature) :=
  run_loop ErrSigningFailed (fun d => Ret (convertSignature d)) sortedIDs party r evs.

Definition sign_with {sd} `{Codec sd} (new : Z -> list tss_PartyID -> tss_PartyID -> Z -> sd -> P)
    (message keyShareData : bytes) (partyID : PartyID) (parties : list PartyID) (threshold : Z)
    (r : R) (evs : list (event SignatureData)) : option (go Signature) :=
  start (cause ErrSigningFailed ((Unmarshal keyShareData : go sd) ?: "unmarshal key share")) (fun save =>
  let sortedIDs := makeSortedPartyIDs parties in
  start (this_party ErrSigningFailed " not found" sortedIDs partyID) (fun me =>
  runSignLoop sortedIDs (new (Binary.be_Z message) sortedIDs me threshold save) r evs)).
Definition signECDSA := sign_with new_signECDSA.
Definition signEdDSA := sign_with new_signEdDSA.

Definition Sign (p : TSSProtocol) (req : SignRequest) (keyShareData : bytes) (partyID : PartyID)
    (parties : list PartyID) (r : R) (evs : list (event SignatureData)) : option (go Signature) :=
  let threshold := threshold_for p parties in
  if bool_decide (sq_Curve req = CurveSecp256k1)
  then signECDSA (sq_Message req) keyShareData partyID parties threshold r evs
  else if bool_decide (sq_Curve req = CurveEd25519)
  then signEdDSA (sq_Message req) keyShareData partyID parties threshold r evs
  else Some (Err (TSSError_Error (WithCause ErrSigningFailed ("unsupported curve: " +:+ sq_Curve req)))).

(** *** Resharing *)

(** tss-lib's resharing constructors: old and new committee, this party,
    thresholds and save data ([None]: a fresh one). *)
Context (new_reshareECDSA : list tss_PartyID -> list tss_PartyID -> tss_PartyID -> Z -> Z -> option (SaveData aux) -> P).
Context (new_reshareEdDSA : list tss_PartyID -> list tss_PartyID -> tss_PartyID -> Z -> Z -> option (SaveData unit) -> P).

(** The end of a resharing loop; a nil [oldShare] is dereferenced. *)
Definition reshare_finish {save} (marshal : Curve -> save -> go KeyShare) (oldShare : option KeyShare)
    (s : save) : go KeyShare :=
  old ← deref oldShare;
  ks ← cause ErrResharingFailed (marshal (ks_Curve old) s);
  Ret {| ks_Curve := ks_Curve ks; ks_PartyID := ks_PartyID ks; ks_Share := ks_Share ks;
         ks_PublicKey := ks_PublicKey ks; ks_ChainCode := ks_ChainCode old |}.

Definition runReshareECDSALoop (me : tss_PartyID) (allIDs : list tss_PartyID) (party : P)
    (oldShare : option KeyShare) (r : R) (evs : list (event (SaveData aux))) : option (go KeyShare) :=
  run_loop ErrResharingFailed
    (reshare_finish (fun curve s => marshalECDSAKeyShare curve me s) oldShare) allIDs party r evs.
Definition runReshareEdDSALoop (me : tss_PartyID) (allIDs : list tss_PartyID) (party : P)
    (oldShare : option KeyShare) (r : R) (evs : list (event (SaveData unit))) : option (go KeyShare) :=
  run_loop ErrResharingFailed
    (reshare_finish (fun _ s => marshalEdDSAKeyShare me s) oldShare) allIDs party r evs.

Definition reshare_with {sd} `{Codec sd}
    (new : list tss_PartyID -> list tss_PartyID -> tss_PartyID -> Z -> Z -> option sd -> P)
    (loop : tss_PartyID -> list tss_PartyID -> P -> option KeyShare -> R -> list (event sd) -> option (go KeyShare))
    (oldShare : option KeyShare) (partyID : PartyID) (oldParties newParties : list PartyID)
    (threshold : Z) (r : R) (evs : list (event sd)) : option (go KeyShare) :=
  let oldIDs := makeSortedPartyIDs oldParties in
  let newIDs := makeSortedPartyIDs newParties in
  let oldThreshold := zlen oldParties - 1 in
  let run me save :=
    loop me (mergeSortedPartyIDs oldIDs newIDs)
      (new oldIDs newIDs me oldThreshold threshold save) oldShare r evs in
  match findPartyID oldIDs (pid_ID partyID), findPartyID newIDs (pid_ID partyID) with
  | None, None => Some (Err (TSSError_Error (WithCause ErrResharingFailed
                    ("party " +:+ pid_ID partyID +:+ " not in old or new committee"))))
  | Some me, _ =>
    start (old ← deref oldShare;
           cause ErrResharingFailed ((Unmarshal (ks_Share old) : go sd) ?: "unmarshal old share"))
      (fun save => run me (Some save))
  | None, Some me => run me None
  end.

Definition reshareECDSA := reshare_with new_reshareECDSA runReshareECDSALoop.
Definition reshareEdDSA := reshare_with new_reshareEdDSA runReshareEdDSALoop.

Definition Reshare (p : TSSProtocol) (curve : Curve) (oldShare : option KeyShare) (partyID : PartyID)
    (oldParties newParties : list PartyID) (r : R)
    (evs : list (event (SaveData aux))) (evs' : list (event (SaveData unit))) : option (go KeyShare) :=
  let threshold := threshold_for p newParties in
  if bool_decide (curve = CurveSecp256k1)
  then reshareECDSA oldShare partyID oldParties newParties threshold r evs
  else if bool_decide (curve = CurveEd25519)
  then reshareEdDSA oldShare partyID oldParties newParties threshold r evs'
  else Some (Err (TSSError_Error (WithCause ErrResharingFailed ("unsupported curve: " +:+ curve)))).
End Protocols.
Arguments TSSProtocol : clear implicits.
