(* ===== verification/TssFacts.v ===== *)
(** * TssFacts: correctness of the threshold-key layer

    Party ordering, Shamir sharing (reconstruction and secrecy), derivation
    paths, and the consistency of per-party derivation: shares of a secret stay
    shares of the derived secret, whose public key both parties compute. *)
From S2P Require Import Prelude GoStd Codec Crypto Protocol Transport Tss.
From Stdlib Require Import Znumtheory Sorting.Sorted Sorting.Permutation.
Local Open Scope Z_scope.

(** ** Party ordering *)

Section Sorting.
Context {A : Type} (less : A -> A -> bool).
Context (less_irrefl : forall x, less x x = false).
Context (less_trans : forall x y z, less x y = true -> less y z = true -> less x z = true).

Lemma insert_sorted_perm x l : Permutation (insert_sorted less x l) (x :: l).
Proof.
  induction l as [|y l IH]; cbn; [done|]. destruct (less y x); [|done].
  rewrite IH. apply perm_swap.
Qed.

Lemma sort_Slice_perm l : Permutation (sort_Slice less l) l.
Proof. induction l as [|x l IH]; cbn; [done|]. rewrite insert_sorted_perm. by constructor. Qed.

Definition total_on (l : list A) : Prop :=
  forall x y, In x l -> In y l -> x <> y -> less x y = true \/ less y x = true.

Lemma insert_sorted_sorted x l : NoDup (x :: l) -> total_on (x :: l) ->
  StronglySorted (fun a b => less a b = true) l ->
  StronglySorted (fun a b => less a b = true) (insert_sorted less x l).
Proof.
  induction l as [|y l IH]; cbn; intros Hnd Ht Hs; [by repeat constructor|].
  apply NoDup_cons in Hnd as [Hx Hnd]. apply StronglySorted_inv in Hs as [Hs Hy].
  assert (x <> y) by (intros ->; apply Hx; left).
  destruct (less y x) eqn:E; constructor.
  - apply IH; [|intros a b ? ?; apply Ht; cbn in *; tauto|done].
    apply NoDup_cons in Hnd as [? ?]. constructor; [|done]. intros H'. apply Hx. by right.
  - eapply Permutation_Forall; [symmetry; apply insert_sorted_perm|]. by constructor.
  - by constructor.
  - assert (Hl : less x y = true) by (destruct (Ht x y); cbn; auto; congruence).
    constructor; [done|]. eapply Forall_impl; [exact Hy|]. intros b Hb. by eapply less_trans.
Qed.

Lemma sort_Slice_sorted l : NoDup l -> total_on l ->
  StronglySorted (fun a b => less a b = true) (sort_Slice less l).
Proof.
  induction l as [|x l IH]; intros Hnd Ht; [constructor|].
  change (sort_Slice less (x :: l)) with (insert_sorted less x (sort_Slice less l)).
  pose proof Hnd as [_ Hl]%NoDup_cons. apply insert_sorted_sorted.
  - by rewrite sort_Slice_perm.
  - intros a b Ha Hb. apply Ht; [destruct Ha as [->|Ha]|destruct Hb as [->|Hb]]; try (by left); right;
      by eapply Permutation_in; [apply sort_Slice_perm|].
  - apply IH; [done|]. intros a b ? ?. apply Ht; by right.
Qed.

(** [sort.Slice] of a list without ties does not depend on the input order. *)
Lemma sort_Slice_unique l l' : NoDup l -> total_on l -> Permutation l l' ->
  sort_Slice less l = sort_Slice less l'.
Proof.
  intros Hnd Ht Hp.
  assert (Hs := sort_Slice_sorted l Hnd Ht).
  assert (Hs' : StronglySorted (fun a b => less a b = true) (sort_Slice less l')).
  { apply sort_Slice_sorted; [by rewrite <- Hp|].
    intros a b Ha Hb. apply Ht; by eapply Permutation_in; [symmetry|]. }
  assert (Hpp : Permutation (sort_Slice less l) (sort_Slice less l')) by (by rewrite !sort_Slice_perm).
  revert Hs Hs' Hpp. generalize (sort_Slice less l) (sort_Slice less l').
  induction l0 as [|x l0 IH]; intros l1 Hs Hs' Hpp; [by apply Permutation_nil in Hpp as ->|].
  destruct l1 as [|y l1]; [by apply Permutation_sym, Permutation_nil in Hpp|].
  apply StronglySorted_inv in Hs as [Hs Hx]. apply StronglySorted_inv in Hs' as [Hs' Hy].
  assert (x = y) as ->.
  { assert (H1 : In x (y :: l1)) by (eapply Permutation_in; [exact Hpp|by left]).
    assert (H2 : In y (x :: l0)) by (eapply Permutation_in; [symmetry; exact Hpp|by left]).
    destruct H1 as [->|H1]; [done|]. destruct H2 as [->|H2]; [done|].
    rewrite Forall_forall in Hx, Hy. apply list_elem_of_In in H1, H2.
    specialize (Hx _ H2). specialize (Hy _ H1).
    pose proof (less_trans _ _ _ Hx Hy). by rewrite less_irrefl in *. }
  f_equal. apply IH; try done. by eapply Permutation_cons_inv.
Qed.
End Sorting.

Lemma ascii_compare_N a b : Ascii.compare a b = N.compare (N_of_ascii a) (N_of_ascii b).
Proof. reflexivity. Qed.

Lemma string_ltb_irrefl s : string_ltb s s = false.
Proof.
  unfold string_ltb. induction s as [|c s IH]; [done|]. cbn.
  by rewrite ascii_compare_N, N.compare_refl.
Qed.

Lemma string_ltb_trans a b c :
  string_ltb a b = true -> string_ltb b c = true -> string_ltb a c = true.
Proof.
  unfold string_ltb. revert b c. induction a as [|x a IH]; intros [|y b] [|z c]; cbn; try done.
  rewrite !ascii_compare_N.
  destruct (N.compare_spec (N_of_ascii x) (N_of_ascii y)) as [E1|E1|E1]; try done;
  destruct (N.compare_spec (N_of_ascii y) (N_of_ascii z)) as [E2|E2|E2]; try done;
  destruct (N.compare_spec (N_of_ascii x) (N_of_ascii z)) as [E3|E3|E3]; try done; try lia.
  apply IH.
Qed.

Lemma string_ltb_total a b : a <> b -> string_ltb a b = true \/ string_ltb b a = true.
Proof.
  intros Hne. unfold string_ltb. rewrite (String.compare_antisym b a).
  destruct (String.compare a b) eqn:E; cbn; auto.
  by apply String.compare_eq_iff in E.
Qed.

(** Both parties number the participants identically, whatever the order
    in which each lists them (the IDs being distinct): the share indices of
    the ceremony do not depend on who runs it. *)
Theorem makeSortedPartyIDs_order_independent `{TssLib} parties parties' :
  NoDup (map pid_ID parties) -> Permutation parties parties' ->
  makeSortedPartyIDs parties = makeSortedPartyIDs parties'.
Proof.
  intros Hnd Hp. unfold makeSortedPartyIDs. do 2 f_equal. apply sort_Slice_unique.
  - intros x. apply string_ltb_irrefl.
  - intros x y z. apply string_ltb_trans.
  - by apply (NoDup_fmap_1 pid_ID).
  - intros x y Hx Hy Hne. apply string_ltb_total. intros He. apply Hne.
    apply list_elem_of_In in Hx, Hy. 
    apply list_elem_of_lookup in Hx as [i Hi], Hy as [j Hj].
    assert (i = j) as ->; [|congruence].
    eapply NoDup_lookup; [exact Hnd| |].
    + by rewrite list_lookup_fmap, Hi.
    + rewrite list_lookup_fmap, Hj. cbn. by rewrite He.
  - done.
Qed.

Definition party_a : PartyID := {| pid_ID := "party-a"; pid_Index := 0 |}.
Definition party_b : PartyID := {| pid_ID := "party-b"; pid_Index := 1 |}.

(** A [SortPartyIDs] that numbers the parties in the order given. *)
Definition number_parties : TssLib := fun l =>
  imap (fun i p => {| Id := Id p; Moniker := Moniker p; Key := Key p; Index := Z.of_nat i |}) l.

Lemma makeSortedPartyIDs_order_independent_witness :
  makeSortedPartyIDs (H := number_parties) [party_b; party_a]
  = makeSortedPartyIDs (H := number_parties) [party_a; party_b].
Proof.
  apply makeSortedPartyIDs_order_independent.
  - vm_compute. repeat constructor; set_solver.
  - apply Permutation_swap.
Defined.

(** ** Shamir sharing *)

(** The polynomial without its constant term, [a1*x + ... + at*x^t]. *)
Fixpoint poly_from (e : nat) (coeffs : list Z) (x : Z) : Z :=
  match coeffs with
  | [] => 0
  | c :: cs => c * x ^ Z.of_nat e + poly_from (S e) cs x
  end.
Definition poly (coeffs : list Z) (x : Z) : Z := poly_from 1 coeffs x.

Lemma mod_eq_iff a b n : a mod n = b mod n <-> exists q, a - b = q * n.
Proof. apply Z.cong_iff_ex. Qed.

(** [xi] is the share at [k] of secret [d] under the polynomial of [coeffs]. *)
Definition is_share (n : Z) (coeffs : list Z) (d k xi : Z) : Prop :=
  xi mod n = (d + poly coeffs k) mod n.

Lemma eval_share_poly n k coeffs : forall e xi kp, n <> 0 ->
  kp mod n = (k ^ Z.of_nat e) mod n ->
  eval_share n k coeffs xi kp mod n = (xi + poly_from e coeffs k) mod n.
Proof.
  induction coeffs as [|c cs IH]; intros e xi kp Hn Hkp; cbn [eval_share poly_from].
  { f_equal. lia. }
  rewrite (IH (S e)); [|done|].
  - rewrite Zplus_mod_idemp_l.
    rewrite <- (Zplus_mod_idemp_l (xi + (c * kp) mod n)), Zplus_mod_idemp_r, Zplus_mod_idemp_l.
    rewrite <- Z.add_assoc, <- (Zplus_mod_idemp_r (c * kp + _)).
    rewrite <- (Zplus_mod_idemp_l (c * kp)), <- (Zmult_mod_idemp_r kp), Hkp, Zmult_mod_idemp_r.
    rewrite Zplus_mod_idemp_l, Zplus_mod_idemp_r. done.
  - rewrite Zmod_mod, <- Zmult_mod_idemp_l, Hkp, Zmult_mod_idemp_l.
    rewrite Nat2Z.inj_succ, Z.pow_succ_r by lia. f_equal. lia.
Qed.

Lemma eval_share_is_share n k coeffs d : n <> 0 -> is_share n coeffs d k (eval_share n k coeffs d k).
Proof. intros Hn. apply eval_share_poly; [done|]. f_equal. change (Z.of_nat 1) with 1. lia. Qed.

Lemma is_share_shift n coeffs d k xi il : n <> 0 ->
  is_share n coeffs d k xi -> is_share n coeffs (d + il) k ((xi + il) mod n).
Proof.
  unfold is_share. intros Hn H. rewrite Zmod_mod, <- Zplus_mod_idemp_l, H, Zplus_mod_idemp_l.
  f_equal. lia.
Qed.

(** Lagrange interpolation at 0 through two points; [inv] inverts [k2 - k1]. *)
Definition reconstruct2 (n inv k1 x1 k2 x2 : Z) : Z := ((x1 * k2 - x2 * k1) * inv) mod n.

Lemma is_share_reconstruct2 n a d k1 x1 k2 x2 inv : 1 < n ->
  (inv * (k2 - k1)) mod n = 1 ->
  is_share n [a] d k1 x1 -> is_share n [a] d k2 x2 ->
  reconstruct2 n inv k1 x1 k2 x2 = d mod n.
Proof.
  unfold is_share, reconstruct2, poly, poly_from. intros Hn Hinv H1 H2.
  apply mod_eq_iff in H1 as [q1 H1], H2 as [q2 H2].
  rewrite <- (Z.mod_small 1 n) in Hinv by lia. apply mod_eq_iff in Hinv as [q3 Hinv].
  apply mod_eq_iff. exists (d * q3 + (q1 * k2 - q2 * k1) * inv).
  assert (x1 = d + a * k1 + q1 * n) as -> by (change (Z.of_nat 1) with 1 in H1; lia).
  assert (x2 = d + a * k2 + q2 * n) as -> by (change (Z.of_nat 1) with 1 in H2; lia).
  replace (_ * inv - d) with (d * (inv * (k2 - k1) - 1) + n * ((q1 * k2 - q2 * k1) * inv)) by ring.
  rewrite Hinv. ring.
Qed.

Lemma go_mapM_lookup {A B} (f : A -> go B) l ys i x :
  go_mapM f l = Ret ys -> l !! i = Some x -> exists y, ys !! i = Some y /\ f x = Ret y.
Proof.
  revert ys i. induction l as [|z l IH]; intros ys [|i]; cbn; try done;
    intros (y & Hy & (ys' & Hys & [= <-])%go_bind_Ret)%go_bind_Ret.
  - intros [= ->]. by exists y.
  - intros Hx. by apply (IH ys').
Qed.

Lemma shamirSplit_shares rand d ids t n shares : n <> 0 ->
  shamirSplit rand d ids t n = Ret shares ->
  exists coeffs, zlen coeffs = t /\
    shares = map (fun k => eval_share n k coeffs d k) ids /\
    Forall2 (is_share n coeffs d) ids shares.
Proof.
  unfold shamirSplit. intros Hn. case_match eqn:Ht; [done|]. intros (coeffs & Hc & [= <-])%go_bind_Ret.
  exists coeffs. apply go_mapM_length in Hc. rewrite length_seq in Hc. unfold zlen.
  split; [lia|]. split; [done|].
  apply Forall2_fmap_r, Forall_Forall2_diag, Forall_true. intros k. by apply eval_share_is_share.
Qed.

(** 2-of-2 recovery: whatever coefficient is drawn, the two shares
    [shamirSplit] gives two parties determine the secret, by interpolation
    between their share IDs (which differ modulo the group order). *)
Theorem shamirSplit_reconstructs rand d k1 k2 n inv shares :
  1 < n -> (inv * (k2 - k1)) mod n = 1 ->
  shamirSplit rand d [k1; k2] 1 n = Ret shares ->
  exists x1 x2, shares = [x1; x2] /\ reconstruct2 n inv k1 x1 k2 x2 = d mod n.
Proof.
  intros Hn Hinv Hs. apply shamirSplit_shares in Hs as ([|a [|? ?]] & Hl & -> & HF); [..|lia];
    unfold zlen in Hl; cbn in Hl; try lia.
  do 2 eexists. split; [reflexivity|].
  inversion_clear HF as [|? ? ? ? H1 HF']. inversion_clear HF' as [|? ? ? ? H2 _].
  by eapply is_share_reconstruct2.
Qed.

Lemma shamirSplit_reconstructs_witness :
  exists x1 x2, shamirSplit (fun _ => Ret 5) 42 [3; 7] 1 101 = Ret [x1; x2] /\
    reconstruct2 101 76 3 x1 7 x2 = 42 mod 101.
Proof.
  destruct (shamirSplit_reconstructs (fun _ => Ret 5) 42 3 7 101 76 [57; 77]) as (x1 & x2 & E & H);
    [lia|reflexivity|reflexivity|].
  exists x1, x2. rewrite <- E. split; [reflexivity|exact H].
Defined.

(** One share of the 2-of-2 split says nothing about the key: for every
    value [x] a party may hold and every candidate secret, exactly one draw of
    the random coefficient explains it. *)
Theorem shamirSplit_one_share_secret n k d x :
  1 < n -> rel_prime k n -> 0 <= x < n ->
  exists a, 0 <= a < n /\
    shamirSplit (fun _ => Ret a) d [k] 1 n = Ret [x] /\
    forall b, 0 <= b < n -> shamirSplit (fun _ => Ret b) d [k] 1 n = Ret [x] -> b = a.
Proof.
  intros Hn Hk Hx. destruct (rel_prime_bezout _ _ Hk) as [u v Huv].
  assert (Hval : forall a, shamirSplit (fun _ => Ret a) d [k] 1 n = Ret [(d + a * k) mod n]).
  { intros a. rewrite <- (Zplus_mod_idemp_r (a * k)). reflexivity. }
  exists (((x - d) * u) mod n). split; [apply Z.mod_pos_bound; lia|]. split.
  - rewrite Hval, <- Zplus_mod_idemp_r, Zmult_mod_idemp_l, Zplus_mod_idemp_r.
    do 2 f_equal. replace (d + (x - d) * u * k) with (d + (x - d) * (u * k)) by ring.
    replace (u * k) with (1 - v * n) by lia.
    replace (d + (x - d) * (1 - v * n)) with (x + - (x - d) * v * n) by ring.
    rewrite Z_mod_plus_full. by apply Z.mod_small.
  - intros b Hb. rewrite Hval. intros [= E].
    rewrite <- (Z.mod_small b n Hb). rewrite <- (Z.mod_small x n Hx) in E.
    apply mod_eq_iff in E as [q Hq]. apply mod_eq_iff. exists (b * v + q * u).
    replace (x - d) with (b * k - q * n) by lia.
    replace (b - (b * k - q * n) * u) with (b * (1 - u * k) + q * n * u) by ring.
    replace (1 - u * k) with (v * n) by lia. ring.
Qed.

Lemma shamirSplit_one_share_secret_witness :
  exists a, 0 <= a < 101 /\
    shamirSplit (fun _ => Ret a) 42 [7] 1 101 = Ret [13] /\
    forall b, 0 <= b < 101 -> shamirSplit (fun _ => Ret b) 42 [7] 1 101 = Ret [13] -> b = a.
Proof.
  apply shamirSplit_one_share_secret; [lia| |lia].
  apply bezout_rel_prime. exists 29 (-2). reflexivity.
Defined.

(** ** Derivation keeps shares consistent *)

(** The public share points stored with a key: each present one is the curve
    point [mulG] of the share at its party's ID. *)
Definition bigX_ok (c : EllipticCurve) `{CurveLaws c} (coeffs : list Z) (d : Z)
    (ids : list Z) (l : list (option point)) : Prop :=
  Forall2 (fun k o => forall p, o = Some p ->
    p = mulG c (d + poly coeffs k) /\ IsOnCurve c p = true) ids l.

Section DeriveFacts.
Context (c : EllipticCurve) `{CurveLaws c}.

Lemma mulG_cong j k : j mod ec_N c = k mod ec_N c -> mulG c j = mulG c k.
Proof. intros E. by rewrite <- (mulG_mod j), E, mulG_mod. Qed.

Lemma NewECPoint_Ret p q : NewECPoint c p = Ret q -> q = p /\ IsOnCurve c p = true.
Proof. unfold NewECPoint. destruct (IsOnCurve c p); cbn; [by intros [= <-]|done]. Qed.

Lemma NewECPoint_Some p q : to_option (NewECPoint c p) = Some q -> q = p /\ IsOnCurve c p = true.
Proof. destruct (NewECPoint c p) eqn:E; [|done|done]. intros [= <-]. by apply NewECPoint_Ret. Qed.

Lemma bigX_ok_shift coeffs d ids l il :
  bigX_ok c coeffs d ids l -> bigX_ok c coeffs (d + il) ids (map (shift_point c (mulG c il)) l).
Proof.
  intros Hok. apply Forall2_fmap_r. eapply Forall2_impl; [exact Hok|].
  intros k o Ho p. unfold shift_point. destruct o as [q|]; cbn; [|done].
  intros [-> Hon]%NewECPoint_Some. split; [|done].
  destruct (Ho q eq_refl) as [-> _]. rewrite mulG_add. f_equal. lia.
Qed.

(** Two parties in the middle of the same derivation of secret [d]. *)
Definition in_step (coeffs : list Z) (ids : list Z) (k1 k2 d : Z) (s1 s2 : dstate) : Prop :=
  d_pub s1 = mulG c d /\ d_pub s2 = d_pub s1 /\ d_chain s2 = d_chain s1 /\
  is_share (ec_N c) coeffs d k1 (d_Xi s1) /\ is_share (ec_N c) coeffs d k2 (d_Xi s2) /\
  bigX_ok c coeffs d ids (d_BigXj s1) /\ bigX_ok c coeffs d ids (d_BigXj s2).

Lemma in_step_advance coeffs ids k1 k2 d s1 s2 il ir :
  in_step coeffs ids k1 k2 d s1 s2 ->
  in_step coeffs ids k1 k2 (d + il) (d_advance c s1 il (mulG c il) ir) (d_advance c s2 il (mulG c il) ir).
Proof.
  pose proof (ec_N_pos (c := c)).
  intros (Hp & Hp2 & Hc & H1 & H2 & B1 & B2). unfold in_step; cbn [d_advance d_pub d_chain d_Xi d_BigXj].
  rewrite Hp2, Hp, mulG_add. repeat (split; [done|]).
  split; [apply is_share_shift; [lia|done]|]. split; [apply is_share_shift; [lia|done]|].
  split; by apply bigX_ok_shift.
Qed.

Lemma derive_data_public s1 s2 idx : d_pub s2 = d_pub s1 -> d_chain s2 = d_chain s1 ->
  derive_data c s2 idx = derive_data c s1 idx.
Proof. intros Hp Hc. unfold derive_data. by rewrite Hp, Hc. Qed.

(** A derivation step acts alike on both parties: it adds one multiple of the
    base point, computed from public data only. *)
Definition step_in_step (step : dstate -> Z -> go dstate) : Prop :=
  forall coeffs ids k1 k2 d s1 s2 idx s1', in_step coeffs ids k1 k2 d s1 s2 ->
  step s1 idx = Ret s1' ->
  exists s2' il, step s2 idx = Ret s2' /\ in_step coeffs ids k1 k2 (d + il) s1' s2'.

Lemma deriveECDSA_step_in_step : step_in_step (deriveECDSA_step c).
Proof.
  intros coeffs ids k1 k2 d s1 s2 idx s1' HI. pose proof HI as (_ & Hp & Hc & _).
  unfold deriveECDSA_step. rewrite (derive_data_public s1 s2) by done.
  destruct (derive_data c s1 idx) as [[il ir]| |]; cbn; try done.
  destruct (ec_N c <=? Binary.be_Z il); [done|]. intros [= <-].
  do 2 eexists. split; [reflexivity|]. rewrite ScalarBaseMult_mulG. by apply in_step_advance.
Qed.

Lemma deriveEdDSA_step_in_step : ec_N c <= 2 ^ 256 -> step_in_step (deriveEdDSA_step c).
Proof.
  intros HN coeffs ids k1 k2 d s1 s2 idx s1' HI. pose proof HI as (_ & Hp & Hc & _).
  unfold deriveEdDSA_step. rewrite (derive_data_public s1 s2) by done.
  destruct (derive_data c s1 idx) as [[il ir]| |]; cbn [mbind go_bind]; try done.
  pose proof (Z.mod_pos_bound (Binary.be_Z il) (ec_N c)) as Hb. pose proof (ec_N_pos (c := c)).
  set (z := Binary.be_Z il mod ec_N c) in *.
  pose proof (Slice.copy_Bytes_field 32 z ltac:(lia)) as Hcp.
  change (Z.of_nat 32) with 32 in Hcp. rewrite Hcp. cbn [mbind go_bind].
  intros [= <-]. do 2 eexists. split; [reflexivity|].
  rewrite ScalarBaseMult_mulG, Binary.be_Z_be_bytes, Z.mod_small by lia. by apply in_step_advance.
Qed.

Lemma in_step_fold step : step_in_step step -> forall idxs coeffs ids k1 k2 d s1 s2 s1',
  in_step coeffs ids k1 k2 d s1 s2 -> go_foldM step s1 idxs = Ret s1' ->
  exists s2' d', go_foldM step s2 idxs = Ret s2' /\ in_step coeffs ids k1 k2 d' s1' s2'.
Proof.
  intros Hstep. induction idxs as [|i idxs IH]; intros coeffs ids k1 k2 d s1 s2 s1' HI; cbn [go_foldM].
  - intros [= <-]. by exists s2, d.
  - intros (t1 & H1 & Hf)%go_bind_Ret.
    destruct (Hstep _ _ _ _ _ _ _ _ _ HI H1) as (t2 & il & -> & HI').
    exact (IH _ _ _ _ _ _ _ _ HI' Hf).
Qed.

(** [share] is, encoded, the share at [k] of secret [d] among [ids]. *)
Definition valid_share {aux} `{Codec (SaveData aux)} (coeffs : list Z) (d : Z) (ids : list Z)
    (k : Z) (share : bytes) : Prop :=
  exists save : SaveData aux, Unmarshal share = Ret save /\ Pub save = Some (mulG c d) /\
    ShareID save = k /\ Ks save = ids /\ is_share (ec_N c) coeffs d k (Xi save) /\
    bigX_ok c coeffs d ids (BigXj save).

Lemma init_bigX_ok coeffs d ids l : bigX_ok c coeffs d ids l ->
  bigX_ok c coeffs d ids (map (fun o => p ← o; to_option (NewECPoint c p)) l).
Proof.
  intros Hok. apply Forall2_fmap_r. eapply Forall2_impl; [exact Hok|].
  intros k [q|] Ho p; cbn; [|done]. intros [-> _]%NewECPoint_Some. by apply Ho.
Qed.

(** What is relied on of tss-lib's marshaller: it represents save data whose
    points are on the curve (its decoder refuses any other point). *)
Definition on_curve {aux} (save : SaveData aux) : Prop :=
  (forall p, Pub save = Some p -> IsOnCurve c p = true) /\
  Forall (fun o => forall p, o = Some p -> IsOnCurve c p = true) (BigXj save).
Class SaveCodecLaws (aux : Type) `{Codec (SaveData aux)} : Prop := {
  save_codec :: CodecLaws (SaveData aux);
  save_representable (save : SaveData aux) : on_curve save -> representable save;
}.

Lemma bigX_ok_on_curve coeffs d ids l : bigX_ok c coeffs d ids l ->
  Forall (fun o => forall p, o = Some p -> IsOnCurve c p = true) l.
Proof. induction 1 as [|k o ids l Ho _ IH]; constructor; [|done]. intros p Hp. by apply Ho. Qed.

Lemma derived_representable {aux} `{Codec (SaveData aux)} `{!SaveCodecLaws aux} coeffs d ids
    (save : SaveData aux) s :
  bigX_ok c coeffs d ids (d_BigXj s) -> IsOnCurve c (mulG c d) = true ->
  representable (derived_save save s (mulG c d)).
Proof.
  intros HB Hon. apply save_representable. split; [by intros p [= <-]|]. by eapply bigX_ok_on_curve.
Qed.

Lemma derived_valid {aux} `{Codec (SaveData aux)} `{!SaveCodecLaws aux} coeffs d ids k
    (save : SaveData aux) s b :
  ShareID save = k -> Ks save = ids -> is_share (ec_N c) coeffs d k (d_Xi s) ->
  bigX_ok c coeffs d ids (d_BigXj s) -> IsOnCurve c (mulG c d) = true ->
  Marshal (derived_save save s (mulG c d)) = Ret b ->
  valid_share (aux := aux) coeffs d ids k b.
Proof.
  intros Hk Hi Hs HB Hon HM. exists (derived_save save s (mulG c d)). split; [|by repeat split].
  eapply Unmarshal_Marshal; [|done]. by eapply derived_representable.
Qed.

Lemma derive_with_consistent {aux} `{Codec (SaveData aux)} `{!SaveCodecLaws aux}
    step encode_pub coeffs d ids k1 k2 ks1 ks2 path idxs dk1 :
  step_in_step step ->
  valid_share (aux := aux) coeffs d ids k1 (ks_Share ks1) ->
  valid_share (aux := aux) coeffs d ids k2 (ks_Share ks2) ->
  ks_ChainCode ks2 = ks_ChainCode ks1 ->
  derive_with (aux := aux) c step encode_pub ks1 path idxs = Ret dk1 ->
  exists dk2 d', derive_with (aux := aux) c step encode_pub ks2 path idxs = Ret dk2 /\
    dk_PublicKey dk2 = dk_PublicKey dk1 /\ encode_pub (mulG c d') = Ret (dk_PublicKey dk1) /\
    valid_share (aux := aux) coeffs d' ids k1 (dk_Share dk1) /\
    valid_share (aux := aux) coeffs d' ids k2 (dk_Share dk2).
Proof.
  intros Hstep (v1 & Hu1 & Hp1 & Hk1 & Hi1 & Hs1 & Hb1) (v2 & Hu2 & Hp2 & Hk2 & Hi2 & Hs2 & Hb2) Hcc.
  unfold derive_with. rewrite Hu1, Hu2. cbn [wrap_err cause mbind go_bind]. rewrite Hp1, Hp2.
  cbn [deref mbind go_bind].
  intros (s1 & Hf & (pk & Hpk & (q & Hq & (sh & Hsh & [= <-])%go_bind_Ret)%go_bind_Ret)%go_bind_Ret)%go_bind_Ret.
  assert (HI : in_step coeffs ids k1 k2 d (init_state c (ks_ChainCode ks1) v1 (mulG c d))
                                          (init_state c (ks_ChainCode ks2) v2 (mulG c d))).
  { repeat (split; [done|]). split; by apply init_bigX_ok. }
  destruct (in_step_fold _ Hstep _ _ _ _ _ _ _ _ _ HI Hf) as (s2 & d' & Hf2 & Hd1 & Hd2 & _ & Hx1 & Hx2 & B1 & B2).
  assert (q = mulG c d' /\ IsOnCurve c (mulG c d') = true) as [-> Hon].
  { rewrite Hd1 in Hq. destruct (NewECPoint c (mulG c d')) eqn:E; try discriminate Hq.
    injection Hq as <-. by apply NewECPoint_Ret. }
  destruct (Marshal_total (derived_save v2 s2 (mulG c d'))) as [sh2 Hsh2];
    [by eapply derived_representable|].
  rewrite Hf2. cbn [mbind go_bind]. rewrite Hd2, Hpk. cbn [mbind go_bind]. rewrite Hq. cbn [mbind go_bind].
  rewrite Hsh2. cbn [wrap_err cause mbind go_bind].
  destruct (Marshal (derived_save v1 s1 (mulG c d'))) as [sh1| |] eqn:Hsh1; try discriminate Hsh.
  injection Hsh as <-.
  do 2 eexists. split; [reflexivity|]. cbn. split; [done|]. split; [by rewrite <- Hd1|].
  split; by eapply derived_valid.
Qed.
End DeriveFacts.

(** ** Point encodings *)

Lemma copy_Bytes_256 pre post z : 0 <= z < 2 ^ 256 ->
  Slice.copy_at (pre ++ repeat x00 32 ++ post) (zlen pre + 32 - zlen (Big.Bytes z)) (zlen pre + 32) (Big.Bytes z)
  = Ret (pre ++ Binary.be_bytes 32 z ++ post).
Proof. intros Hz. apply (Slice.copy_Bytes pre post 32). exact Hz. Qed.

Lemma uncompressed_spec p : 0 <= p.1 < 2 ^ 256 -> 0 <= p.2 < 2 ^ 256 ->
  uncompressed p = Ret (x04 :: Binary.be_bytes 32 p.1 ++ Binary.be_bytes 32 p.2).
Proof.
  intros Hx Hy. unfold uncompressed.
  change (x04 :: repeat x00 64) with ([x04] ++ repeat x00 32 ++ repeat x00 32).
  change 33 with (zlen [x04] + 32). rewrite copy_Bytes_256 by done. cbn [mbind go_bind].
  set (pre := [x04] ++ Binary.be_bytes 32 p.1).
  replace (_ ++ _ ++ _) with (pre ++ repeat x00 32 ++ []) by (unfold pre; rewrite app_nil_r, <- app_assoc; done).
  replace 65 with (zlen pre + 32)
    by reflexivity.
  rewrite copy_Bytes_256 by done. unfold pre. by rewrite app_nil_r, <- app_assoc.
Qed.

(** The dealer reads back the point of an uncompressed key. *)
Lemma uncompressed_coords p b : 0 <= p.1 < 2 ^ 256 -> 0 <= p.2 < 2 ^ 256 ->
  uncompressed p = Ret b ->
  exists xB yB, Slice.sub b 1 33 = Ret xB /\ Slice.sub b 33 65 = Ret yB /\
    (Binary.be_Z xB, Binary.be_Z yB) = p.
Proof.
  intros Hx Hy. rewrite uncompressed_spec by done. intros E.
  assert (b = x04 :: Binary.be_bytes 32 p.1 ++ Binary.be_bytes 32 p.2) as -> by congruence.
  exists (Binary.be_bytes 32 p.1), (Binary.be_bytes 32 p.2).
  rewrite !Binary.be_Z_be_bytes, !Z.mod_small by done.
  assert (Hl : forall z, zlen (Binary.be_bytes 32 z) = 32)
    by (intros; unfold zlen; by rewrite Binary.length_be_bytes).
  split; [|split; [|by destruct p]].
  - apply (Slice.sub_app [x04]); rewrite ?Hl; reflexivity.
  - pose proof (Slice.sub_app (x04 :: Binary.be_bytes 32 p.1) (Binary.be_bytes 32 p.2) [] 33 65) as Hs.
    rewrite app_nil_r in Hs. apply Hs; unfold zlen; cbn [length]; by rewrite !Binary.length_be_bytes.
Qed.

(** ** The dealer's shares are valid *)

Section Dealer.
Context `{TssLib} {aux : Type} `{Codec (SaveData aux)}.
Context (c : EllipticCurve) `{!CurveLaws c} `{!SaveCodecLaws c aux}.

Lemma bigX_points coeffs d ids shares pts :
  Forall2 (is_share (ec_N c) coeffs d) ids shares ->
  Forall (fun x => 0 <= x) shares ->
  go_mapM (fun '(i, xi) => bigX c i xi) (combine (seq 0 (length shares)) shares) = Ret pts ->
  bigX_ok c coeffs d ids (map Some pts).
Proof.
  generalize 0%nat. intros off Hs. revert off pts.
  induction Hs as [|k x ids shares Hx Hs IH]; intros off pts Hpos; cbn.
  { intros [= <-]. constructor. }
  apply Forall_cons in Hpos as [Hx0 Hpos].
  intros (p & Hp & (ps & Hps & [= <-])%go_bind_Ret)%go_bind_Ret. constructor.
  - intros q [= <-]. apply wrap_err_Ret, NewECPoint_Ret in Hp as [-> Hon].
    split; [|done]. rewrite ScalarBaseMult_mulG, Big.be_Z_Bytes by done. by apply mulG_cong.
  - by apply (IH (S off)).
Qed.

Lemma build_shares_valid coeffs d curve pub chain sorted auxs shares ids pts kss i ks :
  build_shares (aux := aux) curve pub chain sorted auxs shares ids pts (mulG c d) = Ret kss ->
  IsOnCurve c (mulG c d) = true ->
  Forall2 (is_share (ec_N c) coeffs d) ids shares -> bigX_ok c coeffs d ids (map Some pts) ->
  kss !! i = Some ks ->
  exists k, ids !! i = Some k /\ valid_share c (aux := aux) coeffs d ids k (ks_Share ks) /\
    ks_Curve ks = curve /\ ks_ChainCode ks = chain /\ ks_PublicKey ks = pub.
Proof.
  intros Hb Hon Hs HB Hi. unfold build_shares in Hb.
  assert (Hlt : (i < length auxs)%nat).
  { apply go_mapM_length in Hb. rewrite length_seq in Hb. rewrite <- Hb. by eapply lookup_lt_Some. }
  destruct (go_mapM_lookup _ _ _ i i Hb) as (ks' & Hks & Hf); [by apply lookup_seq_lt|].
  rewrite Hi in Hks. injection Hks as <-.
  apply go_bind_Ret in Hf as (a & Ha & Hf). apply go_bind_Ret in Hf as (xi & Hxi & Hf).
  apply go_bind_Ret in Hf as (k & Hk & Hf). apply go_bind_Ret in Hf as (pid & Hpid & Hf).
  apply go_bind_Ret in Hf as (b & Hm & [= <-]). apply wrap_err_Ret in Hm.
  unfold Slice.index in Hxi, Hk. rewrite Nat2Z.id in Hxi, Hk.
  destruct (0 <=? Z.of_nat i); [|done].
  destruct (shares !! i) eqn:Es; [|done]. destruct (ids !! i) eqn:Ei; [|done].
  injection Hxi as ->. injection Hk as ->. exists k. split; [done|]. split; [|by cbn].
  eexists. split; [eapply Unmarshal_Marshal; [|done]; apply (save_representable c)|].
  { split; [by intros p [= <-]|]. by eapply bigX_ok_on_curve. }
  cbn. repeat (split; [done|]). split; [|done]. by eapply Forall2_lookup_lr.
Qed.

Lemma eval_share_nonneg n k coeffs : forall xi kp, 0 < n -> 0 <= xi -> 0 <= eval_share n k coeffs xi kp.
Proof.
  induction coeffs as [|a cs IH]; intros xi kp Hn Hx; cbn; [done|].
  apply IH; [done|]. apply Z.mod_pos_bound. lia.
Qed.

Lemma dealt_shares rand d ids t shares : 0 <= d ->
  shamirSplit rand d ids t (ec_N c) = Ret shares ->
  exists coeffs, zlen coeffs = t /\ Forall2 (is_share (ec_N c) coeffs d) ids shares /\
    Forall (fun x => 0 <= x) shares.
Proof.
  intros Hd Hs. pose proof (ec_N_pos (c := c)).
  apply shamirSplit_shares in Hs as (coeffs & Hl & -> & HF); [|lia].
  exists coeffs. split; [done|]. split; [done|].
  apply Forall_fmap, Forall_true. intros k. cbn. apply eval_share_nonneg; lia.
Qed.
End Dealer.

Lemma DealerSetupECDSA_valid `{TssLib} {preParams aux} `{Codec (SaveData aux)}
    (mk_aux : list preParams -> nat -> aux) c `{!CurveLaws c} `{!SaveCodecLaws c aux} rand d pub chain parties pps kss :
  0 <= d -> uncompressed (mulG c d) = Ret pub ->
  DealerSetupECDSA mk_aux c rand d pub chain parties pps = Ret kss ->
  let ids := map KeyInt (makeSortedPartyIDs parties) in
  exists coeffs, zlen coeffs = zlen parties - 1 /\
  forall i ks, kss !! i = Some ks ->
    exists k, ids !! i = Some k /\ valid_share c (aux := aux) coeffs d ids k (ks_Share ks) /\
      ks_Curve ks = CurveSecp256k1 /\ ks_ChainCode ks = chain /\ ks_PublicKey ks = pub.
Proof.
  intros Hd Hpub. unfold DealerSetupECDSA. case_match; [done|].
  intros (shares & Hs%wrap_err_Ret & HX)%go_bind_Ret.
  apply go_bind_Ret in HX as (pts & Hpts & HX).
  destruct (mulG_coords (c := c) d) as [Hx Hy].
  destruct (uncompressed_coords _ _ Hx Hy Hpub) as (xB & yB & Ex & Ey & Exy).
  rewrite Ex, Ey in HX. cbn [mbind go_bind] in HX. rewrite Exy in HX.
  apply go_bind_Ret in HX as (q & Hq & HX). apply wrap_err_Ret in Hq.
  apply NewECPoint_Ret in Hq as [-> Hon].
  destruct (dealt_shares c _ _ _ _ _ Hd Hs) as (coeffs & Hl & HF & Hpos).
  exists coeffs. split; [done|]. intros i ks Hi. eapply build_shares_valid; try done.
  by eapply bigX_points.
Qed.

Lemma DealerSetupEdDSA_valid `{TssLib} `{Codec (SaveData unit)}
    c `{!CurveLaws c} `{!SaveCodecLaws c unit} rand d pub chain parties kss :
  0 <= d -> DealerSetupEdDSA c rand d pub chain parties = Ret kss ->
  let ids := map KeyInt (makeSortedPartyIDs parties) in
  exists coeffs, zlen coeffs = zlen parties - 1 /\
  forall i ks, kss !! i = Some ks ->
    exists k, ids !! i = Some k /\ valid_share c (aux := unit) coeffs d ids k (ks_Share ks) /\
      ks_Curve ks = CurveEd25519 /\ ks_ChainCode ks = chain /\ ks_PublicKey ks = pub.
Proof.
  intros Hd. unfold DealerSetupEdDSA.
  intros (shares & Hs%wrap_err_Ret & HX)%go_bind_Ret.
  apply go_bind_Ret in HX as (pts & Hpts & HX).
  apply go_bind_Ret in HX as (q & Hq & HX). apply wrap_err_Ret in Hq.
  rewrite ScalarBaseMult_mulG, Big.be_Z_Bytes in Hq by done. apply NewECPoint_Ret in Hq as [-> Hon].
  destruct (dealt_shares c _ _ _ _ _ Hd Hs) as (coeffs & Hl & HF & Hpos).
  exists coeffs. split; [done|]. intros i ks Hi. eapply build_shares_valid; try done.
  by eapply bigX_points.
Qed.

(** ** The dealer's keys derive consistently *)

(** C6: the trusted dealer followed by derivation, for the 2-of-2 ECDSA key:
    when the dealer splits secret [d] between two parties and one of them derives
    a path, the other's derivation of that path succeeds with the same public
    key, and there is one child secret whose public key that is and which the
    two child shares reconstruct. No party ever held either secret. *)
Theorem dealer_derive_ECDSA `{Unicode} `{TssLib} {preParams aux}
    `{Codec (SaveData aux)} `{Codec (SaveData unit)}
    (mk_aux : list preParams -> nat -> aux) S256 Edwards `{!CurveLaws S256} `{!SaveCodecLaws S256 aux}
    rand d pub chain pA pB pps ksA ksB path dkA inv kA kB :
  0 <= d -> uncompressed (mulG S256 d) = Ret pub ->
  map KeyInt (makeSortedPartyIDs [pA; pB]) = [kA; kB] ->
  (inv * (kB - kA)) mod ec_N S256 = 1 ->
  DealerSetupECDSA mk_aux S256 rand d pub chain [pA; pB] pps = Ret [ksA; ksB] ->
  DeriveKey (aux := aux) S256 Edwards ksA path = Ret dkA ->
  exists dkB (saveA saveB : SaveData aux) d',
    DeriveKey (aux := aux) S256 Edwards ksB path = Ret dkB /\
    dk_PublicKey dkB = dk_PublicKey dkA /\
    uncompressed (mulG S256 d') = Ret (dk_PublicKey dkA) /\
    Unmarshal (dk_Share dkA) = Ret saveA /\ Unmarshal (dk_Share dkB) = Ret saveB /\
    Pub saveA = Some (mulG S256 d') /\ Pub saveB = Some (mulG S256 d') /\
    reconstruct2 (ec_N S256) inv (ShareID saveA) (Xi saveA) (ShareID saveB) (Xi saveB)
      = d' mod ec_N S256.
Proof.
  intros Hd Hpub Hids Hinv HD HA.
  destruct (DealerSetupECDSA_valid mk_aux S256 _ _ _ _ _ _ _ Hd Hpub HD) as (coeffs & Hl & HV).
  rewrite Hids in HV.
  destruct (HV 0%nat ksA eq_refl) as (k1 & [= <-] & VA & CA & ChA & _).
  destruct (HV 1%nat ksB eq_refl) as (k2 & [= <-] & VB & CB & ChB & _).
  unfold DeriveKey in *. destruct (parsePath path) as [idxs| |]; try discriminate HA.
  cbn [cause mbind go_bind] in *. rewrite CA in HA. rewrite CB. cbn [bool_decide] in *.
  rewrite bool_decide_eq_true_2 in HA |- * by done.
  destruct (derive_with_consistent S256 _ uncompressed _ _ _ _ _ _ ksB _ _ _
              (deriveECDSA_step_in_step S256) VA VB ltac:(congruence) HA)
    as (dkB & d' & HB & Hpk & Henc & (vA & UA & PA & KA & _ & SA & _) & (vB & UB & PB & KB & _ & SB & _)).
  exists dkB, vA, vB, d'. repeat (split; [done|]). rewrite KA, KB.
  destruct coeffs as [|a [|? ?]]; unfold zlen in Hl; cbn in Hl; try lia.
  eapply is_share_reconstruct2; [apply ec_N_pos|done|done|done].
Qed.

(** Ed25519 keys, whose intermediate scalars are reduced instead of
    refused: for any threshold and any set of parties, if two parties hold valid
    shares of one secret and one derives a path, the other derives it too, to
    the same public key, and both hold valid shares, under the same polynomial,
    of one child secret. *)
Theorem derive_EdDSA_consistent `{Unicode} {aux} `{Codec (SaveData aux)} `{Codec (SaveData unit)}
    S256 Edwards `{!CurveLaws Edwards} `{!SaveCodecLaws Edwards unit}
    coeffs d ids k1 k2 ks1 ks2 path dk1 :
  ec_N Edwards <= 2 ^ 256 ->
  valid_share Edwards (aux := unit) coeffs d ids k1 (ks_Share ks1) ->
  valid_share Edwards (aux := unit) coeffs d ids k2 (ks_Share ks2) ->
  ks_Curve ks1 = CurveEd25519 -> ks_Curve ks2 = CurveEd25519 ->
  ks_ChainCode ks2 = ks_ChainCode ks1 ->
  DeriveKey (aux := aux) S256 Edwards ks1 path = Ret dk1 ->
  exists dk2 d', DeriveKey (aux := aux) S256 Edwards ks2 path = Ret dk2 /\
    dk_PublicKey dk2 = dk_PublicKey dk1 /\
    edwardsPointToEd25519PubKey (mulG Edwards d') = Ret (dk_PublicKey dk1) /\
    valid_share Edwards (aux := unit) coeffs d' ids k1 (dk_Share dk1) /\
    valid_share Edwards (aux := unit) coeffs d' ids k2 (dk_Share dk2).
Proof.
  intros HN V1 V2 C1 C2 Hcc. unfold DeriveKey. rewrite C1, C2.
  destruct (parsePath path) as [idxs| |]; try discriminate.
  rewrite (bool_decide_eq_false_2 (CurveEd25519 = CurveSecp256k1)) by discriminate.
  rewrite (bool_decide_eq_true_2 (CurveEd25519 = CurveEd25519)) by done.
  cbn [cause mbind go_bind]. intros HD.
  exact (derive_with_consistent Edwards _ edwardsPointToEd25519PubKey _ _ _ _ _ _ ks2 _ _ _
           (deriveEdDSA_step_in_step Edwards HN) V1 V2 Hcc HD).
Qed.

(** ** A concrete instance

    The additive group of integers modulo the order of secp256k1 in place of
    the curve, tables without letters outside ASCII, and enumeration codecs. *)
Module Toy.
Definition unicode : Unicode := {|
  unicode_to_lower := fun r => r; unicode_is_print := fun _ => true; unicode_is_space := fun _ => false |}.
Definition order : Z := 0xFFFFFFFFFFFFFFFFFFFFFFFFFFFFFFFEBAAEDCE6AF48A03BBFD25E8CD0364141.
Definition curve : EllipticCurve := {|
  ec_N := order;
  IsOnCurve := fun p => negb (p.1 =? 0);
  Add := fun p q => ((p.1 + q.1) mod order, 0);
  ScalarBaseMult := fun b => (Binary.be_Z b mod order, 0) |}.

Lemma order_bound k : 0 <= k mod order < 2 ^ 256.
Proof. pose proof (Z.mod_pos_bound k order). assert (order < 2 ^ 256) by reflexivity. unfold order in *. lia. Qed.

#[export] Instance curve_laws : CurveLaws curve.
Proof.
  refine {| mulG := fun k => (k mod order, 0) : point |}; cbn [curve ec_N IsOnCurve Add ScalarBaseMult fst snd].
  - reflexivity.
  - reflexivity.
  - intros k. by rewrite Zmod_mod.
  - intros j k. by rewrite <- Zplus_mod.
  - intros k Hk. apply negb_true_iff, Z.eqb_neq. exact Hk.
  - intros k. split; [apply order_bound|lia].
Defined.

Definition save_tuple (s : SaveData unit) : Z * Z * list Z * list (option point) * option point :=
  (Xi s, ShareID s, Ks s, BigXj s, Pub s).
Definition tuple_save (t : Z * Z * list Z * list (option point) * option point) : SaveData unit :=
  let '(x, i, ks, bx, p) := t in
  {| sd_aux := tt; Xi := x; ShareID := i; Ks := ks; BigXj := bx; Pub := p |}.
Lemma tuple_save_tuple s : tuple_save (save_tuple s) = s.
Proof. by destruct s as [[]]. Qed.
#[export] Instance save_eq_dec : EqDecision (SaveData unit).
Proof.
  intros s t. destruct (decide (save_tuple s = save_tuple t)) as [E|E]; [left|right; congruence].
  by rewrite <- (tuple_save_tuple s), E, tuple_save_tuple.
Defined.
#[export] Instance save_countable : Countable (SaveData unit) :=
  inj_countable' save_tuple tuple_save tuple_save_tuple.
#[export] Instance toy_save_codec : Codec (SaveData unit) := CountableCodec.codec (SaveData unit).
#[export] Instance save_codec_laws : SaveCodecLaws curve unit.
Proof. split; [apply CountableCodec.codec_laws|done]. Qed.

#[export] Existing Instance unicode.
#[export] Existing Instance number_parties.

Definition secret : Z := 123456789.
Definition pub : bytes := x04 :: Binary.be_bytes 32 secret ++ Binary.be_bytes 32 0.
Definition chain : bytes := repeat x2a 32.
Definition path : string := "m/0/60".
Definition ecdsa_keys : go (list KeyShare) :=
  DealerSetupECDSA (preParams := unit) (fun _ _ => tt) curve (fun _ => Ret 987654321) secret pub chain
    [party_a; party_b] [tt; tt].
Definition eddsa_keys : go (list KeyShare) :=
  DealerSetupEdDSA curve (fun _ => Ret 987654321) secret pub chain [party_a; party_b].
Definition nth_key (m : go (list KeyShare)) (i : nat) : KeyShare :=
  match m with
  | Ret l => nth i l {| ks_Curve := ""; ks_PartyID := party_a; ks_Share := []; ks_PublicKey := []; ks_ChainCode := [] |}
  | _ => {| ks_Curve := ""; ks_PartyID := party_a; ks_Share := []; ks_PublicKey := []; ks_ChainCode := [] |}
  end.
Definition derived (ks : KeyShare) : go DerivedKey := DeriveKey (aux := unit) curve curve ks path.
Definition ecdsa_A : KeyShare := Eval vm_compute in nth_key ecdsa_keys 0.
Definition ecdsa_B : KeyShare := Eval vm_compute in nth_key ecdsa_keys 1.
Definition eddsa_A : KeyShare := Eval vm_compute in nth_key eddsa_keys 0.
Definition eddsa_B : KeyShare := Eval vm_compute in nth_key eddsa_keys 1.
Definition the_derived (ks : KeyShare) : DerivedKey :=
  match derived ks with
  | Ret dk => dk
  | _ => {| dk_Curve := ""; dk_DerivationPath := ""; dk_Share := []; dk_PublicKey := []; dk_Address := "" |}
  end.
Definition ecdsa_dkA : DerivedKey := Eval vm_compute in the_derived ecdsa_A.
Definition eddsa_dkA : DerivedKey := Eval vm_compute in the_derived eddsa_A.
Definition ids : list Z := map KeyInt (makeSortedPartyIDs [party_a; party_b]).
End Toy.
Import Toy.

Lemma toy_derive_A : DeriveKey (aux := unit) Toy.curve Toy.curve Toy.ecdsa_A Toy.path = Ret Toy.ecdsa_dkA.
Proof. vm_compute. reflexivity. Qed.

Lemma dealer_derive_ECDSA_witness :
  exists dkB (saveA saveB : SaveData unit) d',
    DeriveKey (aux := unit) Toy.curve Toy.curve Toy.ecdsa_B Toy.path = Ret dkB /\
    dk_PublicKey dkB = dk_PublicKey Toy.ecdsa_dkA /\
    uncompressed (mulG Toy.curve d') = Ret (dk_PublicKey Toy.ecdsa_dkA) /\
    Unmarshal (dk_Share Toy.ecdsa_dkA) = Ret saveA /\
    Unmarshal (dk_Share dkB) = Ret saveB /\
    Pub saveA = Some (mulG Toy.curve d') /\ Pub saveB = Some (mulG Toy.curve d') /\
    reconstruct2 (ec_N Toy.curve) 1 (ShareID saveA) (Xi saveA) (ShareID saveB) (Xi saveB) = d' mod ec_N Toy.curve.
Proof.
  apply (dealer_derive_ECDSA (preParams := unit) (aux := unit) (fun _ _ => tt) Toy.curve Toy.curve
    (fun _ => Ret 987654321) Toy.secret Toy.pub Toy.chain party_a party_b [tt; tt]
    Toy.ecdsa_A Toy.ecdsa_B Toy.path
    Toy.ecdsa_dkA 1 (nth 0 Toy.ids 0) (nth 1 Toy.ids 0));
    [..|exact toy_derive_A]; vm_compute; reflexivity || discriminate.
Defined.

Lemma toy_eddsa_valid :
  exists coeffs, valid_share Toy.curve (aux := unit) coeffs Toy.secret Toy.ids (nth 0 Toy.ids 0)
                   (ks_Share Toy.eddsa_A) /\
    valid_share Toy.curve (aux := unit) coeffs Toy.secret Toy.ids (nth 1 Toy.ids 0)
                   (ks_Share Toy.eddsa_B).
Proof.
  destruct (DealerSetupEdDSA_valid Toy.curve (fun _ => Ret 987654321) Toy.secret Toy.pub Toy.chain
              [party_a; party_b] [Toy.eddsa_A; Toy.eddsa_B])
    as (coeffs & _ & HV); [vm_compute; discriminate|vm_compute; reflexivity|].
  exists coeffs. split.
  - destruct (HV 0%nat _ eq_refl) as (k & E & V & _). vm_compute in E. injection E as <-. exact V.
  - destruct (HV 1%nat _ eq_refl) as (k & E & V & _). vm_compute in E. injection E as <-. exact V.
Qed.

Lemma derive_EdDSA_consistent_witness :
  exists coeffs dk2 d',
    DeriveKey (aux := unit) Toy.curve Toy.curve Toy.eddsa_B Toy.path = Ret dk2 /\
    dk_PublicKey dk2 = dk_PublicKey Toy.eddsa_dkA /\
    edwardsPointToEd25519PubKey (mulG Toy.curve d')
      = Ret (dk_PublicKey Toy.eddsa_dkA) /\
    valid_share Toy.curve (aux := unit) coeffs d' Toy.ids (nth 0 Toy.ids 0)
      (dk_Share Toy.eddsa_dkA) /\
    valid_share Toy.curve (aux := unit) coeffs d' Toy.ids (nth 1 Toy.ids 0) (dk_Share dk2).
Proof.
  destruct toy_eddsa_valid as (coeffs & V1 & V2). exists coeffs.
  apply (derive_EdDSA_consistent (aux := unit) Toy.curve Toy.curve coeffs Toy.secret Toy.ids
    (nth 0 Toy.ids 0) (nth 1 Toy.ids 0) Toy.eddsa_A Toy.eddsa_B
    Toy.path Toy.eddsa_dkA);
    [vm_compute; discriminate|exact V1|exact V2|vm_compute; reflexivity..].
Defined.
