(* ===== verification/TssProtocolFacts.v ===== *)
(** * TssProtocolFacts: derivation paths, message routing and ceremonies

    Parsing of derivation paths, delivery of protocol messages between the two
    parties, and what the DKG, signing and resharing loops return. *)
From S2P Require Import Prelude GoStd Codec Crypto Protocol Transport Tss TssFacts.
Local Open Scope Z_scope.

(** ** Derivation paths *)

(** A path component as a user writes it: a number and an optional hardening
    mark. *)
Inductive mark := Plain | Apostrophe | LowerH | UpperH.
Definition mark_text (m : mark) : string :=
  match m with Plain => "" | Apostrophe => "'" | LowerH => "h" | UpperH => "H" end.
Definition component : Type := Z * mark.
Definition component_text (x : component) : string := Strconv.Itoa x.1 +:+ mark_text x.2.
Definition component_index (x : component) : Z :=
  match x.2 with Plain => x.1 | _ => x.1 + hardenedOffset end.
Definition path_text (l : list component) : string := Strings.Join (map component_text l) "/".

Section PathFacts.
Context `{Unicode}.

Lemma drop_last_snoc s c : drop_last (s +:+ String c "") = s.
Proof.
  unfold drop_last.
  assert (Hl : String.length (s +:+ String c "") = S (String.length s)).
  { induction s as [|d s IH]; [done|].
    change (String d s +:+ String c "") with (String d (s +:+ String c "")). cbn. by rewrite IH. }
  rewrite Hl. cbn [Nat.sub]. rewrite Nat.sub_0_r. induction s as [|d s IH]; [done|].
  change (String d s +:+ String c "") with (String d (s +:+ String c "")). cbn.
  f_equal. apply IH.
  change (String d s +:+ String c "") with (String d (s +:+ String c "")) in Hl. cbn in Hl. lia.
Qed.

Lemma parseComponent_text x : 0 <= x.1 < 2 ^ 31 ->
  parseComponent (component_text x) = Ret (component_index x).
Proof.
  intros Hx. destruct (Strconv.Itoa_digits x.1 ltac:(lia)) as [Hd _].
  assert (HP : Strconv.ParseUint (Strconv.Itoa x.1) 31 = Ret x.1)
    by (apply Strconv.ParseUint_decimal; [apply Strconv.decimal_Itoa|]; lia).
  unfold parseComponent, component_text, component_index.
  destruct x as [n []]; cbn [fst snd mark_text] in *;
    [rewrite append_empty, !Strconv.digits_no_suffix by done
    |rewrite !Strings.HasSuffix_snoc, drop_last_snoc..];
    cbn [orb Ascii.eqb Bool.eqb]; rewrite HP; reflexivity.
Qed.

Lemma component_text_nonempty x : 0 <= x.1 -> component_text x <> "".
Proof.
  intros Hx. unfold component_text. pose proof (Strconv.Itoa_digits x.1 Hx) as [_ Hne].
  destruct (Strconv.Itoa x.1) as [|c s] eqn:E; [done|].
  change (String c s +:+ mark_text x.2) with (String c (s +:+ mark_text x.2)). discriminate.
Qed.

Lemma component_text_no_slash x : 0 <= x.1 -> Strings.no_char "/" (component_text x) = true.
Proof.
  intros Hx. pose proof (Strconv.Itoa_digits x.1 Hx) as [Hd _].
  pose proof (Strconv.digits_no_char "/" _ eq_refl Hd) as H1.
  unfold component_text, Strings.no_char, Strings.mem_ascii in *. revert H1.
  generalize (Strconv.Itoa x.1). induction s as [|c s IH]; [by destruct x as [? []]|].
  change (String c s +:+ mark_text x.2) with (String c (s +:+ mark_text x.2)). cbn.
  rewrite !negb_orb. intros [-> Hs]%andb_true_iff. by apply IH.
Qed.

Lemma TrimPrefix_digits s t : Strconv.forall_ascii Strconv.is_digit s = true -> s <> "" ->
  Strings.TrimPrefix (s +:+ t) "m/" = s +:+ t.
Proof.
  destruct s as [|c s]; [done|]. intros [Hc _]%andb_true_iff _.
  change (String c s +:+ t) with (String c (s +:+ t)).
  unfold Strings.TrimPrefix. cbn [Strings.strip_prefix].
  destruct (Ascii.eqb_spec "m" c) as [<-|]; [|done]. discriminate Hc.
Qed.

Lemma path_text_head l : l <> [] -> Forall (fun x : component => 0 <= x.1 < 2 ^ 31) l ->
  exists x t, path_text l = Strconv.Itoa x +:+ t /\ 0 <= x.
Proof.
  destruct l as [|x l]; [done|]. intros _ [Hx _]%Forall_cons. exists x.1.
  destruct l as [|y l]; eexists; (split; [|lia]); [reflexivity|].
  unfold path_text. change (Strings.Join (map component_text (x :: y :: l)) "/")
    with ((Strconv.Itoa x.1 +:+ mark_text x.2) +:+ "/" +:+ Strings.Join (map component_text (y :: l)) "/").
  symmetry. apply append_assoc.
Qed.

(** C26: every derivation path a user can write, with or without the [m/] and
    with any of the three hardening marks, parses to the BIP-32 indices its
    components name. *)
Theorem parsePath_complete l p : p = "m/" \/ p = "" ->
  l <> [] -> Forall (fun x : component => 0 <= x.1 < 2 ^ 31) l ->
  parsePath (p +:+ path_text l) = Ret (map component_index l).
Proof.
  intros Hp Hne HF. unfold parsePath.
  destruct (path_text_head l Hne HF) as (x & t & Ht & Hx).
  destruct (Strconv.Itoa_digits x Hx) as [Hd Hn].
  assert (Htrim : Strings.TrimPrefix (p +:+ path_text l) "m/" = path_text l).
  { destruct Hp as [->| ->]; [apply Strings.TrimPrefix_app|].
    change ("" +:+ path_text l) with (path_text l). rewrite Ht. by apply TrimPrefix_digits. }
  rewrite Htrim, bool_decide_eq_false_2.
  2:{ rewrite Ht. destruct (Strconv.Itoa x); [done|]. discriminate. }
  unfold path_text. rewrite Strings.Split_Join.
  - clear -HF. induction HF as [|y l Hy HF IH]; [done|]. cbn [map].
    rewrite filter_cons_True by (apply component_text_nonempty; lia).
    cbn [go_mapM]. rewrite parseComponent_text by done. cbn [mbind go_bind].
    rewrite IH. done.
  - by destruct l.
  - apply Forall_fmap. eapply Forall_impl; [exact HF|]. intros y Hy. cbv beta in Hy. apply component_text_no_slash. lia.
Qed.

(** An accepted path gives 32-bit indices: hardening never wraps. *)
Theorem parsePath_range path l : parsePath path = Ret l -> Forall (fun i => 0 <= i < 2 ^ 32) l.
Proof.
  unfold parsePath. case_bool_decide; [done|].
  generalize (filter (fun part => part <> "") (Strings.Split (Strings.TrimPrefix path "m/") "/")).
  intros parts. revert l. induction parts as [|w ws IH]; intros l; cbn [go_mapM]; [by intros [= <-]|].
  intros (i & Hi & (js & Hjs & [= <-])%go_bind_Ret)%go_bind_Ret. constructor; [|by apply IH].
  unfold parseComponent in Hi. apply go_bind_Ret in Hi as (n & Hn%wrap_err_Ret & [= <-]).
  apply Strconv.ParseUint_range in Hn; [|lia]. unfold hardenedOffset. case_match; lia.
Qed.
End PathFacts.

Lemma parsePath_complete_witness :
  parsePath (H := Toy.unicode) ("m/" +:+ "44'/501h/0H/0/7") = Ret [2147483692; 2147484149; 2147483648; 0; 7].
Proof.
  apply (parsePath_complete (H := Toy.unicode)
    [(44, Apostrophe); (501, LowerH); (0, UpperH); (0, Plain); (7, Plain)] "m/").
  - by left.
  - discriminate.
  - repeat constructor; cbn; lia.
Defined.

Lemma parsePath_range_witness :
  parsePath (H := Toy.unicode) "m/2147483647'" = Ret [4294967295] /\ Forall (fun i => 0 <= i < 2 ^ 32) [4294967295].
Proof. split; [reflexivity|]. apply (parsePath_range (H := Toy.unicode) "m/2147483647'"). reflexivity. Defined.

(** A path of separators only is accepted and names the master key. *)
Example parsePath_slash : parsePath (H := Toy.unicode) "m//" = Ret [].
Proof. reflexivity. Qed.

(** ** Message routing *)

(** A router that records what it sends, and never fails. *)
#[local] Instance outbox : MessageRouter (list (PartyID * bytes)) :=
  fun r to data => (r ++ [(to, data)], None).

Section RoutingFacts.
Context `{Codec wireMessage} `{!CodecLaws wireMessage} {P : Type} `{PartyMachine P}.

Lemma send_all_outbox r data tos :
  send_all r data tos = (r ++ map (fun pid => (party_of pid, data)) tos, Ret tt).
Proof.
  revert r. induction tos as [|p tos IH]; intros r; cbn; [by rewrite app_nil_r|].
  by rewrite IH, <- app_assoc.
Qed.

(** C27: delivery: whatever a party's state machine emits reaches the machine of
    every addressee unchanged: for each message the router carried, the receiver
    feeds its machine exactly the emitted bytes, the emitting party and the
    broadcast flag; a broadcast goes to every other party and to nobody else. *)
Theorem routeMessage_delivers sortedIDs msg b from (party : P) :
  representable {| wm_From := Id (tm_From msg); wm_IsBroadcast := tm_IsBroadcast msg; wm_Payload := b |} ->
  tm_WireBytes msg = Ret b -> findPartyID sortedIDs (Id (tm_From msg)) = Some from ->
  exists data,
    routeMessage msg sortedIDs ([] : list (PartyID * bytes))
      = (map (fun pid => (party_of pid, data))
           (if tm_IsBroadcast msg then filter (fun pid => Id pid <> Id (tm_From msg)) sortedIDs
            else tm_To msg), Ret tt) /\
    forall sender, handleIncoming party {| im_From := sender; im_Payload := data |} sortedIDs
      = let '(party1, res) := UpdateFromBytes party b from (tm_IsBroadcast msg) in
        (party1, wrap_err "update from bytes" res).
Proof.
  intros Hrep Hb Hf. unfold routeMessage. rewrite Hb. cbn [wrap_err].
  destruct (Marshal_total _ Hrep) as [data Hd].
  exists data. rewrite Hd. cbn [wrap_err]. rewrite send_all_outbox. split; [done|].
  intros sender. unfold handleIncoming. cbn [im_Payload].
  rewrite (Unmarshal_Marshal _ _ Hrep Hd). cbn [wrap_err wm_From wm_Payload wm_IsBroadcast]. by rewrite Hf.
Qed.

(** A message whose sender is not a participant stops the ceremony without
    touching the party's state. *)
Lemma handleIncoming_unknown (party : P) m wm sortedIDs :
  Unmarshal (im_Payload m) = Ret wm -> findPartyID sortedIDs (wm_From wm) = None ->
  handleIncoming party m sortedIDs = (party, Err ("unknown sender: " +:+ wm_From wm)).
Proof. intros Hu Hf. unfold handleIncoming. rewrite Hu. cbn [wrap_err]. by rewrite Hf. Qed.
End RoutingFacts.

(** Instances for the concrete runs below: a machine that logs what it is fed. *)
#[local] Instance logger : PartyMachine (list (bytes * string * bool)) := {|
  UpdateFromBytes := fun p b from bc => (p ++ [(b, Id from, bc)], Ret tt) |}.
#[local] Instance wireMessage_eq_dec : EqDecision wireMessage.
Proof. solve_decision. Defined.
#[local] Instance wireMessage_countable : Countable wireMessage :=
  inj_countable' (fun m => (wm_From m, wm_IsBroadcast m, wm_Payload m))
    (fun t => {| wm_From := t.1.1; wm_IsBroadcast := t.1.2; wm_Payload := t.2 |})
    (fun m => match m with Build_wireMessage _ _ _ => eq_refl end).
#[local] Instance wireMessage_codec : Codec wireMessage := CountableCodec.codec wireMessage.
#[local] Instance wireMessage_laws : CodecLaws wireMessage := CountableCodec.codec_laws wireMessage.

Definition two_parties : list tss_PartyID :=
  [NewPartyID "party-a" "party-0" 1; NewPartyID "party-b" "party-1" 2].
Definition round1 : tss_Message :=
  {| tm_From := NewPartyID "party-a" "party-0" 1; tm_IsBroadcast := true; tm_To := [];
     tm_WireBytes := Ret [x01; x02] |}.

Lemma routeMessage_delivers_witness :
  exists data,
    routeMessage round1 two_parties ([] : list (PartyID * bytes))
      = ([({| pid_ID := "party-b"; pid_Index := -1 |}, data)], Ret tt) /\
    forall sender, handleIncoming ([] : list (bytes * string * bool))
        {| im_From := sender; im_Payload := data |} two_parties
      = ([([x01; x02], "party-a", true)], Ret tt).
Proof.
  destruct (routeMessage_delivers two_parties round1 [x01; x02] (NewPartyID "party-a" "party-0" 1)
              ([] : list (bytes * string * bool))) as (data & E1 & E2);
    [exact I|reflexivity|reflexivity|].
  exists data. split; [exact E1|exact E2].
Defined.

(** ** Ceremonies *)

Section CeremonyFacts.
Context `{TssLib} {preParams aux : Type} `{Codec (SaveData aux)} `{Codec (SaveData unit)} `{Codec wireMessage}.
Context {R : Type} `{MessageRouter R} {P : Type} `{PartyMachine P}.
Context (S256 Edwards : EllipticCurve).

Lemma cause_Ret {A} e (m : go A) a : cause e m = Ret a -> m = Ret a.
Proof. by destruct m. Qed.

Lemma start_Ret {A B} (m : go A) (k : A -> option (go B)) b :
  start m k = Some (Ret b) -> exists a, m = Ret a /\ k a = Some (Ret b).
Proof. destruct m; cbn; [eauto|by intros [=]|by intros [=]]. Qed.

(** A loop that returns a result ended on the machine's own output. *)
Lemma run_loop_result {save out} err (finish : save -> go out) ids party (r : R) evs o :
  run_loop (P := P) err finish ids party r evs = Some (Ret o) ->
  exists s, In (End_ s) evs /\ finish s = Ret o.
Proof.
  revert party r. induction evs as [|ev evs IH]; intros party r; [done|].
  assert (Hrec : forall party r, run_loop (P := P) err finish ids party r evs = Some (Ret o) ->
                 exists s, In (End_ s) (ev :: evs) /\ finish s = Ret o).
  { intros party' r' Hr. destruct (IH _ _ Hr) as (s & Hs & Hf). exists s. split; [by right|done]. }
  destruct ev; cbn; try done.
  - destruct (routeMessage msg ids r) as [r1 [[]| |]]; try done. apply Hrec.
  - destruct (handleIncoming party msg ids) as [p1 [[]| |]]; try done. apply Hrec.
  - intros [= Hf]. exists s. split; [by left|done].
Qed.

Lemma marshalECDSAKeyShare_Ret curve pid (save : SaveData aux) ks :
  marshalECDSAKeyShare S256 curve pid save = Ret ks ->
  exists p, Pub save = Some p /\ elliptic_Marshal S256 p = Ret (ks_PublicKey ks) /\
    ks_ChainCode ks = Sha256.Sum256 (ks_PublicKey ks) /\ ks_Curve ks = curve /\
    Marshal save = Ret (ks_Share ks).
Proof.
  unfold marshalECDSAKeyShare.
  intros (b & Hb%cause_Ret%wrap_err_Ret & (p & Hp & (pk & Hpk & [= <-])%go_bind_Ret)%go_bind_Ret)%go_bind_Ret.
  exists p. destruct (Pub save); [|done]. injection Hp as ->. by repeat split.
Qed.

(** Agreement of the DKG: two runs of the ECDSA ceremony, on whatever
    sequences of events, that end with save data of one common public point return
    key shares with the same public key and the same chain code, so that the two
    parties' derivations agree afterwards. *)
Theorem dkgECDSA_agreement genPP (newA newB : list tss_PartyID -> tss_PartyID -> Z -> preParams -> P)
    pA pB idA idB partiesA partiesB tA tB (rA rB : R) evsA evsB ksA ksB pub :
  dkgECDSA S256 genPP newA pA idA partiesA tA rA evsA = Some (Ret ksA) ->
  dkgECDSA S256 genPP newB pB idB partiesB tB rB evsB = Some (Ret ksB) ->
  (forall s : SaveData aux, In (End_ s) evsA \/ In (End_ s) evsB -> Pub s = Some pub) ->
  ks_PublicKey ksA = ks_PublicKey ksB /\ ks_ChainCode ksA = ks_ChainCode ksB /\
  ks_ChainCode ksA = Sha256.Sum256 (ks_PublicKey ksA) /\ ks_Curve ksA = ks_Curve ksB.
Proof.
  unfold dkgECDSA, runDKGLoop. intros HA HB Hpub.
  apply start_Ret in HA as (meA & _ & HA), HB as (meB & _ & HB).
  apply start_Ret in HA as (ppA & _ & HA), HB as (ppB & _ & HB).
  apply run_loop_result in HA as (sA & HinA & HA), HB as (sB & HinB & HB).
  apply marshalECDSAKeyShare_Ret in HA as (qA & EA & MA & CA & KA & _), HB as (qB & EB & MB & CB & KB & _).
  rewrite (Hpub sA) in EA by auto. rewrite (Hpub sB) in EB by auto. injection EA as <-. injection EB as <-.
  rewrite MA in MB. injection MB as MB. rewrite CA, CB, MB, KA, KB. done.
Qed.

(** Resharing keeps the key usable: the new share carries the old chain
    code, whatever the machine's output, and if the machine kept the public point
    then also the old public key; so addresses derived before still derive. *)
Theorem reshareECDSA_preserves_chain new old me oldP newP t (r : R) evs ks :
  reshareECDSA (aux := aux) S256 new (Some old) me oldP newP t r evs = Some (Ret ks) ->
  ks_ChainCode ks = ks_ChainCode old /\ ks_Curve ks = ks_Curve old /\
  exists s p, In (End_ s) evs /\ Pub s = Some p /\ Marshal s = Ret (ks_Share ks) /\
    (elliptic_Marshal S256 p = Ret (ks_PublicKey old) -> ks_PublicKey ks = ks_PublicKey old).
Proof.
  unfold reshareECDSA, reshare_with, runReshareECDSALoop.
  assert (Hloop : forall ids party me0,
    run_loop (P := P) ErrResharingFailed
      (reshare_finish (fun curve s => marshalECDSAKeyShare S256 curve me0 s) (Some old)) ids party r evs = Some (Ret ks) ->
    ks_ChainCode ks = ks_ChainCode old /\ ks_Curve ks = ks_Curve old /\
    exists s p, In (End_ s) evs /\ Pub s = Some p /\ Marshal s = Ret (ks_Share ks) /\
      (elliptic_Marshal S256 p = Ret (ks_PublicKey old) -> ks_PublicKey ks = ks_PublicKey old)).
  { intros ids party me0 (s & Hin & Hf)%run_loop_result. unfold reshare_finish in Hf.
    cbn [deref mbind go_bind] in Hf. apply go_bind_Ret in Hf as (ks0 & Hks%cause_Ret & [= <-]).
    apply marshalECDSAKeyShare_Ret in Hks as (p & Hp & HM & _ & HC & HS).
    split; [done|]. split; [done|]. exists s, p. repeat (split; [done|]). cbn. congruence. }
  destruct (findPartyID (makeSortedPartyIDs oldP) _) as [meO|].
  - intros (sv & _ & Hr)%start_Ret. by eapply Hloop.
  - destruct (findPartyID (makeSortedPartyIDs newP) _) as [meN|]; [|done]. apply Hloop.
Qed.

(** A party that only joins the new committee and so has no old share never
    obtains its new share: the end of the ceremony dereferences the missing one. *)
Theorem reshareECDSA_new_party_panics new me oldP newP t (r : R) (s : SaveData aux) evs who :
  findPartyID (makeSortedPartyIDs oldP) (pid_ID me) = None ->
  findPartyID (makeSortedPartyIDs newP) (pid_ID me) = Some who ->
  reshareECDSA S256 new None me oldP newP t r (End_ s :: evs) = Some Panic.
Proof. intros Ho Hn. unfold reshareECDSA, reshare_with, runReshareECDSALoop. by rewrite Ho, Hn. Qed.
End CeremonyFacts.

Import Toy.

Definition example_save : SaveData unit :=
  {| sd_aux := tt; Xi := 5; ShareID := 1; Ks := [1; 2]; BigXj := []; Pub := Some (7, 9) |}.
Definition example_new : list tss_PartyID -> tss_PartyID -> Z -> unit -> list (bytes * string * bool) :=
  fun _ _ _ _ => [].
Definition example_protocol : TSSProtocol unit := {| Threshold := 0; GetPreParams := Some (fun _ => Ret tt) |}.
Definition example_run (who : PartyID) : option (go KeyShare) :=
  dkgECDSA (R := list (PartyID * bytes)) (H := number_parties) Toy.curve (Ret tt) example_new
    example_protocol who [party_a; party_b] 1 [] [Out round1; End_ example_save].
Definition the_share (m : option (go KeyShare)) : KeyShare :=
  match m with
  | Some (Ret ks) => ks
  | _ => {| ks_Curve := ""; ks_PartyID := party_a; ks_Share := []; ks_PublicKey := []; ks_ChainCode := [] |}
  end.


Definition share_a : KeyShare := Eval vm_compute in the_share (example_run party_a).
Definition share_b : KeyShare := Eval vm_compute in the_share (example_run party_b).

Lemma dkgECDSA_agreement_witness :
  ks_PublicKey share_a = ks_PublicKey share_b /\
  ks_ChainCode share_a = ks_ChainCode share_b /\
  ks_ChainCode share_a = Sha256.Sum256 (ks_PublicKey share_a) /\
  ks_Curve share_a = ks_Curve share_b.
Proof.
  apply (dkgECDSA_agreement (R := list (PartyID * bytes)) Toy.curve (Ret tt) example_new example_new
    example_protocol example_protocol party_a party_b [party_a; party_b] [party_a; party_b] 1 1 [] []
    [Out round1; End_ example_save] [Out round1; End_ example_save] share_a share_b (7, 9)).
  - vm_compute. reflexivity.
  - vm_compute. reflexivity.
  - intros s [Hs|Hs]; destruct Hs as [E|[E|[]]]; try discriminate E; by injection E as <-.
Defined.

Definition example_reshare : option (go KeyShare) :=
  reshareECDSA (R := list (PartyID * bytes)) (P := list (bytes * string * bool)) (aux := unit)
    (H := number_parties) Toy.curve (fun _ _ _ _ _ _ => [])
    (Some share_a) party_a [party_a; party_b] [party_a; party_b] 1 []
    [End_ example_save].

Definition reshared_a : KeyShare := Eval vm_compute in the_share example_reshare.

Lemma reshareECDSA_preserves_chain_witness :
  ks_ChainCode reshared_a = ks_ChainCode share_a.
Proof.
  destruct (reshareECDSA_preserves_chain (R := list (PartyID * bytes)) (P := list (bytes * string * bool))
    (H := number_parties) Toy.curve (fun _ _ _ _ _ _ => []) share_a
    party_a [party_a; party_b] [party_a; party_b] 1 [] [End_ example_save] reshared_a)
    as [HC _]; [vm_compute; reflexivity|exact HC].
Defined.
