(* ===== verification/Vm.v ===== *)
(** * Vm: the chain adapters' interface and registry (internal/vm/adapter.go)

    [Adapter] is the Go interface as a record of operations; [AdapterLaws] is
    what the two parties rely on, discharged by each chain in its own file.
    [Registry] selects the adapter by the coin type of a derivation path. *)
From S2P Require Import Prelude GoStd Codec Protocol Transport Tss.
Local Open Scope Z_scope.

Record SolanaAccountMeta := { sam_Pubkey : string; sam_IsSigner : bool; sam_IsWritable : bool }.
Record SolanaInstruction := {
  si_ProgramID : string; si_Accounts : list SolanaAccountMeta; si_Data : string }.

Record TxRequest := {
  tr_From : string; tr_To : list string; tr_Value : string; tr_Data : bytes; tr_DerivationPath : string;
  tr_Prefix : string; tr_Denom : string; tr_ChainID : string;
  tr_AccountNumber : Z; tr_Sequence : Z; tr_Fee : string; tr_Gas : Z; tr_Memo : string;
  tr_PubKey : bytes; tr_GasLimit : Z; tr_GasPrice : string; tr_Nonce : Z; tr_AutoNonce : bool;
  tr_RpcURL : string; tr_Mint : string; tr_Instructions : list SolanaInstruction;
  tr_Program : string; tr_Method : string; tr_Args : gmap string string }.

Record UnsignedTx := {
  utx_RawBytes : bytes; utx_Hash : bytes; utx_To : list string; utx_Value : string;
  utx_Data : string; utx_ExtraSignerKeys : list bytes }.

Record DecodedTx := {
  dtx_From : string; dtx_To : list string; dtx_Value : string; dtx_Data : string;
  dtx_Method : string; dtx_Args : gmap string string; dtx_ChainID : string; dtx_GasLimit : Z }.

Record deriveOpts := { do_Prefix : string }.
Definition DeriveOption : Type := deriveOpts -> deriveOpts.
Definition WithPrefix (prefix : string) : DeriveOption := fun o => {| do_Prefix := prefix |}.
Definition ApplyDeriveOpts (opts : list DeriveOption) : deriveOpts :=
  fold_left (fun o fn => fn o) opts {| do_Prefix := "" |}.

Record Adapter := {
  Name : string;
  AdapterCurve : Curve;
  DeriveAddress : bytes -> list DeriveOption -> go string;
  BuildUnsignedTx : TxRequest -> go UnsignedTx;
  ExtractSignableBytes : bytes -> go bytes;
  AssembleSignedTx : bytes -> Signature -> go bytes;
  DecodeTx : bytes -> go DecodedTx;
}.

(** The contract between an adapter and its callers, on the requests [ok]
    accepts: the hash Party A claims for a transaction it built is the one
    Party B extracts from the raw bytes. *)
Class AdapterLaws (a : Adapter) (ok : TxRequest -> Prop) :=
  build_signable req u :
    ok req -> BuildUnsignedTx a req = Ret u ->
    ExtractSignableBytes a (utx_RawBytes u) = Ret (utx_Hash u).

(** ** Registry *)
Definition Registry : Type := gmap string Adapter.
Definition NewRegistry : Registry := ∅.
Definition Register (r : Registry) (prefixes : list string) (adapter : Adapter) : Registry :=
  fold_left (fun m p => <[p := adapter]> m) prefixes r.

(** One rune of [splitPath]'s loop; [parts] is kept in reverse. *)
Definition splitPath_rune (st : list string * string) (c : Z) : list string * string :=
  let '(parts, current) := st in
  if c =? 0x2F then ((if bool_decide (current = "") then parts else current :: parts), "")
  else (parts, current +:+ string_of (Utf8.encode_rune c)).
Definition splitPath (path : string) : list string :=
  let '(parts, current) := fold_left splitPath_rune (Utf8.runes_of (bytes_of path)) ([], "") in
  rev (if bool_decide (current = "") then parts else current :: parts).

Definition extractCoinType (path : string) : string :=
  match splitPath path with
  | _ :: _ :: ct :: _ => Strings.TrimSuffix ct "'"
  | _ => ""
  end.

Definition ForPath (r : Registry) (derivationPath : string) : option Adapter :=
  let coinType := extractCoinType derivationPath in
  if bool_decide (coinType = "") then None else r !! coinType.
