(* ===== verification/VmFacts.v ===== *)
(** * VmFacts: selection of the chain adapter by derivation path *)
From S2P Require Import Prelude GoStd Codec Protocol Transport Tss TssFacts TssProtocolFacts Vm.
Local Open Scope Z_scope.

(** ** [splitPath] is [strings.Split] without empty parts, on ASCII paths *)

Definition nonempty_parts (l : list string) : list string := filter (fun w => w <> "") l.

Definition finish_split (st : list string * string) : list string :=
  rev (if bool_decide (st.2 = "") then st.1 else st.2 :: st.1).

Lemma finish_split_slash parts cur :
  finish_split (splitPath_rune (parts, cur) 0x2F) = rev (if bool_decide (cur = "") then parts else cur :: parts).
Proof. reflexivity. Qed.

Lemma byte_slash c : Z_of_byte (byte_of_ascii c) = 0x2F <-> c = "/"%char.
Proof.
  split; [|by intros ->]. intros Hc.
  change 0x2F with (Z_of_byte (byte_of_ascii "/")) in Hc. apply Z_of_byte_inj in Hc.
  by rewrite <- (ascii_of_byte_of_ascii c), Hc.
Qed.

Lemma splitPath_loop s : forall parts cur, Utf8.is_ascii (bytes_of s) = true ->
  finish_split (fold_left splitPath_rune (map Z_of_byte (bytes_of s)) (parts, cur))
  = rev parts ++ nonempty_parts
      (match Strings.Split s "/" with w :: ws => (cur +:+ w) :: ws | [] => [] end).
Proof.
  unfold nonempty_parts. induction s as [|c s IH]; intros parts cur Ha.
  - cbn [bytes_of String.list_byte_of_string String.list_ascii_of_string map fold_left Strings.Split].
    unfold finish_split; cbn [fst snd]. rewrite append_empty. case_bool_decide as Hc.
    + rewrite filter_cons_False by (intros H; by apply H). by rewrite filter_nil, app_nil_r.
    + rewrite filter_cons_True, filter_nil by done. done.
  - change (bytes_of (String c s)) with (byte_of_ascii c :: bytes_of s) in *.
    cbn [Utf8.is_ascii forallb] in Ha. apply andb_true_iff in Ha as [Hc Ha].
    cbn [map fold_left Strings.Split]. unfold splitPath_rune at 2.
    destruct (Z.eqb_spec (Z_of_byte (byte_of_ascii c)) 0x2F) as [Es|Es].
    + apply byte_slash in Es as ->. rewrite Ascii.eqb_refl, IH by done.
      rewrite append_empty. destruct (Strings.Split s "/") as [|w ws] eqn:E.
      { by apply Strings.Split_not_nil in E. }
      change ("" +:+ w) with w. case_bool_decide as Hcur.
      * rewrite (filter_cons_False _ cur) by (intros H; by apply H). done.
      * rewrite (filter_cons_True _ cur) by done. cbn [rev]. by rewrite <- app_assoc.
    + destruct (Ascii.eqb_spec c "/") as [->|_]; [by destruct Es|].
      rewrite Utf8.encode_rune_ascii by lia. rewrite IH by done. do 2 f_equal.
      destruct (Strings.Split s "/") as [|w ws] eqn:E; [by apply Strings.Split_not_nil in E|].
      change (string_of [byte_of_ascii c]) with (String (ascii_of_byte (byte_of_ascii c)) "").
      by rewrite ascii_of_byte_of_ascii, <- append_assoc.
Qed.

Lemma splitPath_ascii s : Utf8.is_ascii (bytes_of s) = true ->
  splitPath s = nonempty_parts (Strings.Split s "/").
Proof.
  intros Ha. unfold splitPath. rewrite Utf8.runes_of_ascii by done.
  pose proof (splitPath_loop s [] "" Ha) as H. unfold finish_split in H.
  destruct (fold_left splitPath_rune _ _) as [parts cur]. cbn [fst snd] in H. rewrite H. cbn [rev app].
  by destruct (Strings.Split s "/").
Qed.

(** ** Well-formed paths are ASCII *)

Lemma is_ascii_app a b : Utf8.is_ascii (a ++ b) = Utf8.is_ascii a && Utf8.is_ascii b.
Proof. apply forallb_app. Qed.

Lemma digits_ascii s : Strconv.forall_ascii Strconv.is_digit s = true -> Utf8.is_ascii (bytes_of s) = true.
Proof.
  induction s as [|c s IH]; [done|]. cbn [Strconv.forall_ascii]. intros [Hc Hs]%andb_true_iff.
  change (bytes_of (String c s)) with (byte_of_ascii c :: bytes_of s).
  cbn [Utf8.is_ascii forallb]. apply andb_true_iff. split; [|by apply IH].
  unfold Strconv.is_digit, Strconv.digit in Hc. cbv zeta in Hc.
  destruct ((0x30 <=? _) && _) eqn:E in Hc; [|done]. apply andb_true_iff in E. lia.
Qed.

Lemma component_text_ascii x : 0 <= x.1 -> Utf8.is_ascii (bytes_of (component_text x)) = true.
Proof.
  intros Hx. unfold component_text. rewrite bytes_of_app, is_ascii_app, digits_ascii
    by (by apply Strconv.Itoa_digits). by destruct x as [? []].
Qed.

Lemma path_text_ascii l : Forall (fun x : component => 0 <= x.1) l ->
  Utf8.is_ascii (bytes_of (path_text l)) = true.
Proof.
  unfold path_text. induction 1 as [|x l Hx HF IH]; [done|]. destruct l as [|y l].
  - by apply component_text_ascii.
  - change (Strings.Join (map component_text (x :: y :: l)) "/")
      with (component_text x +:+ "/" +:+ Strings.Join (map component_text (y :: l)) "/").
    by rewrite !bytes_of_app, !is_ascii_app, component_text_ascii, IH.
Qed.

Lemma splitPath_path_text l : l <> [] -> Forall (fun x : component => 0 <= x.1) l ->
  splitPath ("m/" +:+ path_text l) = "m" :: map component_text l.
Proof.
  intros Hne HF. rewrite splitPath_ascii by (by rewrite bytes_of_app, is_ascii_app, path_text_ascii).
  change ("m/" +:+ path_text l) with ("m" +:+ String "/" (path_text l)).
  rewrite Strings.Split_cons_sep by done. unfold path_text. rewrite Strings.Split_Join.
  - unfold nonempty_parts. rewrite filter_cons_True by done. f_equal.
    clear Hne. induction HF as [|x l Hx HF IH]; [done|]. cbn [map].
    rewrite filter_cons_True by (by apply component_text_nonempty). by rewrite IH.
  - by destruct l.
  - apply Forall_fmap. eapply Forall_impl; [exact HF|]. intros x Hx. by apply component_text_no_slash.
Qed.

Lemma rev_onto_rev_onto s acc acc' :
  Strings.rev_onto (Strings.rev_onto s acc) acc' = Strings.rev_onto acc (s +:+ acc').
Proof.
  revert acc acc'. induction s as [|c s IH]; intros acc acc'; [done|].
  cbn [Strings.rev_onto]. by rewrite IH.
Qed.

Lemma reverse_involutive s : Strings.reverse (Strings.reverse s) = s.
Proof. unfold Strings.reverse. rewrite rev_onto_rev_onto. cbn. apply append_empty. Qed.

Lemma TrimSuffix_snoc s c d :
  Strings.TrimSuffix (s +:+ String d "") (String c "")
  = if Ascii.eqb c d then s else s +:+ String d "".
Proof.
  unfold Strings.TrimSuffix. rewrite Strings.reverse_snoc.
  change (Strings.reverse (String c "")) with (String c ""). cbn [Strings.strip_prefix].
  destruct (Ascii.eqb c d); [apply reverse_involutive|done].
Qed.

Lemma TrimSuffix_digits s : Strconv.forall_ascii Strconv.is_digit s = true ->
  Strings.TrimSuffix s "'" = s.
Proof.
  intros Hs. destruct (Strings.string_snoc s) as [->|(s' & d & ->)]; [done|].
  rewrite TrimSuffix_snoc. rewrite Strconv.forall_ascii_app in Hs. cbn in Hs.
  destruct (Ascii.eqb_spec "'" d) as [<-|]; [|done]. by rewrite andb_false_r in Hs.
Qed.

(** The coin type read from a path, by the mark its component carries. *)
Definition coin_text (x : component) : string :=
  match x.2 with
  | Plain | Apostrophe => Strconv.Itoa x.1
  | LowerH => Strconv.Itoa x.1 +:+ "h"
  | UpperH => Strconv.Itoa x.1 +:+ "H"
  end.

Lemma extractCoinType_path_text a c rest :
  Forall (fun x : component => 0 <= x.1) (a :: c :: rest) ->
  extractCoinType ("m/" +:+ path_text (a :: c :: rest)) = coin_text c.
Proof.
  intros HF. unfold extractCoinType. rewrite splitPath_path_text by done. cbn [map].
  apply Forall_cons in HF as [_ [Hc _]%Forall_cons].
  destruct (Strconv.Itoa_digits c.1 Hc) as [Hd _].
  unfold component_text, coin_text. destruct c as [n []]; cbn [fst snd mark_text] in *.
  - rewrite append_empty. by apply TrimSuffix_digits.
  - rewrite TrimSuffix_snoc. done.
  - rewrite TrimSuffix_snoc. done.
  - rewrite TrimSuffix_snoc. done.
Qed.

Lemma Register_lookup r ps a p : p ∈ ps -> Register r ps a !! p = Some a.
Proof.
  unfold Register, Registry in *. revert r. induction ps as [|q ps IH]; intros r Hp; [by apply elem_of_nil in Hp|].
  cbn [fold_left]. destruct (decide (p ∈ ps)) as [Hin|Hn]; [by apply IH|].
  apply elem_of_cons in Hp as [->|?]; [|done]. clear IH.
  assert (Hpre : forall m : gmap string Adapter, m !! q = Some a -> fold_left (fun m p => <[p := a]> m) ps m !! q = Some a).
  { clear Hn. induction ps as [|w ps IH]; intros m Hm; [done|]. cbn [fold_left]. apply IH.
    destruct (decide (w = q)) as [->|]; [by rewrite lookup_insert_eq|by rewrite lookup_insert_ne]. }
  apply Hpre. by rewrite lookup_insert_eq.
Qed.

(** A BIP-44 path selects the adapter registered for its coin type when the
    coin component is plain or marked with an apostrophe, whatever the other
    components; a coin component hardened with [h] or [H], which the key
    derivation accepts as the same index, selects no adapter. *)
Theorem ForPath_selects `{Unicode} r a coin mk rest adapter coins :
  Forall (fun x : component => 0 <= x.1 < 2 ^ 31) (a :: (coin, mk) :: rest) ->
  Forall (fun p => Strconv.forall_ascii Strconv.is_digit p = true) (Strconv.Itoa coin :: coins) ->
  r = Register NewRegistry (Strconv.Itoa coin :: coins) adapter ->
  let path := "m/" +:+ path_text (a :: (coin, mk) :: rest) in
  parsePath path = Ret (map component_index (a :: (coin, mk) :: rest)) /\
  ForPath r path = match mk with Plain | Apostrophe => Some adapter | _ => None end.
Proof.
  intros HF Hps -> path. split; [apply parsePath_complete; [by left|done|done]|].
  unfold ForPath, path. rewrite extractCoinType_path_text.
  2:{ eapply Forall_impl; [exact HF|]. intros x Hx. cbv beta in Hx. lia. }
  apply Forall_cons in HF as [_ [Hc _]%Forall_cons]. cbn [fst] in Hc.
  destruct (Strconv.Itoa_digits coin ltac:(lia)) as [_ Hne].
  assert (Hno : forall s, Strconv.forall_ascii Strconv.is_digit s = false ->
    Register NewRegistry (Strconv.Itoa coin :: coins) adapter !! s = None).
  { intros s Hs. revert Hps. generalize (Strconv.Itoa coin :: coins). clear -Hs. intros ps Hps.
    unfold Register, NewRegistry, Registry. assert (Hm : (∅ : gmap string Adapter) !! s = None) by apply lookup_empty.
    revert Hm. generalize (∅ : gmap string Adapter). induction Hps as [|p ps Hp Hps IH]; intros m Hm; [done|].
    cbn [fold_left]. apply IH. rewrite lookup_insert_ne; [done|]. congruence. }
  assert (Hmark : forall d, Strconv.is_digit d = false ->
    bool_decide (Strconv.Itoa coin +:+ String d "" = "") = false /\
    Register NewRegistry (Strconv.Itoa coin :: coins) adapter !! (Strconv.Itoa coin +:+ String d "") = None).
  { intros d Hd. split.
    - apply bool_decide_eq_false_2. intros E. destruct (Strconv.Itoa coin); discriminate E.
    - apply Hno. rewrite Strconv.forall_ascii_app. cbn. rewrite Hd. apply andb_false_r. }
  destruct mk; cbn [coin_text snd fst].
  1, 2: rewrite bool_decide_eq_false_2 by done; apply Register_lookup; apply list_elem_of_here.
  - by destruct (Hmark "h"%char eq_refl) as [-> ->].
  - by destruct (Hmark "H"%char eq_refl) as [-> ->].
Qed.

Lemma ForPath_selects_witness :
  let a := {| Name := "evm"; AdapterCurve := CurveSecp256k1; DeriveAddress := fun _ _ => Err "";
              BuildUnsignedTx := fun _ => Err ""; ExtractSignableBytes := fun _ => Err "";
              AssembleSignedTx := fun _ _ => Err ""; DecodeTx := fun _ => Err "" |} in
  ForPath (Register NewRegistry ["60"] a) "m/44'/60'/0'/0/0" = Some a /\
  ForPath (Register NewRegistry ["60"] a) "m/44'/60h/0'/0/0" = None.
Proof.
  intros a. split.
  - destruct (ForPath_selects (H := Toy.unicode) (Register NewRegistry ["60"] a) (44, Apostrophe) 60 Apostrophe
      [(0, Apostrophe); (0, Plain); (0, Plain)] a []) as [_ HF];
      [repeat constructor; cbn; lia|repeat constructor|reflexivity|exact HF].
  - destruct (ForPath_selects (H := Toy.unicode) (Register NewRegistry ["60"] a) (44, Apostrophe) 60 LowerH
      [(0, Apostrophe); (0, Plain); (0, Plain)] a []) as [_ HF];
      [repeat constructor; cbn; lia|repeat constructor|reflexivity|exact HF].
Defined.
