(* ===== verification/Evm.v ===== *)
(** * Evm: the EVM adapter (internal/vm/evm/evm.go)

    go-ethereum's transaction type, RLP codec, signers, Keccak hash and address
    formatting are the class [Geth]; [GethLaws] states what the adapter relies
    on. The adapter satisfies the interface's contract on requests whose chain
    ID is not negative. *)
From S2P Require Import Prelude GoStd Codec Crypto Protocol Transport Tss TssFacts Vm.
Local Open Scope Z_scope.
Local Open Scope go_scope.

(** go-ethereum's [types.LegacyTx]. *)
Record LegacyTx := {
  lt_Nonce : Z; lt_GasPrice : Z; lt_Gas : Z; lt_To : bytes; lt_Value : Z; lt_Data : bytes;
  lt_V : Z; lt_R : Z; lt_S : Z }.

Class Geth := {
  Transaction : Type;
  NewTx : LegacyTx -> Transaction;
  tx_Value : Transaction -> Z;
  tx_ChainId : Transaction -> Z;
  tx_Gas : Transaction -> Z;
  tx_To : Transaction -> option bytes;
  tx_Data : Transaction -> bytes;
  rlp_EncodeToBytes : Transaction -> go bytes;
  rlp_DecodeBytes : bytes -> go Transaction;
  EIP155_Hash : Z -> Transaction -> bytes;            (* NewEIP155Signer(chainID).Hash(tx) *)
  WithSignature : Z -> Transaction -> bytes -> go Transaction;
  LatestSender : Z -> Transaction -> go bytes;        (* Sender(LatestSignerForChainID(id), tx) *)
  Keccak256 : bytes -> bytes;
  HexToAddress : string -> bytes;
  AddressHex : bytes -> string;
}.

Class GethLaws `{Geth} := {
  rlp_roundtrip tx b : rlp_EncodeToBytes tx = Ret b -> rlp_DecodeBytes b = Ret tx;
  NewTx_Value t : tx_Value (NewTx t) = lt_Value t;
  NewTx_Gas t : tx_Gas (NewTx t) = lt_Gas t;
  NewTx_To t : tx_To (NewTx t) = Some (lt_To t);
  NewTx_Data t : tx_Data (NewTx t) = lt_Data t;
  (* a protected legacy transaction: V = 2*chainID + 35 or 2*chainID + 36 *)
  NewTx_ChainId t : 35 <= lt_V t -> tx_ChainId (NewTx t) = (lt_V t - 35) / 2;
  WithSignature_keeps c tx sig tx' : WithSignature c tx sig = Ret tx' ->
    tx_Value tx' = tx_Value tx /\ tx_To tx' = tx_To tx /\ tx_Data tx' = tx_Data tx /\ tx_Gas tx' = tx_Gas tx;
}.

Section Evm.
Context `{Unicode} `{Geth}.

Definition is_uncompressed (pubKey : bytes) : bool :=
  (zlen pubKey =? 65) && bool_decide (head pubKey = Some x04).

Definition evm_DeriveAddress (pubKey : bytes) (_ : list DeriveOption) : go string :=
  if negb (is_uncompressed pubKey) then
    Err ("evm: expected 65-byte uncompressed public key, got " +:+ Strconv.Itoa (zlen pubKey) +:+ " bytes")
  else Ret (AddressHex (drop 12 (Keccak256 (drop 1 pubKey)))).

(** A decimal field; an empty one leaves the default. *)
Definition decimal_field (what field : string) (def : Z) : go Z :=
  if bool_decide (field = "") then Ret def
  else from_option_err ("evm: invalid " +:+ what +:+ " " +:+ Strconv.Quote field) (Strconv.SetString10 field).

Definition gas_limit (req : TxRequest) : Z :=
  if tr_GasLimit req =? 0 then (if 0 <? zlen (tr_Data req) then 100000 else 21000) else tr_GasLimit req.

Definition data_hex (data : bytes) : string :=
  if 0 <? zlen data then "0x" +:+ Hex.EncodeToString data else "".

Definition legacy_tx (req : TxRequest) (to : string) (value gasPrice chainID : Z) : LegacyTx :=
  {| lt_Nonce := tr_Nonce req; lt_GasPrice := gasPrice; lt_Gas := gas_limit req;
     lt_To := HexToAddress to; lt_Value := value; lt_Data := tr_Data req;
     lt_V := chainID * 2 + 35; lt_R := 0; lt_S := 0 |}.

Definition evm_BuildUnsignedTx (req : TxRequest) : go UnsignedTx :=
  match tr_To req with
  | [] => Err "evm: at least one recipient required"
  | to :: _ =>
    value ← decimal_field "value" (tr_Value req) 0;
    gasPrice ← decimal_field "gas price" (tr_GasPrice req) 0;
    chainID ← decimal_field "chain ID" (tr_ChainID req) 1;
    let tx := NewTx (legacy_tx req to value gasPrice chainID) in
    rawBytes ← rlp_EncodeToBytes tx ?: "evm: encode tx";
    Ret {| utx_RawBytes := rawBytes; utx_Hash := EIP155_Hash chainID tx; utx_To := tr_To req;
           utx_Value := tr_Value req; utx_Data := data_hex (tr_Data req); utx_ExtraSignerKeys := [] |}
  end.

Definition evm_ExtractSignableBytes (unsignedTx : bytes) : go bytes :=
  tx ← rlp_DecodeBytes unsignedTx ?: "evm: decode unsigned tx";
  Ret (EIP155_Hash (tx_ChainId tx) tx).

(** The 65-byte R || S || V signature; a slice bound goes negative for an R or
    S of more than 32 (resp. 64) bytes. *)
Definition evm_sigBytes (sig : Signature) : go bytes :=
  let rBytes := Big.Bytes (sig_R sig) in
  let sBytes := Big.Bytes (sig_S sig) in
  b1 ← Slice.copy_at (repeat x00 65) (32 - zlen rBytes) 32 rBytes;
  b2 ← Slice.copy_at b1 (64 - zlen sBytes) 64 sBytes;
  Ret (take 64 b2 ++ [sig_V sig]).

Definition evm_AssembleSignedTx (unsignedTx : bytes) (sig : Signature) : go bytes :=
  tx ← rlp_DecodeBytes unsignedTx ?: "evm: decode unsigned tx";
  sigBytes ← evm_sigBytes sig;
  signedTx ← WithSignature (tx_ChainId tx) tx sigBytes ?: "evm: apply signature";
  rlp_EncodeToBytes signedTx ?: "evm: encode signed tx".

Definition evm_DecodeTx (txBytes : bytes) : go DecodedTx :=
  tx ← rlp_DecodeBytes txBytes ?: "evm: decode tx";
  let data := tx_Data tx in
  Ret {| dtx_From := match LatestSender (tx_ChainId tx) tx with Ret a => AddressHex a | _ => "" end;
         dtx_To := match tx_To tx with Some a => [AddressHex a] | None => [] end;
         dtx_Value := Strconv.Itoa (tx_Value tx);
         dtx_Data := data_hex data;
         dtx_Method := if 4 <=? zlen data then "0x" +:+ Hex.EncodeToString (take 4 data) else "";
         dtx_Args := ∅; dtx_ChainID := Strconv.Itoa (tx_ChainId tx); dtx_GasLimit := tx_Gas tx |}.

Definition PubKeyToECDSA (pubKey : bytes) : go point :=
  if negb (is_uncompressed pubKey) then Err "evm: expected 65-byte uncompressed public key"
  else Ret (Binary.be_Z (take 32 (drop 1 pubKey)), Binary.be_Z (take 32 (drop 33 pubKey))).

Definition evm_adapter : Adapter := {|
  Name := "evm"; AdapterCurve := CurveSecp256k1; DeriveAddress := evm_DeriveAddress;
  BuildUnsignedTx := evm_BuildUnsignedTx; ExtractSignableBytes := evm_ExtractSignableBytes;
  AssembleSignedTx := evm_AssembleSignedTx; DecodeTx := evm_DecodeTx |}.

(** The requests of the contract: the chain ID is absent or not negative. *)
Definition chain_ok (req : TxRequest) : Prop :=
  forall c, decimal_field "chain ID" (tr_ChainID req) 1 = Ret c -> 0 <= c.
End Evm.

(** ** Facts *)

Section EvmFacts.
Context `{Unicode} `{Geth} `{!GethLaws}.

Lemma evm_Build_Ret req u : evm_BuildUnsignedTx req = Ret u ->
  exists to rest v gp c, tr_To req = to :: rest /\ decimal_field "value" (tr_Value req) 0 = Ret v /\
    decimal_field "chain ID" (tr_ChainID req) 1 = Ret c /\
    let tx := NewTx (legacy_tx req to v gp c) in
    rlp_EncodeToBytes tx = Ret (utx_RawBytes u) /\ utx_Hash u = EIP155_Hash c tx /\
    utx_To u = tr_To req /\ utx_Value u = tr_Value req /\ utx_Data u = data_hex (tr_Data req).
Proof.
  unfold evm_BuildUnsignedTx. destruct (tr_To req) as [|to rest]; [done|].
  intros (v & Hv & (gp & Hg & (c & Hc & (raw & Hraw%wrap_err_Ret & [= <-])%go_bind_Ret)%go_bind_Ret)%go_bind_Ret)%go_bind_Ret.
  exists to, rest, v, gp, c. by repeat split.
Qed.

Lemma legacy_ChainId req to v gp c : 0 <= c -> tx_ChainId (NewTx (legacy_tx req to v gp c)) = c.
Proof.
  intros Hc. rewrite NewTx_ChainId by (cbn; lia). cbn [lt_V legacy_tx].
  replace (c * 2 + 35 - 35) with (c * 2) by lia. by apply Z.div_mul.
Qed.

#[export] Instance evm_laws : AdapterLaws evm_adapter chain_ok.
Proof.
  intros req u Hok Hb. apply evm_Build_Ret in Hb as (to & rest & v & gp & c & _ & _ & Hc & Hraw & Hh & _).
  cbn [ExtractSignableBytes evm_adapter]. unfold evm_ExtractSignableBytes.
  rewrite (rlp_roundtrip _ _ Hraw). cbn [wrap_err mbind go_bind].
  rewrite legacy_ChainId by (by apply Hok). by rewrite Hh.
Qed.


Lemma sigBytes_spec sig : 0 <= sig_R sig < 2 ^ 256 -> 0 <= sig_S sig < 2 ^ 256 ->
  evm_sigBytes sig
  = Ret (Binary.be_bytes 32 (sig_R sig) ++ Binary.be_bytes 32 (sig_S sig) ++ [sig_V sig]).
Proof.
  intros HR HS. unfold evm_sigBytes.
  pose proof (Slice.copy_Bytes [] (repeat x00 33) 32 (sig_R sig) HR) as E1.
  change (Slice.copy_at (repeat x00 65) (32 - zlen (Big.Bytes (sig_R sig))) 32 (Big.Bytes (sig_R sig))
          = Ret ([] ++ Binary.be_bytes 32 (sig_R sig) ++ repeat x00 33)) in E1.
  rewrite E1. cbn [mbind go_bind app].
  pose proof (Slice.copy_Bytes (Binary.be_bytes 32 (sig_R sig)) [x00] 32 (sig_S sig) HS) as E2.
  assert (Hl : forall z, zlen (Binary.be_bytes 32 z) = 32) by (intros; unfold zlen; by rewrite Binary.length_be_bytes).
  rewrite Hl in E2. change (32 + Z.of_nat 32) with 64 in E2.
  change (repeat x00 33) with (repeat x00 32 ++ [x00]). rewrite E2. reflexivity.
Qed.

(** Assembling a signature touches nothing else: for R and S of 256 bits
    the signer is given R || S || V at fixed widths, and the transaction that
    comes out decodes to the recipient, value and calldata of the unsigned one. *)
Theorem evm_assemble_keeps raw sig signed :
  0 <= sig_R sig < 2 ^ 256 -> 0 <= sig_S sig < 2 ^ 256 ->
  evm_AssembleSignedTx raw sig = Ret signed ->
  exists d d', evm_DecodeTx raw = Ret d /\ evm_DecodeTx signed = Ret d' /\
    dtx_To d' = dtx_To d /\ dtx_Value d' = dtx_Value d /\ dtx_Data d' = dtx_Data d /\
    dtx_Method d' = dtx_Method d /\
  exists tx tx', rlp_DecodeBytes raw = Ret tx /\ rlp_DecodeBytes signed = Ret tx' /\
    WithSignature (tx_ChainId tx) tx
      (Binary.be_bytes 32 (sig_R sig) ++ Binary.be_bytes 32 (sig_S sig) ++ [sig_V sig]) = Ret tx'.
Proof.
  intros HR HS. unfold evm_AssembleSignedTx. rewrite sigBytes_spec by done.
  intros (tx & Htx%wrap_err_Ret & HX)%go_bind_Ret. cbn [mbind go_bind] in HX.
  apply go_bind_Ret in HX as (tx' & Htx'%wrap_err_Ret & Hraw%wrap_err_Ret).
  apply rlp_roundtrip in Hraw. destruct (WithSignature_keeps _ _ _ _ Htx') as (EV & ET & ED & EG).
  unfold evm_DecodeTx. rewrite Htx, Hraw. cbn [wrap_err mbind go_bind].
  do 2 eexists. repeat (split; [reflexivity|]). cbn [dtx_To dtx_Value dtx_Data dtx_Method].
  rewrite EV, ET, ED. repeat (split; [reflexivity|]). by exists tx, tx'.
Qed.

(** An R of more than 32 bytes takes the process down. *)
Lemma evm_sigBytes_panics sig : 2 ^ 256 <= sig_R sig < 2 ^ 264 -> evm_sigBytes sig = Panic.
Proof.
  intros HR. unfold evm_sigBytes, Slice.copy_at.
  assert (32 < zlen (Big.Bytes (sig_R sig))).
  { destruct (Z.lt_ge_cases 32 (zlen (Big.Bytes (sig_R sig)))) as [|Hle]; [done|exfalso].
    pose proof (Binary.be_Z_bound (Big.Bytes (sig_R sig))) as Hb. rewrite Big.be_Z_Bytes in Hb by lia.
    assert (256 ^ zlen (Big.Bytes (sig_R sig)) <= 256 ^ 32) by (apply Z.pow_le_mono_r; lia). lia. }
  replace ((0 <=? 32 - zlen (Big.Bytes (sig_R sig))) && _ && _) with false; [done|].
  symmetry. apply andb_false_intro1, andb_false_intro1. lia.
Qed.
End EvmFacts.

(** ** A concrete instance

    Transactions are legacy transactions with an optional signature, encoded by
    enumeration; addresses print as themselves. *)
Module ToyGeth.
Definition tx_tuple (t : LegacyTx) : Z * Z * Z * bytes * Z * bytes * Z * Z * Z :=
  (lt_Nonce t, lt_GasPrice t, lt_Gas t, lt_To t, lt_Value t, lt_Data t, lt_V t, lt_R t, lt_S t).
Definition tuple_tx (t : Z * Z * Z * bytes * Z * bytes * Z * Z * Z) : LegacyTx :=
  let '(n, gp, g, to, v, d, vv, r, s) := t in
  {| lt_Nonce := n; lt_GasPrice := gp; lt_Gas := g; lt_To := to; lt_Value := v; lt_Data := d;
     lt_V := vv; lt_R := r; lt_S := s |}.
#[export] Instance tx_eq_dec : EqDecision LegacyTx.
Proof. solve_decision. Defined.
#[export] Instance tx_countable : Countable LegacyTx :=
  inj_countable' tx_tuple tuple_tx (fun t => match t with Build_LegacyTx _ _ _ _ _ _ _ _ _ => eq_refl end).
Definition codec : Codec (LegacyTx * bytes) := CountableCodec.codec (LegacyTx * bytes).
#[export] Instance geth : Geth := {|
  Transaction := LegacyTx * bytes;
  NewTx := fun t => (t, []);
  tx_Value := fun t => lt_Value t.1; tx_ChainId := fun t => (lt_V t.1 - 35) / 2;
  tx_Gas := fun t => lt_Gas t.1; tx_To := fun t => Some (lt_To t.1); tx_Data := fun t => lt_Data t.1;
  rlp_EncodeToBytes := @Marshal _ codec; rlp_DecodeBytes := @Unmarshal _ codec;
  EIP155_Hash := fun c t => Binary.be_bytes 32 (c + lt_Value t.1);
  WithSignature := fun _ t sig => Ret (t.1, sig);
  LatestSender := fun _ _ => Err "invalid signature";
  Keccak256 := Sha256.Sum256; HexToAddress := bytes_of; AddressHex := string_of |}.
#[export] Instance geth_laws : GethLaws.
Proof.
  split; cbn; try done.
  - intros tx b. by apply (@Unmarshal_Marshal _ codec (CountableCodec.codec_laws _)).
  - intros c tx sig tx' [= <-]. done.
Qed.
#[export] Existing Instance Toy.unicode.

Definition request : TxRequest := {|
  tr_From := ""; tr_To := ["0xabc"]; tr_Value := "250"; tr_Data := [xa9; x05; x9c; xbb; x01];
  tr_DerivationPath := "m/44'/60'/0'/0/0"; tr_Prefix := ""; tr_Denom := ""; tr_ChainID := "137";
  tr_AccountNumber := 0; tr_Sequence := 0; tr_Fee := ""; tr_Gas := 0; tr_Memo := ""; tr_PubKey := [];
  tr_GasLimit := 0; tr_GasPrice := "7"; tr_Nonce := 3; tr_AutoNonce := false; tr_RpcURL := "";
  tr_Mint := ""; tr_Instructions := []; tr_Program := ""; tr_Method := ""; tr_Args := ∅ |}.
Definition built : UnsignedTx := Eval vm_compute in
  match evm_BuildUnsignedTx request with
  | Ret u => u
  | _ => {| utx_RawBytes := []; utx_Hash := []; utx_To := []; utx_Value := ""; utx_Data := "";
            utx_ExtraSignerKeys := [] |}
  end.
Definition signature : Signature := {| sig_R := 5; sig_S := 6; sig_V := x01; sig_Bytes := [] |}.
Definition assembled : bytes := Eval vm_compute in
  match evm_AssembleSignedTx (utx_RawBytes built) signature with Ret b => b | _ => [] end.
End ToyGeth.
Import ToyGeth.


Lemma evm_assemble_keeps_witness :
  exists d d', evm_DecodeTx (utx_RawBytes ToyGeth.built) = Ret d /\ evm_DecodeTx ToyGeth.assembled = Ret d' /\
    dtx_To d' = dtx_To d /\ dtx_Value d' = dtx_Value d.
Proof.
  destruct (evm_assemble_keeps (utx_RawBytes ToyGeth.built) ToyGeth.signature ToyGeth.assembled)
    as (d & d' & E1 & E2 & E3 & E4 & _); [cbn; lia|cbn; lia|vm_compute; reflexivity|].
  exists d, d'. repeat (split; [assumption|]). assumption.
Defined.
