(* ===== verification/Tendermint.v ===== *)
(** * Tendermint: the Cosmos adapter (internal/vm/tendermint/tendermint.go)

    The cosmos-sdk and protobuf types are the class [Cosmos]; the JSON form of
    the envelope is a codec. The adapter satisfies the interface's contract; its
    [DecodeTx] however reads fields of the envelope that the signature does not
    cover. *)
From S2P Require Import Prelude GoStd Codec Crypto Protocol Transport Tss TssFacts Vm.
Local Open Scope Z_scope.
Local Open Scope go_scope.

Record Coin := { coin_Denom : string; coin_Amount : Z }.

Inductive cosmos_msg (C : Type) :=
| MsgSend (from to : string) (amount : list C)
| MsgDelegate (delegator validator : string) (amount : C)
| MsgUndelegate (delegator validator : string) (amount : C)
| MsgBeginRedelegate (delegator src dst : string) (amount : C).
Arguments MsgSend {C}.
Arguments MsgDelegate {C}.
Arguments MsgUndelegate {C}.
Arguments MsgBeginRedelegate {C}.

(** The protobuf messages the adapter fills, over a type of packed [Any]s. *)
Record TxBody (any : Type) := { tb_Messages : list any; tb_Memo : string }.
Record AuthInfo (any : Type) := {
  ai_PublicKey : any; ai_Sequence : Z; ai_FeeAmount : list Coin; ai_GasLimit : Z }.
Record SignDoc := {
  sd_BodyBytes : bytes; sd_AuthInfoBytes : bytes; sd_ChainId : string; sd_AccountNumber : Z }.
Record TxRaw := { raw_BodyBytes : bytes; raw_AuthInfoBytes : bytes; raw_Signatures : list bytes }.
Arguments tb_Messages {any}. Arguments tb_Memo {any}.
Arguments ai_PublicKey {any}. Arguments ai_Sequence {any}.
Arguments ai_FeeAmount {any}. Arguments ai_GasLimit {any}.

Class Cosmos := {
  Any : Type;
  NewAnyMsg : cosmos_msg Coin -> go Any;
  NewAnyPubKey : bytes -> go Any;
  NewInt64Coin : string -> Z -> go Coin;
  NewCoins : list Coin -> go (list Coin);
  proto_TxBody : TxBody Any -> go bytes;
  proto_AuthInfo : AuthInfo Any -> go bytes;
  proto_SignDoc : SignDoc -> go bytes;
  proto_TxRaw : TxRaw -> go bytes;
  PubKey_Address : bytes -> go bytes;
  bech32_ConvertAndEncode : string -> bytes -> go string;
}.

Record unsignedTxEnvelope := {
  env_BodyBytes : bytes; env_AuthInfoBytes : bytes; env_ChainID : string; env_AccountNumber : Z;
  env_From : string; env_To : string; env_Value : string; env_Denom : string; env_Memo : string }.

Definition compressPubKey (pubKey : bytes) : go bytes :=
  if zlen pubKey =? 65 then
    if negb (bool_decide (head pubKey = Some x04)) then Err "tendermint: invalid uncompressed key prefix"
    else
      let last := default x00 (pubKey !! 64%nat) in
      Ret ((if Z_of_byte last mod 2 =? 0 then x02 else x03) :: take 32 (drop 1 pubKey))
  else if zlen pubKey =? 33 then Ret pubKey
  else Err ("tendermint: expected 33 or 65-byte public key, got " +:+ Strconv.Itoa (zlen pubKey) +:+ " bytes").

Section Tendermint.
Context `{Unicode} `{Cosmos} `{Codec unsignedTxEnvelope}.

(** [Adapter]: its bech32 prefix and denomination; [New] fills the defaults. *)
Record TendermintAdapter := { ta_Prefix : string; ta_Denom : string }.
Definition or_default (s d : string) : string := if bool_decide (s = "") then d else s.
Definition tendermint_New (prefix denom : string) : TendermintAdapter :=
  {| ta_Prefix := or_default prefix "cosmos"; ta_Denom := or_default denom "uatom" |}.

Context (a : TendermintAdapter).

Definition tendermint_DeriveAddress (pubKey : bytes) (opts : list DeriveOption) : go string :=
  let prefix := or_default (do_Prefix (ApplyDeriveOpts opts)) (ta_Prefix a) in
  compressed ← compressPubKey pubKey;
  addr ← PubKey_Address compressed;
  bech32_ConvertAndEncode prefix addr ?: "tendermint: bech32 encode".

Definition build_msg (req : TxRequest) (to : string) (rest : list string) (coin : Coin) : go Any :=
  let method := or_default (tr_Method req) "send" in
  let pack m := NewAnyMsg m ?: "tendermint: pack msg" in
  if bool_decide (method = "send") then
    coins ← NewCoins [coin]; pack (MsgSend (tr_From req) to coins)
  else if bool_decide (method = "delegate") then pack (MsgDelegate (tr_From req) to coin)
  else if bool_decide (method = "undelegate") then pack (MsgUndelegate (tr_From req) to coin)
  else if bool_decide (method = "redelegate") then
    match rest with
    | dst :: _ => pack (MsgBeginRedelegate (tr_From req) to dst coin)
    | [] => Err "tendermint: redelegate requires two addresses in to (src_validator, dst_validator)"
    end
  else Err ("tendermint: unknown method " +:+ Strconv.Quote method
            +:+ " (supported: send, delegate, undelegate, redelegate)").

Definition sign_doc (env : unsignedTxEnvelope) : SignDoc :=
  {| sd_BodyBytes := env_BodyBytes env; sd_AuthInfoBytes := env_AuthInfoBytes env;
     sd_ChainId := env_ChainID env; sd_AccountNumber := env_AccountNumber env |}.

Definition tendermint_BuildUnsignedTx (req : TxRequest) : go UnsignedTx :=
  match tr_To req with
  | [] => Err "tendermint: at least one recipient required"
  | to :: rest =>
    let denom := or_default (tr_Denom req) (ta_Denom a) in
    amount ← Strconv.ParseInt64 (tr_Value req)
      ?: ("tendermint: invalid value " +:+ Strconv.Quote (tr_Value req));
    coin ← NewInt64Coin denom amount;
    msgAny ← build_msg req to rest coin;
    bodyBytes ← proto_TxBody {| tb_Messages := [msgAny]; tb_Memo := tr_Memo req |} ?: "tendermint: marshal body";
    compressed ← compressPubKey (tr_PubKey req) ?: "tendermint: compress pubkey";
    pubKeyAny ← NewAnyPubKey compressed ?: "tendermint: pack pubkey";
    let gas := if tr_Gas req =? 0 then 200000 else tr_Gas req in
    let feeAmount := or_default (tr_Fee req) "5000" in
    feeAmountInt ← Strconv.ParseInt64 feeAmount ?: ("tendermint: invalid fee " +:+ Strconv.Quote feeAmount);
    feeCoin ← NewInt64Coin denom feeAmountInt;
    feeCoins ← NewCoins [feeCoin];
    authInfoBytes ← proto_AuthInfo {| ai_PublicKey := pubKeyAny; ai_Sequence := tr_Sequence req;
                                     ai_FeeAmount := feeCoins; ai_GasLimit := gas |}
      ?: "tendermint: marshal auth_info";
    let env := {| env_BodyBytes := bodyBytes; env_AuthInfoBytes := authInfoBytes;
                  env_ChainID := tr_ChainID req; env_AccountNumber := tr_AccountNumber req;
                  env_From := tr_From req; env_To := to; env_Value := tr_Value req;
                  env_Denom := denom; env_Memo := tr_Memo req |} in
    signDocBytes ← proto_SignDoc (sign_doc env) ?: "tendermint: marshal sign_doc";
    rawBytes ← Marshal env ?: "tendermint: marshal envelope";
    Ret {| utx_RawBytes := rawBytes; utx_Hash := Sha256.Sum256 signDocBytes; utx_To := tr_To req;
           utx_Value := tr_Value req; utx_Data := ""; utx_ExtraSignerKeys := [] |}
  end.

Definition tendermint_ExtractSignableBytes (unsignedTx : bytes) : go bytes :=
  env ← (Unmarshal unsignedTx : go unsignedTxEnvelope) ?: "tendermint: decode envelope";
  signDocBytes ← proto_SignDoc (sign_doc env) ?: "tendermint: marshal sign_doc";
  Ret (Sha256.Sum256 signDocBytes).

(** One half of the signature, [copy(b[32-len(x):], x)] into 32 zero bytes. *)
Definition pad32 (z : Z) : go bytes :=
  let b := Big.Bytes z in Slice.copy_at (repeat x00 32) (32 - zlen b) 32 b.

Definition tendermint_AssembleSignedTx (unsignedTx : bytes) (sig : Signature) : go bytes :=
  env ← (Unmarshal unsignedTx : go unsignedTxEnvelope) ?: "tendermint: decode envelope";
  rBytes ← pad32 (sig_R sig);
  sBytes ← pad32 (sig_S sig);
  proto_TxRaw {| raw_BodyBytes := env_BodyBytes env; raw_AuthInfoBytes := env_AuthInfoBytes env;
                 raw_Signatures := [rBytes ++ sBytes] |} ?: "tendermint: marshal tx_raw".

Definition tendermint_DecodeTx (txBytes : bytes) : go DecodedTx :=
  env ← (Unmarshal txBytes : go unsignedTxEnvelope) ?: "tendermint: decode tx";
  Ret {| dtx_From := env_From env; dtx_To := [env_To env]; dtx_Value := env_Value env; dtx_Data := "";
         dtx_Method := ""; dtx_Args := ∅; dtx_ChainID := env_ChainID env; dtx_GasLimit := 0 |}.

Definition tendermint_adapter : Adapter := {|
  Name := "tendermint"; AdapterCurve := CurveSecp256k1; DeriveAddress := tendermint_DeriveAddress;
  BuildUnsignedTx := tendermint_BuildUnsignedTx; ExtractSignableBytes := tendermint_ExtractSignableBytes;
  AssembleSignedTx := tendermint_AssembleSignedTx; DecodeTx := tendermint_DecodeTx |}.
End Tendermint.

(** ** Facts *)

Section TendermintFacts.
Context `{Unicode} `{Cosmos} `{Codec unsignedTxEnvelope} `{!CodecLaws unsignedTxEnvelope}.
Context (a : TendermintAdapter).

(** Requests whose envelopes JSON represents exactly: those with valid UTF-8
    strings. *)
Definition envelope_ok (req : TxRequest) : Prop :=
  forall env : unsignedTxEnvelope,
    env_ChainID env = tr_ChainID req -> env_From env = tr_From req ->
    Some (env_To env) = head (tr_To req) -> env_Value env = tr_Value req ->
    env_Denom env = or_default (tr_Denom req) (ta_Denom a) -> env_Memo env = tr_Memo req ->
    representable env.

Lemma tendermint_Build_Ret req u : tendermint_BuildUnsignedTx a req = Ret u ->
  exists env b, Marshal env = Ret (utx_RawBytes u) /\ proto_SignDoc (sign_doc env) = Ret b /\
    utx_Hash u = Sha256.Sum256 b /\ env_ChainID env = tr_ChainID req /\ env_From env = tr_From req /\
    Some (env_To env) = head (tr_To req) /\ env_Value env = tr_Value req /\
    env_Denom env = or_default (tr_Denom req) (ta_Denom a) /\ env_Memo env = tr_Memo req.
Proof.
  unfold tendermint_BuildUnsignedTx. destruct (tr_To req) as [|to rest]; [done|]. cbn [head].
  intros HX. repeat (apply go_bind_Ret in HX as (? & ? & HX)). injection HX as <-.
  repeat match goal with E : wrap_err _ _ = Ret _ |- _ => apply wrap_err_Ret in E end.
  do 2 eexists. cbn [utx_RawBytes utx_Hash]. split; [eassumption|]. split; [eassumption|]. by repeat split.
Qed.

#[export] Instance tendermint_laws : AdapterLaws (tendermint_adapter a) envelope_ok.
Proof.
  intros req u Hok Hb. apply tendermint_Build_Ret in Hb as (env & b & HM & HD & HH & E1 & E2 & E3 & E4 & E5 & E6).
  cbn [ExtractSignableBytes tendermint_adapter]. unfold tendermint_ExtractSignableBytes.
  rewrite (Unmarshal_Marshal env _ (Hok env E1 E2 E3 E4 E5 E6) HM). cbn [wrap_err mbind go_bind].
  rewrite HD, HH. done.
Qed.


(** What is decoded is not what is signed: for any transaction document and
    any recipient, value and sender of one's choice there are raw bytes that decode
    to the chosen recipient and value and whose signable bytes and signed
    transaction are those of the document. So a whitelist check on the decoded
    recipient does not constrain the transfer that gets signed. *)
Theorem tendermint_decode_unbound env doc from to value :
  let forged := {| env_BodyBytes := env_BodyBytes env; env_AuthInfoBytes := env_AuthInfoBytes env;
                   env_ChainID := env_ChainID env; env_AccountNumber := env_AccountNumber env;
                   env_From := from; env_To := to; env_Value := value;
                   env_Denom := env_Denom env; env_Memo := env_Memo env |} in
  representable env -> representable forged -> Marshal env = Ret doc ->
  exists raw d, Marshal forged = Ret raw /\ tendermint_DecodeTx raw = Ret d /\
    dtx_From d = from /\ dtx_To d = [to] /\ dtx_Value d = value /\
    tendermint_ExtractSignableBytes raw = tendermint_ExtractSignableBytes doc /\
    forall sig, tendermint_AssembleSignedTx raw sig = tendermint_AssembleSignedTx doc sig.
Proof.
  intros forged He Hf Hdoc. destruct (Marshal_total forged Hf) as [raw Hraw].
  assert (U : Unmarshal raw = Ret forged) by (by apply Unmarshal_Marshal).
  assert (U' : Unmarshal doc = Ret env) by (by apply Unmarshal_Marshal).
  eexists raw, _. split; [done|].
  unfold tendermint_DecodeTx, tendermint_ExtractSignableBytes, tendermint_AssembleSignedTx.
  rewrite U, U'. cbn [wrap_err mbind go_bind]. by repeat split.
Qed.
End TendermintFacts.

(** The two compressed forms agree: compressing the uncompressed key bytes
    an address is derived from gives the bytes the HD derivation hashes for the
    same point. *)
Theorem compressPubKey_agrees p b : 0 <= p.1 < 2 ^ 256 -> 0 <= p.2 < 2 ^ 256 ->
  uncompressed p = Ret b -> compressPubKey b = compressPublicKey p.
Proof.
  intros Hx Hy. rewrite uncompressed_spec by done. intros E.
  assert (b = x04 :: Binary.be_bytes 32 p.1 ++ Binary.be_bytes 32 p.2) as -> by congruence. clear E.
  assert (Hl : zlen (x04 :: Binary.be_bytes 32 p.1 ++ Binary.be_bytes 32 p.2) = 65)
    by (unfold zlen; cbn [length]; by rewrite length_app, !Binary.length_be_bytes).
  unfold compressPubKey. rewrite Hl. cbn [Z.eqb Pos.eqb head].
  rewrite bool_decide_eq_true_2 by done. cbn [negb].
  change (take 32 (drop 1 (x04 :: Binary.be_bytes 32 p.1 ++ Binary.be_bytes 32 p.2)))
    with (Binary.be_bytes 32 p.1).
  assert (Hlast : default x00 ((x04 :: Binary.be_bytes 32 p.1 ++ Binary.be_bytes 32 p.2) !! 64%nat)
                  = byte_of_Z p.2) by reflexivity.
  rewrite Hlast, Z_of_byte_of_Z. unfold compressPublicKey, bit0.
  replace ((p.2 mod 256) mod 2 =? 0) with (negb (Z.odd p.2)).
  2:{ rewrite <- Znumtheory.Zmod_div_mod by (reflexivity || by exists 128).
      rewrite Zmod_odd. by destruct (Z.odd p.2). }
  pose proof (Slice.copy_Bytes [if Z.odd p.2 then x03 else x02] [] 32 p.1 Hx) as E.
  rewrite app_nil_r in E. cbn [app zlen length] in E. rewrite app_nil_r in E.
  change (Z.of_nat 1 + Z.of_nat 32) with 33 in E.
  transitivity (Ret ((if Z.odd p.2 then x03 else x02) :: Binary.be_bytes 32 p.1)).
  { by destruct (Z.odd p.2). }
  symmetry. exact E.
Qed.

(** ** A concrete instance *)
Module ToyCosmos.
#[export] Instance cosmos : Cosmos := {|
  Any := bytes;
  NewAnyMsg := fun m => Ret match m with
    | MsgSend f t _ => bytes_of (f +:+ t) | MsgDelegate f t _ => bytes_of (f +:+ t)
    | MsgUndelegate f t _ => bytes_of (f +:+ t) | MsgBeginRedelegate f t d _ => bytes_of (f +:+ t +:+ d) end;
  NewAnyPubKey := fun b => Ret b;
  NewInt64Coin := fun d x => if x <? 0 then Panic else Ret {| coin_Denom := d; coin_Amount := x |};
  NewCoins := fun l => Ret l;
  proto_TxBody := fun t => Ret (concat (tb_Messages t) ++ bytes_of (tb_Memo t));
  proto_AuthInfo := fun t => Ret (ai_PublicKey t);
  proto_SignDoc := fun t => Ret (sd_BodyBytes t ++ sd_AuthInfoBytes t);
  proto_TxRaw := fun t => Ret (raw_BodyBytes t ++ raw_AuthInfoBytes t ++ concat (raw_Signatures t));
  PubKey_Address := fun b => Ret (take 20 b);
  bech32_ConvertAndEncode := fun p b => Ret (p +:+ string_of b) |}.
#[export] Instance env_eq_dec : EqDecision unsignedTxEnvelope.
Proof. solve_decision. Defined.
#[export] Instance env_countable : Countable unsignedTxEnvelope :=
  inj_countable' (fun e => (env_BodyBytes e, env_AuthInfoBytes e, env_ChainID e, env_AccountNumber e,
                            (env_From e, env_To e, env_Value e, env_Denom e, env_Memo e)))
    (fun t => let '(b, ai, c, n, (f, to, v, d, m)) := t in
       {| env_BodyBytes := b; env_AuthInfoBytes := ai; env_ChainID := c; env_AccountNumber := n;
          env_From := f; env_To := to; env_Value := v; env_Denom := d; env_Memo := m |})
    (fun e => match e with Build_unsignedTxEnvelope _ _ _ _ _ _ _ _ _ => eq_refl end).
#[export] Instance codec : Codec unsignedTxEnvelope := CountableCodec.codec unsignedTxEnvelope.
#[export] Instance laws : CodecLaws unsignedTxEnvelope := CountableCodec.codec_laws unsignedTxEnvelope.
#[export] Existing Instance Toy.unicode.

Definition request : TxRequest := {|
  tr_From := "cosmos1a"; tr_To := ["cosmos1b"]; tr_Value := "250"; tr_Data := []; tr_DerivationPath := "";
  tr_Prefix := ""; tr_Denom := ""; tr_ChainID := "hub"; tr_AccountNumber := 4; tr_Sequence := 0;
  tr_Fee := ""; tr_Gas := 0; tr_Memo := ""; tr_PubKey := x02 :: repeat x07 32; tr_GasLimit := 0;
  tr_GasPrice := ""; tr_Nonce := 0; tr_AutoNonce := false; tr_RpcURL := ""; tr_Mint := "";
  tr_Instructions := []; tr_Program := ""; tr_Method := ""; tr_Args := ∅ |}.
Definition hub : TendermintAdapter := tendermint_New "" "".
Definition built : UnsignedTx := Eval vm_compute in
  match tendermint_BuildUnsignedTx hub request with
  | Ret u => u
  | _ => {| utx_RawBytes := []; utx_Hash := []; utx_To := []; utx_Value := ""; utx_Data := "";
            utx_ExtraSignerKeys := [] |}
  end.
Definition envelope : unsignedTxEnvelope := {|
  env_BodyBytes := [x01]; env_AuthInfoBytes := [x02]; env_ChainID := "hub"; env_AccountNumber := 4;
  env_From := "cosmos1a"; env_To := "cosmos1mallory"; env_Value := "1000000"; env_Denom := "uatom"; env_Memo := "" |}.
Definition document : bytes := Eval vm_compute in match Marshal envelope with Ret b => b | _ => [] end.
End ToyCosmos.
Import ToyCosmos.


Lemma tendermint_decode_unbound_witness :
  exists raw d, tendermint_DecodeTx raw = Ret d /\ dtx_To d = ["cosmos1whitelisted"] /\ dtx_Value d = "1" /\
    tendermint_ExtractSignableBytes raw = tendermint_ExtractSignableBytes ToyCosmos.document.
Proof.
  destruct (tendermint_decode_unbound ToyCosmos.envelope ToyCosmos.document "cosmos1a" "cosmos1whitelisted" "1")
    as (raw & d & _ & E1 & _ & E2 & E3 & E4 & _); [exact I|exact I|vm_compute; reflexivity|].
  exists raw, d. repeat (split; [assumption|]). assumption.
Defined.

Lemma compressPubKey_agrees_witness :
  compressPubKey (x04 :: Binary.be_bytes 32 5 ++ Binary.be_bytes 32 7) = compressPublicKey (5, 7).
Proof. apply compressPubKey_agrees; [cbn; lia|cbn; lia|vm_compute; reflexivity]. Defined.
