(* ===== verification/Store.v ===== *)
(** * Store: persistence (internal/store)

    [Store] is the Go interface; its abstract content is a [StoreView] and its
    contract, [StoreLaws], says that each operation either fails and changes
    nothing or acts on the view as the operation of the same name in module
    [Spec]. [Postgres] models postgres.go: the four tables, the SQL upserts and
    the AES-GCM encryption of shares, with a stream of server faults; it is
    proved to satisfy the contract in StoreFacts. *)
From S2P Require Import Prelude GoStd Codec Crypto Protocol Transport Tss.
Local Open Scope Z_scope.
Local Open Scope go_scope.

(** ** Records of store.go; times are nanoseconds *)
Record DerivedKeyRecord := {
  dkr_DerivationPath : string; dkr_Curve : Curve; dkr_PublicKey : bytes; dkr_Address : string;
  dkr_Label : string; dkr_Share : bytes; dkr_CreatedAt : Z }.

Notation TxStatus := string (only parsing).
Definition TxStatusPending : TxStatus := "pending_review".
Definition TxStatusApproved : TxStatus := "approved".
Definition TxStatusRejected : TxStatus := "rejected".
Definition TxStatusSigned : TxStatus := "signed".

Record TxRecord := {
  tx_ID : string; tx_DerivationPath : string; tx_To : list string; tx_Value : string; tx_Data : string;
  tx_UnsignedTx : bytes; tx_SignedTx : bytes; tx_Status : TxStatus; tx_Reason : string;
  tx_CreatedAt : Z; tx_UpdatedAt : Z }.

Record TxFilter := {
  tf_Status : option TxStatus; tf_DerivationPath : option string; tf_Limit : Z; tf_Offset : Z }.

Record WhitelistEntry := { we_Address : string; we_Label : string; we_AddedAt : Z }.

(** ** The interface *)
Class Store (S : Type) := {
  SaveMasterShare : S -> KeyShare -> S * go unit;
  GetMasterShare : S -> Curve -> S * go KeyShare;
  SaveDerivedKey : S -> DerivedKeyRecord -> S * go unit;
  GetDerivedKey : S -> string -> S * go DerivedKeyRecord;
  ListDerivedKeys : S -> S * go (list DerivedKeyRecord);
  UpdateLabel : S -> string -> string -> S * go unit;
  ClearDerivedKeys : S -> S * go unit;
  SaveTx : S -> TxRecord -> S * go unit;
  GetTx : S -> string -> S * go TxRecord;
  UpdateTxStatus : S -> string -> TxStatus -> bytes -> S * go unit;
  ListTxs : S -> TxFilter -> S * go (list TxRecord);
  DeleteTx : S -> string -> S * go unit;
  AddWhitelistEntry : S -> WhitelistEntry -> S * go unit;
  RemoveWhitelistEntry : S -> string -> S * go unit;
  IsWhitelisted : S -> string -> S * go bool;
  GetWhitelistEntry : S -> string -> S * go WhitelistEntry;
  ListWhitelist : S -> S * go (list WhitelistEntry);
}.

(** ** Abstract content *)
Record StoreView := {
  v_shares : gmap string KeyShare;
  v_keys : gmap string DerivedKeyRecord;
  v_txs : gmap string TxRecord;
  v_whitelist : gmap string WhitelistEntry;
}.

Module Spec.
Definition with_shares (v : StoreView) m := {| v_shares := m; v_keys := v_keys v; v_txs := v_txs v; v_whitelist := v_whitelist v |}.
Definition with_keys (v : StoreView) m := {| v_shares := v_shares v; v_keys := m; v_txs := v_txs v; v_whitelist := v_whitelist v |}.
Definition with_txs (v : StoreView) m := {| v_shares := v_shares v; v_keys := v_keys v; v_txs := m; v_whitelist := v_whitelist v |}.
Definition with_whitelist (v : StoreView) m := {| v_shares := v_shares v; v_keys := v_keys v; v_txs := v_txs v; v_whitelist := m |}.

Definition SaveMasterShare (v : StoreView) (ks : KeyShare) : StoreView :=
  with_shares v (<[ks_Curve ks := ks]> (v_shares v)).

(** A second save of a path keeps the curve and creation time of the first. *)
Definition merge_key (old : option DerivedKeyRecord) (k : DerivedKeyRecord) : DerivedKeyRecord :=
  match old with
  | None => k
  | Some o => {| dkr_DerivationPath := dkr_DerivationPath k; dkr_Curve := dkr_Curve o;
                 dkr_PublicKey := dkr_PublicKey k; dkr_Address := dkr_Address k;
                 dkr_Label := dkr_Label k; dkr_Share := dkr_Share k; dkr_CreatedAt := dkr_CreatedAt o |}
  end.
Definition SaveDerivedKey (v : StoreView) (k : DerivedKeyRecord) : StoreView :=
  with_keys v (<[dkr_DerivationPath k := merge_key (v_keys v !! dkr_DerivationPath k) k]> (v_keys v)).

Definition set_label (l : string) (k : DerivedKeyRecord) : DerivedKeyRecord :=
  {| dkr_DerivationPath := dkr_DerivationPath k; dkr_Curve := dkr_Curve k;
     dkr_PublicKey := dkr_PublicKey k; dkr_Address := dkr_Address k;
     dkr_Label := l; dkr_Share := dkr_Share k; dkr_CreatedAt := dkr_CreatedAt k |}.
Definition UpdateLabel (v : StoreView) (path label : string) : StoreView :=
  with_keys v (alter (set_label label) path (v_keys v)).
Definition ClearDerivedKeys (v : StoreView) : StoreView := with_keys v ∅.

(** A second save of an ID updates status, signed bytes, reason and time only. *)
Definition merge_tx (old : option TxRecord) (t : TxRecord) : TxRecord :=
  match old with
  | None => t
  | Some o => {| tx_ID := tx_ID o; tx_DerivationPath := tx_DerivationPath o; tx_To := tx_To o;
                 tx_Value := tx_Value o; tx_Data := tx_Data o; tx_UnsignedTx := tx_UnsignedTx o;
                 tx_SignedTx := tx_SignedTx t; tx_Status := tx_Status t; tx_Reason := tx_Reason t;
                 tx_CreatedAt := tx_CreatedAt o; tx_UpdatedAt := tx_UpdatedAt t |}
  end.
Definition SaveTx (v : StoreView) (t : TxRecord) : StoreView :=
  with_txs v (<[tx_ID t := merge_tx (v_txs v !! tx_ID t) t]> (v_txs v)).

Definition set_status (st : TxStatus) (signed : bytes) (now : Z) (t : TxRecord) : TxRecord :=
  {| tx_ID := tx_ID t; tx_DerivationPath := tx_DerivationPath t; tx_To := tx_To t;
     tx_Value := tx_Value t; tx_Data := tx_Data t; tx_UnsignedTx := tx_UnsignedTx t;
     tx_SignedTx := signed; tx_Status := st; tx_Reason := tx_Reason t;
     tx_CreatedAt := tx_CreatedAt t; tx_UpdatedAt := now |}.
Definition UpdateTxStatus (v : StoreView) (id : string) (st : TxStatus) (signed : bytes) (now : Z) : StoreView :=
  with_txs v (alter (set_status st signed now) id (v_txs v)).
Definition DeleteTx (v : StoreView) (id : string) : StoreView := with_txs v (delete id (v_txs v)).

Section WithUnicode.
Context `{Unicode}.
Definition AddWhitelistEntry (v : StoreView) (e : WhitelistEntry) : StoreView :=
  let a := Strings.ToLower (we_Address e) in
  let added := match v_whitelist v !! a with Some o => we_AddedAt o | None => we_AddedAt e end in
  with_whitelist v (<[a := {| we_Address := a; we_Label := we_Label e; we_AddedAt := added |}]> (v_whitelist v)).
Definition RemoveWhitelistEntry (v : StoreView) (a : string) : StoreView :=
  with_whitelist v (delete (Strings.ToLower a) (v_whitelist v)).
Definition IsWhitelisted (v : StoreView) (a : string) : bool :=
  bool_decide (is_Some (v_whitelist v !! Strings.ToLower a)).
End WithUnicode.
End Spec.

(** What PostgreSQL keeps of a time: microseconds. *)
Definition micros (t : Z) : Z := t - t mod 1000.
Definition stored_key (k : DerivedKeyRecord) : DerivedKeyRecord :=
  {| dkr_DerivationPath := dkr_DerivationPath k; dkr_Curve := dkr_Curve k;
     dkr_PublicKey := dkr_PublicKey k; dkr_Address := dkr_Address k; dkr_Label := dkr_Label k;
     dkr_Share := dkr_Share k; dkr_CreatedAt := micros (dkr_CreatedAt k) |}.
Definition stored_tx (t : TxRecord) : TxRecord :=
  {| tx_ID := tx_ID t; tx_DerivationPath := tx_DerivationPath t; tx_To := tx_To t;
     tx_Value := tx_Value t; tx_Data := tx_Data t; tx_UnsignedTx := tx_UnsignedTx t;
     tx_SignedTx := tx_SignedTx t; tx_Status := tx_Status t; tx_Reason := tx_Reason t;
     tx_CreatedAt := micros (tx_CreatedAt t); tx_UpdatedAt := micros (tx_UpdatedAt t) |}.
Definition stored_entry (e : WhitelistEntry) : WhitelistEntry :=
  {| we_Address := we_Address e; we_Label := we_Label e; we_AddedAt := micros (we_AddedAt e) |}.

(** An operation with result [r] that fails without effect or takes the view
    from [v] to [v'] as [f] says. *)
Definition acts {A} (v v' : StoreView) (r : go A) (f : A -> StoreView -> Prop) : Prop :=
  match r with Ret a => f a v' | Err _ => v' = v | Panic => False end.

(** One operation of a well-formed store: it stays well formed and acts. *)
Definition step_ok {S A} (ok : S -> Prop) (view : S -> StoreView) (s : S) (x : S * go A)
    (f : A -> StoreView -> Prop) : Prop :=
  ok s -> ok x.1 /\ acts (view s) (view x.1) x.2 f.

Class StoreLaws (S : Type) `{Store S} `{Unicode} := {
  view : S -> StoreView;
  store_ok : S -> Prop;
  law_SaveMasterShare s ks : step_ok store_ok view s (SaveMasterShare s ks)
    (fun _ v => v = Spec.SaveMasterShare (view s) ks);
  law_GetMasterShare s c : step_ok store_ok view s (GetMasterShare s c)
    (fun ks v => v = view s /\ v_shares (view s) !! c = Some ks);
  law_SaveDerivedKey s k : step_ok store_ok view s (SaveDerivedKey s k)
    (fun _ v => v = Spec.SaveDerivedKey (view s) (stored_key k));
  law_GetDerivedKey s p : step_ok store_ok view s (GetDerivedKey s p)
    (fun k v => v = view s /\ v_keys (view s) !! p = Some k);
  law_UpdateLabel s p l : step_ok store_ok view s (UpdateLabel s p l)
    (fun _ v => is_Some (v_keys (view s) !! p) /\ v = Spec.UpdateLabel (view s) p l);
  law_ClearDerivedKeys s : step_ok store_ok view s (ClearDerivedKeys s)
    (fun _ v => v = Spec.ClearDerivedKeys (view s));
  law_SaveTx s t : step_ok store_ok view s (SaveTx s t)
    (fun _ v => v = Spec.SaveTx (view s) (stored_tx t));
  law_GetTx s i : step_ok store_ok view s (GetTx s i)
    (fun t v => v = view s /\ v_txs (view s) !! i = Some t);
  law_UpdateTxStatus s i st b : step_ok store_ok view s (UpdateTxStatus s i st b)
    (fun _ v => is_Some (v_txs (view s) !! i) /\
      exists now, v = Spec.UpdateTxStatus (view s) i st b now);
  law_DeleteTx s i : step_ok store_ok view s (DeleteTx s i)
    (fun _ v => is_Some (v_txs (view s) !! i) /\ v = Spec.DeleteTx (view s) i);
  law_AddWhitelistEntry s e : step_ok store_ok view s (AddWhitelistEntry s e)
    (fun _ v => v = Spec.AddWhitelistEntry (view s) (stored_entry e));
  law_RemoveWhitelistEntry s a : step_ok store_ok view s (RemoveWhitelistEntry s a)
    (fun _ v => v = Spec.RemoveWhitelistEntry (view s) a);
  law_IsWhitelisted s a : step_ok store_ok view s (IsWhitelisted s a)
    (fun b v => v = view s /\ b = Spec.IsWhitelisted (view s) a);
  law_GetWhitelistEntry s a : step_ok store_ok view s (GetWhitelistEntry s a)
    (fun e v => v = view s /\ v_whitelist (view s) !! Strings.ToLower a = Some e);
}.

(** ** PostgreSQL (postgres.go) *)

(** crypto/aes in GCM mode with a 32-byte key, and PBKDF2 of golang.org/x. *)
Class Aead := {
  Seal : bytes -> bytes -> bytes -> bytes;          (* key, nonce, plaintext *)
  Open : bytes -> bytes -> bytes -> option bytes;   (* key, nonce, ciphertext *)
  pbkdf2_Key : bytes -> bytes -> Z -> Z -> bytes;
}.
Class AeadLaws `{Aead} :=
  Open_Seal key nonce m : Open key nonce (Seal key nonce m) = Some m.

Definition NonceSize : nat := 12.

Record MasterRow := {
  mr_party_id : string; mr_party_index : Z; mr_share : bytes; mr_public_key : bytes; mr_chain_code : bytes }.
Record DerivedRow := {
  dr_curve : string; dr_public_key : bytes; dr_address : string; dr_label : string;
  dr_share : bytes; dr_created_at : Z }.

(** The database, with what the world will answer next: for each statement the
    server's error, if any, for each nonce the bytes of crypto/rand, and the
    server's clock. *)
Record PostgresStore := {
  pg_encKey : bytes;
  pg_master_shares : gmap string MasterRow;
  pg_derived_keys : gmap string DerivedRow;
  pg_transactions : gmap string TxRecord;
  pg_whitelist : gmap string WhitelistEntry;
  pg_faults : list (option string);
  pg_nonces : list (string + bytes);
  pg_now : Z;
}.

Module Postgres.
Section Postgres.
Context `{Aead}.

Definition set_tables (s : PostgresStore) ms dk tx wl : PostgresStore :=
  {| pg_encKey := pg_encKey s; pg_master_shares := ms; pg_derived_keys := dk; pg_transactions := tx;
     pg_whitelist := wl; pg_faults := pg_faults s; pg_nonces := pg_nonces s; pg_now := pg_now s |}.
Definition set_world (s : PostgresStore) fs ns : PostgresStore :=
  {| pg_encKey := pg_encKey s; pg_master_shares := pg_master_shares s; pg_derived_keys := pg_derived_keys s;
     pg_transactions := pg_transactions s; pg_whitelist := pg_whitelist s;
     pg_faults := fs; pg_nonces := ns; pg_now := pg_now s |}.

Definition deriveKey (passphrase : string) : bytes :=
  pbkdf2_Key (bytes_of passphrase) (bytes_of "crypto-claw-v1") 600000 32.

(** One statement: the fault the server has for it, if any, else [f]. *)
Definition exec {A} (s : PostgresStore) (f : PostgresStore -> PostgresStore * go A) : PostgresStore * go A :=
  match pg_faults s with
  | Some e :: fs => (set_world s fs (pg_nonces s), Err e)
  | None :: fs => f (set_world s fs (pg_nonces s))
  | [] => f s
  end.

Definition wrap {A} (p : string) (x : PostgresStore * go A) : PostgresStore * go A := (x.1, x.2 ?: p).

Definition encrypt (s : PostgresStore) (plaintext : bytes) : PostgresStore * go bytes :=
  match pg_nonces s with
  | [] => (s, Err "unexpected EOF")
  | n :: ns =>
    (set_world s (pg_faults s) ns,
     match n with
     | inl e => Err e
     | inr nonce =>
       if Nat.eqb (length nonce) NonceSize then Ret (nonce ++ Seal (pg_encKey s) nonce plaintext)
       else Err "unexpected EOF"
     end)
  end.

Definition decrypt (key ciphertext : bytes) : go bytes :=
  if zlen ciphertext <? Z.of_nat NonceSize then Err "ciphertext too short"
  else from_option_err "cipher: message authentication failed"
         (Open key (take NonceSize ciphertext) (drop NonceSize ciphertext)).

(** [x, err := ...; if err != nil { return ... }; k(x)] on operations that
    thread the store. *)
Definition andThen {A B} (x : PostgresStore * go A) (k : PostgresStore -> A -> PostgresStore * go B)
    : PostgresStore * go B :=
  match x with
  | (s, Ret a) => k s a
  | (s, Err e) => (s, Err e)
  | (s, Panic) => (s, Panic)
  end.

Definition pg_SaveMasterShare (s : PostgresStore) (share : KeyShare) : PostgresStore * go unit :=
  andThen (wrap "encrypt share" (encrypt s (ks_Share share))) (fun s encrypted =>
  exec s (fun s =>
    (set_tables s
       (<[ks_Curve share := {| mr_party_id := pid_ID (ks_PartyID share);
                               mr_party_index := pid_Index (ks_PartyID share); mr_share := encrypted;
                               mr_public_key := ks_PublicKey share; mr_chain_code := ks_ChainCode share |}]>
          (pg_master_shares s))
       (pg_derived_keys s) (pg_transactions s) (pg_whitelist s), Ret tt))).

Definition no_rows : string := "no rows in result set".

Definition master_of (key : bytes) (curve : string) (r : MasterRow) : go KeyShare :=
  shareData ← decrypt key (mr_share r) ?: "decrypt share";
  Ret {| ks_Curve := curve; ks_PartyID := {| pid_ID := mr_party_id r; pid_Index := mr_party_index r |};
         ks_Share := shareData; ks_PublicKey := mr_public_key r; ks_ChainCode := mr_chain_code r |}.

Definition pg_GetMasterShare (s : PostgresStore) (curve : Curve) : PostgresStore * go KeyShare :=
  andThen (wrap "get master share" (exec s (fun s => (s, from_option_err no_rows (pg_master_shares s !! curve)))))
    (fun s r => (s, master_of (pg_encKey s) curve r)).

Definition pg_SaveDerivedKey (s : PostgresStore) (key : DerivedKeyRecord) : PostgresStore * go unit :=
  andThen (wrap "encrypt derived key share" (encrypt s (dkr_Share key))) (fun s encrypted =>
  exec s (fun s =>
    let row := match pg_derived_keys s !! dkr_DerivationPath key with
      | None => {| dr_curve := dkr_Curve key; dr_public_key := dkr_PublicKey key; dr_address := dkr_Address key;
                   dr_label := dkr_Label key; dr_share := encrypted; dr_created_at := micros (dkr_CreatedAt key) |}
      | Some o => {| dr_curve := dr_curve o; dr_public_key := dkr_PublicKey key; dr_address := dkr_Address key;
                     dr_label := dkr_Label key; dr_share := encrypted; dr_created_at := dr_created_at o |}
      end in
    (set_tables s (pg_master_shares s) (<[dkr_DerivationPath key := row]> (pg_derived_keys s))
       (pg_transactions s) (pg_whitelist s), Ret tt))).

Definition derived_of (key : bytes) (path : string) (r : DerivedRow) : go DerivedKeyRecord :=
  shareData ← decrypt key (dr_share r);
  Ret {| dkr_DerivationPath := path; dkr_Curve := dr_curve r; dkr_PublicKey := dr_public_key r;
         dkr_Address := dr_address r; dkr_Label := dr_label r; dkr_Share := shareData;
         dkr_CreatedAt := dr_created_at r |}.

Definition pg_GetDerivedKey (s : PostgresStore) (path : string) : PostgresStore * go DerivedKeyRecord :=
  andThen (wrap "get derived key" (exec s (fun s => (s, from_option_err no_rows (pg_derived_keys s !! path)))))
    (fun s r => (s, derived_of (pg_encKey s) path r ?: "decrypt derived key share")).

(** [ORDER BY created_at]: rows of equal times come in no particular order. *)
Definition pg_ListDerivedKeys (s : PostgresStore) : PostgresStore * go (list DerivedKeyRecord) :=
  andThen (wrap "list derived keys" (exec s (fun s =>
      (s, Ret (sort_Slice (fun x y => dr_created_at x.2 <? dr_created_at y.2) (map_to_list (pg_derived_keys s)))))))
    (fun s rows => (s, go_mapM (fun '(path, r) => derived_of (pg_encKey s) path r ?: "decrypt derived key") rows)).

Definition pg_UpdateLabel (s : PostgresStore) (path label : string) : PostgresStore * go unit :=
  exec s (fun s =>
    match pg_derived_keys s !! path with
    | None => (s, Err ("derived key not found: " +:+ path))
    | Some r =>
      (set_tables s (pg_master_shares s)
         (<[path := {| dr_curve := dr_curve r; dr_public_key := dr_public_key r; dr_address := dr_address r;
                       dr_label := label; dr_share := dr_share r; dr_created_at := dr_created_at r |}]>
            (pg_derived_keys s)) (pg_transactions s) (pg_whitelist s), Ret tt)
    end).

Definition pg_ClearDerivedKeys (s : PostgresStore) : PostgresStore * go unit :=
  exec s (fun s => (set_tables s (pg_master_shares s) ∅ (pg_transactions s) (pg_whitelist s), Ret tt)).

Definition set_txs (s : PostgresStore) (m : gmap string TxRecord) : PostgresStore :=
  set_tables s (pg_master_shares s) (pg_derived_keys s) m (pg_whitelist s).

(** [INSERT ... ON CONFLICT (id) DO UPDATE SET status, signed_tx, reason, updated_at]. *)
Definition pg_SaveTx (s : PostgresStore) (tx : TxRecord) : PostgresStore * go unit :=
  exec s (fun s =>
    let row := stored_tx tx in
    let row := match pg_transactions s !! tx_ID tx with
      | None => row
      | Some o => {| tx_ID := tx_ID o; tx_DerivationPath := tx_DerivationPath o; tx_To := tx_To o;
                     tx_Value := tx_Value o; tx_Data := tx_Data o; tx_UnsignedTx := tx_UnsignedTx o;
                     tx_SignedTx := tx_SignedTx row; tx_Status := tx_Status row; tx_Reason := tx_Reason row;
                     tx_CreatedAt := tx_CreatedAt o; tx_UpdatedAt := tx_UpdatedAt row |}
      end in
    (set_txs s (<[tx_ID tx := row]> (pg_transactions s)), Ret tt)).

Definition pg_GetTx (s : PostgresStore) (txID : string) : PostgresStore * go TxRecord :=
  wrap "get transaction" (exec s (fun s => (s, from_option_err no_rows (pg_transactions s !! txID)))).

Definition pg_UpdateTxStatus (s : PostgresStore) (txID : string) (status : TxStatus) (signedTx : bytes)
    : PostgresStore * go unit :=
  exec s (fun s =>
    match pg_transactions s !! txID with
    | None => (s, Err ("transaction not found: " +:+ txID))
    | Some t => (set_txs s (<[txID := Spec.set_status status signedTx (micros (pg_now s)) t]> (pg_transactions s)), Ret tt)
    end).

(** The rows of [ListTxs]: the WHERE clauses, ORDER BY created_at DESC, then
    OFFSET and LIMIT when positive. *)
Definition tx_matches (f : TxFilter) (t : TxRecord) : bool :=
  match tf_Status f with Some st => bool_decide (tx_Status t = st) | None => true end &&
  match tf_DerivationPath f with Some p => bool_decide (tx_DerivationPath t = p) | None => true end.
Definition page {A} (f : TxFilter) (l : list A) : list A :=
  let l := if 0 <? tf_Offset f then drop (Z.to_nat (tf_Offset f)) l else l in
  if 0 <? tf_Limit f then take (Z.to_nat (tf_Limit f)) l else l.
Definition pg_ListTxs (s : PostgresStore) (f : TxFilter) : PostgresStore * go (list TxRecord) :=
  wrap "list transactions" (exec s (fun s =>
    (s, Ret (page f (sort_Slice (fun x y => tx_CreatedAt y <? tx_CreatedAt x)
               (List.filter (tx_matches f) (map snd (map_to_list (pg_transactions s))))))))).

Definition pg_DeleteTx (s : PostgresStore) (txID : string) : PostgresStore * go unit :=
  exec s (fun s =>
    match pg_transactions s !! txID with
    | None => (s, Err ("transaction not found: " +:+ txID))
    | Some _ => (set_txs s (delete txID (pg_transactions s)), Ret tt)
    end).

Section Whitelist.
Context `{Unicode}.
Definition set_wl (s : PostgresStore) (m : gmap string WhitelistEntry) : PostgresStore :=
  set_tables s (pg_master_shares s) (pg_derived_keys s) (pg_transactions s) m.

Definition pg_AddWhitelistEntry (s : PostgresStore) (e : WhitelistEntry) : PostgresStore * go unit :=
  exec s (fun s =>
    let a := Strings.ToLower (we_Address e) in
    let row := match pg_whitelist s !! a with
      | None => {| we_Address := a; we_Label := we_Label e; we_AddedAt := micros (we_AddedAt e) |}
      | Some o => {| we_Address := a; we_Label := we_Label e; we_AddedAt := we_AddedAt o |}
      end in
    (set_wl s (<[a := row]> (pg_whitelist s)), Ret tt)).

(** Deleting an absent address is no error. *)
Definition pg_RemoveWhitelistEntry (s : PostgresStore) (address : string) : PostgresStore * go unit :=
  exec s (fun s => (set_wl s (delete (Strings.ToLower address) (pg_whitelist s)), Ret tt)).

Definition pg_IsWhitelisted (s : PostgresStore) (address : string) : PostgresStore * go bool :=
  exec s (fun s => (s, Ret (bool_decide (is_Some (pg_whitelist s !! Strings.ToLower address))))).

Definition pg_GetWhitelistEntry (s : PostgresStore) (address : string) : PostgresStore * go WhitelistEntry :=
  exec s (fun s => (s, from_option_err no_rows (pg_whitelist s !! Strings.ToLower address))).

Definition pg_ListWhitelist (s : PostgresStore) : PostgresStore * go (list WhitelistEntry) :=
  exec s (fun s => (s, Ret (sort_Slice (fun x y => we_AddedAt x <? we_AddedAt y)
                              (map snd (map_to_list (pg_whitelist s)))))).

#[export] Instance store : Store PostgresStore := {|
  SaveMasterShare := pg_SaveMasterShare; GetMasterShare := pg_GetMasterShare;
  SaveDerivedKey := pg_SaveDerivedKey; GetDerivedKey := pg_GetDerivedKey;
  ListDerivedKeys := pg_ListDerivedKeys; UpdateLabel := pg_UpdateLabel;
  ClearDerivedKeys := pg_ClearDerivedKeys; SaveTx := pg_SaveTx; GetTx := pg_GetTx;
  UpdateTxStatus := pg_UpdateTxStatus; ListTxs := pg_ListTxs; DeleteTx := pg_DeleteTx;
  AddWhitelistEntry := pg_AddWhitelistEntry; RemoveWhitelistEntry := pg_RemoveWhitelistEntry;
  IsWhitelisted := pg_IsWhitelisted; GetWhitelistEntry := pg_GetWhitelistEntry;
  ListWhitelist := pg_ListWhitelist |}.
End Whitelist.
End Postgres.
End Postgres.
