(* ===== verification/StoreFacts.v ===== *)
(** * StoreFacts: PostgresStore implements the store contract *)
From S2P Require Import Prelude GoStd Codec Crypto Protocol Transport Tss TssFacts Store.
Local Open Scope Z_scope.

(** Inserting an entry whose image under [map_imap] is known. *)
Lemma imap_insert {A B} (f : string -> A -> option B) m i x y :
  f i x = Some y -> map_imap f (<[i := x]> m) = <[i := y]> (map_imap f m).
Proof.
  intros E. apply map_eq. intros j. rewrite map_lookup_imap.
  destruct (decide (j = i)) as [->|Hne].
  - rewrite !lookup_insert_eq. exact E.
  - rewrite !lookup_insert_ne by done. by rewrite map_lookup_imap.
Qed.

Lemma imap_lookup {A B} (f : string -> A -> option B) (m : gmap string A) i :
  map_imap f m !! i = m !! i ≫= f i.
Proof. apply map_lookup_imap. Qed.

Lemma alter_as_insert {A} (f : A -> A) (m : gmap string A) i x :
  m !! i = Some x -> alter f i m = <[i := f x]> m.
Proof.
  intros E. apply map_eq. intros j. destruct (decide (j = i)) as [->|Hne].
  - by rewrite lookup_alter_eq, lookup_insert_eq, E.
  - by rewrite lookup_alter_ne, lookup_insert_ne.
Qed.

Section PostgresFacts.
Context `{Unicode} `{Aead} `{!AeadLaws}.
Import Postgres.

(** The abstract content. *)
Definition pg_view (s : PostgresStore) : StoreView := {|
  v_shares := map_imap (fun c r => to_option (master_of (pg_encKey s) c r)) (pg_master_shares s);
  v_keys := map_imap (fun p r => to_option (derived_of (pg_encKey s) p r)) (pg_derived_keys s);
  v_txs := pg_transactions s;
  v_whitelist := pg_whitelist s |}.

(** Every stored share decrypts under the store's key. *)
Definition pg_ok (s : PostgresStore) : Prop :=
  map_Forall (fun _ r => is_ret (decrypt (pg_encKey s) (mr_share r)) = true) (pg_master_shares s) /\
  map_Forall (fun _ r => is_ret (decrypt (pg_encKey s) (dr_share r)) = true) (pg_derived_keys s).

Notation good s x P := (step_ok pg_ok pg_view s x P).

(** A statement that the server runs is run on the same content. *)
Lemma exec_good {A} s (f : PostgresStore -> PostgresStore * go A) P :
  (forall t, pg_view t = pg_view s -> pg_encKey t = pg_encKey s -> good t (f t) P) ->
  good s (exec s f) P.
Proof.
  intros Hf Hok. unfold exec. destruct (pg_faults s) as [|[e|] fs]; [by apply Hf|by split|].
  exact (Hf (set_world s fs (pg_nonces s)) eq_refl eq_refl Hok).
Qed.

Lemma wrap_good {A} s p (x : PostgresStore * go A) P : good s x P -> good s (wrap p x) P.
Proof. intros Hx Hok. specialize (Hx Hok). by destruct x as [s' [a| |]]. Qed.

Lemma andThen_good {A B} s (x : PostgresStore * go A) (k : PostgresStore -> A -> PostgresStore * go B) P Q :
  good s x P ->
  (forall t a, pg_ok t -> P a (pg_view t) -> x = (t, Ret a) -> pg_ok (k t a).1 /\ acts (pg_view s) (pg_view (k t a).1) (k t a).2 Q) ->
  good s (andThen x k) Q.
Proof.
  intros Hx Hk Hok. destruct (Hx Hok) as [Hok' Ha]. destruct x as [s' [a|e|]]; cbn in *; [by apply Hk|done|done].
Qed.

Lemma decrypt_encrypt s m s' c : encrypt s m = (s', Ret c) ->
  pg_encKey s' = pg_encKey s /\ decrypt (pg_encKey s) c = Ret m.
Proof.
  unfold encrypt. destruct (pg_nonces s) as [|[e|nonce] ns]; try discriminate.
  destruct (Nat.eqb_spec (length nonce) NonceSize) as [Hl|]; intros [= <- <-].
  split; [done|]. unfold decrypt, zlen. rewrite length_app.
  replace (_ <? _) with false by lia.
  rewrite <- Hl, take_app_length, drop_app_length, Open_Seal. done.
Qed.

Lemma encrypt_good s m : good s (encrypt s m) (fun _ v => v = pg_view s).
Proof.
  intros Hok. unfold encrypt. destruct (pg_nonces s) as [|[e|nonce] ns]; cbn; [done|done|].
  by destruct (Nat.eqb _ _).
Qed.

Lemma master_of_lookup s c r : pg_ok s -> pg_master_shares s !! c = Some r ->
  exists ks, master_of (pg_encKey s) c r = Ret ks /\ v_shares (pg_view s) !! c = Some ks.
Proof.
  intros [Hok _] Hr. specialize (Hok _ _ Hr). cbv beta in Hok. cbn [pg_view v_shares].
  rewrite imap_lookup, Hr. cbn [mbind option_bind]. unfold master_of.
  destruct (decrypt _ _); try done. cbn. by eexists.
Qed.

Lemma derived_of_lookup s p r : pg_ok s -> pg_derived_keys s !! p = Some r ->
  exists k, derived_of (pg_encKey s) p r = Ret k /\ v_keys (pg_view s) !! p = Some k.
Proof.
  intros [_ Hok] Hr. specialize (Hok _ _ Hr). cbv beta in Hok. cbn [pg_view v_keys].
  rewrite imap_lookup, Hr. cbn [mbind option_bind]. unfold derived_of.
  destruct (decrypt _ _); try done. cbn. by eexists.
Qed.

Lemma SaveMasterShare_good s ks :
  good s (pg_SaveMasterShare s ks) (fun _ v => v = Spec.SaveMasterShare (pg_view s) ks).
Proof.
  eapply andThen_good; [apply wrap_good, encrypt_good|].
  intros t c Ht Hv E. cbv beta in Hv. unfold wrap in E. destruct (encrypt s _) as [s' [c'| |]] eqn:Ee; try discriminate E.
  injection E as -> ->. apply decrypt_encrypt in Ee as [Hkey Hd].
  rewrite <- Hv. apply exec_good; [|done]. intros u Hu Hku [Hm Hk]. split; [split; [|done]|].
  - apply map_Forall_insert_2; [|done]. cbn. by rewrite Hku, Hkey, Hd.
  - cbn [fst snd acts]. rewrite <- Hu. unfold Spec.SaveMasterShare, Spec.with_shares, pg_view; cbn. f_equal.
    apply imap_insert. unfold master_of; cbn. rewrite Hku, Hkey, Hd. by destruct ks as [? []].
Qed.

Lemma GetMasterShare_good s c :
  good s (pg_GetMasterShare s c) (fun ks v => v = pg_view s /\ v_shares (pg_view s) !! c = Some ks).
Proof.
  eapply andThen_good with (P := fun r v => v = pg_view s /\ True).
  - apply wrap_good, exec_good. intros t Ht Hkt Hok. cbn. split; [done|].
    by destruct (pg_master_shares t !! c).
  - intros t r Hok [Hv _] E. cbn [fst snd]. split; [done|]. rewrite <- Hv.
    assert (Hr : pg_master_shares t !! c = Some r).
    { unfold wrap, exec in E. destruct (pg_faults s) as [|[?|] ?]; cbn in E; try discriminate E;
        destruct (pg_master_shares s !! c) eqn:Er; cbn in E; try discriminate E; injection E as <- <-; exact Er. }
    destruct (master_of_lookup t c r Hok Hr) as (ks & -> & Hks). done.
Qed.

Lemma SaveDerivedKey_good s k :
  good s (pg_SaveDerivedKey s k) (fun _ v => v = Spec.SaveDerivedKey (pg_view s) (stored_key k)).
Proof.
  eapply andThen_good; [apply wrap_good, encrypt_good|].
  intros t c Ht Hv E. cbv beta in Hv. unfold wrap in E. destruct (encrypt s _) as [s' [c'| |]] eqn:Ee; try discriminate E.
  injection E as -> ->. apply decrypt_encrypt in Ee as [Hkey Hd].
  rewrite <- Hv. apply exec_good; [|done]. intros u Hu Hku Hok. pose proof Hok as [Hm Hk].
  cbn [fst snd acts]. rewrite <- Hu. split; [split; [done|]|].
  - apply map_Forall_insert_2; [|done]. cbn. destruct (pg_derived_keys u !! _); cbn; by rewrite Hku, Hkey, Hd.
  - unfold Spec.SaveDerivedKey, Spec.with_keys. unfold pg_view at 1; cbn [pg_view v_shares v_keys v_txs v_whitelist].
    f_equal; try done. apply imap_insert. rewrite imap_lookup.
    cbn [stored_key dkr_DerivationPath set_tables pg_encKey].
    destruct (pg_derived_keys u !! dkr_DerivationPath k) as [o|] eqn:Eo.
    + destruct (derived_of_lookup u _ _ Hok Eo) as (ko & Eko & _).
      cbn [mbind option_bind]. rewrite Eko. cbn [to_option Spec.merge_key].
      unfold derived_of in *; cbn in *. rewrite Hku, Hkey, Hd.
      destruct (decrypt (pg_encKey u) (dr_share o)); try discriminate Eko. by injection Eko as <-.
    + cbn. unfold derived_of; cbn. rewrite Hku, Hkey, Hd. done.
Qed.

Lemma GetDerivedKey_good s p :
  good s (pg_GetDerivedKey s p) (fun k v => v = pg_view s /\ v_keys (pg_view s) !! p = Some k).
Proof.
  eapply andThen_good with (P := fun r v => v = pg_view s /\ True).
  - apply wrap_good, exec_good. intros t Ht Hkt Hok. cbn. split; [done|].
    by destruct (pg_derived_keys t !! p).
  - intros t r Hok [Hv _] E. cbn [fst snd]. split; [done|]. rewrite <- Hv.
    assert (Hr : pg_derived_keys t !! p = Some r).
    { unfold wrap, exec in E. destruct (pg_faults s) as [|[?|] ?]; cbn in E; try discriminate E;
        destruct (pg_derived_keys s !! p) eqn:Er; cbn in E; try discriminate E; injection E as <- <-; exact Er. }
    destruct (derived_of_lookup t p r Hok Hr) as (k & -> & Hk). done.
Qed.

Lemma UpdateLabel_good s p l :
  good s (pg_UpdateLabel s p l)
    (fun _ v => is_Some (v_keys (pg_view s) !! p) /\ v = Spec.UpdateLabel (pg_view s) p l).
Proof.
  apply exec_good. intros t Ht Hkt Hok. rewrite <- Ht.
  destruct (pg_derived_keys t !! p) as [r|] eqn:Er; [|by split].
  destruct (derived_of_lookup t p r Hok Er) as (k & Ek & Hv). pose proof Hok as [Hm Hk].
  cbn [fst snd acts]. split; [split; [done|]|split; [by rewrite Hv|]].
  - apply map_Forall_insert_2; [|done]. exact (Hk _ _ Er).
  - unfold Spec.UpdateLabel, Spec.with_keys. rewrite (alter_as_insert _ _ _ k Hv).
    unfold pg_view at 1; cbn [pg_view v_shares v_keys v_txs v_whitelist].
    f_equal; try done. apply imap_insert. cbn [set_tables pg_encKey].
    unfold derived_of in *; cbn in *. destruct (decrypt _ _); try discriminate Ek. by injection Ek as <-.
Qed.

Lemma tables_good s ms dk tx wl :
  pg_ok s -> map_Forall (fun _ r => is_ret (decrypt (pg_encKey s) (mr_share r)) = true) ms ->
  map_Forall (fun _ r => is_ret (decrypt (pg_encKey s) (dr_share r)) = true) dk ->
  pg_ok (set_tables s ms dk tx wl).
Proof. by split. Qed.

Lemma ClearDerivedKeys_good s :
  good s (pg_ClearDerivedKeys s) (fun _ v => v = Spec.ClearDerivedKeys (pg_view s)).
Proof.
  apply exec_good. intros t Ht Hkt Hok. rewrite <- Ht. pose proof Hok as [Hm Hk]. cbn [fst snd acts].
  split; [apply tables_good; [done|done|apply map_Forall_empty]|].
  unfold Spec.ClearDerivedKeys, Spec.with_keys, pg_view; cbn. f_equal.
Qed.

Lemma set_txs_good t m : pg_ok t -> pg_ok (set_txs t m) /\ pg_view (set_txs t m) = Spec.with_txs (pg_view t) m.
Proof. intros [Hm Hk]. by split. Qed.

Lemma set_wl_good t m : pg_ok t -> pg_ok (set_wl t m) /\ pg_view (set_wl t m) = Spec.with_whitelist (pg_view t) m.
Proof. intros [Hm Hk]. by split. Qed.

Lemma SaveTx_good s tx : good s (pg_SaveTx s tx) (fun _ v => v = Spec.SaveTx (pg_view s) (stored_tx tx)).
Proof.
  apply exec_good. intros t Ht Hkt Hok. rewrite <- Ht. cbn [fst snd acts].
  edestruct set_txs_good as [Hgood Hview]; [exact Hok|]. split; [exact Hgood|]. rewrite Hview.
  unfold Spec.SaveTx. cbn [stored_tx tx_ID pg_view v_txs]. unfold Spec.merge_tx.
  by destruct (pg_transactions t !! tx_ID tx).
Qed.

Lemma GetTx_good s i :
  good s (pg_GetTx s i) (fun t v => v = pg_view s /\ v_txs (pg_view s) !! i = Some t).
Proof.
  apply wrap_good, exec_good. intros t Ht Hkt Hok. rewrite <- Ht. cbn.
  by destruct (pg_transactions t !! i).
Qed.

Lemma UpdateTxStatus_good s i st b :
  good s (pg_UpdateTxStatus s i st b) (fun _ v => is_Some (v_txs (pg_view s) !! i) /\
    exists now, v = Spec.UpdateTxStatus (pg_view s) i st b now).
Proof.
  apply exec_good. intros t Ht Hkt Hok. rewrite <- Ht.
  destruct (pg_transactions t !! i) as [tx|] eqn:E; [|by split]. cbn [fst snd acts].
  edestruct set_txs_good as [Hgood Hview]; [exact Hok|]. split; [exact Hgood|]. rewrite Hview.
  cbn [pg_view v_txs]. split; [by rewrite E|]. eexists. unfold Spec.UpdateTxStatus. f_equal. cbn [pg_view v_txs].
  symmetry. by apply alter_as_insert.
Qed.

Lemma DeleteTx_good s i :
  good s (pg_DeleteTx s i) (fun _ v => is_Some (v_txs (pg_view s) !! i) /\ v = Spec.DeleteTx (pg_view s) i).
Proof.
  apply exec_good. intros t Ht Hkt Hok. rewrite <- Ht.
  destruct (pg_transactions t !! i) as [tx|] eqn:E; [|by split]. cbn [fst snd acts].
  edestruct set_txs_good as [Hgood Hview]; [exact Hok|]. split; [exact Hgood|]. rewrite Hview.
  cbn [pg_view v_txs]. by rewrite E.
Qed.

Lemma AddWhitelistEntry_good s e :
  good s (pg_AddWhitelistEntry s e) (fun _ v => v = Spec.AddWhitelistEntry (pg_view s) (stored_entry e)).
Proof.
  apply exec_good. intros t Ht Hkt Hok. rewrite <- Ht. cbn [fst snd acts].
  edestruct set_wl_good as [Hgood Hview]; [exact Hok|]. split; [exact Hgood|]. rewrite Hview.
  unfold Spec.AddWhitelistEntry. cbn [stored_entry we_Address we_Label we_AddedAt pg_view v_whitelist].
  by destruct (pg_whitelist t !! _).
Qed.

Lemma RemoveWhitelistEntry_good s a :
  good s (pg_RemoveWhitelistEntry s a) (fun _ v => v = Spec.RemoveWhitelistEntry (pg_view s) a).
Proof.
  apply exec_good. intros t Ht Hkt Hok. rewrite <- Ht. cbn [fst snd acts].
  edestruct set_wl_good as [Hgood Hview]; [exact Hok|]. split; [exact Hgood|]. by rewrite Hview.
Qed.

Lemma IsWhitelisted_good s a :
  good s (pg_IsWhitelisted s a) (fun b v => v = pg_view s /\ b = Spec.IsWhitelisted (pg_view s) a).
Proof. apply exec_good. intros t Ht Hkt Hok. by rewrite <- Ht. Qed.

Lemma GetWhitelistEntry_good s a :
  good s (pg_GetWhitelistEntry s a)
    (fun e v => v = pg_view s /\ v_whitelist (pg_view s) !! Strings.ToLower a = Some e).
Proof.
  apply exec_good. intros t Ht Hkt Hok. rewrite <- Ht. cbn.
  by destruct (pg_whitelist t !! Strings.ToLower a).
Qed.


#[export] Instance postgres_laws : StoreLaws PostgresStore := {|
  view := pg_view; store_ok := pg_ok;
  law_SaveMasterShare := SaveMasterShare_good; law_GetMasterShare := GetMasterShare_good;
  law_SaveDerivedKey := SaveDerivedKey_good; law_GetDerivedKey := GetDerivedKey_good;
  law_UpdateLabel := UpdateLabel_good; law_ClearDerivedKeys := ClearDerivedKeys_good;
  law_SaveTx := SaveTx_good; law_GetTx := GetTx_good; law_UpdateTxStatus := UpdateTxStatus_good;
  law_DeleteTx := DeleteTx_good; law_AddWhitelistEntry := AddWhitelistEntry_good;
  law_RemoveWhitelistEntry := RemoveWhitelistEntry_good; law_IsWhitelisted := IsWhitelisted_good;
  law_GetWhitelistEntry := GetWhitelistEntry_good |}.
End PostgresFacts.

(** ** Consequences, for any store that satisfies the contract *)
Section StoreClient.
Context {S : Type} `{StoreLaws S}.

Lemma step_Ret {A} (s s' : S) (x : S * go A) a P :
  store_ok s -> step_ok store_ok view s x P -> x = (s', Ret a) -> store_ok s' /\ P a (view s').
Proof. intros Hok Hx ->. exact (Hx Hok). Qed.

(** A master share that was saved is read back exactly, and a derived key
    comes back with its share and public key; a later save of the same path keeps
    the curve of the first. *)
Theorem store_keys_roundtrip (s s1 s2 s3 s4 s5 s6 : S) ks ks' k k' k1 :
  store_ok s ->
  SaveMasterShare s ks = (s1, Ret tt) -> SaveDerivedKey s1 k = (s2, Ret tt) ->
  GetMasterShare s2 (ks_Curve ks) = (s3, Ret ks') ->
  SaveDerivedKey s3 k' = (s4, Ret tt) -> GetDerivedKey s4 (dkr_DerivationPath k) = (s5, Ret k1) ->
  dkr_DerivationPath k' = dkr_DerivationPath k ->
  ks' = ks /\ dkr_Share k1 = dkr_Share k' /\ dkr_PublicKey k1 = dkr_PublicKey k' /\
  (v_keys (view s) !! dkr_DerivationPath k = None -> dkr_Curve k1 = dkr_Curve k).
Proof.
  intros Hok E1 E2 E3 E4 E5 Ep.
  destruct (step_Ret _ _ _ _ _ Hok (law_SaveMasterShare s ks) E1) as [Hok1 V1].
  destruct (step_Ret _ _ _ _ _ Hok1 (law_SaveDerivedKey s1 k) E2) as [Hok2 V2].
  destruct (step_Ret _ _ _ _ _ Hok2 (law_GetMasterShare s2 (ks_Curve ks)) E3) as [Hok3 [V3 L3]].
  destruct (step_Ret _ _ _ _ _ Hok3 (law_SaveDerivedKey s3 k') E4) as [Hok4 V4].
  destruct (step_Ret _ _ _ _ _ Hok4 (law_GetDerivedKey s4 (dkr_DerivationPath k)) E5) as [Hok5 [V5 L5]].
  rewrite V2, V1 in L3. cbn in L3. rewrite lookup_insert_eq in L3. injection L3 as <-. split; [done|].
  rewrite V4, V3, V2, V1 in L5. cbn in L5. rewrite Ep, lookup_insert_eq in L5. injection L5 as <-.
  rewrite lookup_insert_eq. cbn. split; [done|]. split; [done|].
  intros HN. by rewrite HN.
Qed.

(** The whitelist ignores letter case: once an entry is added, an address
    is whitelisted exactly when it was before or its lower-case form is that of
    the entry. *)
Theorem whitelist_case_insensitive (s s1 s2 : S) e a b :
  store_ok s -> AddWhitelistEntry s e = (s1, Ret tt) -> IsWhitelisted s1 a = (s2, Ret b) ->
  b = true <-> Strings.ToLower a = Strings.ToLower (we_Address e) \/ Spec.IsWhitelisted (view s) a = true.
Proof.
  intros Hok E1 E2.
  destruct (step_Ret _ _ _ _ _ Hok (law_AddWhitelistEntry s e) E1) as [Hok1 V1].
  destruct (step_Ret _ _ _ _ _ Hok1 (law_IsWhitelisted s1 a) E2) as [_ [_ ->]].
  rewrite V1. unfold Spec.IsWhitelisted, Spec.AddWhitelistEntry. cbn.
  destruct (decide (Strings.ToLower a = Strings.ToLower (we_Address e))) as [->|Hne].
  - rewrite lookup_insert_eq. split; [by left|]. intros _. by apply bool_decide_eq_true_2.
  - rewrite lookup_insert_ne by done. split; [by right|]. by intros [?|?].
Qed.
End StoreClient.

(** ** A concrete store *)
Module ToyStore.
#[export] Instance aead : Aead := {|
  Seal := fun _ _ m => x00 :: m;
  Open := fun _ _ c => match c with x00 :: m => Some m | _ => None end;
  pbkdf2_Key := fun p _ _ _ => take 32 p |}.
#[export] Instance aead_laws : AeadLaws.
Proof. done. Qed.
#[export] Existing Instance Toy.unicode.
Definition empty : PostgresStore := {|
  pg_encKey := Postgres.deriveKey "passphrase"; pg_master_shares := ∅; pg_derived_keys := ∅;
  pg_transactions := ∅; pg_whitelist := ∅; pg_faults := []; pg_nonces := repeat (inr (repeat x00 12)) 8;
  pg_now := 0 |}.
Lemma empty_ok : pg_ok empty.
Proof. split; apply map_Forall_empty. Qed.
Definition share : KeyShare :=
  {| ks_Curve := CurveSecp256k1; ks_PartyID := party_a; ks_Share := [x07]; ks_PublicKey := [x04]; ks_ChainCode := [x01] |}.
Definition key (label : string) : DerivedKeyRecord :=
  {| dkr_DerivationPath := "m/0"; dkr_Curve := CurveSecp256k1; dkr_PublicKey := [x04]; dkr_Address := "0xA";
     dkr_Label := label; dkr_Share := [x09]; dkr_CreatedAt := 1234567 |}.
Definition entry : WhitelistEntry := {| we_Address := "0xAbC"; we_Label := "exchange"; we_AddedAt := 5 |}.
End ToyStore.
Import ToyStore.
Import Postgres.

Lemma store_keys_roundtrip_witness :
  let s1 := (SaveMasterShare ToyStore.empty ToyStore.share).1 in
  let s2 := (SaveDerivedKey s1 (ToyStore.key "a")).1 in
  let s4 := (SaveDerivedKey s2 (ToyStore.key "b")).1 in
  (GetMasterShare s2 CurveSecp256k1).2 = Ret ToyStore.share /\
  exists k1, (GetDerivedKey s4 "m/0").2 = Ret k1 /\ dkr_Share k1 = [x09].
Proof.
  intros s1 s2 s4.
  destruct (store_keys_roundtrip ToyStore.empty s1 s2 s2 s4 s4 s4 ToyStore.share ToyStore.share
    (ToyStore.key "a") (ToyStore.key "b") (stored_key (ToyStore.key "b"))) as (_ & E & _);
    [exact ToyStore.empty_ok|vm_compute; reflexivity..|].
  split; [vm_compute; reflexivity|]. eexists. split; [vm_compute; reflexivity|exact E].
Defined.

Lemma whitelist_case_insensitive_witness :
  (IsWhitelisted (AddWhitelistEntry ToyStore.empty ToyStore.entry).1 "0xaBc").2 = Ret true /\
  (true = true <-> Strings.ToLower "0xaBc" = Strings.ToLower "0xAbC" \/
                   Spec.IsWhitelisted (view ToyStore.empty) "0xaBc" = true).
Proof.
  split; [vm_compute; reflexivity|].
  apply (whitelist_case_insensitive ToyStore.empty (AddWhitelistEntry ToyStore.empty ToyStore.entry).1
    (AddWhitelistEntry ToyStore.empty ToyStore.entry).1 ToyStore.entry "0xaBc" true);
    [exact ToyStore.empty_ok|vm_compute; reflexivity|vm_compute; reflexivity].
Defined.

