(* ===== verification/Config.v ===== *)
(** * Config: the configuration records (internal/config/config.go) *)
From S2P Require Import Prelude GoStd.
Local Open Scope Z_scope.

Record DatabaseConfig := {
  db_Host : string; db_Port : Z; db_User : string; db_Password : string; db_DBName : string; db_SSLMode : string }.
(** No component is escaped: a password holding [@] or [/] changes the address. *)
Definition DSN (d : DatabaseConfig) : string :=
  "postgres://" +:+ db_User d +:+ ":" +:+ db_Password d +:+ "@" +:+ db_Host d +:+ ":" +:+ Strconv.Itoa (db_Port d)
  +:+ "/" +:+ db_DBName d +:+ "?sslmode=" +:+ db_SSLMode d.

Record APIConfig := { api_ListenAddr : string; api_WebDir : string }.
Record TransportConfig := {
  tc_RemoteAddr : string; tc_ListenAddr : string; tc_CertFile : string; tc_KeyFile : string; tc_CACertFile : string }.
Record LLMConfig := { llm_Provider : string; llm_APIKey : string; llm_Endpoint : string; llm_Model : string }.
Record WhitelistSeed := { ws_Address : string; ws_Label : string }.
(** [ac_ExplorerAPIs]: the map, in the order a range visits it. *)
Record AnalyzerConfig := {
  ac_LLM : LLMConfig; ac_AutoMode : bool; ac_DisableAI : bool;
  ac_ExplorerAPIs : list (string * string); ac_Whitelist : list WhitelistSeed }.
Record TelegramConfig := { tg_BotToken : string; tg_AuthorizedUserID : Z; tg_EscalationTimeout : Z }.
Record Config := {
  cfg_Party : string; cfg_DataDir : string; cfg_Database : DatabaseConfig; cfg_API : APIConfig;
  cfg_Transport : TransportConfig; cfg_Analyzer : AnalyzerConfig; cfg_Telegram : TelegramConfig }.
