(* ===== verification/Llm.v ===== *)
(** * Llm: the LLM client of the analyzer (internal/partyb/analyzer/llm.go)

    Prompt, endpoint selection, response parsing and the mapping of a
    classification to a decision. HTTP and the JSON of the providers' wire types
    are arguments ([LlmWorld]). A confidence is a binary64 number. *)
From S2P Require Import Prelude GoStd Codec Config Vm.
From Stdlib Require Import Floats.SpecFloat.
Local Open Scope Z_scope.
Local Open Scope go_scope.

Notation float := spec_float (only parsing).
Definition f0_0 : float := S754_zero false.
Definition f0_8 : float := S754_finite false 7205759403792794 (-53).
Definition f0_9 : float := S754_finite false 8106479329266893 (-53).
Definition f1_0 : float := S754_finite false 4503599627370496 (-52).

(** ** Decisions (analyzer.go) *)
Notation Action := string (only parsing).
Definition ActionApprove : Action := "approve".
Definition ActionReject : Action := "reject".
Definition ActionEscalate : Action := "escalate".
Record Decision := { d_Action : Action; d_Reason : string; d_Confidence : float }.
Definition no_decision : Decision := {| d_Action := ""; d_Reason := ""; d_Confidence := f0_0 |}.

(** A decoded contract call; the arguments in the order a range visits the
    map, each value as [%v] prints it. *)
Record DecodedCall := { dc_MethodName : string; dc_Args : list (string * string); dc_Verified : bool }.

Record AnalysisResult := {
  ar_Decision : Decision;
  ar_DecodedTx : option DecodedTx;
  ar_DecodedCall : option DecodedCall;
  ar_Whitelisted : bool;
  ar_WhitelistLabel : string;
  ar_SignableBytesOK : bool;
  ar_FieldMismatches : list string;
  ar_Warnings : list string;
  ar_Summary : string;
}.

Record llmClassification := { cl_Classification : string; cl_Confidence : float; cl_Reasoning : string }.

(** ** Text helpers *)
Definition nl : string := String (ascii_of_nat 10) "".
Definition ticks : string := "```".

Section WithUnicode.
Context `{Unicode}.
(** The part of [s] before the next fence, or all of it. *)
Definition before_fence (s : string) : string :=
  match Strings.cut s ticks with Some (body, _) => body | None => s end.
Definition extractJSON (s : string) : string :=
  let s := Strings.TrimSpace s in
  let s := match Strings.cut s (ticks +:+ "json") with
           | Some (_, rest) => before_fence rest
           | None => match Strings.cut s ticks with
                     | Some (_, rest) => before_fence rest
                     | None => s
                     end
           end in
  Strings.TrimSpace s.
End WithUnicode.

Definition truncate (s : string) (maxLen : Z) : string :=
  if slen s <=? maxLen then s else String.substring 0 (Z.to_nat maxLen) s +:+ "...".

(** [c.Confidence >= 0.8]: false on a NaN. *)
Definition classificationToDecision (c : llmClassification) : Decision :=
  let d a := {| d_Action := a; d_Reason := cl_Reasoning c; d_Confidence := cl_Confidence c |} in
  if bool_decide (cl_Classification c = "malicious") then d ActionReject
  else if bool_decide (cl_Classification c = "safe") && SFleb f0_8 (cl_Confidence c) then d ActionApprove
  else d ActionEscalate.

Definition instructions : string :=
  nl +:+ "=== INSTRUCTIONS ===" +:+ nl +:+
  "Based on the decoded transaction data above, classify this transaction." +:+ nl +:+
  "Consider:" +:+ nl +:+
  "- Is the destination a known protocol or an unknown address?" +:+ nl +:+
  "- Does the function call make sense for the stated purpose?" +:+ nl +:+
  "- Is the value reasonable?" +:+ nl +:+
  "- Are there any signs of a malicious or phishing transaction?" +:+ nl +:+
  "- Is the contract verified?" +:+ nl +:+
  "- Are there field mismatches between what was claimed and what the tx actually does?" +:+ nl +:+ nl +:+
  "Respond ONLY with this JSON (no markdown, no explanation outside the JSON):" +:+ nl +:+
  "{" +:+ nl +:+
  "  " +:+ Strconv.dquote +:+ "classification" +:+ Strconv.dquote +:+ ": " +:+
    Strconv.dquote +:+ "safe" +:+ Strconv.dquote +:+ " | " +:+ Strconv.dquote +:+ "suspicious" +:+ Strconv.dquote
    +:+ " | " +:+ Strconv.dquote +:+ "malicious" +:+ Strconv.dquote +:+ "," +:+ nl +:+
  "  " +:+ Strconv.dquote +:+ "confidence" +:+ Strconv.dquote +:+ ": 0.0 to 1.0," +:+ nl +:+
  "  " +:+ Strconv.dquote +:+ "reasoning" +:+ Strconv.dquote +:+ ": " +:+
    Strconv.dquote +:+ "brief explanation" +:+ Strconv.dquote +:+ nl +:+ "}".

Definition bullets (title : string) (l : list string) : string :=
  if 0 <? zlen l then
    nl +:+ title +:+ nl +:+ String.concat "" (map (fun m => "- " +:+ m +:+ nl) l)
  else "".

Definition buildRichPrompt (r : AnalysisResult) : string :=
  "You are a blockchain transaction security analyzer for an MPC-TSS signing service." +:+ nl +:+
  "Analyze this transaction and determine if it is safe to co-sign." +:+ nl +:+ nl +:+
  "=== TRANSACTION DETAILS (decoded from raw unsigned tx) ===" +:+ nl +:+
  ar_Summary r +:+
  bullets "=== WARNINGS ===" (ar_FieldMismatches r) +:+
  bullets "=== ADDITIONAL WARNINGS ===" (ar_Warnings r) +:+
  instructions.

(** ** The call *)

(** The two request bodies, the HTTP exchange (status and body), and what the
    JSON decoders find: the texts of the choices and the classification. *)
Class LlmWorld := {
  openai_body : string -> string -> string -> go bytes;       (* model, system, prompt *)
  anthropic_body : string -> string -> string -> go bytes;
  http_post : string -> list (string * string) -> bytes -> go (Z * bytes);
  parse_openai : bytes -> go (list string);
  parse_anthropic : bytes -> go (list string);
  parse_classification : string -> go llmClassification;
}.

Section Client.
Context `{Unicode} `{LlmWorld} (cfg : LLMConfig).

Definition system_prompt : string :=
  "You are a blockchain transaction security analyzer. Respond only with JSON.".

Definition local_endpoint (endpoint : string) : string :=
  if negb (Strings.Contains endpoint "/v1/") && negb (Strings.Contains endpoint "/api/")
  then Strings.TrimRight endpoint "/" +:+ "/v1/chat/completions" else endpoint.

Definition provider : string := llm_Provider cfg.
Definition endpoint_or (d : string) : string :=
  if bool_decide (llm_Endpoint cfg = "") then d else llm_Endpoint cfg.

(** The endpoint, the body and the provider's headers. *)
Definition llm_request (prompt : string) : go (string * bytes * list (string * string)) :=
  let json m := m ?: "marshal request" in
  let ct := ("Content-Type", "application/json") in
  if bool_decide (provider = "openai") then
    b ← json (openai_body (llm_Model cfg) system_prompt prompt);
    Ret (endpoint_or "https://api.openai.com/v1/chat/completions", b,
         [ct; ("Authorization", "Bearer " +:+ llm_APIKey cfg)])
  else if bool_decide (provider = "anthropic") then
    b ← json (anthropic_body (llm_Model cfg) system_prompt prompt);
    Ret (endpoint_or "https://api.anthropic.com/v1/messages", b,
         [ct; ("x-api-key", llm_APIKey cfg); ("anthropic-version", "2023-06-01")])
  else if bool_decide (provider = "local") then
    if bool_decide (llm_Endpoint cfg = "") then Err "local LLM endpoint not configured"
    else
      b ← json (openai_body (llm_Model cfg) system_prompt prompt);
      Ret (local_endpoint (llm_Endpoint cfg), b, [ct])
  else Err ("unsupported LLM provider: " +:+ provider).

Definition parseResponse (body : bytes) : go llmClassification :=
  content ←
    (if bool_decide (provider = "openai") || bool_decide (provider = "local") then
       l ← parse_openai body ?: "parse OpenAI response";
       from_option_err "no choices in OpenAI response" (head l)
     else if bool_decide (provider = "anthropic") then
       l ← parse_anthropic body ?: "parse Anthropic response";
       from_option_err "no content in Anthropic response" (head l)
     else Ret "");
  let content := extractJSON content in
  match parse_classification content with
  | Err e => Err ("parse classification JSON: " +:+ e +:+ " (content: " +:+ truncate content 200 +:+ ")")
  | m => m
  end.

Definition callLLM (prompt : string) : go llmClassification :=
  '(endpoint, reqBody, headers) ← llm_request prompt;
  '(status, body) ← http_post endpoint headers reqBody;
  if negb (status =? 200) then
    Err ("LLM returned status " +:+ Strconv.Itoa status +:+ ": " +:+ truncate (string_of body) 200)
  else parseResponse body.

Definition AnalyzeRich (result : AnalysisResult) : go Decision :=
  classification ← callLLM (buildRichPrompt result);
  Ret (classificationToDecision classification).
End Client.
