(* ===== verification/Analyzer.v ===== *)
(** * Analyzer: Party B's transaction analysis (internal/partyb/analyzer)

    [ABIResolver] (abi.go) with its 24-hour cache, and [Analyze] (analyzer.go)
    stage by stage. The block explorer's HTTP, go-ethereum's ABI type and the
    clock are the class [AbiWorld]. *)
From S2P Require Import Prelude GoStd Codec Protocol Transport Tss Config Vm Store Llm.
From Stdlib Require Import Floats.SpecFloat.
Local Open Scope Z_scope.
Local Open Scope go_scope.

(** ** ABI resolution (abi.go) *)
Class AbiWorld := {
  ABI : Type;
  explorer_get : string -> go bytes;                        (* GET, whole body *)
  parse_etherscan : bytes -> go (string * string * string); (* status, message, result *)
  abi_JSON : string -> go ABI;
  MethodById : ABI -> bytes -> go (string * (bytes -> go (list (string * string))));
}.

Section Abi.
Context `{Unicode} `{AbiWorld}.

Record cachedABI := { ca_abi : ABI; ca_fetchedAt : Z; ca_verified : bool }.
Record ABIResolver := { explorerKeys : list (string * string); abi_cache : gmap string cachedABI }.
Definition NewABIResolver (keys : list (string * string)) : ABIResolver :=
  {| explorerKeys := keys; abi_cache := ∅ |}.

Definition day : Z := 24 * 3600 * 10 ^ 9.

Definition fetchABIFromExplorer (r : ABIResolver) (addr : string) : go string :=
  let apiKey := match explorerKeys r with (_, k) :: _ => k | [] => "" end in
  body ← explorer_get ("https://api.etherscan.io/api?module=contract&action=getabi&address="
                       +:+ addr +:+ "&apikey=" +:+ apiKey);
  '(status, message, result) ← parse_etherscan body ?: "parse response";
  if bool_decide (status = "1") then Ret result else Err ("explorer API error: " +:+ message).

(** [now] is the time of the call; the new cache entry is stamped [now]. *)
Definition getABI (r : ABIResolver) (now : Z) (addr : string) : ABIResolver * go (ABI * bool) :=
  let addr := Strings.ToLower addr in
  let fetch :=
    match (abiJSON ← fetchABIFromExplorer r addr; abi_JSON abiJSON ?: "parse ABI JSON") with
    | Ret parsed =>
      ({| explorerKeys := explorerKeys r;
          abi_cache := <[addr := {| ca_abi := parsed; ca_fetchedAt := now; ca_verified := true |}]> (abi_cache r) |},
       Ret (parsed, true))
    | Err e => (r, Err e)
    | Panic => (r, Panic)
    end in
  match abi_cache r !! addr with
  | Some c => if now - ca_fetchedAt c <? day then (r, Ret (ca_abi c, ca_verified c)) else fetch
  | None => fetch
  end.

Definition DecodeCalldata (r : ABIResolver) (now : Z) (contractAddr hexData : string)
    : ABIResolver * go DecodedCall :=
  match Hex.hexToBytes hexData ?: "decode hex" with
  | Err e => (r, Err e)
  | Panic => (r, Panic)
  | Ret data =>
    if zlen data <? 4 then (r, Err ("calldata too short: " +:+ Strconv.Itoa (zlen data) +:+ " bytes"))
    else
      let '(r, found) := getABI r now contractAddr in
      (r, '(contractABI, verified) ← found ?: ("fetch ABI for " +:+ contractAddr);
          '(name, unpack) ← MethodById contractABI (take 4 data)
            ?: ("unknown method selector " +:+ Hex.EncodeToString (take 4 data));
          args ← unpack (drop 4 data) ?: "unpack args";
          Ret {| dc_MethodName := name; dc_Args := args; dc_Verified := verified |})
  end.
End Abi.

(** ** Rules on the decoded fields *)
Section Rules.
Context `{Unicode}.

Definition zero_address : string := "0x0000000000000000000000000000000000000000".
Definition value_threshold : Z := 100 * 10 ^ 18.

Definition reject (reason : string) : Decision :=
  {| d_Action := ActionReject; d_Reason := reason; d_Confidence := f1_0 |}.

(** [None]: no rule applies. *)
Definition deterministicChecks (to : list string) (value : string) : option Decision :=
  if bool_decide (to = []) then Some (reject "no recipient addresses specified")
  else if existsb (fun addr => bool_decide (Strings.ToLower addr = zero_address)) to
  then Some (reject "transaction targets zero address")
  else if bool_decide (value = "") then None
  else match Strconv.SetString10 value with
       | None => Some (reject "invalid value field")
       | Some val =>
         if value_threshold <? val
         then Some {| d_Action := ActionEscalate;
                      d_Reason := "high-value transfer: " +:+ Strconv.Itoa val +:+ " wei";
                      d_Confidence := f0_9 |}
         else None
       end.

Definition verifyFields (req : SignRequestPayload) (decoded : DecodedTx) : list string :=
  match dtx_To decoded, srq_To req with
  | d :: _, c :: _ =>
    let claimedTo := Strings.ToLower c in
    let decodedTo := Strings.ToLower d in
    if bool_decide (claimedTo = decodedTo) then []
    else ["'to' mismatch: claimed " +:+ claimedTo +:+ ", actual " +:+ decodedTo]
  | _, _ => []
  end ++
  if negb (bool_decide (dtx_Value decoded = "")) && negb (bool_decide (srq_Value req = ""))
     && negb (bool_decide (dtx_Value decoded = srq_Value req))
  then ["'value' mismatch: claimed " +:+ srq_Value req +:+ ", actual " +:+ dtx_Value decoded] else [].
End Rules.

(** ** Summary *)
Definition identifyChain (path : string) : string :=
  let has n := Strings.Contains path ("/" +:+ n +:+ "'") || Strings.Contains path ("/" +:+ n +:+ "/") in
  if has "60" then "EVM (Ethereum)"
  else if has "501" then "Solana"
  else if has "118" then "Cosmos"
  else "unknown".

(** [num/den] rounded to the nearest integer, ties to even. *)
Definition round_half_even (num den : Z) : Z :=
  let q := num / den in
  let r := num mod den in
  if 2 * r <? den then q else if den <? 2 * r then q + 1 else if Z.even q then q else q + 1.

(** [new(big.Float).Quo(v, 1e18)] for [v > 0]: mantissa and exponent of the
    quotient at the precision of [SetInt], max(64, bit length). *)
Definition quo_1e18 (v : Z) : Z * Z :=
  let den := 10 ^ 18 in
  let prec := Z.max 64 (Z.log2 v + 1) in
  let scaled e := if 0 <=? e then (v, den * 2 ^ e) else (v * 2 ^ (- e), den) in
  let e0 := Z.log2 v - Z.log2 den - prec + 1 in
  let '(n, d) := scaled e0 in
  let e := if n / d <? 2 ^ (prec - 1) then e0 - 1 else e0 in
  let '(n, d) := scaled e in (round_half_even n d, e).

(** [%.6f] of a positive dyadic number. *)
Definition fixed6 (m e : Z) : string :=
  let x := if 0 <=? e then m * 2 ^ e * 10 ^ 6 else round_half_even (m * 10 ^ 6) (2 ^ (- e)) in
  let frac := Strconv.Itoa (x mod 10 ^ 6) in
  Strconv.Itoa (x / 10 ^ 6) +:+ "." +:+ String.concat "" (repeat "0" (6 - String.length frac)) +:+ frac.

Definition formatValue (weiStr chain : string) : string :=
  if negb (Strings.Contains chain "EVM") then ""
  else match Strconv.SetString10 weiStr with
       | None => ""
       | Some val =>
         if val =? 0 then ""
         else let '(m, e) := quo_1e18 (Z.abs val) in
              (if val <? 0 then "-" else "") +:+ fixed6 m e +:+ " ETH"
       end.

Example formatValue_1_5 : formatValue "1500000000000000000" "EVM (Ethereum)" = "1.500000 ETH".
Proof. reflexivity. Qed.

Definition or_empty (b : bool) (s : string) : string := if b then s else "".
Definition nonempty (s : string) : bool := negb (bool_decide (s = "")).

Definition buildSummary (to : list string) (value data derivationPath : string)
    (decoded : option DecodedTx) (call : option DecodedCall) (whitelisted : bool) (whitelistLabel : string) : string :=
  let chain := identifyChain derivationPath in
  "Chain: " +:+ chain +:+ nl
  +:+ or_empty (0 <? zlen to) ("To: " +:+ Strings.Join to ", " +:+ nl)
  +:+ or_empty (nonempty value)
        ("Value: " +:+ value
         +:+ (let h := formatValue value chain in or_empty (nonempty h) (" (" +:+ h +:+ ")")) +:+ nl)
  +:+ match call with
      | Some c =>
        "Method: " +:+ dc_MethodName c +:+ nl
        +:+ (if dc_Verified c then "Contract: verified" else "Contract: unverified") +:+ nl
        +:+ String.concat "" (map (fun '(name, val) => "  " +:+ name +:+ ": " +:+ val +:+ nl) (dc_Args c))
      | None =>
        or_empty (nonempty data)
          (or_empty (10 <=? slen data) ("Function selector: " +:+ String.substring 0 10 data +:+ nl)
           +:+ "Contract call (ABI not available)" +:+ nl)
      end
  +:+ match decoded with
      | Some d =>
        or_empty (0 <? dtx_GasLimit d) ("Gas limit: " +:+ Strconv.Itoa (dtx_GasLimit d) +:+ nl)
        +:+ or_empty (nonempty (dtx_ChainID d)) ("Chain ID: " +:+ dtx_ChainID d +:+ nl)
      | None => ""
      end
  +:+ if whitelisted
      then "Whitelist: YES (" +:+ (if nonempty whitelistLabel then whitelistLabel else "known address") +:+ ")" +:+ nl
      else "Whitelist: NO" +:+ nl.

(** [bytesEqual]. *)
Fixpoint bytesEqual_loop (a b : bytes) : bool :=
  match a, b with
  | x :: a', y :: b' => if bool_decide (x = y) then bytesEqual_loop a' b' else false
  | _, _ => true
  end.
Definition bytesEqual (a b : bytes) : bool :=
  if zlen a =? zlen b then bytesEqual_loop a b else false.

(** ** Analyze *)
Section Analyze.
Context `{Unicode} `{AbiWorld} `{LlmWorld} {S : Type} `{Store S}.

(** [Analyzer]: registry and LLM are optional, the whitelist is the store. *)
Record Analyzer := {
  an_cfg : AnalyzerConfig; an_vmReg : option Registry; an_has_whitelist : bool;
  an_abi : ABIResolver; an_llm : option LLMConfig }.

Definition New (cfg : AnalyzerConfig) (vmReg : option Registry) (wl : bool) : Analyzer :=
  {| an_cfg := cfg; an_vmReg := vmReg; an_has_whitelist := wl;
     an_abi := NewABIResolver (ac_ExplorerAPIs cfg);
     an_llm := if negb (ac_DisableAI cfg) && nonempty (llm_Provider (ac_LLM cfg))
               then Some (ac_LLM cfg) else None |}.

(** Stages 1 and 2: the decoded transaction, whether the claimed signable
    bytes are those of the transaction, and the warnings. *)
Definition check_signable (adapter : Adapter) (unsignedTx : bytes) (claimed : string) : go (bool * list string) :=
  match ExtractSignableBytes adapter unsignedTx with
  | Panic => Panic
  | Err e => Ret (true, ["failed to recompute signable bytes: " +:+ e])
  | Ret recomputed =>
    match Base64.DecodeString claimed with
    | Panic => Panic
    | Err e => Ret (true, ["failed to decode claimed signable bytes: " +:+ e])
    | Ret claimedBytes => Ret (bytesEqual recomputed claimedBytes, [])
    end
  end.

Definition decode_stage (a : Analyzer) (req : SignRequestPayload)
    : go (option DecodedTx * bool * list string) :=
  match Base64.DecodeString (srq_UnsignedTx req) with
  | Panic => Panic
  | Err e => Ret (None, true, ["failed to decode unsigned tx base64: " +:+ e])
  | Ret unsignedTx =>
    match an_vmReg a with
    | None => Ret (None, true, [])
    | Some reg =>
      match ForPath reg (srq_DerivationPath req) with
      | None => Ret (None, true, ["no VM adapter for derivation path: " +:+ srq_DerivationPath req])
      | Some adapter =>
        '(decoded, w1) ←
          match DecodeTx adapter unsignedTx with
          | Panic => Panic
          | Err e => Ret (None, ["failed to decode tx: " +:+ e])
          | Ret d => Ret (Some d, [])
          end;
        '(ok, w2) ← check_signable adapter unsignedTx (srq_SignableBytes req);
        Ret (decoded, ok, w1 ++ w2)
      end
    end
  end.

Definition effective {A} (decoded : option DecodedTx) (get : DecodedTx -> A) (present : A -> bool) (claimed : A) : A :=
  match decoded with
  | Some d => if present (get d) then get d else claimed
  | None => claimed
  end.

(** Stage 4: the first address the store says is whitelisted, with its label;
    an address whose lookup fails is passed over. *)
Fixpoint check_whitelist (s : S) (addrs : list string) : S * option string :=
  match addrs with
  | [] => (s, None)
  | addr :: rest =>
    let '(s, wl) := IsWhitelisted s addr in
    match wl with
    | Ret true =>
      let '(s, entry) := GetWhitelistEntry s addr in
      (s, Some (match entry with Ret e => we_Label e | _ => "" end))
    | _ => check_whitelist s rest
    end
  end.

(** Stage 8. *)
Definition llm_stage (a : Analyzer) (r : AnalysisResult) : go (Decision * list string) :=
  let d act reason c := {| d_Action := act; d_Reason := reason; d_Confidence := c |} in
  match an_llm a with
  | None =>
    Ret (if ar_Whitelisted r then d ActionApprove "whitelisted address" f0_9
         else d ActionEscalate "manual review required (AI disabled)" f0_0, [])
  | Some cfg =>
    match AnalyzeRich cfg r with
    | Panic => Panic
    | Ret dec => Ret (dec, [])
    | Err e =>
      Ret (if ar_Whitelisted r then d ActionApprove "whitelisted address (LLM unavailable)" f0_9
           else d ActionEscalate "LLM unavailable, manual review needed" f0_0,
           ["LLM analysis unavailable: " +:+ e])
    end
  end.

Definition with_decision (r : AnalysisResult) (d : Decision) (warnings : list string) (summary : string) : AnalysisResult :=
  {| ar_Decision := d; ar_DecodedTx := ar_DecodedTx r; ar_DecodedCall := ar_DecodedCall r;
     ar_Whitelisted := ar_Whitelisted r; ar_WhitelistLabel := ar_WhitelistLabel r;
     ar_SignableBytesOK := ar_SignableBytesOK r; ar_FieldMismatches := ar_FieldMismatches r;
     ar_Warnings := ar_Warnings r ++ warnings; ar_Summary := summary |}.

Definition mismatch_decision : Decision :=
  reject "signable bytes mismatch: unsigned tx does not match claimed hash — possible tampering".

Definition analyze_verified (a : Analyzer) (now : Z) (s : S) (req : SignRequestPayload)
    (decoded : option DecodedTx) (mismatches warnings : list string) : Analyzer * S * go AnalysisResult :=
  let effectiveTo := effective decoded dtx_To (fun l => 0 <? zlen l) (srq_To req) in
  let effectiveValue := effective decoded dtx_Value nonempty (srq_Value req) in
  let effectiveData := effective decoded dtx_Data nonempty (srq_Data req) in
  let '(s, label) := if an_has_whitelist a then check_whitelist s effectiveTo else (s, None) in
  let r := {| ar_Decision := no_decision; ar_DecodedTx := decoded; ar_DecodedCall := None;
              ar_Whitelisted := match label with Some _ => true | None => false end;
              ar_WhitelistLabel := default "" label; ar_SignableBytesOK := true;
              ar_FieldMismatches := mismatches; ar_Warnings := warnings; ar_Summary := "" |} in
  match deterministicChecks effectiveTo effectiveValue with
  | Some d => (a, s, Ret (with_decision r d [] (d_Reason d)))
  | None =>
    let '(abi, call) :=
      match effectiveTo with
      | to :: _ => if nonempty effectiveData then DecodeCalldata (an_abi a) now to effectiveData
                   else (an_abi a, Err "")
      | [] => (an_abi a, Err "")
      end in
    let a := {| an_cfg := an_cfg a; an_vmReg := an_vmReg a; an_has_whitelist := an_has_whitelist a;
                an_abi := abi; an_llm := an_llm a |} in
    match call with
    | Panic => (a, s, Panic)
    | _ =>
      let call := to_option call in
      let r := {| ar_Decision := no_decision; ar_DecodedTx := decoded; ar_DecodedCall := call;
                  ar_Whitelisted := ar_Whitelisted r; ar_WhitelistLabel := ar_WhitelistLabel r;
                  ar_SignableBytesOK := true; ar_FieldMismatches := mismatches; ar_Warnings := warnings;
                  ar_Summary := buildSummary effectiveTo effectiveValue effectiveData (srq_DerivationPath req)
                                  decoded call (ar_Whitelisted r) (ar_WhitelistLabel r) |} in
      (a, s, '(d, w) ← llm_stage a r; Ret (with_decision r d w (ar_Summary r)))
    end
  end.

Definition Analyze (a : Analyzer) (now : Z) (s : S) (req : SignRequestPayload) : Analyzer * S * go AnalysisResult :=
  match decode_stage a req with
  | Panic => (a, s, Panic)
  | Err e => (a, s, Err e)
  | Ret (decoded, ok, warnings) =>
    let mismatches := match decoded with Some d => verifyFields req d | None => [] end in
    let warnings := warnings ++ mismatches in
    if negb ok then
      (a, s, Ret {| ar_Decision := mismatch_decision; ar_DecodedTx := decoded; ar_DecodedCall := None;
                    ar_Whitelisted := false; ar_WhitelistLabel := ""; ar_SignableBytesOK := false;
                    ar_FieldMismatches := mismatches; ar_Warnings := warnings;
                    ar_Summary := "REJECTED: Signable bytes from Party A do not match the unsigned transaction." |})
    else analyze_verified a now s req decoded mismatches warnings
  end.
End Analyze.
