(* ===== verification/AnalyzerFacts.v ===== *)
(** * AnalyzerFacts: what an analysis result guarantees *)
From S2P Require Import Prelude GoStd Codec Protocol Transport Tss TssFacts TssProtocolFacts Config Vm VmFacts Store StoreFacts Llm Analyzer.
From Stdlib Require Import Floats.SpecFloat.
Local Open Scope Z_scope.

Lemma bytesEqual_loop_eq a : forall b, length a = length b -> bytesEqual_loop a b = true <-> a = b.
Proof.
  induction a as [|x a IH]; intros [|y b]; cbn; try done. intros [= Hl].
  case_bool_decide as E; [subst|split; [done|congruence]].
  rewrite IH by done. split; congruence.
Qed.

Lemma bytesEqual_eq a b : bytesEqual a b = true <-> a = b.
Proof.
  unfold bytesEqual, zlen. destruct (Z.eqb_spec (Z.of_nat (length a)) (Z.of_nat (length b))) as [E|E].
  - apply bytesEqual_loop_eq. lia.
  - split; [done|]. intros ->. done.
Qed.

Section RuleFacts.
Context `{Unicode}.

(** Passing the rules: there is a recipient, none is the zero address, and the
    value is absent or a decimal number up to the threshold. *)
Definition rules_pass (to : list string) (value : string) : Prop :=
  to <> [] /\ Forall (fun a => Strings.ToLower a <> zero_address) to /\
  (value = "" \/ exists v, Strconv.SetString10 value = Some v /\ v <= value_threshold).

Lemma deterministicChecks_None to value : deterministicChecks to value = None <-> rules_pass to value.
Proof.
  unfold deterministicChecks, rules_pass. case_bool_decide as Et; [split; [done|by intros []]|].
  assert (Hz : existsb (fun addr => bool_decide (Strings.ToLower addr = zero_address)) to = false
               <-> Forall (fun a => Strings.ToLower a <> zero_address) to).
  { clear. induction to as [|x to IH]; cbn; [done|]. rewrite orb_false_iff, IH, Forall_cons.
    by rewrite bool_decide_eq_false. }
  destruct (existsb _ to) eqn:Ez.
  { split; [done|]. intros (_ & HF & _). apply Hz in HF. discriminate. }
  pose proof (proj1 Hz eq_refl) as HF. case_bool_decide as Ev.
  { split; [by auto|done]. }
  destruct (Strconv.SetString10 value) as [v|] eqn:E.
  - destruct (Z.ltb_spec value_threshold v) as [Hlt|Hle].
    + split; [done|]. intros (_ & _ & [?|(v' & [= <-] & ?)]); [done|lia].
    + split; [|done]. intros _. repeat (split; [done|]). right. by exists v.
  - split; [done|]. intros (_ & _ & [?|(v' & ? & _)]); done.
Qed.

Lemma deterministicChecks_not_approve to value d :
  deterministicChecks to value = Some d -> d_Action d <> ActionApprove.
Proof. unfold deterministicChecks, reject. repeat case_match; intros; simplify_eq; done. Qed.
End RuleFacts.

Section AnalyzeFacts.
Context `{Unicode} `{AbiWorld} `{LlmWorld} {S : Type} `{Store S} `{!StoreLaws S}.

(** The whitelist stage: the address it stops at is whitelisted, and the store
    is only read. *)
Lemma check_whitelist_sound addrs : forall (s s' : S) label, store_ok s ->
  check_whitelist s addrs = (s', label) ->
  store_ok s' /\ view s' = view s /\
  (forall l, label = Some l -> Exists (fun a => Spec.IsWhitelisted (view s) a = true) addrs).
Proof.
  induction addrs as [|a addrs IH]; intros s s' label Hok; cbn.
  - by intros [= <- <-].
  - destruct (IsWhitelisted s a) as [s1 wl] eqn:E1.
    pose proof (law_IsWhitelisted s a Hok) as [Hok1 Hacts]. rewrite E1 in Hok1, Hacts. cbn in Hok1, Hacts.
    assert (Hrest : view s1 = view s -> check_whitelist s1 addrs = (s', label) ->
      store_ok s' /\ view s' = view s /\
      (forall l, label = Some l -> Exists (fun a => Spec.IsWhitelisted (view s) a = true) (a :: addrs))).
    { intros Hv Hc. destruct (IH _ _ _ Hok1 Hc) as (? & Hv' & HE). rewrite Hv', Hv.
      split; [done|]. split; [done|]. intros l Hl. right. rewrite <- Hv. by eapply HE. }
    destruct wl as [[|]| e|]; cbn in Hacts.
    + destruct Hacts as [Hv Hb]. destruct (GetWhitelistEntry s1 a) as [s2 entry] eqn:E2.
      intros [= <- <-]. pose proof (law_GetWhitelistEntry s1 a Hok1) as [Hok2 Hacts2].
      rewrite E2 in Hok2, Hacts2. cbn in Hok2, Hacts2.
      assert (Hv2 : view s2 = view s1) by (by destruct entry; [apply Hacts2| |]).
      rewrite Hv2, Hv.
      split; [done|]. split; [done|]. intros l _. by left.
    + destruct Hacts as [Hv _]. by apply Hrest.
    + by apply Hrest.
    + done.
Qed.

Lemma llm_stage_approve (a : Analyzer) r d w :
  llm_stage a r = Ret (d, w) -> d_Action d = ActionApprove ->
  ar_Whitelisted r = true \/
  exists cfg c, an_llm a = Some cfg /\ callLLM cfg (buildRichPrompt r) = Ret c /\
    cl_Classification c = "safe" /\ SFleb f0_8 (cl_Confidence c) = true.
Proof.
  unfold llm_stage. destruct (an_llm a) as [cfg|].
  - destruct (AnalyzeRich cfg r) as [dec|e|] eqn:E; [|destruct (ar_Whitelisted r)|done].
    + intros [= -> _] Ha. unfold AnalyzeRich in E. apply go_bind_Ret in E as (c & Hc & [= <-]).
      right. exists cfg, c. split; [done|]. split; [done|]. unfold classificationToDecision in Ha.
      case_bool_decide; [done|]. destruct (bool_decide (cl_Classification c = "safe")) eqn:Es; [|done].
      apply bool_decide_eq_true in Es. split; [done|]. by destruct (SFleb f0_8 _).
    + by left.
    + intros [= <- _]. done.
  - destruct (ar_Whitelisted r); [by left|]. intros [= <- _]. done.
Qed.

(** The recipients and the value the rules are applied to. *)
Definition effective_to (req : SignRequestPayload) (r : AnalysisResult) : list string :=
  effective (ar_DecodedTx r) dtx_To (fun l => 0 <? zlen l) (srq_To req).
Definition effective_value (req : SignRequestPayload) (r : AnalysisResult) : string :=
  effective (ar_DecodedTx r) dtx_Value nonempty (srq_Value req).

End AnalyzeFacts.

Section SignableFacts.
Context `{Unicode} `{AbiWorld} `{LlmWorld} {S : Type} `{Store S}.

(** C10: tampering is caught and honesty is not punished: when the path has an
    adapter, the transaction decodes from base64 and its signable bytes can be
    recomputed, the analysis says the bytes match exactly when the claimed ones
    are those, and on a mismatch it rejects without consulting store or LLM. *)
Theorem analyze_signable_exact (a a' : Analyzer) now (s s' : S) req r reg adapter raw claimed hash :
  an_vmReg a = Some reg -> ForPath reg (srq_DerivationPath req) = Some adapter ->
  Base64.DecodeString (srq_UnsignedTx req) = Ret raw ->
  Base64.DecodeString (srq_SignableBytes req) = Ret claimed ->
  ExtractSignableBytes adapter raw = Ret hash ->
  Analyze a now s req = (a', s', Ret r) ->
  (ar_SignableBytesOK r = true <-> claimed = hash) /\
  (claimed <> hash -> d_Action (ar_Decision r) = ActionReject /\ s' = s /\ a' = a).
Proof.
  intros Hreg Hfor Hraw Hcl Hh. unfold Analyze, decode_stage, check_signable.
  rewrite Hraw, Hreg, Hfor, Hh, Hcl.
  destruct (DecodeTx adapter raw) as [d|e|]; cbn [mbind go_bind]; try done.
  all: destruct (bytesEqual hash claimed) eqn:E; cbn [negb].
  all: try (apply bytesEqual_eq in E as ->).
  2, 4: assert (claimed <> hash) by (intros ->; assert (bytesEqual hash hash = true) by (by apply bytesEqual_eq); congruence);
    intros [= <- <- <-]; cbn; split; [split; [done|by intros ?]|done].
  all: intros HX; split; [split; [done|intros _]|done].
  all: unfold analyze_verified in HX; cbv zeta in HX;
    destruct (if an_has_whitelist a then _ else _) as [s1 label] in HX;
    destruct (deterministicChecks _ _) in HX; [by injection HX as <- <- <-|];
    destruct (match effective _ dtx_To _ _ with [] => _ | _ => _ end) as [abi call] in HX;
    destruct call as [c|e'|]; [| |done]; injection HX as <- <- HX;
    apply go_bind_Ret in HX as ([? ?] & _ & [= <-]); done.
Qed.


(** An unverifiable request is not refused: when the unsigned transaction
    does not even decode, nothing is compared, the claimed recipient stands in for
    the decoded one, and without an LLM the request is approved as soon as that
    claim is whitelisted. *)
Theorem analyze_unverifiable_approved (a : Analyzer) now (s s1 s2 : S) req e w entry :
  Base64.DecodeString (srq_UnsignedTx req) = Err e ->
  an_llm a = None -> an_has_whitelist a = true ->
  srq_To req = [w] -> srq_Value req = "" -> srq_Data req = "" ->
  Strings.ToLower w <> zero_address ->
  IsWhitelisted s w = (s1, Ret true) -> GetWhitelistEntry s1 w = (s2, entry) ->
  exists r, Analyze a now s req
    = ({| an_cfg := an_cfg a; an_vmReg := an_vmReg a; an_has_whitelist := an_has_whitelist a;
          an_abi := an_abi a; an_llm := an_llm a |}, s2, Ret r) /\
    d_Action (ar_Decision r) = ActionApprove /\ ar_SignableBytesOK r = true /\
    ar_DecodedTx r = None /\ ar_Whitelisted r = true.
Proof.
  intros Hraw Hllm Hwl Hto Hv Hd Hz E1 E2. unfold Analyze, decode_stage. rewrite Hraw.
  cbn [negb]. unfold analyze_verified, effective. rewrite Hwl, Hto, Hv, Hd. cbn [check_whitelist].
  rewrite E1, E2.
  assert (HN : deterministicChecks [w] "" = None).
  { apply deterministicChecks_None. split; [done|]. split; [by repeat constructor|by left]. }
  rewrite HN. change (nonempty "") with false. cbv match.
  unfold llm_stage. cbn [an_llm]. rewrite Hllm. cbn [ar_Whitelisted mbind go_bind].
  eexists. split; [reflexivity|]. done.
Qed.
End SignableFacts.

(** ** A concrete analysis

    An adapter whose transactions are the recipient's characters, a store with
    one whitelisted address, no explorer and an LLM that calls everything safe. *)
Import Postgres ToyStore.
Module ToyAnalyzer.
#[export] Existing Instance Toy.unicode.
#[export] Instance abi_world : AbiWorld := {|
  ABI := unit; explorer_get := fun _ => Err "no route"; parse_etherscan := fun _ => Err "";
  abi_JSON := fun _ => Err ""; MethodById := fun _ _ => Err "" |}.
#[export] Instance llm_world : LlmWorld := {|
  openai_body := fun _ _ p => Ret (bytes_of p); anthropic_body := fun _ _ p => Ret (bytes_of p);
  http_post := fun _ _ _ => Ret (200, []); parse_openai := fun _ => Ret ["{}"];
  parse_anthropic := fun _ => Err "";
  parse_classification := fun _ => Ret {| cl_Classification := "safe"; cl_Confidence := f0_9; cl_Reasoning := "ok" |} |}.
Definition decoded (raw : bytes) : DecodedTx := {|
  dtx_From := ""; dtx_To := [string_of raw]; dtx_Value := "5"; dtx_Data := ""; dtx_Method := "";
  dtx_Args := ∅; dtx_ChainID := ""; dtx_GasLimit := 0 |}.
Definition adapter : Adapter := {|
  Name := "toy"; AdapterCurve := CurveSecp256k1; DeriveAddress := fun b _ => Ret (string_of b);
  BuildUnsignedTx := fun t =>
    let raw := bytes_of (default "" (head (tr_To t))) in
    Ret {| utx_RawBytes := raw; utx_Hash := raw ++ [x01]; utx_To := tr_To t; utx_Value := "5";
           utx_Data := ""; utx_ExtraSignerKeys := [] |};
  ExtractSignableBytes := fun raw => Ret (raw ++ [x01]); AssembleSignedTx := fun _ _ => Err "";
  DecodeTx := fun raw => Ret (decoded raw) |}.
#[export] Instance adapter_laws : AdapterLaws adapter (fun _ => True).
Proof. intros req u _ [= <-]. reflexivity. Qed.
Definition registry : Registry := Register NewRegistry ["60"] adapter.

Definition store : PostgresStore :=
  (AddWhitelistEntry ToyStore.empty {| we_Address := "0xab"; we_Label := "exchange"; we_AddedAt := 5 |}).1.
Lemma store_is_ok : store_ok store.
Proof. split; apply map_Forall_empty. Qed.

Definition cfg (ai : bool) : AnalyzerConfig := {|
  ac_LLM := {| llm_Provider := "openai"; llm_APIKey := "k"; llm_Endpoint := ""; llm_Model := "m" |};
  ac_AutoMode := true; ac_DisableAI := negb ai; ac_ExplorerAPIs := []; ac_Whitelist := [] |}.
Definition analyzer (ai : bool) : Analyzer := New (cfg ai) (Some registry) true.
(** A request to sign a transfer to [actual] while claiming it goes to [claimed]. *)
Definition request (claimed actual : string) : SignRequestPayload := {|
  srq_To := [claimed]; srq_Value := ""; srq_Data := ""; srq_DerivationPath := "m/44'/60'/0'/0/0";
  srq_UnsignedTx := Base64.EncodeToString (bytes_of actual);
  srq_SignableBytes := Base64.EncodeToString (bytes_of claimed ++ [x01]) |}.
Definition verdict {S} (x : Analyzer * S * go AnalysisResult) : string :=
  match x.2 with Ret r => d_Action (ar_Decision r) | _ => "" end.
End ToyAnalyzer.
Import ToyAnalyzer.


(** Claiming the whitelisted address for a transfer to another one. *)
Lemma analyze_signable_exact_witness :
  bytes_of "0xab" ++ [x01] <> bytes_of "0xcd" ++ [x01] /\
  verdict (Analyze (analyzer true) 0 store (request "0xab" "0xcd")) = ActionReject.
Proof.
  assert (Hne : bytes_of "0xab" ++ [x01] <> bytes_of "0xcd" ++ [x01]) by discriminate.
  split; [exact Hne|].
  destruct (Analyze (analyzer true) 0 store (request "0xab" "0xcd")) as [[a' s'] [r|e|]] eqn:E.
  - destruct (analyze_signable_exact (analyzer true) a' 0 store s' (request "0xab" "0xcd") r registry adapter
      (bytes_of "0xcd") (bytes_of "0xab" ++ [x01]) (bytes_of "0xcd" ++ [x01])) as [_ HT];
      [reflexivity..|exact E|]. exact (proj1 (HT Hne)).
  - discriminate (f_equal verdict E).
  - discriminate (f_equal verdict E).
Defined.


(** [!] is not base64. *)
Lemma analyze_unverifiable_approved_witness :
  let req := {| srq_To := ["0xab"]; srq_Value := ""; srq_Data := ""; srq_DerivationPath := "m/44'/60'/0'/0/0";
                srq_UnsignedTx := "!"; srq_SignableBytes := "" |} in
  verdict (Analyze (analyzer false) 0 store req) = ActionApprove.
Proof.
  intros req.
  destruct (Base64.DecodeString (srq_UnsignedTx req)) as [b|e|] eqn:Eb; [discriminate Eb| |discriminate Eb].
  destruct (IsWhitelisted store "0xab") as [s1 [[|]| |]] eqn:E1; [|discriminate (f_equal snd E1)..].
  destruct (GetWhitelistEntry s1 "0xab") as [s2 entry] eqn:E2.
  destruct (analyze_unverifiable_approved (analyzer false) 0 store s1 s2 req e "0xab" entry Eb)
    as (r & Er & Ha & _); [reflexivity..|discriminate|exact E1|exact E2|].
  rewrite Er. exact Ha.
Defined.
