(* ===== verification/Telegram.v ===== *)
(** * Telegram: the review bot (internal/partyb/telegram)

    Formatting of notifications, the settings menu, and the handlers of button
    presses and messages (bot.go, handlers.go). A handler returns the calls it
    makes, in order: to the Telegram API, whose failures it only logs, and to the
    service's callbacks. *)
From S2P Require Import Prelude GoStd Codec Protocol Transport Tss Config Vm Store Llm Analyzer.
From Stdlib Require Import Floats.SpecFloat.
Local Open Scope Z_scope.

(** ** The bot *)
Record Bot := {
  bot_authorizedUserID : Z; bot_autoMode : bool;
  bot_onDecision : bool; bot_onWhitelist : bool;  (* whether the callbacks are set *)
  bot_stopped : bool }.

(** [NewBotAPI] contacts Telegram: its outcome is [api]. *)
Definition Telegram_New (cfg : TelegramConfig) (api : go unit) : go Bot :=
  match api with
  | Ret _ => Ret {| bot_authorizedUserID := tg_AuthorizedUserID cfg; bot_autoMode := false;
                    bot_onDecision := false; bot_onWhitelist := false; bot_stopped := false |}
  | Err e => Err ("create telegram bot: " +:+ e)
  | Panic => Panic
  end.

Definition SetDecisionCallback (b : Bot) : Bot :=
  {| bot_authorizedUserID := bot_authorizedUserID b; bot_autoMode := bot_autoMode b;
     bot_onDecision := true; bot_onWhitelist := bot_onWhitelist b; bot_stopped := bot_stopped b |}.
Definition SetWhitelistCallback (b : Bot) : Bot :=
  {| bot_authorizedUserID := bot_authorizedUserID b; bot_autoMode := bot_autoMode b;
     bot_onDecision := bot_onDecision b; bot_onWhitelist := true; bot_stopped := bot_stopped b |}.
Definition SetAutoMode (b : Bot) (auto : bool) : Bot :=
  {| bot_authorizedUserID := bot_authorizedUserID b; bot_autoMode := auto;
     bot_onDecision := bot_onDecision b; bot_onWhitelist := bot_onWhitelist b; bot_stopped := bot_stopped b |}.
Definition AutoMode (b : Bot) : bool := bot_autoMode b.
(** [close(b.stopCh)]: a second call panics. *)
Definition Bot_Stop (b : Bot) : go Bot :=
  if bot_stopped b then Panic
  else Ret {| bot_authorizedUserID := bot_authorizedUserID b; bot_autoMode := bot_autoMode b;
              bot_onDecision := bot_onDecision b; bot_onWhitelist := bot_onWhitelist b; bot_stopped := true |}.
Definition isAuthorized (b : Bot) (userID : Z) : bool := userID =? bot_authorizedUserID b.

(** ** What Telegram sends and receives *)
Record TgMessage := { tm_From : option Z; tm_ChatID : Z; tm_MessageID : Z; tm_Text : string }.
Record CallbackQuery := { cq_ID : string; cq_From : Z; cq_Data : string; cq_Message : option TgMessage }.
Inductive Update :=
| UCallback (q : CallbackQuery)
| UMessage (m : TgMessage)
| UOther.

(** Buttons are a label with the data a press sends. *)
Inductive Call :=
| AnswerCallback (id text : string)
| SendMessage (chat : Z) (text : string) (markdown : bool) (buttons : list (string * string))
| EditMessage (chat message : Z) (text : string) (buttons : list (string * string))
| OnWhitelist (txID : string)
| OnDecision (txID : string) (approved : bool).

(** ** Notifications *)

(** [escapeMD]: a replacer of single bytes. *)
Definition escape_byte (c : ascii) : string :=
  match c with
  | "`"%char => "'"
  | "*"%char => ""
  | "_"%char => " "
  | "["%char => "("
  | "]"%char => ")"
  | "{"%char => "("
  | "}"%char => ")"
  | _ => String c ""
  end.
Fixpoint escapeMD (s : string) : string :=
  match s with "" => "" | String c s' => escape_byte c +:+ escapeMD s' end.

(** [%.0f] of a binary64 number, and its product by 100. *)
Definition fixed0 (f : float) : string :=
  let sign (b : bool) := if b then "-" else "" in
  match f with
  | S754_nan => "NaN"
  | S754_infinity s => (if s then "-" else "+") +:+ "Inf"
  | S754_zero s => sign s +:+ "0"
  | S754_finite s m e =>
    sign s +:+ Strconv.Itoa (if 0 <=? e then Z.pos m * 2 ^ e else round_half_even (Z.pos m) (2 ^ (- e)))
  end.
Definition f100 : float := S754_finite false 7036874417766400 (-46).
Definition percent (c : float) : string := fixed0 (SFmul 53 1024 c f100).

Example percent_0_9 : percent f0_9 = "90".
Proof. reflexivity. Qed.

Definition formatReviewNotification (txID : string) (result : AnalysisResult) : string :=
  "*Transaction Review Required*" +:+ nl +:+ nl
  +:+ "*TX ID:* `" +:+ txID +:+ "`" +:+ nl +:+ nl
  +:+ "*Decoded from unsigned TX:*" +:+ nl
  +:+ escapeMD (ar_Summary result) +:+ nl
  +:+ or_empty (0 <? zlen (ar_Warnings result))
        (nl +:+ "*Warnings:*" +:+ nl
         +:+ String.concat "" (map (fun w => "- " +:+ escapeMD w +:+ nl) (ar_Warnings result)))
  +:+ nl +:+ "*Verdict:* " +:+ escapeMD (d_Reason (ar_Decision result))
  +:+ " (confidence: " +:+ percent (d_Confidence (ar_Decision result)) +:+ "%)" +:+ nl.

Definition formatAutoApprovedNotification (txID : string) (result : AnalysisResult) : string :=
  "*Transaction Auto-Approved*" +:+ nl +:+ nl
  +:+ "*TX ID:* `" +:+ txID +:+ "`" +:+ nl +:+ nl
  +:+ escapeMD (ar_Summary result)
  +:+ or_empty (nonempty (ar_WhitelistLabel result))
        (nl +:+ "Whitelisted: " +:+ escapeMD (ar_WhitelistLabel result) +:+ nl).

Definition NotifyForReview (b : Bot) (txID : string) (result : AnalysisResult) : Call :=
  SendMessage (bot_authorizedUserID b) (formatReviewNotification txID result) true
    [("Approve", "approve:" +:+ txID); ("Approve & Whitelist", "whitelist:" +:+ txID);
     ("Reject", "reject:" +:+ txID)].
Definition NotifyAutoApproved (b : Bot) (txID : string) (result : AnalysisResult) : Call :=
  SendMessage (bot_authorizedUserID b) (formatAutoApprovedNotification txID result) true [].

(** ** Settings *)
Definition toggleLabel (current : string) : string :=
  if bool_decide (current = "Auto") then "Manual" else "Auto".
Definition settings_text (b : Bot) : string * list (string * string) :=
  let '(mode, toggleData) := if bot_autoMode b then ("Auto", "settings:manual") else ("Manual", "settings:auto") in
  ("*Settings*" +:+ nl +:+ "Current mode: *" +:+ mode +:+ "*" +:+ nl +:+ nl
   +:+ "*Auto* — Transactions to whitelisted addresses are signed automatically. "
   +:+ "You get a notification but no action needed. Unknown addresses still require your approval."
   +:+ nl +:+ nl
   +:+ "*Manual* — Every transaction requires your explicit approval before signing.",
   [("Toggle to " +:+ toggleLabel mode, toggleData)]).
Definition SendSettingsMenu (b : Bot) (chatID : Z) : Call :=
  let '(text, buttons) := settings_text b in SendMessage chatID text true buttons.
Definition editSettingsMessage (b : Bot) (msg : option TgMessage) : list Call :=
  match msg with
  | None => []
  | Some m => let '(text, buttons) := settings_text b in [EditMessage (tm_ChatID m) (tm_MessageID m) text buttons]
  end.

(** ** Handlers *)
Definition handleTxDecision (b : Bot) (q : CallbackQuery) (txID : string) (approved whitelist : bool) : list Call :=
  let action := if approved && whitelist then "Approved & Whitelisted"
                else if approved then "Approved" else "Rejected" in
  [AnswerCallback (cq_ID q) action]
  ++ match cq_Message q with
     | Some m => [EditMessage (tm_ChatID m) (tm_MessageID m)
                    (tm_Text m +:+ nl +:+ nl +:+ "*Decision: " +:+ action +:+ "*") []]
     | None => []
     end
  ++ (if whitelist && bot_onWhitelist b then [OnWhitelist txID] else [])
  ++ (if bot_onDecision b then [OnDecision txID approved] else []).

Definition handleCallback (b : Bot) (q : CallbackQuery) : Bot * list Call :=
  if negb (isAuthorized b (cq_From q)) then (b, [AnswerCallback (cq_ID q) "Unauthorized"])
  else
    let data := cq_Data q in
    if Strings.HasPrefix data "approve:" then
      (b, handleTxDecision b q (Strings.TrimPrefix data "approve:") true false)
    else if Strings.HasPrefix data "whitelist:" then
      (b, handleTxDecision b q (Strings.TrimPrefix data "whitelist:") true true)
    else if Strings.HasPrefix data "reject:" then
      (b, handleTxDecision b q (Strings.TrimPrefix data "reject:") false false)
    else if bool_decide (data = "settings:auto") then
      let b := SetAutoMode b true in
      (b, AnswerCallback (cq_ID q) "Switched to Auto mode" :: editSettingsMessage b (cq_Message q))
    else if bool_decide (data = "settings:manual") then
      let b := SetAutoMode b false in
      (b, AnswerCallback (cq_ID q) "Switched to Manual mode" :: editSettingsMessage b (cq_Message q))
    else (b, [AnswerCallback (cq_ID q) "Unknown action"]).

(** A message without a sender dereferences a nil pointer. *)
Definition handleMessage (b : Bot) (msg : TgMessage) : go (list Call) :=
  match tm_From msg with
  | None => Panic
  | Some user =>
    if negb (isAuthorized b user) then Ret []
    else if bool_decide (tm_Text msg = "/start") then
      Ret [SendMessage (tm_ChatID msg)
             ("Crypto Claw Party B bot active." +:+ nl +:+ nl +:+ "Commands:" +:+ nl
              +:+ "/settings - Configure mode") false []]
    else if bool_decide (tm_Text msg = "/settings") then Ret [SendSettingsMenu b (tm_ChatID msg)]
    else Ret [SendMessage (tm_ChatID msg) "Unknown command. Use /settings to configure." false []]
  end.

(** One update received by the loop of [Start]. *)
Definition Start_update (b : Bot) (u : Update) : go (Bot * list Call) :=
  match u with
  | UCallback q => Ret (handleCallback b q)
  | UMessage m => match handleMessage b m with Ret l => Ret (b, l) | Err e => Err e | Panic => Panic end
  | UOther => Ret (b, [])
  end.

(** ** Facts *)

(** The presses that decide [txID]: whether it is approved and whitelisted. *)
Definition decides (data txID : string) (approved whitelist : bool) : Prop :=
  (data = "approve:" +:+ txID /\ approved = true /\ whitelist = false) \/
  (data = "whitelist:" +:+ txID /\ approved = true /\ whitelist = true) \/
  (data = "reject:" +:+ txID /\ approved = false /\ whitelist = false).

Lemma has_prefix_split data p : Strings.HasPrefix data p = true -> data = p +:+ Strings.TrimPrefix data p.
Proof.
  unfold Strings.HasPrefix, Strings.TrimPrefix. destruct (Strings.strip_prefix p data) eqn:E; [|done].
  intros _. by apply Strings.strip_prefix_spec in E.
Qed.

Lemma prefix_trim p s : Strings.TrimPrefix (p +:+ s) p = s.
Proof. apply Strings.TrimPrefix_app. Qed.

Lemma decides_form data p t : data = p +:+ t ->
  (p, true, false) = ("approve:", true, false) \/ (p, true, true) = ("whitelist:", true, true)
  \/ (p, false, false) = ("reject:", false, false) ->
  forall x a w, decides data x a w <->
    x = t /\ a = negb (bool_decide (p = "reject:")) /\ w = bool_decide (p = "whitelist:").
Proof.
  intros -> Hp x a w. unfold decides.
  destruct Hp as [[= ->]|[[= ->]|[= ->]]]; split; naive_solver.
Qed.

Lemma decides_prefix data x a w : decides data x a w ->
  Strings.HasPrefix data "approve:" = true \/ Strings.HasPrefix data "whitelist:" = true
  \/ Strings.HasPrefix data "reject:" = true.
Proof. intros [[-> _]|[[-> _]|[-> _]]]; rewrite Strings.HasPrefix_app; auto. Qed.

(** The calls of a decided press. *)
Lemma handleTxDecision_calls b q t approved whitelist : bot_onDecision b = true -> bot_onWhitelist b = true ->
  (forall x a, In (OnDecision x a) (handleTxDecision b q t approved whitelist) <-> x = t /\ a = approved) /\
  (forall x, In (OnWhitelist x) (handleTxDecision b q t approved whitelist) <-> x = t /\ whitelist = true).
Proof.
  intros Hd Hw. unfold handleTxDecision. rewrite Hd, Hw, andb_true_r.
  destruct (cq_Message q), whitelist; cbn; split; naive_solver.
Qed.

Lemma settings_calls b m x : (forall a, ~ In (OnDecision x a) (editSettingsMessage b m)) /\
  ~ In (OnWhitelist x) (editSettingsMessage b m).
Proof. unfold editSettingsMessage. destruct m, (settings_text b); cbn; naive_solver. Qed.

(** A decision or a whitelisting comes from a press of the authorized user. *)
Lemma OnDecision_pressed b q x a : In (OnDecision x a) (handleCallback b q).2 ->
  cq_From q = bot_authorizedUserID b /\ exists w, decides (cq_Data q) x a w.
Proof.
  unfold handleCallback, isAuthorized.
  destruct (Z.eqb_spec (cq_From q) (bot_authorizedUserID b)) as [Ea|Ea]; cbn [negb]; [|by intros [E|[]]].
  assert (HT : forall t ap wl, In (OnDecision x a) (handleTxDecision b q t ap wl) -> x = t /\ a = ap).
  { intros t ap wl. unfold handleTxDecision. destruct (cq_Message q), wl, (bot_onWhitelist b), (bot_onDecision b);
      cbn; naive_solver. }
  intros Hin. split; [done|]. revert Hin.
  destruct (Strings.HasPrefix (cq_Data q) "approve:") eqn:Ep1;
    [|destruct (Strings.HasPrefix (cq_Data q) "whitelist:") eqn:Ep2;
      [|destruct (Strings.HasPrefix (cq_Data q) "reject:") eqn:Ep3]].
  1-3: match goal with E : Strings.HasPrefix _ _ = true |- _ => apply has_prefix_split in E end;
    intros [-> ->]%HT; unfold decides; naive_solver.
  destruct (bool_decide (cq_Data q = "settings:auto")); [|destruct (bool_decide (cq_Data q = "settings:manual"))];
    cbn [snd].
  1,2: intros [E|Hin]; [discriminate E|]; by apply settings_calls in Hin.
  by intros [E|[]].
Qed.

Lemma handleCallback_user b q : bot_authorizedUserID (handleCallback b q).1 = bot_authorizedUserID b.
Proof. unfold handleCallback. repeat case_match; done. Qed.

Lemma handleMessage_no_decision b m l x a : handleMessage b m = Ret l -> ~ In (OnDecision x a) l.
Proof.
  intros Hm. assert (HS : l = [] \/ exists c t k bs, l = [SendMessage c t k bs]).
  { unfold handleMessage, SendSettingsMenu in Hm. destruct (tm_From m) as [u|]; [|discriminate Hm].
    destruct (negb _); [left; by injection Hm|right].
    case_bool_decide; [|case_bool_decide; [destruct (settings_text b)|]]; injection Hm as <-;
      do 4 eexists; reflexivity. }
  destruct HS as [->|(c & t & k & bs & ->)]; [by intros []|]. intros [E|[]]. discriminate E.
Qed.

(** C16: only the authorized user decides: the bot hands the service the
    decision [approved] on [txID] precisely when the authorized user pressed the
    button that says so, and asks to whitelist its recipients precisely on that
    user's "Approve & Whitelist", in this order; nobody else changes the mode. *)
Theorem handleCallback_decides (b : Bot) (q : CallbackQuery) txID approved :
  bot_onDecision b = true -> bot_onWhitelist b = true ->
  (In (OnDecision txID approved) (handleCallback b q).2 <->
   cq_From q = bot_authorizedUserID b /\ exists w, decides (cq_Data q) txID approved w) /\
  (In (OnWhitelist txID) (handleCallback b q).2 <->
   cq_From q = bot_authorizedUserID b /\ decides (cq_Data q) txID true true) /\
  (cq_From q <> bot_authorizedUserID b -> handleCallback b q = (b, [AnswerCallback (cq_ID q) "Unauthorized"])).
Proof.
  intros Hd Hw. unfold handleCallback, isAuthorized.
  destruct (Z.eqb_spec (cq_From q) (bot_authorizedUserID b)) as [Ea|Ea]; cbn [negb].
  2:{ split; [|split; [|done]]; (split; [|by intros [? _]]); intros [E|[]]; discriminate E. }
  destruct (Strings.HasPrefix (cq_Data q) "approve:") eqn:Ep1;
    [|destruct (Strings.HasPrefix (cq_Data q) "whitelist:") eqn:Ep2;
      [|destruct (Strings.HasPrefix (cq_Data q) "reject:") eqn:Ep3]].
  1-3: match goal with E : Strings.HasPrefix _ ?p = true |- context [handleTxDecision _ _ ?t ?a ?w] =>
         apply has_prefix_split in E; pose proof (decides_form _ p _ E ltac:(auto)) as HF;
         destruct (handleTxDecision_calls b q t a w Hd Hw) as [HD HW] end;
       cbn [snd]; rewrite HD, HW; setoid_rewrite HF; cbn; naive_solver.
  assert (Hno : forall x a w, ~ decides (cq_Data q) x a w)
    by (intros x a w [?|[?|?]]%decides_prefix; congruence).
  destruct (bool_decide (cq_Data q = "settings:auto")); [|destruct (bool_decide (cq_Data q = "settings:manual"))];
    cbn [snd]; split; try split; try done;
    try (destruct (settings_calls (SetAutoMode b true) (cq_Message q) txID);
         destruct (settings_calls (SetAutoMode b false) (cq_Message q) txID); cbn; naive_solver).
Qed.

Lemma handleCallback_decides_witness :
  let b := {| bot_authorizedUserID := 42; bot_autoMode := false; bot_onDecision := true;
              bot_onWhitelist := true; bot_stopped := false |} in
  let press user := {| cq_ID := "1"; cq_From := user; cq_Data := "whitelist:tx7"; cq_Message := None |} in
  In (OnDecision "tx7" true) (handleCallback b (press 42)).2 /\
  handleCallback b (press 43) = (b, [AnswerCallback "1" "Unauthorized"]).
Proof.
  intros b press. split.
  - apply (handleCallback_decides b (press 42) "tx7" true eq_refl eq_refl). split; [done|].
    exists true. right. left. done.
  - apply (handleCallback_decides b (press 43) "tx7" true eq_refl eq_refl). discriminate.
Defined.

(** What the requester writes into a transaction cannot style the
    notification: escaped text has no backquote, asterisk, underscore, opening or
    closing bracket or brace. *)
Theorem escapeMD_plain s : Strconv.forall_ascii (fun c => negb (Strings.mem_ascii c "`*_[]{}")) (escapeMD s) = true.
Proof.
  induction s as [|c s IH]; [done|]. cbn [escapeMD]. rewrite Strconv.forall_ascii_app, IH, andb_true_r.
  destruct c as [[] [] [] [] [] [] [] []]; reflexivity.
Qed.
