(* ===== verification/PartyB.v ===== *)
(** * PartyB: the co-signer's orchestration (internal/partyb/service.go)

    The service's maps, the channels and routers it allocates, and its goroutines
    as a labelled transition system: [step w e] runs one goroutine up to its next
    blocking or shared-state operation; it is [None] where the goroutine is not
    at that point or blocks. Each press of a button, message from Party A, timer
    and result of the signing protocol is an event, so every interleaving is a
    sequence of events. The store is any [Store], the protocol's key derivation
    an argument, and a signature is what an event says the ceremony returned. *)
From S2P Require Import Prelude GoStd Codec Protocol Transport Tss Config Vm Store Llm Analyzer Telegram.
Local Open Scope Z_scope.
Local Open Scope go_scope.

Section PartyB.
Context `{Unicode} `{AbiWorld} `{LlmWorld} {S : Type} `{Store S} `{Codec Signature}.
Context (proto_DeriveKey : KeyShare -> string -> go DerivedKey).

Record signContext := { sc_req : SignRequestPayload; sc_result : AnalysisResult }.

(** Where a goroutine is: a handler of a sign request (up to [TRegistered]),
    the goroutine of an escalation, or the one of a signing. Channels and routers
    are indices. *)
Inductive task :=
| TAnalyze (txID : string) (req : SignRequestPayload)
| TRoute (txID : string) (req : SignRequestPayload) (result : AnalysisResult)
| TNotified (txID : string) (req : SignRequestPayload) (result : AnalysisResult)
| TRegistered (txID : string) (req : SignRequestPayload) (result : AnalysisResult) (decisionCh : nat)
| TSelect (txID : string) (req : SignRequestPayload) (decisionCh : nat)
| TCleanup (txID : string)
| TSignStart (txID : string) (req : SignRequestPayload) (router : nat)
| TSignWait (txID : string) (req : SignRequestPayload) (router ch : nat)
| TSigning (txID : string) (req : SignRequestPayload) (router : nat)
| TDone.

(** The fields of [Service], then the runtime: the decision channels, each with
    the transaction it was made for, the sign-ready channels, the routers, the
    send the bot's loop is blocked on, and the goroutines. *)
Record Service := mkService {
  sb_cfg : Config; sb_vmReg : option Registry; sb_onSigningStarted : bool; sb_onEscalationApproved : bool;
  sb_store : S; sb_analyzer : Analyzer; sb_bot : option Bot;
  sb_pending : gmap string nat; sb_reqCache : gmap string signContext;
  sb_activeRouter : option nat; sb_signReady : gmap string nat;
  rt_decisions : list (string * chan bool); rt_ready : list (chan bytes); rt_routers : list ServerRouter;
  rt_sending : option (nat * bool); rt_tasks : list task }.

Definition set_store (w : Service) s : Service :=
  mkService (sb_cfg w) (sb_vmReg w) (sb_onSigningStarted w) (sb_onEscalationApproved w) s (sb_analyzer w) (sb_bot w) (sb_pending w) (sb_reqCache w) (sb_activeRouter w) (sb_signReady w) (rt_decisions w) (rt_ready w) (rt_routers w) (rt_sending w) (rt_tasks w).
Definition set_analyzer (w : Service) a : Service :=
  mkService (sb_cfg w) (sb_vmReg w) (sb_onSigningStarted w) (sb_onEscalationApproved w) (sb_store w) a (sb_bot w) (sb_pending w) (sb_reqCache w) (sb_activeRouter w) (sb_signReady w) (rt_decisions w) (rt_ready w) (rt_routers w) (rt_sending w) (rt_tasks w).
Definition set_bot (w : Service) b : Service :=
  mkService (sb_cfg w) (sb_vmReg w) (sb_onSigningStarted w) (sb_onEscalationApproved w) (sb_store w) (sb_analyzer w) b (sb_pending w) (sb_reqCache w) (sb_activeRouter w) (sb_signReady w) (rt_decisions w) (rt_ready w) (rt_routers w) (rt_sending w) (rt_tasks w).
Definition set_pending (w : Service) p : Service :=
  mkService (sb_cfg w) (sb_vmReg w) (sb_onSigningStarted w) (sb_onEscalationApproved w) (sb_store w) (sb_analyzer w) (sb_bot w) p (sb_reqCache w) (sb_activeRouter w) (sb_signReady w) (rt_decisions w) (rt_ready w) (rt_routers w) (rt_sending w) (rt_tasks w).
Definition set_reqCache (w : Service) c : Service :=
  mkService (sb_cfg w) (sb_vmReg w) (sb_onSigningStarted w) (sb_onEscalationApproved w) (sb_store w) (sb_analyzer w) (sb_bot w) (sb_pending w) c (sb_activeRouter w) (sb_signReady w) (rt_decisions w) (rt_ready w) (rt_routers w) (rt_sending w) (rt_tasks w).
Definition set_activeRouter (w : Service) r : Service :=
  mkService (sb_cfg w) (sb_vmReg w) (sb_onSigningStarted w) (sb_onEscalationApproved w) (sb_store w) (sb_analyzer w) (sb_bot w) (sb_pending w) (sb_reqCache w) r (sb_signReady w) (rt_decisions w) (rt_ready w) (rt_routers w) (rt_sending w) (rt_tasks w).
Definition set_signReady (w : Service) m : Service :=
  mkService (sb_cfg w) (sb_vmReg w) (sb_onSigningStarted w) (sb_onEscalationApproved w) (sb_store w) (sb_analyzer w) (sb_bot w) (sb_pending w) (sb_reqCache w) (sb_activeRouter w) m (rt_decisions w) (rt_ready w) (rt_routers w) (rt_sending w) (rt_tasks w).
Definition set_decisions (w : Service) d : Service :=
  mkService (sb_cfg w) (sb_vmReg w) (sb_onSigningStarted w) (sb_onEscalationApproved w) (sb_store w) (sb_analyzer w) (sb_bot w) (sb_pending w) (sb_reqCache w) (sb_activeRouter w) (sb_signReady w) d (rt_ready w) (rt_routers w) (rt_sending w) (rt_tasks w).
Definition set_ready (w : Service) r : Service :=
  mkService (sb_cfg w) (sb_vmReg w) (sb_onSigningStarted w) (sb_onEscalationApproved w) (sb_store w) (sb_analyzer w) (sb_bot w) (sb_pending w) (sb_reqCache w) (sb_activeRouter w) (sb_signReady w) (rt_decisions w) r (rt_routers w) (rt_sending w) (rt_tasks w).
Definition set_routers (w : Service) r : Service :=
  mkService (sb_cfg w) (sb_vmReg w) (sb_onSigningStarted w) (sb_onEscalationApproved w) (sb_store w) (sb_analyzer w) (sb_bot w) (sb_pending w) (sb_reqCache w) (sb_activeRouter w) (sb_signReady w) (rt_decisions w) (rt_ready w) r (rt_sending w) (rt_tasks w).
Definition set_sending (w : Service) x : Service :=
  mkService (sb_cfg w) (sb_vmReg w) (sb_onSigningStarted w) (sb_onEscalationApproved w) (sb_store w) (sb_analyzer w) (sb_bot w) (sb_pending w) (sb_reqCache w) (sb_activeRouter w) (sb_signReady w) (rt_decisions w) (rt_ready w) (rt_routers w) x (rt_tasks w).
Definition set_tasks (w : Service) t : Service :=
  mkService (sb_cfg w) (sb_vmReg w) (sb_onSigningStarted w) (sb_onEscalationApproved w) (sb_store w) (sb_analyzer w) (sb_bot w) (sb_pending w) (sb_reqCache w) (sb_activeRouter w) (sb_signReady w) (rt_decisions w) (rt_ready w) (rt_routers w) (rt_sending w) t.

Definition spawn (w : Service) (t : task) : Service := set_tasks w (rt_tasks w ++ [t]).
Definition goto (w : Service) (g : nat) (t : task) : Service := set_tasks w (<[g := t]> (rt_tasks w)).

(** What the service makes visible. *)
Inductive output :=
| OReply (resp : SignResponsePayload)
| OBot (call : Call)
| OSignApproved (txID derivationPath : string)
| OTssSign (txID : string) (router : nat) (req : SignRequest) (share : bytes)
| ODerive (result : go unit).

(** ** Construction *)

(** Entries that cannot be written are skipped; [now i] is the time of the
    [i]-th. *)
Fixpoint seed_whitelist (s : S) (now : nat -> Z) (seeds : list WhitelistSeed) : S :=
  match seeds with
  | [] => s
  | seed :: rest =>
    seed_whitelist
      (AddWhitelistEntry s {| we_Address := Strings.ToLower (ws_Address seed); we_Label := ws_Label seed;
                              we_AddedAt := now O |}).1
      (fun i => now (Datatypes.S i)) rest
  end.

Definition Service_New (cfg : Config) (st : S) (vmReg : option Registry) (api : go unit) (now : nat -> Z)
    : go Service :=
  bot ← (if nonempty (tg_BotToken (cfg_Telegram cfg)) then
           b ← Telegram_New (cfg_Telegram cfg) api ?: "init telegram bot";
           Ret (Some (SetWhitelistCallback (SetDecisionCallback (SetAutoMode b (ac_AutoMode (cfg_Analyzer cfg))))))
         else Ret None);
  Ret (mkService cfg vmReg false false (seed_whitelist st now (ac_Whitelist (cfg_Analyzer cfg)))
         (New (cfg_Analyzer cfg) vmReg true) bot ∅ ∅ None ∅ [] [] [] None []).

Definition SetSigningStartedCallback (w : Service) : Service :=
  mkService (sb_cfg w) (sb_vmReg w) true (sb_onEscalationApproved w) (sb_store w) (sb_analyzer w) (sb_bot w) (sb_pending w) (sb_reqCache w) (sb_activeRouter w) (sb_signReady w) (rt_decisions w) (rt_ready w) (rt_routers w) (rt_sending w) (rt_tasks w).
Definition SetEscalationApprovedCallback (w : Service) : Service :=
  mkService (sb_cfg w) (sb_vmReg w) (sb_onSigningStarted w) true (sb_store w) (sb_analyzer w) (sb_bot w) (sb_pending w) (sb_reqCache w) (sb_activeRouter w) (sb_signReady w) (rt_decisions w) (rt_ready w) (rt_routers w) (rt_sending w) (rt_tasks w).

(** ** Sign requests *)

(** A failed update is only logged. *)
Definition updateTxStatus (w : Service) (txID : string) (status : TxStatus) : Service :=
  set_store w (UpdateTxStatus (sb_store w) txID status []).1.

Definition tx_record (txID : string) (now : Z) (req : SignRequestPayload) : TxRecord :=
  {| tx_ID := txID; tx_DerivationPath := srq_DerivationPath req; tx_To := srq_To req; tx_Value := srq_Value req;
     tx_Data := srq_Data req; tx_UnsignedTx := default [] (to_option (Base64.DecodeString (srq_UnsignedTx req)));
     tx_SignedTx := []; tx_Status := TxStatusPending; tx_Reason := ""; tx_CreatedAt := now; tx_UpdatedAt := now |}.

(** [HandleSignRequest] up to the analysis, with the fresh identifier; a
    failed save is only logged. *)
Definition HandleSignRequest_save (w : Service) (txID : string) (now : Z) (req : SignRequestPayload) : Service :=
  spawn (set_store w (SaveTx (sb_store w) (tx_record txID now req)).1) (TAnalyze txID req).

(** [Analyze] has no error result; its panics are the process's. *)
Definition HandleSignRequest_analyze (w : Service) (g : nat) (now : Z) (txID : string) (req : SignRequestPayload)
    : go Service :=
  match Analyze (sb_analyzer w) now (sb_store w) req with
  | (a, st, Ret result) => Ret (goto (set_analyzer (set_store w st) a) g (TRoute txID req result))
  | _ => Panic
  end.

(** The synchronous part of [startSigning]: the callback makes a router. *)
Definition startSigning (w : Service) (txID : string) (req : SignRequestPayload) : Service :=
  if sb_onSigningStarted w then
    let router := length (rt_routers w) in
    spawn (set_activeRouter (set_routers w (rt_routers w ++ [NewServerRouter])) (Some router))
      (TSignStart txID req router)
  else w.

Definition response (decision reason txID : string) : SignResponsePayload :=
  {| srs_Decision := decision; srs_Reason := reason; srs_TxID := txID |}.

(** [escalate] up to the notification, whose outcome is [notify]. *)
Definition escalate_notify (w : Service) (g : nat) (txID : string) (req : SignRequestPayload)
    (result : AnalysisResult) (notify : option string) : Service * list output :=
  match sb_bot w with
  | Some b =>
    match notify with
    | Some err => (goto (updateTxStatus w txID TxStatusRejected) g TDone,
                   [OReply (response ActionReject ("failed to send Telegram notification: " +:+ err) "")])
    | None => (goto w g (TNotified txID req result), [OBot (NotifyForReview b txID result)])
    end
  | None => (goto (updateTxStatus w txID TxStatusRejected) g TDone,
             [OReply (response ActionReject "no Telegram bot configured for escalation" "")])
  end.

(** The decision routing of [HandleSignRequest]. *)
Definition HandleSignRequest_route (w : Service) (g : nat) (txID : string) (req : SignRequestPayload)
    (result : AnalysisResult) (notify : option string) : Service * list output :=
  if bool_decide (d_Action (ar_Decision result) = ActionReject) then
    (goto (updateTxStatus w txID TxStatusRejected) g TDone,
     [OReply (response ActionReject (d_Reason (ar_Decision result)) "")])
  else match sb_bot w with
       | Some b =>
         if AutoMode b && ar_Whitelisted result then
           (goto (startSigning (updateTxStatus w txID TxStatusApproved) txID req) g TDone,
            match notify with None => [OBot (NotifyAutoApproved b txID result)] | Some _ => [] end
            ++ [OReply (response ActionApprove (d_Reason (ar_Decision result)) txID)])
         else escalate_notify w g txID req result notify
       | None => escalate_notify w g txID req result notify
       end.

(** [escalate] after the notification: it registers the decision channel, then
    caches the request, starts the goroutine and answers. *)
Definition escalate_register (w : Service) (g : nat) (txID : string) (req : SignRequestPayload)
    (result : AnalysisResult) : Service :=
  let decisionCh := length (rt_decisions w) in
  goto (set_pending (set_decisions w (rt_decisions w ++ [(txID, Chan 1 [])])) (<[txID := decisionCh]> (sb_pending w)))
    g (TRegistered txID req result decisionCh).
Definition escalate_cache (w : Service) (g : nat) (txID : string) (req : SignRequestPayload)
    (result : AnalysisResult) (decisionCh : nat) : Service * list output :=
  (spawn (goto (set_reqCache w (<[txID := {| sc_req := req; sc_result := result |}]> (sb_reqCache w))) g TDone)
     (TSelect txID req decisionCh),
   [OReply (response ActionEscalate (d_Reason (ar_Decision result)) txID)]).

(** The escalation's goroutine: a decision arrived, the timer fired, and the
    deferred cleanup. *)
Definition escalate_decision (w : Service) (g : nat) (txID : string) (req : SignRequestPayload) (approved : bool)
    : Service * list output :=
  if approved then
    let w := updateTxStatus w txID TxStatusApproved in
    (goto (startSigning w txID req) g (TCleanup txID),
     if sb_onEscalationApproved w then [OSignApproved txID (srq_DerivationPath req)] else [])
  else (goto (updateTxStatus w txID TxStatusRejected) g (TCleanup txID), []).
Definition escalate_timeout (w : Service) (g : nat) (txID : string) : Service :=
  goto (updateTxStatus w txID TxStatusRejected) g (TCleanup txID).
Definition escalate_cleanup (w : Service) (g : nat) (txID : string) : Service :=
  goto (set_reqCache (set_pending w (delete txID (sb_pending w))) (delete txID (sb_reqCache w))) g TDone.

(** ** Signing *)

(** [sign] registers the channel Party A's final bytes arrive on. *)
Definition sign_register (w : Service) (g : nat) (txID : string) (req : SignRequestPayload) (router : nat) : Service :=
  let ch := length (rt_ready w) in
  goto (set_signReady (set_ready w (rt_ready w ++ [Chan 1 []])) (<[txID := ch]> (sb_signReady w)))
    g (TSignWait txID req router ch).

(** [sign] returned: its deferred deletion, then the goroutine of
    [startSigning] records the outcome and drops the router if it is still
    active. [json.Marshal]'s error is ignored. *)
Definition sign_return (w : Service) (g : nat) (txID : string) (router : nat) (sig : go Signature) : Service :=
  let w := set_signReady w (delete txID (sb_signReady w)) in
  let w := match sig with
           | Ret sig => set_store w (UpdateTxStatus (sb_store w) txID TxStatusSigned
                                       (default [] (to_option (Marshal sig)))).1
           | _ => updateTxStatus w txID TxStatusRejected
           end in
  goto (if bool_decide (sb_activeRouter w = Some router) then set_activeRouter w None else w) g TDone.

Definition parties : list PartyID :=
  [{| pid_ID := "party-a"; pid_Index := 0 |}; {| pid_ID := "party-b"; pid_Index := 1 |}].

(** The final bytes arrived: the key is loaded and the ceremony started. *)
Definition sign_message (w : Service) (g : nat) (txID : string) (req : SignRequestPayload) (router : nat)
    (msgBytes : bytes) : go (Service * list output) :=
  let '(st, key) := GetDerivedKey (sb_store w) (srq_DerivationPath req) in
  let w := set_store w st in
  match key with
  | Ret derivedKey =>
    Ret (goto w g (TSigning txID req router),
         [OTssSign txID router
            {| sq_DerivationPath := srq_DerivationPath req; sq_Message := msgBytes;
               sq_Curve := dkr_Curve derivedKey |}
            (dkr_Share derivedKey)])
  | Err e => Ret (sign_return w g txID router (Err ("get derived key: " +:+ e)), [])
  | Panic => Panic
  end.

(** [None]: the send blocks. *)
Definition HandleSignReady (w : Service) (payload : SignReadyPayload) : option Service :=
  match sb_signReady w !! srd_TxID payload with
  | None => Some w
  | Some ch =>
    match Base64.DecodeString (srd_SignableBytes payload) with
    | Ret decoded =>
      c ← rt_ready w !! ch; c' ← chan_send decoded c; Some (set_ready w (<[ch := c']> (rt_ready w)))
    | _ => Some w
    end
  end.

Definition HandleTSSRound (w : Service) (from : PartyID) (payload : bytes) : option Service :=
  match sb_activeRouter w with
  | None => Some w
  | Some i => r ← rt_routers w !! i; r' ← FeedMessage r from payload; Some (set_routers w (<[i := r']> (rt_routers w)))
  end.

(** ** The bot's callbacks *)
Definition onTelegramDecision (w : Service) (txID : string) (approved : bool) : Service :=
  match sb_pending w !! txID with
  | Some ch => set_sending w (Some (ch, approved))
  | None => w
  end.

Fixpoint add_whitelist (s : S) (now : Z) (addrs : list string) : S :=
  match addrs with
  | [] => s
  | addr :: rest =>
    add_whitelist (AddWhitelistEntry s {| we_Address := Strings.ToLower addr; we_Label := "approved via Telegram";
                                          we_AddedAt := now |}).1 now rest
  end.
Definition onTelegramWhitelist (w : Service) (now : Z) (txID : string) : Service :=
  match sb_reqCache w !! txID with
  | None => w
  | Some sc =>
    let addrs := effective (ar_DecodedTx (sc_result sc)) dtx_To (fun l => 0 <? zlen l) (srq_To (sc_req sc)) in
    set_store w (add_whitelist (sb_store w) now addrs)
  end.

Fixpoint bot_calls (w : Service) (now : Z) (calls : list Call) : Service * list output :=
  match calls with
  | [] => (w, [])
  | OnWhitelist txID :: rest => bot_calls (onTelegramWhitelist w now txID) now rest
  | OnDecision txID approved :: rest => bot_calls (onTelegramDecision w txID approved) now rest
  | c :: rest => let '(w, o) := bot_calls w now rest in (w, OBot c :: o)
  end.

(** ** Other requests *)
Definition GetTxStatus (w : Service) (txID : string) : Service * go TxRecord :=
  let '(st, r) := GetTx (sb_store w) txID in (set_store w st, r).

Definition derive_curve (vmReg : option Registry) (path : string) : Curve :=
  match vmReg with
  | Some reg => match ForPath reg path with Some adapter => AdapterCurve adapter | None => CurveSecp256k1 end
  | None => CurveSecp256k1
  end.

Definition HandleDeriveRequest (w : Service) (now : Z) (derivationPath : string) : Service * go unit :=
  let curve := derive_curve (sb_vmReg w) derivationPath in
  let '(st, share) := GetMasterShare (sb_store w) curve in
  match (masterShare ← share ?: "get master share";
         proto_DeriveKey masterShare derivationPath ?: "derive key") with
  | Ret derived =>
    let '(st, r) := SaveDerivedKey st
      {| dkr_DerivationPath := derivationPath; dkr_Curve := curve; dkr_PublicKey := dk_PublicKey derived;
         dkr_Address := ""; dkr_Label := ""; dkr_Share := dk_Share derived; dkr_CreatedAt := now |} in
    (set_store w st, r ?: "save derived key")
  | Err e => (set_store w st, Err e)
  | Panic => (set_store w st, Panic)
  end.

(** ** The transition system *)
Inductive event :=
| EvRequest (txID : string) (now : Z) (req : SignRequestPayload)
| EvAnalyze (g : nat) (now : Z)
| EvRoute (g : nat) (notify : option string)
| EvRegister (g : nat)
| EvCache (g : nat)
| EvDecision (g : nat)
| EvTimeout (g : nat)
| EvCleanup (g : nat)
| EvSignStart (g : nat)
| EvSignRecv (g : nat)
| EvSignTimeout (g : nat)
| EvSigned (g : nat) (sig : go Signature)
| EvSignReady (payload : SignReadyPayload)
| EvTSSRound (from : PartyID) (payload : bytes)
| EvUpdate (now : Z) (u : Update)
| EvSend
| EvDerive (now : Z) (path : string)
| EvTxStatus (txID : string).

Definition ran (x : Service * list output) : option (go (Service * list output)) := Some (Ret x).

Definition step (w : Service) (e : event) : option (go (Service * list output)) :=
  match e with
  | EvRequest txID now req => ran (HandleSignRequest_save w txID now req, [])
  | EvAnalyze g now =>
    match rt_tasks w !! g with
    | Some (TAnalyze txID req) => Some (w' ← HandleSignRequest_analyze w g now txID req; Ret (w', []))
    | _ => None
    end
  | EvRoute g notify =>
    match rt_tasks w !! g with
    | Some (TRoute txID req result) => ran (HandleSignRequest_route w g txID req result notify)
    | _ => None
    end
  | EvRegister g =>
    match rt_tasks w !! g with
    | Some (TNotified txID req result) => ran (escalate_register w g txID req result, [])
    | _ => None
    end
  | EvCache g =>
    match rt_tasks w !! g with
    | Some (TRegistered txID req result ch) => ran (escalate_cache w g txID req result ch)
    | _ => None
    end
  | EvDecision g =>
    match rt_tasks w !! g with
    | Some (TSelect txID req ch) =>
      '(owner, c) ← rt_decisions w !! ch;
      '(approved, c') ← chan_recv c;
      ran (escalate_decision (set_decisions w (<[ch := (owner, c')]> (rt_decisions w))) g txID req approved)
    | _ => None
    end
  | EvTimeout g =>
    match rt_tasks w !! g with Some (TSelect txID _ _) => ran (escalate_timeout w g txID, []) | _ => None end
  | EvCleanup g =>
    match rt_tasks w !! g with Some (TCleanup txID) => ran (escalate_cleanup w g txID, []) | _ => None end
  | EvSignStart g =>
    match rt_tasks w !! g with
    | Some (TSignStart txID req router) => ran (sign_register w g txID req router, [])
    | _ => None
    end
  | EvSignRecv g =>
    match rt_tasks w !! g with
    | Some (TSignWait txID req router ch) =>
      c ← rt_ready w !! ch; '(msg, c') ← chan_recv c;
      Some (sign_message (set_ready w (<[ch := c']> (rt_ready w))) g txID req router msg)
    | _ => None
    end
  | EvSignTimeout g =>
    match rt_tasks w !! g with
    | Some (TSignWait txID _ router _) =>
      ran (sign_return w g txID router (Err "timeout waiting for sign-ready from Party A"), [])
    | _ => None
    end
  | EvSigned g sig =>
    match rt_tasks w !! g with
    | Some (TSigning txID _ router) => ran (sign_return w g txID router sig, [])
    | _ => None
    end
  | EvSignReady payload => w' ← HandleSignReady w payload; ran (w', [])
  | EvTSSRound from payload => w' ← HandleTSSRound w from payload; ran (w', [])
  | EvUpdate now u =>
    match sb_bot w, rt_sending w with
    | Some b, None => Some ('(b', calls) ← Start_update b u; Ret (bot_calls (set_bot w (Some b')) now calls))
    | _, _ => None
    end
  | EvSend =>
    '(ch, approved) ← rt_sending w;
    '(owner, c) ← rt_decisions w !! ch;
    c' ← chan_send approved c;
    ran (set_sending (set_decisions w (<[ch := (owner, c')]> (rt_decisions w))) None, [])
  | EvDerive now path => let '(w', r) := HandleDeriveRequest w now path in ran (w', [ODerive r])
  | EvTxStatus txID => ran ((GetTxStatus w txID).1, [])
  end.

(** A run, most recent step first: each event with the state it ran in. *)
Inductive reach (w0 : Service) : list (Service * event) -> Service -> Prop :=
| reach_init : reach w0 [] w0
| reach_step h w e w' outs :
    reach w0 h w -> step w e = Some (Ret (w', outs)) -> reach w0 ((w, e) :: h) w'.
End PartyB.
