(* ===== verification/PartyBFacts.v ===== *)
(** * PartyBFacts: what the co-signer signs, and when *)
From S2P Require Import Prelude GoStd Codec Protocol Transport Tss TssFacts Config Vm Store StoreFacts Llm Analyzer AnalyzerFacts Telegram PartyB.
Local Open Scope Z_scope.

Section Authorization.
Context `{Unicode} `{AbiWorld} `{LlmWorld} {S : Type} `{Store S} `{Codec Signature}.
Context (proto_DeriveKey : KeyShare -> string -> go DerivedKey).
Notation Service := (PartyB.Service (S := S)).
Notation step := (step proto_DeriveKey).
Notation reach := (reach proto_DeriveKey).
Notation history := (list (Service * event)).

(** ** Facts of a run *)

(** [req] came in as [txID]. *)
Definition received (h : history) txID req : Prop := exists u now, In (u, EvRequest txID now req) h.
(** ... was analyzed with result [r] and not rejected. *)
Definition analyzed (h : history) txID req r : Prop :=
  received h txID req /\ exists u g now a st,
    In (u, EvAnalyze g now) h /\ rt_tasks u !! g = Some (TAnalyze txID req) /\
    Analyze (sb_analyzer u) now (sb_store u) req = (a, st, Ret r).
(** ... was routed in automatic mode with a whitelisted recipient. *)
Definition auto_approved (h : history) txID req r : Prop :=
  exists u g notify b, In (u, EvRoute g notify) h /\ rt_tasks u !! g = Some (TRoute txID req r) /\
    sb_bot u = Some b /\ AutoMode b = true /\ ar_Whitelisted r = true.
(** ... or the authorized user pressed an approving button for it. *)
Definition pressed (h : history) txID : Prop :=
  exists u now q b, In (u, EvUpdate now (UCallback q)) h /\ sb_bot u = Some b /\
    cq_From q = bot_authorizedUserID b /\ exists w, decides (cq_Data q) txID true w.
Definition authorized (h : history) txID req : Prop :=
  exists r, analyzed h txID req r /\ d_Action (ar_Decision r) <> ActionReject /\
    (auto_approved h txID req r \/ pressed h txID).

Lemma analyzed_mono h x txID req r : analyzed h txID req r -> analyzed (x :: h) txID req r.
Proof.
  intros [(u & now & Hin) (u' & g & now' & a & st & Hin' & E)]. split.
  - exists u, now. by right.
  - exists u', g, now', a, st. split; [by right|done].
Qed.
Lemma pressed_mono h x txID : pressed h txID -> pressed (x :: h) txID.
Proof. intros (u & now & q & b & Hin & Hr). exists u, now, q, b. split; [by right|done]. Qed.
Lemma authorized_mono h x txID req : authorized h txID req -> authorized (x :: h) txID req.
Proof.
  intros (r & Ha & Hr & Hor). exists r. split; [by apply analyzed_mono|]. split; [done|].
  destruct Hor as [(u & g & n & b & Hin & Hx)|Hp]; [left|right; by apply pressed_mono].
  exists u, g, n, b. split; [by right|done].
Qed.

(** ** The invariant *)
Definition owners (w : Service) : list string := map fst (rt_decisions w).

Definition task_ok (h : history) (w : Service) (t : task) : Prop :=
  match t with
  | TAnalyze txID req => received h txID req
  | TRoute txID req r => analyzed h txID req r
  | TNotified txID req r => analyzed h txID req r /\ d_Action (ar_Decision r) <> ActionReject
  | TRegistered txID req r ch =>
    analyzed h txID req r /\ d_Action (ar_Decision r) <> ActionReject /\ owners w !! ch = Some txID
  | TSelect txID req ch =>
    (exists r, analyzed h txID req r /\ d_Action (ar_Decision r) <> ActionReject) /\ owners w !! ch = Some txID
  | TSignStart txID req _ | TSignWait txID req _ _ | TSigning txID req _ => authorized h txID req
  | TCleanup _ | TDone => True
  end.

Record inv (h : history) (w : Service) : Prop := {
  inv_tasks : Forall (task_ok h w) (rt_tasks w);
  inv_pending : map_Forall (fun txID ch => owners w !! ch = Some txID) (sb_pending w);
  inv_channels : Forall (fun d => In true (ch_buf d.2) -> pressed h d.1) (rt_decisions w);
  inv_sending : forall ch, rt_sending w = Some (ch, true) -> exists txID, owners w !! ch = Some txID /\ pressed h txID;
}.

Lemma task_ok_mono h x w w' t : owners w `prefix_of` owners w' -> task_ok h w t -> task_ok (x :: h) w' t.
Proof.
  intros Hp. destruct t; cbn; try done; try apply analyzed_mono; try apply authorized_mono.
  - intros (u & now' & Hin). exists u, now'. by right.
  - intros [? ?]; split; [by apply analyzed_mono|done].
  - intros (? & ? & ?); split; [by apply analyzed_mono|]. split; [done|by eapply prefix_lookup_Some].
  - intros [(r & ? & ?) ?]. split; [|by eapply prefix_lookup_Some]. exists r. split; [by apply analyzed_mono|done].
Qed.

(** A step that only moves some tasks on preserves the rest. *)
Lemma inv_step h x w w' :
  inv h w ->
  owners w `prefix_of` owners w' ->
  (forall t, In t (rt_tasks w') -> In t (rt_tasks w) \/ task_ok (x :: h) w' t) ->
  (forall txID ch, sb_pending w' !! txID = Some ch -> sb_pending w !! txID = Some ch \/ owners w' !! ch = Some txID) ->
  (forall d, In d (rt_decisions w') -> In true (ch_buf d.2) -> In d (rt_decisions w) \/ pressed (x :: h) d.1) ->
  (forall ch, rt_sending w' = Some (ch, true) ->
     rt_sending w = Some (ch, true) \/ exists txID, owners w' !! ch = Some txID /\ pressed (x :: h) txID) ->
  inv (x :: h) w'.
Proof.
  intros [Ht Hp Hc Hs] Ho HT HP HC HS. rewrite List.Forall_forall in Ht, Hc. split.
  - apply List.Forall_forall. intros t Hin. destruct (HT t Hin) as [Hold|]; [|done].
    eapply task_ok_mono; [done|]. by apply Ht.
  - intros txID ch E. destruct (HP _ _ E) as [Hold|]; [|done]. eapply prefix_lookup_Some; [|done]. by apply Hp.
  - apply List.Forall_forall. intros d Hin Htrue. destruct (HC d Hin Htrue) as [Hold|]; [|done].
    apply pressed_mono. by apply Hc.
  - intros ch E. destruct (HS _ E) as [Hold|]; [|done]. destruct (Hs _ Hold) as (txID & Ho' & Hpr).
    exists txID. split; [by eapply prefix_lookup_Some|by apply pressed_mono].
Qed.

(** ** Every step preserves it *)
Lemma In_insert {A} (l : list A) g x t : In t (<[g := x]> l) -> In t l \/ t = x.
Proof.
  intros Hin%list_elem_of_In. apply list_elem_of_lookup in Hin as [i Hi].
  apply list_lookup_insert_Some in Hi as [(-> & -> & _)|[_ Hi]]; [by right|].
  left. apply list_elem_of_In. by eapply list_elem_of_lookup_2.
Qed.

Lemma insert_owner w ch owner c c' : rt_decisions w !! ch = Some (owner, c) ->
  map fst (<[ch := (owner, c')]> (rt_decisions w)) = owners w.
Proof.
  intros E. unfold owners. change (map fst) with (fmap (M := list) (fst (A := string) (B := chan bool))).
  rewrite list_fmap_insert. apply list_insert_id. by rewrite list_lookup_fmap, E.
Qed.

(** Components that a step leaves alone. *)
Definition quiet (w w' : Service) : Prop :=
  sb_pending w' = sb_pending w /\ rt_decisions w' = rt_decisions w /\ rt_sending w' = rt_sending w.

Lemma inv_quiet h x w w' : inv h w -> quiet w w' ->
  (forall t, In t (rt_tasks w') -> In t (rt_tasks w) \/ task_ok (x :: h) w' t) -> inv (x :: h) w'.
Proof.
  intros Hi (Hp & Hd & Hs) HT. apply (inv_step h x w w'); unfold owners; rewrite ?Hp, ?Hd, ?Hs; auto.
Qed.

Lemma startSigning_quiet w txID req : quiet w (startSigning w txID req) /\
  forall t, In t (rt_tasks (startSigning w txID req)) -> In t (rt_tasks w) \/ exists r, t = TSignStart txID req r.
Proof.
  unfold startSigning, spawn. destruct (sb_onSigningStarted w); [|by split; auto]. split; [done|].
  cbn. intros t [?|[<-|[]]]%in_app_or; eauto.
Qed.

Lemma task_at h w g t : inv h w -> rt_tasks w !! g = Some t -> task_ok h w t.
Proof. intros [Ht _ _ _] E. by eapply Forall_lookup_1. Qed.

Lemma goto_tasks h x (w w' : Service) g t : rt_tasks w' = <[g := t]> (rt_tasks w) -> task_ok (x :: h) w' t ->
  forall t', In t' (rt_tasks w') -> In t' (rt_tasks w) \/ task_ok (x :: h) w' t'.
Proof. intros -> Ht t' [?| ->]%In_insert; auto. Qed.

Lemma route_inv h w g txID req r notify : inv h w -> rt_tasks w !! g = Some (TRoute txID req r) ->
  inv ((w, EvRoute g notify) :: h) (HandleSignRequest_route w g txID req r notify).1.
Proof.
  intros Hi Hg. pose proof (task_at _ _ _ _ Hi Hg) as Ha. cbn in Ha.
  unfold HandleSignRequest_route. case_bool_decide as Er.
  { apply (inv_quiet h _ w); [done|done|]. by eapply goto_tasks. }
  assert (He : inv ((w, EvRoute g notify) :: h) (escalate_notify w g txID req r notify).1).
  { unfold escalate_notify. destruct (sb_bot w); [destruct notify|];
      (apply (inv_quiet h _ w); [done|done|]; eapply goto_tasks; [reflexivity|]); cbn; try done.
    split; [by apply analyzed_mono|done]. }
  destruct (sb_bot w) as [b|] eqn:Eb; [|done]. destruct (AutoMode b && ar_Whitelisted r) eqn:Eaw; [|done].
  apply andb_true_iff in Eaw as [Em Ew]. cbn [fst].
  destruct (startSigning_quiet (updateTxStatus w txID TxStatusApproved) txID req) as [Hq Ht].
  apply (inv_quiet h _ w); [done|exact Hq|]. cbn [goto set_tasks rt_tasks].
  intros t [Hin| ->]%In_insert; [|by right]. apply Ht in Hin as [?|[rt ->]]; [by left|right].
  exists r. split; [by apply analyzed_mono|]. split; [done|]. left. exists w, g, notify, b. by repeat split; [left|..].
Qed.

Lemma register_inv h w g txID req r : inv h w -> rt_tasks w !! g = Some (TNotified txID req r) ->
  inv ((w, EvRegister g) :: h) (escalate_register w g txID req r).
Proof.
  intros Hi Hg. pose proof (task_at _ _ _ _ Hi Hg) as [Ha Hr].
  assert (Ho : owners (escalate_register w g txID req r) = owners w ++ [txID]) by apply map_app.
  assert (Hn : (owners w ++ [txID]) !! length (rt_decisions w) = Some txID).
  { rewrite lookup_app_r; unfold owners; rewrite length_map; [|done]. by rewrite Nat.sub_diag. }
  apply (inv_step h _ w); rewrite ?Ho; [done|by exists [txID]| | | |auto].
  - eapply goto_tasks; [reflexivity|]. cbn [task_ok]. rewrite Ho. split; [by apply analyzed_mono|done].
  - cbn. intros t ch [[<- <-]|[_ E]]%lookup_insert_Some; auto.
  - cbn. intros d [?|[<-|[]]]%in_app_or; [by left|]. cbn. by intros [].
Qed.

Lemma decision_inv h w g txID req ch owner c approved c' : inv h w ->
  rt_tasks w !! g = Some (TSelect txID req ch) -> rt_decisions w !! ch = Some (owner, c) ->
  chan_recv c = Some (approved, c') ->
  inv ((w, EvDecision g) :: h)
    (escalate_decision (set_decisions w (<[ch := (owner, c')]> (rt_decisions w))) g txID req approved).1.
Proof.
  intros Hi Hg Hd Hc. pose proof (task_at _ _ _ _ Hi Hg) as [(r & Ha & Hr) Ho].
  assert (owner = txID) as ->.
  { unfold owners in Ho. change (map fst) with (fmap (M := list) (fst (A := string) (B := chan bool))) in Ho.
    rewrite list_lookup_fmap, Hd in Ho. by injection Ho. }
  unfold chan_recv in Hc. destruct (ch_buf c) as [|a buf] eqn:Eb; [discriminate|]. injection Hc as -> <-.
  pose proof (inv_channels _ _ Hi) as HC. rewrite List.Forall_forall in HC.
  assert (Hin : In (txID, c) (rt_decisions w)) by (apply list_elem_of_In; by eapply list_elem_of_lookup_2).
  specialize (HC _ Hin). cbn in HC. rewrite Eb in HC.
  set (w1 := set_decisions w _).
  assert (Hw1 : owners w1 = owners w) by (by eapply insert_owner).
  assert (Hdec : forall d, In d (rt_decisions w1) -> In true (ch_buf d.2) ->
    In d (rt_decisions w) \/ pressed ((w, EvDecision g) :: h) d.1).
  { intros d [?| ->]%In_insert; [by left|]. cbn. intros Ht. right. apply pressed_mono, HC. by right. }
  unfold escalate_decision. destruct approved; cbn [fst].
  - destruct (startSigning_quiet (updateTxStatus w1 txID TxStatusApproved) txID req) as [(Hq1 & Hq2 & Hq3) Ht].
    apply (inv_step h _ w); unfold owners; cbn [goto set_tasks sb_pending rt_decisions rt_sending rt_tasks];
      rewrite ?Hq1, ?Hq2, ?Hq3; cbn [updateTxStatus set_store rt_decisions sb_pending rt_sending];
      try (rewrite Hw1; done); auto.
    + change (owners w `prefix_of` owners w1). by rewrite Hw1.
    + intros t [Hin'| ->]%In_insert; [|by right]. apply Ht in Hin' as [?|[rt ->]]; [by left|right].
      exists r. split; [by apply analyzed_mono|]. split; [done|]. right. apply pressed_mono, HC. by left.
  - apply (inv_step h _ w); unfold owners; cbn [goto set_tasks sb_pending rt_decisions rt_sending rt_tasks]; auto.
    + change (owners w `prefix_of` owners w1). by rewrite Hw1.
    + intros t [Hin'| ->]%In_insert; [by left|by right].
Qed.

Lemma send_inv h w ch approved owner c c' : inv h w -> rt_sending w = Some (ch, approved) ->
  rt_decisions w !! ch = Some (owner, c) -> chan_send approved c = Some c' ->
  inv ((w, EvSend) :: h) (set_sending (set_decisions w (<[ch := (owner, c')]> (rt_decisions w))) None).
Proof.
  intros Hi Hs Hd Hc. unfold chan_send in Hc. case_decide; [|discriminate]. injection Hc as <-.
  assert (Hw1 : owners (set_sending (set_decisions w (<[ch := (owner, Chan (ch_cap c) (ch_buf c ++ [approved]))]>
    (rt_decisions w))) None) = owners w) by (by eapply insert_owner).
  apply (inv_step h _ w); rewrite ?Hw1; auto; [|done].
  intros d [?| ->]%In_insert; [by left|]. cbn. intros [Ht|[->|[]]]%in_app_or; right; apply pressed_mono.
  - pose proof (inv_channels _ _ Hi) as HC. rewrite List.Forall_forall in HC.
    apply (HC (owner, c)); [|done]. apply list_elem_of_In. by eapply list_elem_of_lookup_2.
  - destruct (inv_sending _ _ Hi ch Hs) as (txID & Ho & Hp).
    unfold owners in Ho. change (map fst) with (fmap (M := list) (fst (A := string) (B := chan bool))) in Ho.
    rewrite list_lookup_fmap, Hd in Ho. injection Ho as ->. done.
Qed.

(** The bot's callbacks touch the store and the pending send only. *)
Lemma bot_calls_spec now calls : forall w : Service, let w' := (bot_calls w now calls).1 in
  sb_pending w' = sb_pending w /\ rt_decisions w' = rt_decisions w /\ rt_tasks w' = rt_tasks w /\
  (forall ch a, rt_sending w' = Some (ch, a) -> rt_sending w = Some (ch, a) \/
     exists txID, In (OnDecision txID a) calls /\ sb_pending w !! txID = Some ch).
Proof.
  induction calls as [|c calls IH]; intros w; [cbn; auto|].
  assert (Hwl : forall txID, let w1 := onTelegramWhitelist w now txID in
    sb_pending w1 = sb_pending w /\ rt_decisions w1 = rt_decisions w /\ rt_tasks w1 = rt_tasks w /\
    rt_sending w1 = rt_sending w) by (intros; unfold w1, onTelegramWhitelist; by case_match).
  destruct c as [i t|ch0 t m bs|ch0 m t bs|txID|txID a0]; cbn [bot_calls];
    try (specialize (IH w); destruct (bot_calls w now calls) as [w1 o1]; cbn [fst] in *;
         destruct IH as (E1 & E2 & E3 & Hs); do 3 (split; [done|]); intros ch a E; apply Hs in E as [?|(x & ? & ?)];
         [by left|right; exists x; split; [by right|done]]).
  - destruct (Hwl txID) as (E1 & E2 & E3 & E4). specialize (IH (onTelegramWhitelist w now txID)). cbn in IH.
    rewrite E1, E2, E3, E4 in IH. destruct IH as (? & ? & ? & Hs). do 3 (split; [done|]).
    intros ch a E. apply Hs in E as [?|(x & ? & ?)]; [by left|right]. exists x. split; [by right|done].
  - specialize (IH (onTelegramDecision w txID a0)). cbn in IH.
    unfold onTelegramDecision in *. destruct (sb_pending w !! txID) as [ch1|] eqn:Ep; cbn in IH;
      destruct IH as (? & ? & ? & Hs); do 3 (split; [done|]); intros ch a E; apply Hs in E as [E|(x & ? & ?)].
    + injection E as <- <-. right. exists txID. split; [by left|done].
    + right. exists x. split; [by right|done].
    + by left.
    + right. exists x. split; [by right|done].
Qed.

Lemma update_inv h w now u b b' calls : inv h w -> sb_bot w = Some b -> Start_update b u = Ret (b', calls) ->
  inv ((w, EvUpdate now u) :: h) (bot_calls (set_bot w (Some b')) now calls).1.
Proof.
  intros Hi Hb Hu. destruct (bot_calls_spec now calls (set_bot w (Some b'))) as (E1 & E2 & E3 & Hs). cbn in *.
  apply (inv_step h _ w); unfold owners; rewrite ?E1, ?E2, ?E3; auto.
  intros ch E. apply Hs in E as [?|(txID & Hin & Hp)]; [by left|right].
  exists txID. split; [by apply (inv_pending _ _ Hi)|].
  destruct u as [q|m|]; cbn in Hu.
  - destruct (handleCallback b q) as [b1 l] eqn:Eq. injection Hu as -> ->.
    pose proof (OnDecision_pressed b q txID true) as HP. rewrite Eq in HP. destruct (HP Hin) as [Hu Hw].
    exists w, now, q, b. by repeat split; [left|..].
  - exfalso. destruct (handleMessage b m) as [l| |] eqn:Em; try discriminate Hu. injection Hu as -> ->.
    by eapply handleMessage_no_decision.
  - by injection Hu as <- <-.
Qed.

(** Silent steps of one goroutine. *)
Lemma goto_inv h e (w w' : Service) g t : inv h w -> quiet w w' -> rt_tasks w' = <[g := t]> (rt_tasks w) ->
  task_ok ((w, e) :: h) w' t -> inv ((w, e) :: h) w'.
Proof. intros Hi Hq Ht Hok. apply (inv_quiet h _ w); [done|done|]. by eapply goto_tasks. Qed.

Lemma sign_return_goto (w : Service) g txID router sig : quiet w (sign_return w g txID router sig) /\
  rt_tasks (sign_return w g txID router sig) = <[g := TDone]> (rt_tasks w).
Proof. unfold sign_return. destruct sig; cbn; case_bool_decide; done. Qed.

Lemma sign_message_goto (w : Service) g txID req router msg w' outs :
  sign_message w g txID req router msg = Ret (w', outs) -> quiet w w' /\
  (rt_tasks w' = <[g := TDone]> (rt_tasks w) \/ rt_tasks w' = <[g := TSigning txID req router]> (rt_tasks w)).
Proof.
  unfold sign_message. destruct (GetDerivedKey _ _) as [st [k|e|]]; [|..].
  - intros [= <- <-]. split; [done|by right].
  - intros [= <- <-]. destruct (sign_return_goto (set_store w st) g txID router (Err ("get derived key: " +:+ e))) as [? ->].
    split; [done|by left].
  - done.
Qed.

Lemma step_inv h w e w' outs : inv h w -> step w e = Some (Ret (w', outs)) -> inv ((w, e) :: h) w'.
Proof.
  intros Hi. destruct e; cbn [PartyB.step]; unfold ran.
  - intros [= <- <-]. apply (inv_quiet h _ w); [done|done|]. cbn. intros t [?|[<-|[]]]%in_app_or; [by left|right].
    exists w, now. by left.
  - destruct (rt_tasks w !! g) as [[]|] eqn:Eg; try done. unfold HandleSignRequest_analyze.
    destruct (Analyze _ _ _ _) as [[a st] [r|e|]] eqn:Ea; cbn; intros HX; simplify_eq.
    eapply goto_inv; [done|done|reflexivity|]. cbn.
    split; [destruct (task_at _ _ _ _ Hi Eg) as (u & n & Hin); exists u, n; by right|].
    exists w, g, now, a, st. by repeat split; [left|..].
  - destruct (rt_tasks w !! g) as [[]|] eqn:Eg; try done. intros [= HX].
    pose proof (route_inv h w g _ _ _ notify Hi Eg) as HR. by rewrite HX in HR.
  - destruct (rt_tasks w !! g) as [[]|] eqn:Eg; try done. intros [= <- <-]. by apply register_inv.
  - destruct (rt_tasks w !! g) as [[]|] eqn:Eg; try done. intros [= <- <-].
    destruct (task_at _ _ _ _ Hi Eg) as (Ha & Hr & Ho). apply (inv_quiet h _ w); [done|done|].
    cbn. intros t [[?| ->]%In_insert|[<-|[]]]%in_app_or; [by left|by right|right].
    split; [|done]. exists result. split; [by apply analyzed_mono|done].
  - destruct (rt_tasks w !! g) as [[]|] eqn:Eg; try done.
    destruct (rt_decisions w !! decisionCh) as [[owner c]|] eqn:Ed; cbn; [|done].
    destruct (chan_recv c) as [[ap c']|] eqn:Ec; cbn; [|done]. intros [= HX].
    pose proof (decision_inv h w g _ _ _ _ _ _ _ Hi Eg Ed Ec) as HD. by rewrite HX in HD.
  - destruct (rt_tasks w !! g) as [[]|] eqn:Eg; try done. intros [= <- <-]. by eapply goto_inv.
  - destruct (rt_tasks w !! g) as [[]|] eqn:Eg; try done. intros [= <- <-].
    apply (inv_step h _ w); [done|done|eapply goto_tasks; [reflexivity|exact I]| |by left|by left].
    cbn. intros t ch [_ ?]%lookup_delete_Some. by left.
  - destruct (rt_tasks w !! g) as [[]|] eqn:Eg; try done. intros [= <- <-].
    eapply goto_inv; [done|done|reflexivity|]. apply authorized_mono. exact (task_at _ _ _ _ Hi Eg).
  - destruct (rt_tasks w !! g) as [[]|] eqn:Eg; try done.
    destruct (rt_ready w !! ch) as [c|]; cbn; [|done]. destruct (chan_recv c) as [[m c']|]; cbn; [|done].
    intros [= HX]. apply sign_message_goto in HX as [Hq [Ht|Ht]]; (eapply goto_inv; [done|exact Hq|exact Ht|]); [done|].
    apply authorized_mono. exact (task_at _ _ _ _ Hi Eg).
  - destruct (rt_tasks w !! g) as [[]|] eqn:Eg; try done. intros [= <- <-].
    eapply goto_inv; [done|apply sign_return_goto..|done].
  - destruct (rt_tasks w !! g) as [[]|] eqn:Eg; try done. intros [= <- <-].
    eapply goto_inv; [done|apply sign_return_goto..|done].
  - destruct (HandleSignReady w payload) as [w1|] eqn:E; cbn; [|done]. intros [= <- <-].
    unfold HandleSignReady in E. apply (inv_quiet h _ w); [done|..]; repeat case_match; simplify_option_eq; auto; done.
  - destruct (HandleTSSRound w from payload) as [w1|] eqn:E; cbn; [|done]. intros [= <- <-].
    unfold HandleTSSRound in E. apply (inv_quiet h _ w); [done|..]; repeat case_match; simplify_option_eq; auto; done.
  - destruct (sb_bot w) as [b|] eqn:Eb; [|done]. destruct (rt_sending w); [done|].
    destruct (Start_update b u) as [[b' calls]| |] eqn:Eu; cbn; [|done|done]. intros [= HX].
    pose proof (update_inv h w now u b b' calls Hi Eb Eu) as HU. by rewrite HX in HU.
  - destruct (rt_sending w) as [[ch ap]|] eqn:Es; cbn; [|done].
    destruct (rt_decisions w !! ch) as [[owner c]|] eqn:Ed; cbn; [|done].
    destruct (chan_send ap c) as [c'|] eqn:Ec; cbn; [|done]. intros [= <- <-].
    by eapply send_inv.
  - unfold HandleDeriveRequest. repeat case_match; intros; simplify_eq; (apply (inv_quiet h _ w); [done|done|auto]).
  - unfold GetTxStatus. destruct (GetTx _ _). intros [= <- <-]. apply (inv_quiet h _ w); [done|done|auto].
Qed.

(** A freshly constructed service. *)
Definition fresh (w : Service) : Prop :=
  sb_pending w = ∅ /\ rt_decisions w = [] /\ rt_sending w = None /\ rt_tasks w = [].

Lemma reach_inv w0 h w : fresh w0 -> reach w0 h w -> inv h w.
Proof.
  intros (Hp & Hd & Hs & Ht). induction 1 as [|h w e w' outs _ IH Hstep]; [|by eapply step_inv].
  split; [rewrite Ht; constructor|rewrite Hp; apply map_Forall_empty|rewrite Hd; constructor|by rewrite Hs].
Qed.

(** ** What is signed was authorized *)

Lemma Analyze_signable (a a' : Analyzer) now (s s' : S) req r : Analyze a now s req = (a', s', Ret r) ->
  d_Action (ar_Decision r) <> ActionReject -> ar_SignableBytesOK r = true.
Proof.
  unfold Analyze. destruct (decode_stage a req) as [[[decoded ok] ws]| |]; try done.
  destruct ok; cbn [negb]; [|by intros [= <- <- <-]].
  unfold analyze_verified. cbv zeta.
  destruct (if an_has_whitelist a then _ else _) as [s1 label].
  destruct (deterministicChecks _ _); [by intros [= <- <- <-]|].
  destruct (match effective _ dtx_To _ _ with [] => _ | _ => _ end) as [abi call].
  destruct call as [c|e'|]; [| |done]; intros HX; injection HX as <- <- HX;
    apply go_bind_Ret in HX as ([? ?] & _ & [= <-]); done.
Qed.

Lemma bot_calls_outputs now calls : forall (w : Service) o, In o (bot_calls w now calls).2 -> exists c, o = OBot c.
Proof.
  induction calls as [|c calls IH]; intros w o; [by intros []|].
  destruct c; cbn [bot_calls]; try apply IH;
    specialize (IH w); destruct (bot_calls w now calls); cbn; intros [<-|?]; eauto.
Qed.

Lemma sign_output w e w' outs txID router sq share :
  step w e = Some (Ret (w', outs)) -> In (OTssSign txID router sq share) outs ->
  exists g req ch, rt_tasks w !! g = Some (TSignWait txID req router ch) /\
    sq_DerivationPath sq = srq_DerivationPath req.
Proof.
  destruct e; cbn [PartyB.step]; unfold ran.
  - by intros [= <- <-].
  - destruct (rt_tasks w !! g) as [[]|]; try done. destruct (HandleSignRequest_analyze _ _ _ _ _); cbn; try done.
    by intros [= <- <-].
  - destruct (rt_tasks w !! g) as [[]|]; try done. intros [= HX]. revert HX.
    unfold HandleSignRequest_route, escalate_notify.
    case_bool_decide; [intros [= <- <-]; intros [E|[]]; discriminate E|].
    destruct (sb_bot w) as [b|]; [destruct (AutoMode b && _)|]; (destruct notify; intros [= <- <-]);
      intros Hin; cbn in Hin; decompose [or] Hin; try done.
  - destruct (rt_tasks w !! g) as [[]|]; try done. by intros [= <- <-].
  - destruct (rt_tasks w !! g) as [[]|]; try done. intros [= <- <-] [E|[]]. discriminate E.
  - destruct (rt_tasks w !! g) as [[]|]; try done.
    destruct (rt_decisions w !! decisionCh) as [[owner c]|]; cbn; [|done].
    destruct (chan_recv c) as [[ap c']|]; cbn; [|done]. unfold escalate_decision.
    destruct ap; intros [= <- <-]; [|done]. destruct (sb_onEscalationApproved _); [|done]. intros [E|[]]. discriminate E.
  - destruct (rt_tasks w !! g) as [[]|]; try done. by intros [= <- <-].
  - destruct (rt_tasks w !! g) as [[]|]; try done. by intros [= <- <-].
  - destruct (rt_tasks w !! g) as [[]|]; try done. by intros [= <- <-].
  - destruct (rt_tasks w !! g) as [[]|] eqn:Eg; try done.
    destruct (rt_ready w !! ch) as [c|]; cbn; [|done]. destruct (chan_recv c) as [[m c']|]; cbn; [|done].
    unfold sign_message. destruct (GetDerivedKey _ _) as [st [k|e|]]; [|..].
    + intros [= <- <-] [E|[]]. injection E as -> -> <- <-. by exists g, req, ch.
    + by intros [= <- <-].
    + done.
  - destruct (rt_tasks w !! g) as [[]|]; try done. by intros [= <- <-].
  - destruct (rt_tasks w !! g) as [[]|]; try done. by intros [= <- <-].
  - destruct (HandleSignReady w payload); cbn; [|done]. by intros [= <- <-].
  - destruct (HandleTSSRound w from payload); cbn; [|done]. by intros [= <- <-].
  - destruct (sb_bot w) as [b|]; [|done]. destruct (rt_sending w); [done|].
    destruct (Start_update b u) as [[b' calls]| |]; cbn; [|done|done]. intros [= HX] Hin.
    pose proof (bot_calls_outputs now calls (set_bot w (Some b')) (OTssSign txID router sq share)) as HB.
    rewrite HX in HB. by destruct (HB Hin).
  - destruct (rt_sending w) as [[ch ap]|]; cbn; [|done].
    destruct (rt_decisions w !! ch) as [[owner c]|]; cbn; [|done].
    destruct (chan_send ap c); cbn; [|done]. by intros [= <- <-].
  - destruct (HandleDeriveRequest _ _ _ _) as [w1 r]. intros [= <- <-] [E|[]]. discriminate E.
  - by intros [= <- <-].
Qed.

(** C1: nothing is co-signed without authority: in every interleaving of
    handlers, timers, Telegram presses and messages, whenever Party B enters the
    signing ceremony for a transaction, a request with that identifier and
    derivation path was received, its analysis did not reject it and found its
    signable bytes in order, and either the bot was in automatic mode with a
    whitelisted recipient when the request was routed, or the authorized user
    pressed an approving button for that identifier. *)
Theorem signing_authorized w0 h w e w' outs txID router sq share :
  fresh w0 -> reach w0 h w -> step w e = Some (Ret (w', outs)) ->
  In (OTssSign txID router sq share) outs ->
  exists req r, sq_DerivationPath sq = srq_DerivationPath req /\ analyzed h txID req r /\
    d_Action (ar_Decision r) <> ActionReject /\ ar_SignableBytesOK r = true /\
    (auto_approved h txID req r \/ pressed h txID).
Proof.
  intros Hf Hr Hs Hin. apply reach_inv in Hr as Hi; [|done].
  destruct (sign_output _ _ _ _ _ _ _ _ Hs Hin) as (g & req & ch & Hg & Hp).
  destruct (task_at _ _ _ _ Hi Hg) as (r & Ha & Hrej & Hor). exists req, r.
  split; [done|]. split; [done|]. split; [done|]. split; [|done].
  destruct Ha as [_ (u & g' & now & a & st & _ & _ & E)]. by eapply Analyze_signable.
Qed.

(** The approved bytes are not what is signed: the message Party B signs is
    whatever the sign-ready message for that identifier carried, for any request
    that was approved under it. *)
Theorem signs_whatever_is_ready w g txID req router ch msg st key :
  rt_tasks w !! g = Some (TSignWait txID req router ch) ->
  sb_signReady w !! txID = Some ch -> rt_ready w !! ch = Some (Chan 1 []) ->
  GetDerivedKey (sb_store w) (srq_DerivationPath req) = (st, Ret key) ->
  exists w1 w2, step w (EvSignReady {| srd_TxID := txID; srd_SignableBytes := Base64.EncodeToString msg |})
      = Some (Ret (w1, [])) /\
    step w1 (EvSignRecv g) = Some (Ret (w2,
      [OTssSign txID router {| sq_DerivationPath := srq_DerivationPath req; sq_Message := msg;
                               sq_Curve := dkr_Curve key |} (dkr_Share key)])).
Proof.
  intros Hg Hch Hc Hk. do 2 eexists. split.
  - cbn [PartyB.step]. unfold HandleSignReady. cbn [srd_TxID srd_SignableBytes].
    rewrite Hch, Base64.DecodeString_EncodeToString, Hc. reflexivity.
  - cbn [PartyB.step set_ready rt_tasks rt_ready]. rewrite Hg.
    rewrite list_lookup_insert_eq by (by eapply lookup_lt_Some). cbn [mbind option_bind chan_recv ch_buf app].
    unfold sign_message. cbn [set_ready sb_store]. rewrite Hk. reflexivity.
Qed.

(** A quick answer is lost: between the Telegram notification and the
    registration of the decision channel, a press of the authorized user is
    acknowledged on his screen and leaves the service as it was, to escalate until
    a second press or the timeout. *)
Theorem early_press_lost w b now q txID approved wl w' outs :
  sb_bot w = Some b -> rt_sending w = None ->
  sb_pending w !! txID = None -> sb_reqCache w !! txID = None ->
  cq_From q = bot_authorizedUserID b -> decides (cq_Data q) txID approved wl ->
  step w (EvUpdate now (UCallback q)) = Some (Ret (w', outs)) ->
  w' = w /\ exists text, In (OBot (AnswerCallback (cq_ID q) text)) outs.
Proof.
  intros Hb Hs Hp Hc Hu Hd. cbn [PartyB.step]. rewrite Hb, Hs. cbn [Start_update mbind go_bind].
  assert (HE : exists ap wl', handleCallback b q = (b, handleTxDecision b q txID ap wl')).
  { unfold handleCallback, isAuthorized. rewrite Hu, Z.eqb_refl. cbn [negb].
    destruct Hd as [(-> & -> & ->)|[(-> & -> & ->)|(-> & -> & ->)]]; rewrite Strings.HasPrefix_app, Strings.TrimPrefix_app.
    - by do 2 eexists.
    - change (Strings.HasPrefix ("whitelist:" +:+ txID) "approve:") with false. by do 2 eexists.
    - change (Strings.HasPrefix ("reject:" +:+ txID) "approve:") with false.
      change (Strings.HasPrefix ("reject:" +:+ txID) "whitelist:") with false. by do 2 eexists. }
  destruct HE as (ap & wl' & ->). cbn [mbind go_bind].
  replace (set_bot w (Some b)) with w by (rewrite <- Hb; by destruct w).
  assert (HW : onTelegramWhitelist w now txID = w) by (unfold onTelegramWhitelist; by rewrite Hc).
  assert (HD : forall a, onTelegramDecision w txID a = w) by (intros; unfold onTelegramDecision; by rewrite Hp).
  unfold handleTxDecision. intros [= HX]. revert HX.
  destruct (cq_Message q), (wl' && bot_onWhitelist b), (bot_onDecision b); cbn [app bot_calls]; rewrite ?HW, ?HD;
    intros [= <- <-]; (split; [done|]); eexists; by left.
Qed.
End Authorization.

(** ** Effects on the store *)
Section Effects.
Context `{Unicode} `{AbiWorld} `{LlmWorld} {S : Type} `{Store S} `{!StoreLaws S} `{Codec Signature}.
Context (proto_DeriveKey : KeyShare -> string -> go DerivedKey).
Notation Service := (PartyB.Service (S := S)).
Notation step := (step proto_DeriveKey).
Notation contents w := (view (sb_store w)).

(** The record [HandleDeriveRequest] saves. *)
Definition derived_record (curve : Curve) (path : string) (now : Z) (d : DerivedKey) : DerivedKeyRecord :=
  {| dkr_DerivationPath := path; dkr_Curve := curve; dkr_PublicKey := dk_PublicKey d; dkr_Address := "";
     dkr_Label := ""; dkr_Share := dk_Share d; dkr_CreatedAt := now |}.

Lemma HandleDeriveRequest_spec (w w' : Service) now path r : store_ok (sb_store w) ->
  HandleDeriveRequest proto_DeriveKey w now path = (w', r) ->
  store_ok (sb_store w') /\
  match r with
  | Ret _ => exists share d, v_shares (contents w) !! derive_curve (sb_vmReg w) path = Some share /\
      proto_DeriveKey share path = Ret d /\
      contents w' = Spec.SaveDerivedKey (contents w)
        (stored_key (derived_record (derive_curve (sb_vmReg w) path) path now d))
  | Err _ => contents w' = contents w
  | Panic => exists share, v_shares (contents w) !! derive_curve (sb_vmReg w) path = Some share /\
      proto_DeriveKey share path = Panic
  end.
Proof.
  intros Hok. unfold HandleDeriveRequest.
  destruct (law_GetMasterShare (sb_store w) (derive_curve (sb_vmReg w) path) Hok) as [Hok1 Ha].
  destruct (GetMasterShare _ _) as [st [share|e|]]; cbn in *; [|by intros [= <- <-]|done].
  destruct Ha as [Hv Hs]. destruct (proto_DeriveKey share path) as [d|e|] eqn:Ed; cbn.
  - destruct (law_SaveDerivedKey st (derived_record (derive_curve (sb_vmReg w) path) path now d) Hok1) as [Hok2 Ha2].
    unfold derived_record in *.
    destruct (SaveDerivedKey st _) as [st' [[]|e|]]; intros [= <- <-]; cbn in *; (split; [done|]); [|congruence|done].
    exists share, d. split; [done|]. split; [done|]. by rewrite Ha2, Hv.
  - by intros [= <- <-].
  - intros [= <- <-]. split; [done|]. by exists share.
Qed.

End Effects.

(** ** A concrete run *)
Import Postgres ToyStore ToyAnalyzer.
Module ToyB.
Definition sig_tuple (s : Signature) : Z * Z * byte * bytes := (sig_R s, sig_S s, sig_V s, sig_Bytes s).
Definition tuple_sig (t : Z * Z * byte * bytes) : Signature :=
  let '(r, s, v, b) := t in {| sig_R := r; sig_S := s; sig_V := v; sig_Bytes := b |}.
#[export] Instance sig_eq_dec : EqDecision Signature.
Proof. solve_decision. Defined.
#[export] Instance sig_countable : Countable Signature :=
  inj_countable' sig_tuple tuple_sig (fun s => match s with Build_Signature _ _ _ _ => eq_refl end).
#[export] Instance codec : Codec Signature := CountableCodec.codec Signature.

Definition path : string := "m/44'/60'/0'/0/0".
Definition key : DerivedKeyRecord := {|
  dkr_DerivationPath := path; dkr_Curve := CurveSecp256k1; dkr_PublicKey := [x04]; dkr_Address := "";
  dkr_Label := ""; dkr_Share := [x09]; dkr_CreatedAt := 0 |}.
Definition bot (auto : bool) : Bot := {|
  bot_authorizedUserID := 42; bot_autoMode := auto; bot_onDecision := true; bot_onWhitelist := true;
  bot_stopped := false |}.
Definition config : Config := {|
  cfg_Party := "b"; cfg_DataDir := ""; cfg_Database := {| db_Host := ""; db_Port := 0; db_User := "";
    db_Password := ""; db_DBName := ""; db_SSLMode := "" |};
  cfg_API := {| api_ListenAddr := ""; api_WebDir := "" |};
  cfg_Transport := {| tc_RemoteAddr := ""; tc_ListenAddr := ""; tc_CertFile := ""; tc_KeyFile := ""; tc_CACertFile := "" |};
  cfg_Analyzer := cfg false;
  cfg_Telegram := {| tg_BotToken := "t"; tg_AuthorizedUserID := 42; tg_EscalationTimeout := 0 |} |}.
Definition service (auto : bool) : PartyB.Service :=
  mkService config (Some registry) true true (SaveDerivedKey store key).1 (analyzer false)
    (Some (bot auto)) ∅ ∅ None ∅ [] [] [] None [].
Definition derive (ks : KeyShare) (path : string) : go DerivedKey := Err "".

Fixpoint run (h : list (PartyB.Service * event)) (w : PartyB.Service) (evs : list event)
    : option (list (PartyB.Service * event) * PartyB.Service) :=
  match evs with
  | [] => Some (h, w)
  | e :: evs' =>
    match step derive w e with Some (Ret (w', _)) => run ((w, e) :: h) w' evs' | _ => None end
  end.

Lemma run_reach w0 evs : forall h w h' w', reach derive w0 h w -> run h w evs = Some (h', w') -> reach derive w0 h' w'.
Proof.
  induction evs as [|e evs IH]; intros h w h' w' Hr; cbn [run]; [by intros [= <- <-]|].
  destruct (step derive w e) as [[[w1 o]| |]|] eqn:E; try done. apply IH. by eapply reach_step.
Qed.

Definition press (data : string) : event :=
  EvUpdate 7 (UCallback {| cq_ID := "c"; cq_From := 42; cq_Data := data; cq_Message := None |}).
(** A request to a whitelisted address, escalated in manual mode and approved
    by the user; Party A then sends the bytes to sign. *)
Definition evs : list event :=
  [EvRequest "tx1" 5 (request "0xab" "0xab"); EvAnalyze 0 6; EvRoute 0 None; EvRegister 0; EvCache 0;
   press "approve:tx1"; EvSend; EvDecision 1; EvCleanup 1; EvSignStart 2;
   EvSignReady {| srd_TxID := "tx1"; srd_SignableBytes := Base64.EncodeToString [x2a] |}].
End ToyB.
Import ToyB.

(** The run ends where Party B enters the ceremony, and does so for "tx1". *)
Definition signs {A} (o : option (go (A * list output))) : option string :=
  match o with Some (Ret (_, [OTssSign txID _ _ _])) => Some txID | _ => None end.

Lemma signing_authorized_witness :
  match run [] (service false) evs with
  | Some (h, w) => signs (step derive w (EvSignRecv 2)) = Some "tx1" /\
                   (pressed h "tx1" \/ exists req r, auto_approved h "tx1" req r)
  | None => False
  end.
Proof.
  assert (Hh : match run [] (service false) evs with
               | Some (_, w) => signs (step derive w (EvSignRecv 2)) | None => None end = Some "tx1")
    by (vm_compute; reflexivity).
  destruct (run [] (service false) evs) as [[h w]|] eqn:E; [|discriminate Hh]. split; [exact Hh|].
  destruct (step derive w (EvSignRecv 2)) as [[[w' [|[| | |txID rt sq sh|] [|]]]|e|]|] eqn:Es; try discriminate Hh.
  injection Hh as ->.
  destruct (signing_authorized derive (service false) h w (EvSignRecv 2) w'
      [OTssSign "tx1" rt sq sh] "tx1" rt sq sh)
    as (req & r & _ & _ & _ & _ & Hor); [by repeat split| |exact Es|by left|].
  - eapply run_reach; [apply reach_init|exact E].
  - destruct Hor as [Ha|Hp]; [right; exists req, r; exact Ha|left; exact Hp].
Defined.

(** Party B waits for the final bytes of "tx1"; Party A sends others. *)
Definition waiting : PartyB.Service :=
  mkService config (Some registry) true true (SaveDerivedKey ToyStore.empty key).1 (analyzer false)
    (Some (bot false)) ∅ ∅ (Some 0%nat) {["tx1" := 0%nat]} [] [Chan 1 []] [NewServerRouter] None
    [TSignWait "tx1" (request "0xab" "0xab") 0 0].

Lemma signs_whatever_is_ready_witness :
  exists w1 w2,
    step derive waiting (EvSignReady {| srd_TxID := "tx1"; srd_SignableBytes := Base64.EncodeToString [x66] |})
      = Some (Ret (w1, [])) /\
    step derive w1 (EvSignRecv 0) = Some (Ret (w2,
      [OTssSign "tx1" 0 {| sq_DerivationPath := path; sq_Message := [x66]; sq_Curve := CurveSecp256k1 |} [x09]])).
Proof.
  assert (Hk : (GetDerivedKey (sb_store waiting) path).2 = Ret key) by (vm_compute; reflexivity).
  destruct (GetDerivedKey (sb_store waiting) path) as [st k] eqn:Ek. cbn [snd] in Hk. rewrite Hk in Ek.
  exact (signs_whatever_is_ready derive waiting 0 "tx1" (request "0xab" "0xab") 0 0 [x66] st key
           eq_refl eq_refl eq_refl Ek).
Defined.

(** The user's answer overtakes the registration. *)
Definition notified : PartyB.Service :=
  mkService config (Some registry) true true ToyStore.empty (analyzer false)
    (Some (bot false)) ∅ ∅ None ∅ [] [] [] None [].

Lemma early_press_lost_witness :
  exists outs, step derive notified (press "approve:tx1") = Some (Ret (notified, outs)).
Proof.
  destruct (step derive notified (press "approve:tx1")) as [[[w' outs]|e|]|] eqn:Es.
  - destruct (early_press_lost derive notified (bot false) 7
      {| cq_ID := "c"; cq_From := 42; cq_Data := "approve:tx1"; cq_Message := None |} "tx1" true false w' outs)
      as [-> _]; [reflexivity..|by left|exact Es|by exists outs].
  - discriminate Es.
  - discriminate Es.
  - discriminate Es.
Defined.

Definition escalated : PartyB.Service :=
  mkService config (Some registry) true true ToyStore.empty (analyzer false)
    (Some (bot false)) {["tx1" := 0%nat]} ∅ None ∅ [("tx1", Chan 1 [])] [] [] None
    [TSelect "tx1" (request "0xab" "0xab") 0].

