(* ===== verification/Solana.v ===== *)
(** * Solana: the Solana adapter (internal/vm/solana/solana.go)

    Building, hashing, assembling and decoding transactions, the injection of a
    fresh blockhash at signing time, and the address check in front of the RPC
    call. solana-go (keys, instructions, transaction encoding), ed25519, HTTP,
    DNS and JSON are arguments; the builder of Anchor calls (anchor.go) is an
    argument of [solana_BuildUnsignedTx]. *)
From S2P Require Import Prelude GoStd Codec Protocol Transport Tss TssFacts Vm.
Local Open Scope Z_scope.
Local Open Scope go_scope.

(** ** solana-go

    A public key is its 32 bytes. The code reads and writes the exported fields
    of a transaction and of its message; the rest of a message is opaque. *)
Record AccountMeta := { am_PublicKey : bytes; am_IsSigner : bool; am_IsWritable : bool }.
Record Instruction := { ix_ProgramID : bytes; ix_Accounts : list AccountMeta; ix_Data : bytes }.
Record SolMessage (rest : Type) := mkMessage {
  sm_NumRequiredSignatures : Z; sm_AccountKeys : list bytes; sm_RecentBlockhash : bytes; sm_rest : rest }.
Arguments mkMessage {rest}.
Arguments sm_NumRequiredSignatures {rest}.
Arguments sm_AccountKeys {rest}.
Arguments sm_RecentBlockhash {rest}.
Arguments sm_rest {rest}.
Record SolTransaction (rest : Type) := mkTransaction { st_Signatures : list bytes; st_Message : SolMessage rest }.
Arguments mkTransaction {rest}.
Arguments st_Signatures {rest}.
Arguments st_Message {rest}.

Class SolanaGo := {
  msg_rest : Type;
  PublicKeyFromBase58 : string -> go bytes;
  PublicKeyFromBytes : bytes -> bytes;
  PublicKeyString : bytes -> string;
  HashFromBase58 : string -> go bytes;
  TransferInstruction : Z -> bytes -> bytes -> Instruction;
  NewTransaction : list Instruction -> bytes -> bytes -> go (SolTransaction msg_rest);  (* instructions, blockhash, payer *)
  MarshalMessage : SolMessage msg_rest -> go bytes;
  MarshalTransaction : SolTransaction msg_rest -> go bytes;
  TransactionFromBytes : bytes -> go (SolTransaction msg_rest);
  FindProgramAddress : list bytes -> bytes -> go (bytes * Z);
  SystemProgramID : bytes;
  TokenProgramID : bytes;
  Token2022ProgramID : bytes;
  SPLAssociatedTokenAccountProgramID : bytes;
  ed25519_Public : bytes -> go bytes;
  ed25519_Sign : bytes -> bytes -> go bytes;
}.
(** Decoding inverts encoding, and an ed25519 signature is 64 bytes. *)
Class SolanaGoLaws `{SolanaGo} := {
  transaction_roundtrip tx raw : MarshalTransaction tx = Ret raw -> TransactionFromBytes raw = Ret tx;
  signature_size priv m s : ed25519_Sign priv m = Ret s -> length s = 64%nat;
}.

(** The network and the JSON of its answers: the error message if any and the
    blockhash; the owner of an account if it exists; the envelope's [From], [To]
    and [Amount]. An address is IPv4, mapped ones included, or IPv6. *)
Inductive ip := IPv4 (a : Z) | IPv6 (a : Z).
Class SolanaWorld := {
  rpc_post : string -> string -> go bytes;
  parse_blockhash : bytes -> go (option string * string);
  parse_owner : bytes -> go (option string);
  parse_envelope : bytes -> go (string * string * Z);
  url_Parse : string -> go (string * string);  (* scheme and hostname *)
  LookupHost : string -> go (list string);
  ParseIP : string -> option ip;
}.

(** ** The address check *)

(** [net.IPNet.Contains] of a CIDR block: address, prefix length. *)
Definition in_block (block : ip) (ones : Z) (x : ip) : bool :=
  match block, x with
  | IPv4 b, IPv4 a => Z.shiftr a (32 - ones) =? Z.shiftr b (32 - ones)
  | IPv6 b, IPv6 a => Z.shiftr a (128 - ones) =? Z.shiftr b (128 - ones)
  | _, _ => false
  end.
Definition dotted (a b c d : Z) : ip := IPv4 (((a * 256 + b) * 256 + c) * 256 + d).
Definition privateRanges : list (ip * Z) :=
  [(dotted 0 0 0 0, 8); (dotted 127 0 0 0, 8); (dotted 10 0 0 0, 8); (dotted 172 16 0 0, 12);
   (dotted 192 168 0 0, 16); (dotted 169 254 0 0, 16); (IPv6 1, 128);
   (IPv6 (0xfc00 * 2 ^ 112), 7); (IPv6 (0xfe80 * 2 ^ 112), 10); (IPv6 0, 128)].
Definition isPrivateIP (x : ip) : bool := existsb (fun '(block, ones) => in_block block ones x) privateRanges.

Section Rpc.
Context `{Unicode} `{SolanaWorld}.

Fixpoint check_ips (host : string) (ips : list string) : go unit :=
  match ips with
  | [] => Ret tt
  | ipStr :: rest =>
    match ParseIP ipStr with
    | None => Err ("invalid IP " +:+ Strconv.Quote ipStr)
    | Some x =>
      if isPrivateIP x
      then Err ("blocked: " +:+ Strconv.Quote host +:+ " resolves to private/reserved IP " +:+ ipStr)
      else check_ips host rest
    end
  end.

Definition validateRPCURL (rawURL : string) : go unit :=
  '(scheme, host) ← url_Parse rawURL ?: "invalid URL";
  if negb (bool_decide (scheme = "http")) && negb (bool_decide (scheme = "https"))
  then Err ("scheme must be http or https, got " +:+ Strconv.Quote scheme)
  else if bool_decide (host = "") then Err "empty hostname"
  else ips ← LookupHost host ?: ("DNS resolution failed for " +:+ Strconv.Quote host);
       check_ips host ips.

Definition quoted (s : string) : string := Strconv.dquote +:+ s +:+ Strconv.dquote.
Definition blockhash_body : string :=
  "{" +:+ quoted "jsonrpc" +:+ ":" +:+ quoted "2.0" +:+ "," +:+ quoted "id" +:+ ":1," +:+ quoted "method" +:+ ":"
  +:+ quoted "getLatestBlockhash" +:+ "," +:+ quoted "params" +:+ ":[{" +:+ quoted "commitment" +:+ ":"
  +:+ quoted "finalized" +:+ "}]}".

(** [allowLocalRPC] is read from the environment at start-up; at most 4096
    bytes of the answer are parsed. *)
Definition FetchRecentBlockhash (allowLocalRPC : bool) (rpcURL : string) : go string :=
  _ ← (if allowLocalRPC then Ret tt else validateRPCURL rpcURL ?: "solana rpc");
  body ← rpc_post rpcURL blockhash_body ?: "solana rpc: request failed";
  '(error, blockhash) ← parse_blockhash (take (Z.to_nat 4096) body) ?: "solana rpc: parse response";
  match error with
  | Some m => Err ("solana rpc: " +:+ m)
  | None => if bool_decide (blockhash = "") then Err "solana rpc: empty blockhash in response" else Ret blockhash
  end.
End Rpc.

Section Solana.
Context `{Unicode} `{SolanaGo} `{SolanaWorld}.
Context (BuildAnchorTx : TxRequest -> bytes -> go (list Instruction * list bytes)).

Definition Must {A} (m : go A) : go A := match m with Err _ => Panic | _ => m end.

Definition solana_DeriveAddress (pubKey : bytes) (_ : list DeriveOption) : go string :=
  if negb (zlen pubKey =? 32)
  then Err ("solana: expected 32-byte ed25519 public key, got " +:+ Strconv.Itoa (zlen pubKey) +:+ " bytes")
  else Ret (PublicKeyString (PublicKeyFromBytes pubKey)).

Definition findATA (wallet mint tokenProgramID : bytes) : go (bytes * Z) :=
  FindProgramAddress [wallet; tokenProgramID; mint] SPLAssociatedTokenAccountProgramID.

Definition account_info_body (mint : bytes) : string :=
  "{" +:+ quoted "jsonrpc" +:+ ":" +:+ quoted "2.0" +:+ "," +:+ quoted "id" +:+ ":1," +:+ quoted "method" +:+ ":"
  +:+ quoted "getAccountInfo" +:+ "," +:+ quoted "params" +:+ ":[" +:+ quoted (PublicKeyString mint) +:+ ",{"
  +:+ quoted "encoding" +:+ ":" +:+ quoted "jsonParsed" +:+ "}]}".

(** The URL is contacted without the address check. *)
Definition detectTokenProgram (rpcURL : string) (mint : bytes) : go bytes :=
  body ← rpc_post rpcURL (account_info_body mint) ?: "request failed";
  value ← parse_owner (take (Z.to_nat 8192) body) ?: "parse response";
  match value with
  | None => Err ("mint account not found: " +:+ PublicKeyString mint)
  | Some owner => Ret (if bool_decide (owner = PublicKeyString Token2022ProgramID)
                       then Token2022ProgramID else TokenProgramID)
  end.

Definition meta (k : bytes) (signer writable : bool) : AccountMeta :=
  {| am_PublicKey := k; am_IsSigner := signer; am_IsWritable := writable |}.

(** Raw instructions mode. *)
Definition raw_instruction (i : nat) (ix : SolanaInstruction) : go Instruction :=
  programID ← Must (PublicKeyFromBase58 (si_ProgramID ix));
  accounts ← go_mapM (fun acc => k ← Must (PublicKeyFromBase58 (sam_Pubkey acc));
                                 Ret (meta k (sam_IsSigner acc) (sam_IsWritable acc))) (si_Accounts ix);
  data ← Base64.DecodeString (si_Data ix)
    ?: ("solana: instruction[" +:+ Strconv.Itoa (Z.of_nat i) +:+ "] invalid base64 data");
  Ret {| ix_ProgramID := programID; ix_Accounts := accounts; ix_Data := data |}.

(** An SPL token transfer: create the recipient's token account if missing,
    then transfer. *)
Definition spl_instructions (from to : bytes) (amount : Z) (mintStr rpcURL : string) : go (list Instruction) :=
  mint ← Must (PublicKeyFromBase58 mintStr);
  tokenProgramID ← (if bool_decide (rpcURL = "") then Ret TokenProgramID
                    else detectTokenProgram rpcURL mint ?: "solana: detect token program");
  '(fromATA, _) ← findATA from mint tokenProgramID ?: "solana: find from ATA";
  '(toATA, _) ← findATA to mint tokenProgramID ?: "solana: find to ATA";
  Ret [ {| ix_ProgramID := SPLAssociatedTokenAccountProgramID;
           ix_Accounts := [meta from true true; meta toATA false true; meta to false false; meta mint false false;
                           meta SystemProgramID false false; meta tokenProgramID false false];
           ix_Data := [x01] |};
        {| ix_ProgramID := tokenProgramID;
           ix_Accounts := [meta fromATA false true; meta toATA false true; meta from true false];
           ix_Data := x03 :: Binary.le_bytes 8 amount |} ].

Definition transfer_instructions (req : TxRequest) (from : bytes) : go (list Instruction) :=
  match tr_To req with
  | [] => Err "solana: at least one recipient required"
  | to0 :: _ =>
    to ← Must (PublicKeyFromBase58 to0);
    amount ← (if bool_decide (tr_Value req = "") then Ret 0
              else Strconv.SscanfUint64 (tr_Value req) ?: ("solana: invalid value " +:+ Strconv.Quote (tr_Value req)));
    if bool_decide (tr_Mint req = "") then Ret [TransferInstruction amount from to]
    else spl_instructions from to amount (tr_Mint req) (tr_RpcURL req)
  end.

Definition build_instructions (req : TxRequest) (from : bytes) : go (list Instruction * list bytes) :=
  if negb (bool_decide (tr_Program req = "")) && negb (bool_decide (tr_Method req = ""))
  then BuildAnchorTx req from ?: "solana: anchor"
  else if 0 <? zlen (tr_Instructions req)
  then ixs ← go_mapM (fun '(i, ix) => raw_instruction i ix) (imap pair (tr_Instructions req)); Ret (ixs, [])
  else ixs ← transfer_instructions req from; Ret (ixs, []).

Definition solana_BuildUnsignedTx (req : TxRequest) : go UnsignedTx :=
  from ← Must (PublicKeyFromBase58 (tr_From req));
  '(instructions, extraSigners) ← build_instructions req from;
  tx ← NewTransaction instructions (repeat x00 32) from ?: "solana: build tx";
  msgBytes ← MarshalMessage (st_Message tx) ?: "solana: serialize message";
  rawBytes ← MarshalTransaction tx ?: "solana: serialize tx";
  Ret {| utx_RawBytes := rawBytes; utx_Hash := msgBytes; utx_To := tr_To req; utx_Value := tr_Value req;
         utx_Data := ""; utx_ExtraSignerKeys := extraSigners |}.

Definition solana_ExtractSignableBytes (unsignedTx : bytes) : go bytes :=
  tx ← TransactionFromBytes unsignedTx ?: "solana: decode tx";
  MarshalMessage (st_Message tx) ?: "solana: serialize message".

(** The slot of a key among the signers other than the payer. *)
Fixpoint signer_slot (i numSigs : Z) (keys : list bytes) (pk : bytes) : option nat :=
  match keys with
  | [] => None
  | key :: rest =>
    if bool_decide (key = pk) && (0 <? i) && (i <? numSigs) then Some (Z.to_nat i)
    else signer_slot (i + 1) numSigs rest pk
  end.

(** [copy(sigs[i][:], sigBytes)] for a 64-byte slot. *)
Definition fill_slot (sigBytes : bytes) (slot : bytes) : bytes :=
  take 64 sigBytes ++ drop (length (take 64 sigBytes)) slot.

Fixpoint extra_signatures (numSigs : Z) (keys : list bytes) (msgBytes : bytes) (extraKeys : list bytes)
    (sigs : list bytes) : go (list bytes) :=
  match extraKeys with
  | [] => Ret sigs
  | priv :: rest =>
    pub ← ed25519_Public priv;
    match signer_slot 0 numSigs keys (PublicKeyFromBytes pub) with
    | Some i =>
      sigBytes ← ed25519_Sign priv msgBytes;
      extra_signatures numSigs keys msgBytes rest (alter (fill_slot sigBytes) i sigs)
    | None => extra_signatures numSigs keys msgBytes rest sigs
    end
  end.

Definition AssembleSignedTxWithExtra (unsignedTx : bytes) (sig : Signature) (extraKeys : list bytes) : go bytes :=
  tx ← TransactionFromBytes unsignedTx ?: "solana: decode tx";
  if negb (zlen (sig_Bytes sig) =? 64)
  then Err ("solana: expected 64-byte ed25519 signature, got " +:+ Strconv.Itoa (zlen (sig_Bytes sig)))
  else
    let numSigs := Z.max 1 (sm_NumRequiredSignatures (st_Message tx)) in
    let sigs := alter (fill_slot (sig_Bytes sig)) 0%nat (repeat (repeat x00 64) (Z.to_nat numSigs)) in
    sigs ← (if 0 <? zlen extraKeys then
              msgBytes ← MarshalMessage (st_Message tx) ?: "solana: serialize message for extra signers";
              extra_signatures numSigs (sm_AccountKeys (st_Message tx)) msgBytes extraKeys sigs
            else Ret sigs);
    MarshalTransaction (mkTransaction sigs (st_Message tx)) ?: "solana: serialize signed tx".

Definition solana_AssembleSignedTx (unsignedTx : bytes) (sig : Signature) : go bytes :=
  AssembleSignedTxWithExtra unsignedTx sig [].

Definition decoded_tx (from : string) (to : list string) (value : string) : DecodedTx :=
  {| dtx_From := from; dtx_To := to; dtx_Value := value; dtx_Data := ""; dtx_Method := "";
     dtx_Args := ∅; dtx_ChainID := ""; dtx_GasLimit := 0 |}.

Definition solana_DecodeTx (txBytes : bytes) : go DecodedTx :=
  match TransactionFromBytes txBytes with
  | Ret tx =>
    let keys := sm_AccountKeys (st_Message tx) in
    Ret (decoded_tx (match keys with k :: _ => PublicKeyString k | [] => "" end)
                    (match keys with _ :: k :: _ => [PublicKeyString k] | _ => [] end) "")
  | Err e =>
    match parse_envelope txBytes with
    | Ret (from, to, amount) => Ret (decoded_tx from [to] (Strconv.Itoa amount))
    | _ => Err ("solana: decode tx: " +:+ e)
    end
  | Panic => Panic
  end.

Definition InjectBlockhash (unsignedTx : bytes) (blockhash : string) : go bytes :=
  tx ← TransactionFromBytes unsignedTx ?: "solana: decode tx for blockhash injection";
  h ← Must (HashFromBase58 blockhash);
  let m := st_Message tx in
  MarshalTransaction (mkTransaction (st_Signatures tx)
    (mkMessage (sm_NumRequiredSignatures m) (sm_AccountKeys m) h (sm_rest m))) ?: "solana: re-serialize tx".

Definition solana_adapter : Adapter := {|
  Name := "solana"; AdapterCurve := CurveEd25519; DeriveAddress := solana_DeriveAddress;
  BuildUnsignedTx := solana_BuildUnsignedTx; ExtractSignableBytes := solana_ExtractSignableBytes;
  AssembleSignedTx := solana_AssembleSignedTx; DecodeTx := solana_DecodeTx |}.
End Solana.

(** ** Facts *)

(** The addresses the check refuses, as intervals. *)
Definition reserved (x : ip) : Prop :=
  match x with
  | IPv4 a => a < 2 ^ 24 \/ 10 * 2 ^ 24 <= a < 11 * 2 ^ 24 \/ 127 * 2 ^ 24 <= a < 128 * 2 ^ 24 \/
              (172 * 256 + 16) * 2 ^ 16 <= a < (172 * 256 + 32) * 2 ^ 16 \/
              (192 * 256 + 168) * 2 ^ 16 <= a < (192 * 256 + 169) * 2 ^ 16 \/
              (169 * 256 + 254) * 2 ^ 16 <= a < (169 * 256 + 255) * 2 ^ 16
  | IPv6 a => a = 0 \/ a = 1 \/ 0xfc00 * 2 ^ 112 <= a < 0xfe00 * 2 ^ 112 \/
              0xfe80 * 2 ^ 112 <= a < 0xfec0 * 2 ^ 112
  end.

Lemma shiftr_block a b k : 0 <= k -> Z.shiftr a k = b <-> b * 2 ^ k <= a < (b + 1) * 2 ^ k.
Proof.
  intros Hk. rewrite Z.shiftr_div_pow2 by done. pose proof (Z.pow_pos_nonneg 2 k ltac:(lia) Hk).
  split.
  - intros <-. pose proof (Z.div_mod a (2 ^ k) ltac:(lia)). pose proof (Z.mod_pos_bound a (2 ^ k) ltac:(lia)). nia.
  - intros [Hl Hu]. symmetry. apply (Z.div_unique a (2 ^ k) b (a - b * 2 ^ k)); lia.
Qed.

Lemma isPrivateIP_reserved x : (match x with IPv4 a => 0 <= a < 2 ^ 32 | IPv6 a => 0 <= a < 2 ^ 128 end) ->
  isPrivateIP x = true <-> reserved x.
Proof.
  intros Hx. unfold isPrivateIP. rewrite existsb_exists.
  assert (HE : (exists y, In y privateRanges /\ (let '(block, ones) := y in in_block block ones x) = true) <->
    Exists (fun '(block, ones) => in_block block ones x = true) privateRanges).
  { rewrite List.Exists_exists. split; intros ([b o] & ? & ?); exists (b, o); auto. }
  rewrite HE. unfold privateRanges, dotted, reserved.
  rewrite !List.Exists_cons, List.Exists_nil. destruct x as [a|a]; cbn [in_block]; rewrite !Z.eqb_eq;
    rewrite !shiftr_block by lia;
    repeat match goal with |- context [Z.shiftr ?b ?k] =>
      let v := eval vm_compute in (Z.shiftr b k) in change (Z.shiftr b k) with v end; lia.
Qed.

Section SolanaFacts.
Context `{Unicode} `{SolanaGo} `{!SolanaGoLaws} `{SolanaWorld}.
Context (BuildAnchorTx : TxRequest -> bytes -> go (list Instruction * list bytes)).

Lemma check_ips_ok host ips : check_ips host ips = Ret tt ->
  Forall (fun s => exists x, ParseIP s = Some x /\ isPrivateIP x = false) ips.
Proof.
  induction ips as [|s ips IH]; cbn [check_ips]; [constructor|]. destruct (ParseIP s) as [x|] eqn:Ex; [|done].
  destruct (isPrivateIP x) eqn:Ep; [done|]. constructor; [by exists x|by apply IH].
Qed.


Lemma solana_Build_Ret req u : solana_BuildUnsignedTx BuildAnchorTx req = Ret u ->
  exists tx, MarshalTransaction tx = Ret (utx_RawBytes u) /\ MarshalMessage (st_Message tx) = Ret (utx_Hash u).
Proof.
  intros (from & _ & ([ixs extra] & _ & (tx & _ & (m & Hm%wrap_err_Ret & (r & Hr%wrap_err_Ret & [= <-])%go_bind_Ret)
    %go_bind_Ret)%go_bind_Ret)%go_bind_Ret)%go_bind_Ret. by exists tx.
Qed.

#[export] Instance solana_laws : AdapterLaws (solana_adapter BuildAnchorTx) (fun _ => True).
Proof.
  intros req u _ Hb. destruct (solana_Build_Ret _ _ Hb) as (tx & Hr & Hm).
  cbn [ExtractSignableBytes solana_adapter]. unfold solana_ExtractSignableBytes.
  rewrite (transaction_roundtrip _ _ Hr). cbn [wrap_err mbind go_bind]. by rewrite Hm.
Qed.

(** Refreshing the blockhash at signing time changes nothing else: the new
    bytes decode to the same transaction with only the blockhash replaced, so
    what the decoder shows of them is unchanged. *)
Theorem InjectBlockhash_only raw blockhash raw' : InjectBlockhash raw blockhash = Ret raw' ->
  exists tx h, TransactionFromBytes raw = Ret tx /\ HashFromBase58 blockhash = Ret h /\
    TransactionFromBytes raw' = Ret (mkTransaction (st_Signatures tx)
      (mkMessage (sm_NumRequiredSignatures (st_Message tx)) (sm_AccountKeys (st_Message tx)) h
                 (sm_rest (st_Message tx)))) /\
    solana_DecodeTx raw' = solana_DecodeTx raw.
Proof.
  intros (tx & Ht%wrap_err_Ret & (h & Hh & Hm%wrap_err_Ret%transaction_roundtrip)%go_bind_Ret)%go_bind_Ret.
  exists tx, h. split; [done|]. split; [by destruct (HashFromBase58 blockhash)|]. split; [done|].
  unfold solana_DecodeTx. by rewrite Ht, Hm.
Qed.

Lemma signer_slot_Some keys pk : forall i n j, 0 <= i -> signer_slot i n keys pk = Some j ->
  i <= Z.of_nat j < n /\ 0 < Z.of_nat j /\ keys !! (j - Z.to_nat i)%nat = Some pk.
Proof.
  induction keys as [|k keys IH]; intros i n j Hi; cbn; [done|].
  destruct (bool_decide (k = pk) && (0 <? i) && (i <? n)) eqn:E.
  - intros [= <-]. apply andb_true_iff in E as [[->%bool_decide_eq_true E1]%andb_true_iff E2].
    replace (Z.to_nat i - Z.to_nat i)%nat with 0%nat by lia. split; [lia|]. split; [lia|done].
  - intros (? & ? & Hk)%IH; [|lia]. split; [lia|]. split; [lia|].
    replace (j - Z.to_nat i)%nat with (Datatypes.S (j - Z.to_nat (i + 1)))%nat by lia. exact Hk.
Qed.

Lemma fill_slot_64 s slot : length s = 64%nat -> length slot = 64%nat -> fill_slot s slot = s.
Proof.
  intros Hs Hl. unfold fill_slot. rewrite take_ge by lia. rewrite drop_ge by lia. apply app_nil_r.
Qed.

Lemma repeat_lookup {A} (x y : A) n i : repeat x n !! i = Some y -> y = x.
Proof. intros Hi. by eapply repeat_spec, list_elem_of_In, list_elem_of_lookup_2. Qed.

(** What may stand in slot [i]: the ceremony's signature in the payer's, zeros
    or the signature of the extra key of that account elsewhere. *)
Definition slot_ok (keys : list bytes) (msg sig : bytes) (extraKeys : list bytes) (i : nat) (s : bytes) : Prop :=
  length s = 64%nat /\
  match i with
  | O => s = sig
  | _ => s = repeat x00 64 \/
         exists priv pub, In priv extraKeys /\ ed25519_Public priv = Ret pub /\
           keys !! i = Some (PublicKeyFromBytes pub) /\ ed25519_Sign priv msg = Ret s
  end.

Lemma extra_signatures_ok n keys msg sig extra : forall todo sigs sigs',
  incl todo extra -> (forall i s, sigs !! i = Some s -> slot_ok keys msg sig extra i s) ->
  extra_signatures n keys msg todo sigs = Ret sigs' ->
  length sigs' = length sigs /\ forall i s, sigs' !! i = Some s -> slot_ok keys msg sig extra i s.
Proof.
  induction todo as [|priv todo IH]; intros sigs sigs' Hincl Hok; cbn; [by intros [= <-]|].
  intros (pub & Hpub & HX)%go_bind_Ret.
  assert (Hincl' : incl todo extra) by (intros x Hx; apply Hincl; by right).
  destruct (signer_slot 0 n keys (PublicKeyFromBytes pub)) as [j|] eqn:Ej; [|by apply IH in HX].
  apply go_bind_Ret in HX as (sb & Hsign & HX). apply IH in HX as [Hl HX]; [by rewrite length_alter in Hl|done|].
  apply signer_slot_Some in Ej as (_ & Hj & Hk); [|lia]. rewrite Nat.sub_0_r in Hk.
  intros i s Hi. destruct (decide (i = j)) as [->|Hne]; [|rewrite list_lookup_alter_ne in Hi by done; by apply Hok].
  rewrite list_lookup_alter_eq in Hi. destruct (sigs !! j) as [s0|] eqn:E0; [|discriminate Hi]. cbn in Hi.
  destruct (Hok _ _ E0) as [Hl0 _]. pose proof (signature_size _ _ _ Hsign) as Hs.
  injection Hi as <-. rewrite fill_slot_64 by done. split; [done|]. destruct j as [|j]; [lia|].
  right. exists priv, pub. split; [apply Hincl; by left|done].
Qed.


(** What the decoder shows is not what the transaction does: two
    transactions with the same first two accounts decode alike, whatever their
    instructions, amounts and other accounts; in particular no value is shown. *)
Theorem solana_decode_unbound raw raw' tx tx' :
  TransactionFromBytes raw = Ret tx -> TransactionFromBytes raw' = Ret tx' ->
  take 2 (sm_AccountKeys (st_Message tx)) = take 2 (sm_AccountKeys (st_Message tx')) ->
  solana_DecodeTx raw = solana_DecodeTx raw' /\
  exists d, solana_DecodeTx raw = Ret d /\ dtx_Value d = "" /\
    dtx_To d = map PublicKeyString (drop 1 (take 2 (sm_AccountKeys (st_Message tx)))).
Proof.
  intros Ht Ht' Hk. unfold solana_DecodeTx. rewrite Ht, Ht'. revert Hk.
  destruct (sm_AccountKeys (st_Message tx)) as [|k0 [|k1 ks]], (sm_AccountKeys (st_Message tx')) as [|k0' [|k1' ks']];
    cbn; intros Hk; simplify_eq; (split; [done|by eexists]).
Qed.
End SolanaFacts.

(** ** A concrete instance

    Keys print as themselves; a message holds its accounts, one signer and the
    concatenated instruction data; an ed25519 key is its public key twice and
    "signs" with 64 copies of the first byte of the message. *)
Module ToySolana.
#[export] Existing Instance Toy.unicode.
Definition tx_tuple (t : SolTransaction bytes) : Z * list bytes * bytes * bytes * list bytes :=
  let m := st_Message t in
  (sm_NumRequiredSignatures m, sm_AccountKeys m, sm_RecentBlockhash m, sm_rest m, st_Signatures t).
Definition tuple_tx (t : Z * list bytes * bytes * bytes * list bytes) : SolTransaction bytes :=
  let '(n, k, h, r, s) := t in mkTransaction s (mkMessage n k h r).
#[export] Instance message_eq_dec : EqDecision (SolMessage bytes).
Proof. solve_decision. Defined.
#[export] Instance tx_eq_dec : EqDecision (SolTransaction bytes).
Proof. solve_decision. Defined.
#[export] Instance tx_countable : Countable (SolTransaction bytes) :=
  inj_countable' tx_tuple tuple_tx
    (fun t => match t with mkTransaction _ (mkMessage _ _ _ _) => eq_refl end).
Definition codec : Codec (SolTransaction bytes) := CountableCodec.codec (SolTransaction bytes).
#[export] Instance solana_go : SolanaGo := {|
  msg_rest := bytes;
  PublicKeyFromBase58 := fun s => Ret (bytes_of s); PublicKeyFromBytes := fun b => b; PublicKeyString := string_of;
  HashFromBase58 := fun s => Ret (bytes_of s);
  TransferInstruction := fun amount from to =>
    {| ix_ProgramID := []; ix_Accounts := [meta to false true]; ix_Data := Binary.le_bytes 8 amount |};
  NewTransaction := fun ixs h payer => Ret (mkTransaction []
    (mkMessage 1 (payer :: flat_map (fun ix => map am_PublicKey (ix_Accounts ix)) ixs) h (flat_map ix_Data ixs)));
  MarshalMessage := fun m => Ret (sm_RecentBlockhash m ++ sm_rest m);
  MarshalTransaction := @Marshal _ codec; TransactionFromBytes := @Unmarshal _ codec;
  FindProgramAddress := fun seeds _ => Ret (concat seeds, 255);
  SystemProgramID := [x00]; TokenProgramID := [x01]; Token2022ProgramID := [x02];
  SPLAssociatedTokenAccountProgramID := [x03];
  ed25519_Public := fun priv => Ret (take 1 priv);
  ed25519_Sign := fun priv m => Ret (repeat (default x00 (head m)) 64) |}.
#[export] Instance solana_go_laws : SolanaGoLaws.
Proof.
  split.
  - intros tx raw. by apply (@Unmarshal_Marshal _ codec (CountableCodec.codec_laws _)).
  - cbn. intros priv m s [= <-]. done.
Qed.
#[export] Instance world : SolanaWorld := {|
  rpc_post := fun _ _ => Ret (bytes_of "hash"); parse_blockhash := fun b => Ret (None, string_of b);
  parse_owner := fun _ => Ret None; parse_envelope := fun _ => Err "";
  url_Parse := fun s => Ret ("https", s);
  LookupHost := fun h => Ret [h];
  ParseIP := fun s => if bool_decide (s = "8.8.8.8") then Some (dotted 8 8 8 8) else Some (dotted 127 0 0 1) |}.

Definition message (amount : bytes) : SolMessage bytes := mkMessage 2 [[x0a]; [x0b]; [x0c]] [x07] amount.
Definition tx (amount : bytes) : SolTransaction msg_rest := mkTransaction [] (message amount).
Definition raw_of (amount : bytes) : bytes :=
  match MarshalTransaction (tx amount) with Ret b => b | _ => [] end.
Definition raw1 : bytes := Eval vm_compute in raw_of [x01].
Definition raw2 : bytes := Eval vm_compute in raw_of [x02].
Definition signature : Signature := {| sig_R := 0; sig_S := 0; sig_V := x00; sig_Bytes := repeat x2a 64 |}.
End ToySolana.
Import ToySolana.


Lemma InjectBlockhash_only_witness :
  match InjectBlockhash ToySolana.raw1 "fresh" with
  | Ret raw' => solana_DecodeTx raw' = solana_DecodeTx ToySolana.raw1 /\ is_ret (solana_DecodeTx raw') = true
  | _ => False
  end.
Proof.
  destruct (InjectBlockhash ToySolana.raw1 "fresh") as [raw'| |] eqn:E.
  - destruct (InjectBlockhash_only _ _ _ E) as (tx & h & _ & _ & Ht & HD). split; [exact HD|].
    unfold solana_DecodeTx. rewrite Ht. reflexivity.
  - vm_compute in E. discriminate E.
  - vm_compute in E. discriminate E.
Defined.


(** Two transfers of different amounts. *)
Lemma solana_decode_unbound_witness :
  ToySolana.raw1 <> ToySolana.raw2 /\ solana_DecodeTx ToySolana.raw1 = solana_DecodeTx ToySolana.raw2.
Proof.
  split; [discriminate|].
  apply (solana_decode_unbound ToySolana.raw1 ToySolana.raw2
    (ToySolana.tx [x01]) (ToySolana.tx [x02]));
    [vm_compute; reflexivity..|reflexivity].
Defined.
