(* ===== verification/Idl.v ===== *)
(** * Idl: Anchor interface descriptions (internal/vm/solana/idl.go)

    The unified IDL, its two JSON formats, the type decoder [UnmarshalJSON], the
    layout of the two kinds of on-chain IDL accounts, and [FetchIDL] with its
    cache. A byte slice whose backing array outlives the call (an instruction's
    discriminator, kept in the cache) is a pointer into a heap of arrays, since
    [append] may write into the array behind it. JSON scanning, zlib, HTTP and
    solana-go are classes. *)
From S2P Require Import Prelude GoStd Codec Crypto Protocol Transport Tss Vm Solana.
Local Open Scope Z_scope.
Local Open Scope go_scope.

(** ** Slices over a heap of arrays *)

(** The first [sl_len] bytes of array [sl_array]; the capacity is the length of
    the array. *)
Record slice := { sl_array : nat; sl_len : nat }.
Notation heap := (list bytes).
Definition array (h : heap) (s : slice) : bytes := default [] (h !! sl_array s).
Definition slice_bytes (h : heap) (s : slice) : bytes := take (sl_len s) (array h s).
Definition new_array (h : heap) (b : bytes) (len : nat) : heap * slice :=
  (h ++ [b], {| sl_array := length h; sl_len := len |}).
(** [append(s, l...)]: in place when the capacity suffices. *)
Definition append (h : heap) (s : slice) (l : bytes) : heap * slice :=
  let n := (sl_len s + length l)%nat in
  if (n <=? length (array h s))%nat then
    (<[sl_array s := slice_bytes h s ++ l ++ drop n (array h s)]> h, {| sl_array := sl_array s; sl_len := n |})
  else new_array h (slice_bytes h s ++ l) n.

(** ** The unified IDL *)

(** [IDLType]: a struct of optional parts, one of which is populated. *)
Inductive IDLType := mkIDLType {
  ty_Primitive : string; ty_OptionInner : option IDLType; ty_VecInner : option IDLType;
  ty_DefinedName : string; ty_ArrayElem : option IDLType; ty_ArrayLen : Z }.
Definition no_type : IDLType := mkIDLType "" None None "" None 0.
Definition primitive (s : string) : IDLType := mkIDLType s None None "" None 0.
Definition defined (s : string) : IDLType := mkIDLType "" None None s None 0.

Record IDLField := { fd_Name : string; fd_Type : IDLType }.
Record IDLTypeDef := { td_Name : string; td_Fields : list IDLField }.
Record IDLSeed := { sd_Kind : string; sd_Value : bytes; sd_Path : string }.
Record IDLSeedRef := { sr_Kind : string; sr_Value : bytes; sr_Path : string }.
Record IDLPDA := { pda_Seeds : list IDLSeed; pda_Program : option IDLSeedRef }.
Record IDLAccount := {
  ac_Name : string; ac_Writable : bool; ac_Signer : bool; ac_Address : string; ac_PDA : option IDLPDA }.
Record IDLInstruction := {
  in_Name : string; in_Discriminator : slice; in_Accounts : list IDLAccount; in_Args : list IDLField }.
Record AnchorIDL := { idl_Name : string; idl_Instructions : list IDLInstruction; idl_Types : list IDLTypeDef }.

(** ** The JSON formats *)
Record rawSeedNew := { rs_Kind : string; rs_Value : bytes; rs_Path : string }.
Record rawPDANew := { rp_Seeds : list rawSeedNew; rp_Program : option bytes }.
Record rawAccountNew := {
  ra_Name : string; ra_Writable : bool; ra_Signer : bool; ra_Address : string; ra_PDA : option rawPDANew }.
(** The discriminator comes with the spare capacity the decoder left behind it. *)
Record rawIxNew := {
  rx_Name : string; rx_Discriminator : bytes; rx_spare : bytes;
  rx_Accounts : list rawAccountNew; rx_Args : list IDLField }.
Record rawTypeDef := { rt_Name : string; rt_Kind : string; rt_Fields : list IDLField }.
Record rawIDLNew := {
  rn_Name : string; rn_Instructions : list rawIxNew; rn_Types : list rawTypeDef; rn_Accounts : list rawTypeDef }.
Record rawAccountOld := { ro_Name : string; ro_IsMut : bool; ro_IsSigner : bool }.
Record rawIxOld := { rxo_Name : string; rxo_Accounts : list rawAccountOld; rxo_Args : list IDLField }.
Record rawIDLOld := {
  rio_Name : string; rio_Instructions : list rawIxOld; rio_Types : list rawTypeDef; rio_Accounts : list rawTypeDef }.

(** [json.Unmarshal] into the types the code passes it; the two IDL formats
    call back [UnmarshalJSON] for every type they contain. *)
Class IdlJson := {
  json_string : bytes -> go string;
  json_object : bytes -> go (gmap string bytes);
  json_array : bytes -> go (list bytes);
  json_int : bytes -> go Z;
  json_bytes : bytes -> go bytes;
  json_name : bytes -> go string;                        (* struct{ Name } *)
  json_program : bytes -> go (string * bytes * string);  (* struct{ Kind, Value, Path } *)
  json_probe : bytes -> go (bool * string);              (* metadata present, version *)
  json_idl_new : (bytes -> go IDLType) -> bytes -> go rawIDLNew;
  json_idl_old : (bytes -> go IDLType) -> bytes -> go rawIDLOld;
}.
(** A member of a JSON object or array is shorter than the whole. *)
Class IdlJsonLaws `{IdlJson} := {
  json_object_member d m k raw : json_object d = Ret m -> m !! k = Some raw -> (length raw < length d)%nat;
  json_array_member d l raw : json_array d = Ret l -> In raw l -> (length raw < length d)%nat;
}.

Section Parse.
Context `{IdlJson}.

(** [IDLType.UnmarshalJSON]; [None] when the fuel runs out. *)
Fixpoint UnmarshalJSON (fuel : nat) (data : bytes) : option (go IDLType) :=
  match fuel with
  | O => None
  | S fuel =>
    let wrap (f : IDLType -> IDLType) (raw : bytes) : option (go IDLType) :=
      match UnmarshalJSON fuel raw with
      | Some (Ret t) => Some (Ret (f t)) | Some (Err e) => Some (Err e) | Some Panic => Some Panic
      | None => None end in
    match json_string data with
    | Ret s => Some (Ret (primitive s))
    | Panic => Some Panic
    | Err _ =>
      match json_object data with
      | Panic => Some Panic
      | Err _ => Some (Err ("invalid IDL type: " +:+ string_of data))
      | Ret obj =>
        match obj !! "option" with
        | Some raw => wrap (fun t => mkIDLType "" (Some t) None "" None 0) raw
        | None =>
        match obj !! "vec" with
        | Some raw => wrap (fun t => mkIDLType "" None (Some t) "" None 0) raw
        | None =>
        match obj !! "defined" with
        | Some raw =>
          Some (match json_string raw with
                | Err _ => name ← json_name raw; Ret (defined name)
                | m => name ← m; Ret (defined name) end)
        | None =>
        match obj !! "array" with
        | Some raw =>
          match json_array raw with
          | Ret [elem; len] =>
            match UnmarshalJSON fuel elem with
            | Some (Ret t) => Some (n ← json_int len; Ret (mkIDLType "" None None "" (Some t) n))
            | r => r
            end
          | Ret _ => Some (Err "invalid array type")
          | Err e => Some (Err e)
          | Panic => Some Panic
          end
        | None => Some (Err ("unknown IDL type: " +:+ string_of data))
        end end end end
      end
    end
  end.

(** The data's length is fuel enough. *)
Definition type_of_json (data : bytes) : go IDLType :=
  default Panic (UnmarshalJSON (S (length data)) data).

(** [toSnakeCase]: each rune is cut to its low byte. *)
Fixpoint snake (first : bool) (runes : list Z) : bytes :=
  match runes with
  | [] => []
  | c :: rest =>
    (if (0x41 <=? c) && (c <=? 0x5A)
     then (if first then [] else [x5f]) ++ [byte_of_Z (c + 32)] else [byte_of_Z c]) ++ snake false rest
  end.
Definition toSnakeCase (s : string) : string := string_of (snake true (Utf8.runes_of (bytes_of s))).

(** sha256("global:<name>"); its slice [h[:8]] keeps the capacity of 32. *)
Definition anchorDiscriminator (h : heap) (name : string) : heap * slice :=
  new_array h (Sha256.Sum256 (bytes_of ("global:" +:+ toSnakeCase name))) 8.

Definition struct_types (raw : list rawTypeDef) : list IDLTypeDef :=
  map (fun rt => {| td_Name := rt_Name rt; td_Fields := rt_Fields rt |})
    (List.filter (fun rt => bool_decide (rt_Kind rt = "struct") && (0 <? zlen (rt_Fields rt))) raw).

Definition parseSeed (rs : rawSeedNew) : IDLSeed :=
  let value :=
    if bool_decide (rs_Kind rs = "const") && (0 <? zlen (rs_Value rs)) then
      match json_bytes (rs_Value rs) with
      | Ret b => b
      | _ => match json_string (rs_Value rs) with Ret s => bytes_of s | _ => [] end
      end
    else [] in
  let path :=
    if bool_decide (rs_Kind rs = "account") && bool_decide (rs_Path rs = "") then
      match json_string (rs_Value rs) with Ret s => s | _ => "" end
    else rs_Path rs in
  {| sd_Kind := rs_Kind rs; sd_Value := value; sd_Path := path |}.

Definition parsePDANew (raw : rawPDANew) : IDLPDA :=
  {| pda_Seeds := map parseSeed (rp_Seeds raw);
     pda_Program :=
       prog ← rp_Program raw;
       match json_program prog with
       | Ret (kind, value, path) =>
         Some {| sr_Kind := kind; sr_Path := path;
                 sr_Value := if bool_decide (kind = "const")
                             then match json_bytes value with Ret b => b | _ => [] end else [] |}
       | _ => None
       end |}.

Definition account_new (ra : rawAccountNew) : IDLAccount :=
  {| ac_Name := ra_Name ra; ac_Writable := ra_Writable ra; ac_Signer := ra_Signer ra;
     ac_Address := ra_Address ra; ac_PDA := parsePDANew <$> ra_PDA ra |}.
Definition account_old (ra : rawAccountOld) : IDLAccount :=
  {| ac_Name := ro_Name ra; ac_Writable := ro_IsMut ra; ac_Signer := ro_IsSigner ra;
     ac_Address := ""; ac_PDA := None |}.

(** The instructions of either format, allocating their discriminators. *)
Fixpoint instructions_new (h : heap) (l : list rawIxNew) : heap * list IDLInstruction :=
  match l with
  | [] => (h, [])
  | rix :: rest =>
    let '(h1, disc) :=
      if zlen (rx_Discriminator rix) =? 0 then anchorDiscriminator h (rx_Name rix)
      else new_array h (rx_Discriminator rix ++ rx_spare rix) (length (rx_Discriminator rix)) in
    let '(h2, ixs) := instructions_new h1 rest in
    (h2, {| in_Name := rx_Name rix; in_Discriminator := disc; in_Accounts := map account_new (rx_Accounts rix);
            in_Args := rx_Args rix |} :: ixs)
  end.
Fixpoint instructions_old (h : heap) (l : list rawIxOld) : heap * list IDLInstruction :=
  match l with
  | [] => (h, [])
  | rix :: rest =>
    let '(h1, disc) := anchorDiscriminator h (rxo_Name rix) in
    let '(h2, ixs) := instructions_old h1 rest in
    (h2, {| in_Name := rxo_Name rix; in_Discriminator := disc; in_Accounts := map account_old (rxo_Accounts rix);
            in_Args := rxo_Args rix |} :: ixs)
  end.

Definition parseIDLNew (h : heap) (data : bytes) : heap * go AnchorIDL :=
  match json_idl_new type_of_json data ?: "parse new IDL" with
  | Ret raw =>
    let '(h', ixs) := instructions_new h (rn_Instructions raw) in
    (h', Ret {| idl_Name := rn_Name raw; idl_Instructions := ixs;
                idl_Types := struct_types (rn_Types raw ++ rn_Accounts raw) |})
  | Err e => (h, Err e)
  | Panic => (h, Panic)
  end.
Definition parseIDLOld (h : heap) (data : bytes) : heap * go AnchorIDL :=
  match json_idl_old type_of_json data ?: "parse old IDL" with
  | Ret raw =>
    let '(h', ixs) := instructions_old h (rio_Instructions raw) in
    (h', Ret {| idl_Name := rio_Name raw; idl_Instructions := ixs;
                idl_Types := struct_types (rio_Types raw ++ rio_Accounts raw) |})
  | Err e => (h, Err e)
  | Panic => (h, Panic)
  end.
(** The new format has "metadata". *)
Definition parseIDL (h : heap) (data : bytes) : heap * go AnchorIDL :=
  match json_probe data ?: "probe IDL format" with
  | Ret (metadata, _) => if metadata : bool then parseIDLNew h data else parseIDLOld h data
  | Err e => (h, Err e)
  | Panic => (h, Panic)
  end.
End Parse.

(** ** On-chain accounts *)

(** [zlib.NewReader] on the data: an error, or what [io.ReadAll] of the first 2
    MB of the decompressed stream gives; [getAccountInfo]'s answer, its error
    message if any and the first element of [data]. *)
Class IdlChain := {
  zlib_open : bytes -> go (go bytes);
  parse_account : bytes -> go (option string * option string);
  programMetadataID : bytes;
}.

Section Chain.
Context `{Unicode} `{SolanaGo} `{SolanaWorld} `{IdlJson} `{IdlChain}.

(** 0 = none, 1 = zlib; anything else is tried as zlib. *)
Definition decompressIDL (data : bytes) (compression : byte) : go bytes :=
  if Z_of_byte compression =? 0 then Ret data
  else if Z_of_byte compression =? 1 then
    r ← zlib_open data ?: "zlib open"; r
  else match zlib_open data with Ret (Ret decompressed) => Ret decompressed | _ => Ret data end.

Definition account_data_body (address : string) : string :=
  "{" +:+ quoted "jsonrpc" +:+ ":" +:+ quoted "2.0" +:+ "," +:+ quoted "id" +:+ ":1," +:+ quoted "method" +:+ ":"
  +:+ quoted "getAccountInfo" +:+ "," +:+ quoted "params" +:+ ":[" +:+ quoted address +:+ ",{"
  +:+ quoted "encoding" +:+ ":" +:+ quoted "base64" +:+ "}]}".

Definition fetchAccountDataRaw (rpcURL address : string) : go bytes :=
  body ← rpc_post rpcURL (account_data_body address);
  '(error, value) ← parse_account (take (Z.to_nat 1048576) body) ?: "parse RPC response";
  match error, value with
  | Some m, _ => Err ("RPC error: " +:+ m)
  | None, None => Err ("account not found: " +:+ address)
  | None, Some data => Base64.DecodeString data
  end.

(** The header of a Program Metadata account, and of a legacy IDL account. *)
Definition metadataHeaderSize : Z := 8 + 1 + 32 + 32 + 1 + 1 + 1 + 1 + 4.
Definition metadata_payload (accountData : bytes) : go (byte * bytes) :=
  if zlen accountData <? metadataHeaderSize
  then Err ("metadata account too short: " +:+ Strconv.Itoa (zlen accountData) +:+ " bytes")
  else
    compression ← Slice.index accountData (8 + 1 + 32 + 32 + 1);
    lenBytes ← Slice.sub accountData (metadataHeaderSize - 4) metadataHeaderSize;
    let dataLen := Binary.le_Z lenBytes in
    payload ← Slice.sub accountData metadataHeaderSize (zlen accountData);
    if zlen payload mod 2 ^ 32 <? dataLen
    then Err ("metadata truncated: want " +:+ Strconv.Itoa dataLen +:+ ", have " +:+ Strconv.Itoa (zlen payload))
    else p ← Slice.sub payload 0 dataLen; Ret (compression, p).
Definition legacy_payload (accountData : bytes) : go bytes :=
  if zlen accountData <? 44
  then Err ("legacy IDL account too short: " +:+ Strconv.Itoa (zlen accountData) +:+ " bytes")
  else
    lenBytes ← Slice.sub accountData 40 44;
    let dataLen := Binary.le_Z lenBytes in
    payload ← Slice.sub accountData 44 (zlen accountData);
    if zlen payload mod 2 ^ 32 <? dataLen
    then Err ("legacy IDL truncated: want " +:+ Strconv.Itoa dataLen +:+ ", have " +:+ Strconv.Itoa (zlen payload))
    else Slice.sub payload 0 dataLen.

(** [m] gives the JSON; parsing it allocates. *)
Definition then_parse (h : heap) (m : go bytes) : heap * go AnchorIDL :=
  match m with Ret json => parseIDL h json | Err e => (h, Err e) | Panic => (h, Panic) end.

Definition fetchIDLFromMetadata (h : heap) (rpcURL : string) (programID : bytes) : heap * go AnchorIDL :=
  then_parse h (
    '(idlAddr, _) ← FindProgramAddress [programID; bytes_of "idl"] programMetadataID ?: "compute metadata PDA";
    accountData ← fetchAccountDataRaw rpcURL (PublicKeyString idlAddr);
    '(compression, payload) ← metadata_payload accountData;
    decompressIDL payload compression).

Definition fetchIDLLegacy (h : heap) (rpcURL : string) (programID : bytes) : heap * go AnchorIDL :=
  then_parse h (
    '(programSigner, _) ← FindProgramAddress [] programID ?: "compute program signer";
    let idlAddr := PublicKeyFromBytes (Sha256.Sum256 (programSigner ++ bytes_of "anchor:idl" ++ programID)) in
    accountData ← fetchAccountDataRaw rpcURL (PublicKeyString idlAddr);
    payload ← legacy_payload accountData;
    match decompressIDL payload x01 with Err _ => Ret payload | m => m end).

(** The package's variables: the two maps and the heap the IDLs live in. *)
Record AnchorState := mkAnchorState {
  as_programAccounts : gmap string bytes; as_idlCache : gmap string AnchorIDL; as_heap : heap }.

Definition cache_idl (st : AnchorState) (h : heap) (key : string) (idl : AnchorIDL) : AnchorState :=
  mkAnchorState (as_programAccounts st) (<[key := idl]> (as_idlCache st)) h.

Definition FetchIDL (st : AnchorState) (rpcURL : string) (programID : bytes) : AnchorState * go AnchorIDL :=
  let key := PublicKeyString programID in
  match as_idlCache st !! key with
  | Some cached => (st, Ret cached)
  | None =>
    match fetchIDLFromMetadata (as_heap st) rpcURL programID with
    | (h, Ret idl) => (cache_idl st h key idl, Ret idl)
    | (h, Panic) => (mkAnchorState (as_programAccounts st) (as_idlCache st) h, Panic)
    | (h, Err _) =>
      match fetchIDLLegacy h rpcURL programID with
      | (h, Ret idl) => (cache_idl st h key idl, Ret idl)
      | (h, Panic) => (mkAnchorState (as_programAccounts st) (as_idlCache st) h, Panic)
      | (h, Err _) =>
        (mkAnchorState (as_programAccounts st) (as_idlCache st) h,
         Err ("IDL not found for program " +:+ key +:+
              ": tried Program Metadata PDA and legacy create_with_seed"))
      end
    end
  end.
End Chain.
