(* ===== verification/Anchor.v ===== *)
(** * Anchor: calls of Anchor programs (internal/vm/solana/anchor.go)

    From an IDL, a method name and string arguments to Solana instructions:
    account resolution over four passes, PDA and token-account derivation,
    ephemeral signers, and Borsh encoding of the arguments. Go's unspecified map
    iteration order is the class [MapOrder] of [GoStd.v]; [ed25519.GenerateKey] and the two
    system variables are [AnchorGo]. *)
From S2P Require Import Prelude GoStd Codec Crypto Protocol Transport Tss Vm Solana Idl.
Local Open Scope Z_scope.
Local Open Scope go_scope.

Class AnchorGo := {
  SysVarRentPubkey : bytes;
  SysVarClockPubkey : bytes;
  GenerateKey : nat -> go (bytes * bytes);     (* public and private key of the n-th call *)
}.

(** The first entry in iteration order whose key is [name] in snake case. *)
Definition find_snake `{MapOrder} {V} (name : string) (m : gmap string V) : option V :=
  snd <$> List.find (fun '(k, _) => bool_decide (toSnakeCase k = name)) (range m).

(** ** Borsh *)

(** [big.Int.Uint64] and [Int64] as math/big computes them outside their range:
    the low 64 bits of the magnitude, then the sign. *)
Definition Uint64 (n : Z) : Z := Z.abs n mod 2 ^ 64.
Definition Int64 (n : Z) : Z :=
  let v := Z.abs n mod 2 ^ 64 in
  let v := if n <? 0 then - v else v in
  let w := v mod 2 ^ 64 in if w <? 2 ^ 63 then w else w - 2 ^ 64.

(** [fillLE(b, n)] for a zeroed [b] of [w] bytes. *)
Definition fillLE (w : nat) (n : Z) : bytes :=
  let b := take w (rev (Big.Bytes n)) in b ++ repeat x00 (w - length b).

Section Borsh.
Context `{Unicode} `{SolanaGo} `{MapOrder}.

Definition integer (val prim : string) (encode : Z -> bytes) : go bytes :=
  match Strconv.SetString10 val with
  | Some n => Ret (encode n)
  | None => Err ("invalid " +:+ prim +:+ ": " +:+ val)
  end.

(** The fixed-width integer types: their encoder. *)
Definition int_encoder (prim : string) : option (Z -> bytes) :=
  if bool_decide (prim = "u8") then Some (fun n => Binary.le_bytes 1 (Uint64 n))
  else if bool_decide (prim = "u16") then Some (fun n => Binary.le_bytes 2 (Uint64 n))
  else if bool_decide (prim = "u32") then Some (fun n => Binary.le_bytes 4 (Uint64 n))
  else if bool_decide (prim = "u64") then Some (fun n => Binary.le_bytes 8 (Uint64 n))
  else if bool_decide (prim = "u128") then Some (fillLE 16)
  else if bool_decide (prim = "i8") then Some (fun n => Binary.le_bytes 1 (Int64 n))
  else if bool_decide (prim = "i16") then Some (fun n => Binary.le_bytes 2 (Int64 n))
  else if bool_decide (prim = "i32") then Some (fun n => Binary.le_bytes 4 (Int64 n))
  else if bool_decide (prim = "i64") then Some (fun n => Binary.le_bytes 8 (Int64 n))
  else None.

Definition serializePrimitive (val prim : string) : go bytes :=
  match int_encoder prim with
  | Some encode => integer val prim encode
  | None =>
    if bool_decide (prim = "bool")
    then Ret [if bool_decide (val = "true") || bool_decide (val = "1") then x01 else x00]
    else if bool_decide (prim = "string") then Ret (Binary.le_bytes 4 (slen val) ++ bytes_of val)
    else if bool_decide (prim = "publicKey") || bool_decide (prim = "pubkey")
    then Must (PublicKeyFromBase58 val)
    else if bool_decide (prim = "bytes") then Hex.hexDecodeBytes val
    else Err ("unsupported primitive type " +:+ Strconv.Quote prim)
  end.

(** The argument of a field: by its name, else by its snake case. *)
Definition lookup_arg (args : gmap string string) (name : string) : option string :=
  match args !! name with Some v => Some v | None => find_snake (toSnakeCase name) args end.

(** [serializeBorshArgs], over the serializer of one value; [None] is a
    recursion that has not come to an end. *)
Fixpoint args_with (ser : string -> IDLType -> option (go bytes)) (fields : list IDLField)
    (args : gmap string string) : option (go bytes) :=
  match fields with
  | [] => Some (Ret [])
  | f :: rest =>
    match lookup_arg args (fd_Name f) with
    | None => Some (Err ("missing arg " +:+ Strconv.Quote (fd_Name f)))
    | Some val =>
      match ser val (fd_Type f) with
      | Some (Ret b) =>
        match args_with ser rest args with Some (Ret r) => Some (Ret (b ++ r)) | x => x end
      | Some (Err e) => Some (Err ("arg " +:+ Strconv.Quote (fd_Name f) +:+ ": " +:+ e))
      | x => x
      end
    end
  end.

Definition find_type (types : list IDLTypeDef) (name : string) : option IDLTypeDef :=
  List.find (fun td => bool_decide (td_Name td = name)) types.

(** A named type is serialized as a struct whose only argument is its first
    field's. *)
Fixpoint serializeBorshValue (fuel : nat) (types : list IDLTypeDef) (val : string) (typ : IDLType)
    : option (go bytes) :=
  match fuel with
  | O => None
  | S fuel =>
    if negb (bool_decide (ty_Primitive typ = "")) then Some (serializePrimitive val (ty_Primitive typ))
    else match ty_OptionInner typ with
    | Some inner =>
      if bool_decide (val = "") || bool_decide (val = "null") || bool_decide (val = "none") then Some (Ret [x00])
      else match serializeBorshValue fuel types val inner with
           | Some (Ret b) => Some (Ret (x01 :: b)) | x => x end
    | None =>
      if negb (bool_decide (ty_DefinedName typ = "")) then
        match find_type types (ty_DefinedName typ) with
        | Some td =>
          match td_Fields td with
          | f0 :: _ => args_with (serializeBorshValue fuel types) (td_Fields td) {[fd_Name f0 := val]}
          | [] => Some Panic
          end
        | None => Some (Err ("unknown type " +:+ Strconv.Quote (ty_DefinedName typ)))
        end
      else Some (Err "unsupported type for serialization")
    end
  end.

Definition serializeBorshArgs (fuel : nat) (types : list IDLTypeDef) (fields : list IDLField)
    (args : gmap string string) : option (go bytes) :=
  args_with (serializeBorshValue fuel types) fields args.
End Borsh.

(** ** Accounts *)
Section Accounts.
Context `{Unicode} `{SolanaGo} `{SolanaWorld} `{MapOrder} `{AnchorGo}.

Definition knownPrograms : gmap string bytes := list_to_map [
  ("system_program", SystemProgramID); ("systemProgram", SystemProgramID);
  ("token_program", TokenProgramID); ("tokenProgram", TokenProgramID);
  ("associated_token_program", SPLAssociatedTokenAccountProgramID);
  ("associatedTokenProgram", SPLAssociatedTokenAccountProgramID);
  ("rent", SysVarRentPubkey); ("clock", SysVarClockPubkey)].

Definition programAccountKey (programID mint accountName : string) : string :=
  programID +:+ ":" +:+ mint +:+ ":" +:+ toSnakeCase accountName.
Definition storeProgramAccount (accounts : gmap string bytes) (programID mint accountName : string)
    (pubkey : bytes) : gmap string bytes :=
  <[programAccountKey programID mint accountName := pubkey]> accounts.
Definition lookupProgramAccount (accounts : gmap string bytes) (programID mint accountName : string) : option bytes :=
  accounts !! programAccountKey programID mint accountName.

Record ataResolution := { at_ata : bytes; at_owner : bytes; at_mint : bytes; at_tokenProg : bytes }.

(** What a request fixes for the resolution of all its accounts. *)
Context (rpcURL : string) (programID signer : bytes) (mint : option bytes) (args : gmap string string)
        (mintStr : string) (programAccounts : gmap string bytes).

Definition is_payer_name (nameSnake : string) : bool :=
  bool_decide (nameSnake ∈ ["authority"; "user"; "payer"; "signer"; "owner"; "initializer"]).

Definition finds (seeds : list bytes) : bool := match FindProgramAddress seeds programID with Ret _ => true | _ => false end.

(** [isProbablyPDA]: whether any of the three patterns has a program address. *)
Definition isProbablyPDA (nameSnake : string) : bool :=
  match mint with Some m => finds [bytes_of nameSnake; m] | None => false end
  || finds [bytes_of nameSnake; signer] || finds [bytes_of nameSnake].

Definition isTokenAccountName (snake : string) : bool :=
  Strings.Contains snake "token_account" || Strings.HasSuffix snake "_ata" || Strings.HasSuffix snake "_token".

Definition inferTokenOwner (nameSnake : string) (resolved : gmap string bytes) : bytes :=
  let prefix := Strings.TrimSuffix (Strings.TrimSuffix (Strings.TrimSuffix nameSnake "_token_account") "_ata") "_token" in
  if bool_decide (prefix ∈ ["user"; "authority"; "signer"; "payer"; nameSnake]) then signer
  else match resolved !! prefix with
       | Some pk => pk
       | None => default signer (find_snake prefix resolved)
       end.

Definition seed_bytes (resolved : gmap string bytes) (s : IDLSeed) : go bytes :=
  if bool_decide (sd_Kind s = "const") then Ret (sd_Value s)
  else if bool_decide (sd_Kind s = "account") then
    let ref := sd_Path s in
    let refSnake := toSnakeCase ref in
    if bool_decide (refSnake = "mint") || bool_decide (refSnake = "token_mint") then
      from_option_err "PDA seed references mint but no mint provided" mint
    else match resolved !! ref with
    | Some pk => Ret pk
    | None =>
      match find_snake refSnake resolved with
      | Some pk => Ret pk
      | None => from_option_err ("PDA seed references unresolved account " +:+ Strconv.Quote ref) (knownPrograms !! ref)
      end
    end
  else if bool_decide (sd_Kind s = "arg") then
    match lookup_arg args (sd_Path s) with
    | Some v => Ret (bytes_of v)
    | None => Err ("PDA seed references unknown arg " +:+ Strconv.Quote (sd_Path s))
    end
  else Err ("unknown PDA seed kind " +:+ Strconv.Quote (sd_Kind s)).

(** The program a PDA is derived against. *)
Definition pda_program (resolved : gmap string bytes) (pda : IDLPDA) : bytes :=
  match pda_Program pda with
  | Some p =>
    if bool_decide (sr_Kind p = "const") then
      if zlen (sr_Value p) =? 32 then PublicKeyFromBytes (sr_Value p) else programID
    else if bool_decide (sr_Kind p = "account") then
      match resolved !! sr_Path p with
      | Some pk => pk
      | None => default programID (knownPrograms !! sr_Path p)
      end
    else programID
  | None => programID
  end.

Definition derivePDA (pda : IDLPDA) (resolved : gmap string bytes) : go (bytes * Z) :=
  seeds ← go_mapM (seed_bytes resolved) (pda_Seeds pda);
  FindProgramAddress seeds (pda_program resolved pda) ?: "FindProgramAddress".

(** The token program of a derived token account: resolved, else detected over
    RPC, else the legacy one. *)
Definition token_program (resolved : gmap string bytes) (m : bytes) : bytes :=
  match resolved !! "token_program" with
  | Some tp => tp
  | None =>
    match resolved !! "tokenProgram" with
    | Some tp => tp
    | None =>
      if bool_decide (rpcURL = "") then TokenProgramID
      else match detectTokenProgram rpcURL m with Ret detected => detected | _ => TokenProgramID end
    end
  end.

(** The last strategies: the three common seed patterns, in order, then the
    accounts stored by earlier calls. *)
Definition pattern_or_stored (name nameSnake : string) : go (bytes * Z * option ataResolution) :=
  let try seeds k := match FindProgramAddress seeds programID with
                     | Ret (pk, bump) => Ret (pk, bump, None) | Panic => Panic | Err _ => k end in
  let stored := match lookupProgramAccount programAccounts (PublicKeyString programID) mintStr name with
                | Some pk => Ret (pk, 0, None) | None => Err "no resolution strategy" end in
  let rest := try [bytes_of nameSnake; signer] (try [bytes_of nameSnake] stored) in
  match mint with Some m => try [bytes_of nameSnake; m] rest | None => rest end.

(** "*_authority": a PDA of the account it is the authority of. *)
Definition authority_pda (nameSnake : string) (resolved : gmap string bytes) : option (go (bytes * Z)) :=
  if Strings.HasSuffix nameSnake "_authority" then
    let baseName := Strings.TrimSuffix nameSnake "_authority" in
    base ← match resolved !! baseName with Some pk => Some pk | None => find_snake baseName resolved end;
    match FindProgramAddress [bytes_of baseName; base] programID with
    | Err _ => match FindProgramAddress [base] programID with Err _ => None | m => Some m end
    | m => Some m
    end
  else None.

Definition resolveOneAccount (acc : IDLAccount) (resolved : gmap string bytes)
    : go (bytes * Z * option ataResolution) :=
  if negb (bool_decide (ac_Address acc = "")) then
    pk ← Must (PublicKeyFromBase58 (ac_Address acc)); Ret (pk, 0, None)
  else if ac_Signer acc then Ret (signer, 0, None)
  else match knownPrograms !! ac_Name acc with
  | Some pk => Ret (pk, 0, None)
  | None =>
    let nameSnake := toSnakeCase (ac_Name acc) in
    let heuristics :=
      match authority_pda nameSnake resolved with
      | Some m => '(pk, bump) ← m; Ret (pk, bump, None)
      | None => pattern_or_stored (ac_Name acc) nameSnake
      end in
    let pda_or m := match ac_PDA acc with
                    | Some pda => '(pk, bump) ← derivePDA pda resolved; Ret (pk, bump, None)
                    | None => m end in
    match mint with
    | None => pda_or heuristics
    | Some m =>
      if bool_decide (nameSnake = "mint") || bool_decide (nameSnake = "token_mint") then Ret (m, 0, None)
      else pda_or (
        if isTokenAccountName nameSnake then
          let owner := inferTokenOwner nameSnake resolved in
          let tokenProg := token_program resolved m in
          '(ata, bump) ← findATA owner m tokenProg ?: "derive ATA";
          Ret (ata, bump, Some {| at_ata := ata; at_owner := owner; at_mint := m; at_tokenProg := tokenProg |})
        else heuristics)
    end
  end.

(** The state of the resolution loops. *)
Record resolution := {
  rv_resolved : gmap string bytes; rv_bumps : gmap string Z; rv_atas : list ataResolution }.

Definition resolve_step (pass : Z) (s : resolution) (acc : IDLAccount) : go resolution :=
  match rv_resolved s !! ac_Name acc with
  | Some _ => Ret s
  | None =>
    match resolveOneAccount acc (rv_resolved s) with
    | Ret (pk, bump, ata) =>
      Ret {| rv_resolved := <[ac_Name acc := pk]> (rv_resolved s);
             rv_bumps := if 0 <? bump then <[ac_Name acc := bump]> (rv_bumps s) else rv_bumps s;
             rv_atas := match ata with Some a => rv_atas s ++ [a] | None => rv_atas s end |}
    | Err e => if pass <? 3 then Ret s else Err ("account " +:+ Strconv.Quote (ac_Name acc) +:+ ": " +:+ e)
    | Panic => Panic
    end
  end.

Definition fixed_step (resolved : gmap string bytes) (acc : IDLAccount) : go (gmap string bytes) :=
  if bool_decide (ac_Address acc = "") then Ret resolved
  else match resolved !! ac_Name acc with
       | Some _ => Ret resolved
       | None => pk ← Must (PublicKeyFromBase58 (ac_Address acc)); Ret (<[ac_Name acc := pk]> resolved)
       end.

Definition account_meta (resolved : gmap string bytes) (acc : IDLAccount) : go AccountMeta :=
  pk ← from_option_err ("account " +:+ Strconv.Quote (ac_Name acc) +:+ " could not be resolved")
         (resolved !! ac_Name acc);
  Ret (meta pk (ac_Signer acc) (ac_Writable acc)).

Definition resolveAccountsWithEphemeral (accounts : list IDLAccount) (ephemeralPubs : gmap string bytes)
    : go (list AccountMeta * gmap string Z * list ataResolution) :=
  fixed ← go_foldM fixed_step ephemeralPubs accounts;
  s ← go_foldM (fun s pass => go_foldM (resolve_step pass) s accounts)
        {| rv_resolved := fixed; rv_bumps := ∅; rv_atas := [] |} [0; 1; 2; 3];
  result ← go_mapM (account_meta (rv_resolved s)) accounts;
  Ret (result, rv_bumps s, rv_atas s).

(** ** Ephemeral signers and bump arguments *)

Definition needs_ephemeral (acc : IDLAccount) : bool :=
  ac_Signer acc && bool_decide (ac_Address acc = "") &&
  negb (is_payer_name (toSnakeCase (ac_Name acc))) &&
  match ac_PDA acc with Some _ => false | None => negb (isProbablyPDA (toSnakeCase (ac_Name acc))) end.

(** The keypairs made so far, private and public, and the number of draws. *)
Definition ephemeral_step (s : gmap string bytes * gmap string bytes * nat) (acc : IDLAccount)
    : go (gmap string bytes * gmap string bytes * nat) :=
  let '(keys, pubs, n) := s in
  if needs_ephemeral acc then
    '(pub, priv) ← GenerateKey n ?: ("generate ephemeral keypair for " +:+ Strconv.Quote (ac_Name acc));
    Ret (<[ac_Name acc := priv]> keys, <[ac_Name acc := PublicKeyFromBytes pub]> pubs, S n)
  else Ret s.

Definition findBump (argNameSnake : string) (bumps : gmap string Z) : option Z :=
  let prefix := Strings.TrimSuffix argNameSnake "_bump" in
  let exact := if bool_decide (prefix = argNameSnake) then None
               else match bumps !! prefix with Some b => Some b | None => find_snake prefix bumps end in
  match exact with
  | Some b => Some b
  | None => if bool_decide (argNameSnake = "bump") then snd <$> head (range bumps) else None
  end.

Definition bump_step (bumps : gmap string Z) (merged : gmap string string) (f : IDLField) : gmap string string :=
  let nameSnake := toSnakeCase (fd_Name f) in
  match merged !! fd_Name f with
  | Some _ => merged
  | None =>
    match find_snake nameSnake merged with
    | Some _ => merged
    | None =>
      if bool_decide (ty_Primitive (fd_Type f) = "u8") && Strings.Contains nameSnake "bump" then
        match findBump nameSnake bumps with
        | Some b => <[fd_Name f := Strconv.Itoa b]> merged
        | None => merged
        end
      else merged
    end
  end.

Definition create_ata (a : ataResolution) : Instruction :=
  {| ix_ProgramID := SPLAssociatedTokenAccountProgramID;
     ix_Accounts := [meta signer true true; meta (at_ata a) false true; meta (at_owner a) false false;
                     meta (at_mint a) false false; meta SystemProgramID false false;
                     meta (at_tokenProg a) false false];
     ix_Data := [x01] |}.
End Accounts.

(** ** The entry points *)
Section Build.
Context `{Unicode} `{SolanaGo} `{SolanaWorld} `{MapOrder} `{AnchorGo} `{IdlJson} `{IdlChain}.

(** The last instruction's data stays a slice until the transaction is
    serialized; [instructions h] reads it then. *)
Record AnchorResult := {
  ar_creations : list Instruction; ar_program : bytes; ar_accounts : list AccountMeta; ar_data : slice;
  ExtraSigners : list bytes }.
Definition Instructions (h : heap) (r : AnchorResult) : list Instruction :=
  ar_creations r ++ [{| ix_ProgramID := ar_program r; ix_Accounts := ar_accounts r;
                        ix_Data := slice_bytes h (ar_data r) |}].

Definition find_instruction (idl : AnchorIDL) (method : string) : option IDLInstruction :=
  List.find (fun ix => bool_decide (in_Name ix = method)
                       || bool_decide (toSnakeCase (in_Name ix) = toSnakeCase method)) (idl_Instructions idl).

(** All of [BuildAnchorInstructions] up to the instruction data: accounts,
    argument bytes, token accounts to create, and the ephemeral keypairs. *)
Definition prepare (fuel : nat) (programAccounts : gmap string bytes) (rpcURL : string) (programID : bytes)
    (idl : AnchorIDL) (ixDef : IDLInstruction) (args : gmap string string) (signer : bytes) (mint : option bytes)
    : option (go (list AccountMeta * bytes * list ataResolution * gmap string bytes * gmap string bytes)) :=
  let mintStr := match mint with Some m => PublicKeyString m | None => "" end in
  start (
    '(keys, pubs, _) ← go_foldM (ephemeral_step programID signer mint) (∅, ∅, O) (in_Accounts ixDef);
    '(accounts, bumps, atas) ←
      resolveAccountsWithEphemeral rpcURL programID signer mint args mintStr programAccounts
        (in_Accounts ixDef) pubs ?: "resolve accounts";
    Ret (accounts, bumps, atas, keys, pubs)) (fun '(accounts, bumps, atas, keys, pubs) =>
    let mergedArgs := fold_left (bump_step bumps) (in_Args ixDef) args in
    match serializeBorshArgs fuel (idl_Types idl) (in_Args ixDef) mergedArgs with
    | None => None
    | Some m => Some (argBytes ← m ?: "serialize args"; Ret (accounts, argBytes, atas, keys, pubs))
    end).

Definition BuildAnchorInstructions (fuel : nat) (st : AnchorState) (rpcURL : string) (programID : bytes)
    (idl : AnchorIDL) (method : string) (args : gmap string string) (signer : bytes) (mint : option bytes)
    : option (AnchorState * go AnchorResult) :=
  match find_instruction idl method with
  | None =>
    Some (st, Err ("instruction " +:+ Strconv.Quote method +:+ " not found in IDL (available: "
                   +:+ Strings.Join (map in_Name (idl_Instructions idl)) ", " +:+ ")"))
  | Some ixDef =>
    match prepare fuel (as_programAccounts st) rpcURL programID idl ixDef args signer mint with
    | None => None
    | Some (Err e) => Some (st, Err e)
    | Some Panic => Some (st, Panic)
    | Some (Ret (accounts, argBytes, atas, keys, pubs)) =>
      let '(h, ixData) := append (as_heap st) (in_Discriminator ixDef) argBytes in
      let mintStr := match mint with Some m => PublicKeyString m | None => "" end in
      let stored := fold_left (fun m '(name, pk) => storeProgramAccount m (PublicKeyString programID) mintStr name pk)
                      (range pubs) (as_programAccounts st) in
      Some (mkAnchorState stored (as_idlCache st) h,
            Ret {| ar_creations := map (create_ata signer) atas; ar_program := programID; ar_accounts := accounts;
                   ar_data := ixData; ExtraSigners := map snd (range keys) |})
    end
  end.

Definition BuildAnchorTx (fuel : nat) (st : AnchorState) (req : TxRequest) (from : bytes)
    : option (AnchorState * go AnchorResult) :=
  match Must (PublicKeyFromBase58 (tr_Program req)) with
  | Ret programID =>
    match FetchIDL st (tr_RpcURL req) programID with
    | (st, Ret idl) =>
      match (if bool_decide (tr_Mint req = "") then Ret None
             else m ← Must (PublicKeyFromBase58 (tr_Mint req)); Ret (Some m)) with
      | Ret mint => BuildAnchorInstructions fuel st (tr_RpcURL req) programID idl (tr_Method req) (tr_Args req) from mint
      | Err e => Some (st, Err e)
      | Panic => Some (st, Panic)
      end
    | (st, Err e) => Some (st, Err ("fetch IDL for " +:+ tr_Program req +:+ ": " +:+ e))
    | (st, Panic) => Some (st, Panic)
    end
  | Err e => Some (st, Err e)
  | Panic => Some (st, Panic)
  end.

(** What the Solana adapter gets from it: the instructions, read from the heap
    the call left, and the keys of the extra signers. *)
Definition anchor_builder (fuel : nat) (st : AnchorState) (req : TxRequest) (from : bytes)
    : go (list Instruction * list bytes) :=
  match BuildAnchorTx fuel st req from with
  | Some (st', Ret r) => Ret (Instructions (as_heap st') r, ExtraSigners r)
  | Some (_, Err e) => Err e
  | Some (_, Panic) | None => Panic
  end.
End Build.
