(* ===== verification/BorshFacts.v ===== *)
(** * BorshFacts: encoding the arguments of Anchor calls

    Borsh integers and what happens out of their range, independence of Go's map
    iteration order, termination of the encoder and of the IDL type decoder, the
    layout of IDL accounts, and a small Anchor program as a model of the classes. *)
From S2P Require Import Prelude GoStd Codec Crypto Protocol Transport Tss Vm Solana Idl Anchor.
Local Open Scope Z_scope.

(** ** Borsh integers *)

Lemma le_bytes_mod w n : Binary.le_bytes w n = Binary.le_bytes w (n mod 256 ^ Z.of_nat w).
Proof.
  rewrite <- (Binary.le_Z_le_bytes w n).
  rewrite <- (Binary.length_le_bytes w n) at 2. by rewrite Binary.le_bytes_le_Z.
Qed.

Lemma le_Z_app a b : Binary.le_Z (a ++ b) = Binary.le_Z a + 256 ^ zlen a * Binary.le_Z b.
Proof.
  unfold zlen. induction a as [|x a IH]; cbn [app Binary.le_Z length]; [lia|].
  rewrite IH, Nat2Z.inj_succ, Z.pow_succ_r by lia. lia.
Qed.

Lemma le_Z_zeros n : Binary.le_Z (repeat x00 n) = 0.
Proof. induction n as [|n IH]; cbn; [done|]. rewrite IH. reflexivity. Qed.

Lemma le_Z_take w l : Binary.le_Z (take w l) = Binary.le_Z l mod 256 ^ Z.of_nat w.
Proof.
  destruct (decide (w <= length l)%nat) as [Hw|Hw].
  - rewrite <- (take_drop w l) at 2. rewrite le_Z_app. unfold zlen. rewrite length_take_le by done.
    rewrite Z.mul_comm, Z_mod_plus_full. symmetry. apply Z.mod_small.
    pose proof (Binary.le_Z_bound (take w l)) as Hb. unfold zlen in Hb. by rewrite length_take_le in Hb.
  - rewrite take_ge by lia. symmetry. apply Z.mod_small. pose proof (Binary.le_Z_bound l) as Hb.
    split; [lia|]. eapply Z.lt_le_trans; [apply Hb|]. apply Z.pow_le_mono_r; unfold zlen; lia.
Qed.

Lemma le_Z_rev_Bytes n : Binary.le_Z (rev (Big.Bytes n)) = Z.abs n.
Proof.
  rewrite <- Binary.be_Z_rev, rev_involutive.
  assert (Big.Bytes n = Big.Bytes (Z.abs n)) as -> by (unfold Big.Bytes; by rewrite Z.abs_involutive).
  apply Big.be_Z_Bytes. lia.
Qed.

Lemma fillLE_spec w n : length (fillLE w n) = w /\ Binary.le_Z (fillLE w n) = Z.abs n mod 256 ^ Z.of_nat w.
Proof.
  unfold fillLE. set (b := take w (rev (Big.Bytes n))).
  assert (Hl : (length b <= w)%nat) by (unfold b; rewrite length_take; lia). split.
  - rewrite length_app, List.repeat_length. lia.
  - rewrite le_Z_app, le_Z_zeros. unfold b. rewrite le_Z_take, le_Z_rev_Bytes. lia.
Qed.

(** The integer types of Borsh with their widths in bytes. *)
Definition unsigned_types : list (string * nat) :=
  [("u8", 1); ("u16", 2); ("u32", 4); ("u64", 8); ("u128", 16)]%nat.
Definition signed_types : list (string * nat) := [("i8", 1); ("i16", 2); ("i32", 4); ("i64", 8)]%nat.

Lemma Uint64_low w n : (w <= 8)%nat ->
  Binary.le_Z (Binary.le_bytes w (Uint64 n)) = Z.abs n mod 256 ^ Z.of_nat w.
Proof.
  intros Hw. rewrite Binary.le_Z_le_bytes. unfold Uint64. apply Z.mod_mod_divide.
  exists (256 ^ Z.of_nat (8 - w)). rewrite <- Z.pow_add_r by lia.
  replace (Z.of_nat (8 - w) + Z.of_nat w) with 8 by lia. reflexivity.
Qed.

Lemma Int64_low w n : (w <= 8)%nat ->
  Binary.le_Z (Binary.le_bytes w (Int64 n)) = n mod 256 ^ Z.of_nat w.
Proof.
  intros Hw. rewrite Binary.le_Z_le_bytes.
  assert (Hd : (256 ^ Z.of_nat w | 2 ^ 64)).
  { exists (256 ^ Z.of_nat (8 - w)). rewrite <- Z.pow_add_r by lia.
    replace (Z.of_nat (8 - w) + Z.of_nat w) with 8 by lia. reflexivity. }
  assert (Hi : Int64 n mod 2 ^ 64 = n mod 2 ^ 64).
  { unfold Int64. set (v := if n <? 0 then _ else _).
    assert (Hv : v mod 2 ^ 64 = n mod 2 ^ 64).
    { unfold v. destruct (Z.ltb_spec n 0).
      - rewrite Z.abs_neq by lia. rewrite <- (Z.sub_0_l (_ mod _)), Zminus_mod_idemp_r. f_equal. lia.
      - rewrite Z.abs_eq by lia. apply Zmod_mod. }
    rewrite <- Hv. case_match; [apply Zmod_mod|].
    replace (v mod 2 ^ 64 - 2 ^ 64) with (v mod 2 ^ 64 + -1 * 2 ^ 64) by lia.
    by rewrite Z_mod_plus_full, Zmod_mod. }
  rewrite <- (Z.mod_mod_divide (Int64 n) (2 ^ 64)), Hi by exact Hd. by apply Z.mod_mod_divide.
Qed.

(** C37: Every integer argument of an Anchor call is encoded in its type's width
    whatever its value: an unsigned argument is encoded as its magnitude modulo
    256^w, so the bytes that get signed carry the number the user gave exactly
    when it fits the type, and another number (silently) when it is negative or
    too large. *)
Theorem borsh_unsigned `{Unicode} `{SolanaGo} prim w val n :
  In (prim, w) unsigned_types -> Strconv.SetString10 val = Some n ->
  exists b, serializePrimitive val prim = Ret b /\ length b = w /\
    Binary.le_Z b = Z.abs n mod 256 ^ Z.of_nat w /\
    (Binary.le_Z b = n <-> 0 <= n < 256 ^ Z.of_nat w).
Proof.
  intros Hin Hn.
  assert (exists b, serializePrimitive val prim = Ret b /\ length b = w /\
            Binary.le_Z b = Z.abs n mod 256 ^ Z.of_nat w) as (b & Hb & Hl & Hv).
  { destruct Hin as [[= <- <-]|[[= <- <-]|[[= <- <-]|[[= <- <-]|[[= <- <-]|[]]]]]];
      unfold serializePrimitive, integer; cbn [int_encoder bool_decide decide_rel]; rewrite Hn.
    1-4: eexists; split; [reflexivity|]; split; [apply Binary.length_le_bytes|apply Uint64_low; lia].
    destruct (fillLE_spec 16 n). by eexists. }
  exists b. split; [done|]. split; [done|]. split; [done|]. rewrite Hv.
  assert (0 < 256 ^ Z.of_nat w) by (apply Z.pow_pos_nonneg; lia). split.
  - intros E. pose proof (Z.mod_pos_bound (Z.abs n) (256 ^ Z.of_nat w)). lia.
  - intros Hr. rewrite Z.abs_eq, Z.mod_small; lia.
Qed.

Lemma borsh_signed `{Unicode} `{SolanaGo} prim w val n :
  In (prim, w) signed_types -> Strconv.SetString10 val = Some n ->
  exists b, serializePrimitive val prim = Ret b /\ length b = w /\ Binary.le_Z b = n mod 256 ^ Z.of_nat w.
Proof.
  intros Hin Hn. destruct Hin as [[= <- <-]|[[= <- <-]|[[= <- <-]|[[= <- <-]|[]]]]];
    unfold serializePrimitive, integer; cbn [int_encoder bool_decide decide_rel]; rewrite Hn;
    eexists; (split; [reflexivity|]); (split; [apply Binary.length_le_bytes|apply Int64_low; lia]).
Qed.

(** ** Map iteration order *)

Lemma find_snake_Some `{MapOrder} `{!MapOrderLaws} {V} name (m : gmap string V) v :
  find_snake name m = Some v -> exists k, m !! k = Some v /\ toSnakeCase k = name.
Proof.
  unfold find_snake. destruct (List.find _ _) as [[k w]|] eqn:E; [|done]. intros [= ->].
  apply List.find_some in E as [Hin Hs]. apply bool_decide_eq_true in Hs. exists k. split; [|done].
  apply elem_of_map_to_list, list_elem_of_In. eapply Permutation_in; [apply range_perm|exact Hin].
Qed.

Lemma find_snake_None `{MapOrder} `{!MapOrderLaws} {V} name (m : gmap string V) k v :
  find_snake name m = None -> m !! k = Some v -> toSnakeCase k <> name.
Proof.
  unfold find_snake. destruct (List.find _ _) as [[? ?]|] eqn:E; [done|]. intros _ Hk Hs.
  assert (Hin : In (k, v) (range m)).
  { eapply Permutation_in; [symmetry; apply range_perm|]. by apply list_elem_of_In, elem_of_map_to_list. }
  apply (List.find_none _ _ E) in Hin. by apply bool_decide_eq_false in Hin.
Qed.

Lemma range_empty `{MapOrder} `{!MapOrderLaws} {V} : range (∅ : gmap string V) = [].
Proof. apply Permutation_nil. symmetry. rewrite range_perm, map_to_list_empty. done. Qed.

(** No two keys are the same in snake case. *)
Definition snake_distinct {V} (m : gmap string V) : Prop :=
  forall k1 k2, is_Some (m !! k1) -> is_Some (m !! k2) -> toSnakeCase k1 = toSnakeCase k2 -> k1 = k2.

Section Order.
Context `{Unicode} `{SolanaGo} (O1 O2 : MapOrder) `{!@MapOrderLaws O1} `{!@MapOrderLaws O2}.

Lemma find_snake_order {V} name (m : gmap string V) : snake_distinct m ->
  find_snake (H := O1) name m = find_snake (H := O2) name m.
Proof.
  intros Hd. destruct (find_snake (H := O1) name m) as [v1|] eqn:E1;
    destruct (find_snake (H := O2) name m) as [v2|] eqn:E2; [..|done].
  - apply find_snake_Some in E1 as (k1 & Hk1 & S1), E2 as (k2 & Hk2 & S2); [|done..].
    assert (k1 = k2) as -> by (apply Hd; eauto; congruence). congruence.
  - apply find_snake_Some in E1 as (k1 & Hk1 & S1).
    by destruct (find_snake_None _ _ _ _ E2 Hk1).
  - apply find_snake_Some in E2 as (k1 & Hk1 & S1).
    by destruct (find_snake_None _ _ _ _ E1 Hk1).
Qed.

Lemma args_with_ext (s1 s2 : string -> IDLType -> option (go bytes)) fields args :
  snake_distinct args -> (forall v t, s1 v t = s2 v t) ->
  args_with (H1 := O1) s1 fields args = args_with (H1 := O2) s2 fields args.
Proof.
  intros Hd Hs. induction fields as [|f rest IH]; cbn [args_with]; [done|].
  assert (lookup_arg (H1 := O1) args (fd_Name f) = lookup_arg (H1 := O2) args (fd_Name f)) as ->.
  { unfold lookup_arg. destruct (args !! fd_Name f); [done|]. by apply find_snake_order. }
  destruct (lookup_arg _ _); [|done]. rewrite Hs, IH. done.
Qed.

Lemma serializeBorshValue_order fuel types : forall val typ,
  serializeBorshValue (H1 := O1) fuel types val typ = serializeBorshValue (H1 := O2) fuel types val typ.
Proof.
  induction fuel as [|fuel IH]; intros val typ; cbn [serializeBorshValue]; [done|].
  destruct (negb _); [done|]. destruct (ty_OptionInner typ) as [inner|]; [by rewrite IH|].
  destruct (negb _); [|done]. destruct (find_type _ _) as [td|]; [|done].
  destruct (td_Fields td) as [|f0 fs]; [done|]. apply args_with_ext; [|exact IH].
  intros k1 k2 [? E1] [? E2] _. apply lookup_singleton_Some in E1 as [<- _], E2 as [<- _]. done.
Qed.
End Order.

(** The argument bytes of an Anchor call, which get signed, do not depend on
    the order in which Go visits the argument map, provided no two argument names
    are the same in snake case. *)
Theorem serializeBorshArgs_order `{Unicode} `{SolanaGo} (O1 O2 : MapOrder)
    `{!@MapOrderLaws O1} `{!@MapOrderLaws O2} fuel types fields args :
  snake_distinct args ->
  serializeBorshArgs (H1 := O1) fuel types fields args
  = serializeBorshArgs (H1 := O2) fuel types fields args.
Proof. intros Hd. apply args_with_ext; [done..|]. by apply serializeBorshValue_order. Qed.

(** ** Termination *)

(** The Option layers of a type, and the type below them. *)
Fixpoint option_depth (t : IDLType) : nat :=
  match t with mkIDLType _ (Some i) _ _ _ _ => S (option_depth i) | _ => O end.
Fixpoint base_name (t : IDLType) : string :=
  match t with
  | mkIDLType _ (Some i) _ _ _ _ => base_name i
  | mkIDLType _ None _ n _ _ => n
  end.

(** Every field of a type definition mentions, under its options, a type of a
    lower rank. *)
Definition ranked (rank : string -> nat) (types : list IDLTypeDef) : Prop :=
  forall td f, In td types -> In f (td_Fields td) -> (rank (base_name (fd_Type f)) < rank (td_Name td))%nat.

Section Termination.
Context `{Unicode} `{SolanaGo} `{MapOrder}.

Lemma args_with_mono s1 s2 fields args r :
  (forall v t x, s1 v t = Some x -> s2 v t = Some x) ->
  args_with s1 fields args = Some r -> args_with s2 fields args = Some r.
Proof.
  intros Hs. revert r. induction fields as [|f rest IH]; intros r; cbn [args_with]; [done|].
  destruct (lookup_arg _ _) as [val|]; [|done].
  destruct (s1 val (fd_Type f)) as [x|] eqn:E; [|done]. rewrite (Hs _ _ _ E). destruct x; [|done..].
  destruct (args_with s1 rest args) as [y|]; [|done]. by rewrite (IH y).
Qed.

(** One unfolding of the value serializer, over the serializer it calls. *)
Definition value_step (types : list IDLTypeDef) (ser : string -> IDLType -> option (go bytes))
    (val : string) (typ : IDLType) : option (go bytes) :=
  if negb (bool_decide (ty_Primitive typ = "")) then Some (serializePrimitive val (ty_Primitive typ))
  else match ty_OptionInner typ with
  | Some inner =>
    if bool_decide (val = "") || bool_decide (val = "null") || bool_decide (val = "none") then Some (Ret [x00])
    else match ser val inner with Some (Ret b) => Some (Ret (x01 :: b)) | x => x end
  | None =>
    if negb (bool_decide (ty_DefinedName typ = "")) then
      match find_type types (ty_DefinedName typ) with
      | Some td =>
        match td_Fields td with
        | f0 :: _ => args_with ser (td_Fields td) {[fd_Name f0 := val]}
        | [] => Some Panic
        end
      | None => Some (Err ("unknown type " +:+ Strconv.Quote (ty_DefinedName typ)))
      end
    else Some (Err "unsupported type for serialization")
  end.

Lemma serializeBorshValue_S fuel types val typ :
  serializeBorshValue (S fuel) types val typ = value_step types (serializeBorshValue fuel types) val typ.
Proof. reflexivity. Qed.

Lemma serializeBorshValue_mono types fuel : forall val typ r,
  serializeBorshValue fuel types val typ = Some r -> serializeBorshValue (S fuel) types val typ = Some r.
Proof.
  induction fuel as [|fuel IH]; intros val typ r; [done|].
  rewrite (serializeBorshValue_S fuel), (serializeBorshValue_S (S fuel)). unfold value_step.
  destruct (negb _); [done|]. destruct (ty_OptionInner typ) as [inner|].
  - destruct (_ || _); [done|]. destruct (serializeBorshValue fuel types val inner) as [x|] eqn:E; [|done].
    by rewrite (IH _ _ _ E).
  - destruct (negb _); [|done]. destruct (find_type _ _) as [td|]; [|done].
    destruct (td_Fields td) as [|f0 fs]; [done|]. apply args_with_mono. exact IH.
Qed.

Lemma serializeBorshValue_le types fuel fuel' val typ r : (fuel <= fuel')%nat ->
  serializeBorshValue fuel types val typ = Some r -> serializeBorshValue fuel' types val typ = Some r.
Proof. induction 1 as [|fuel' _ IH]; [done|]. intros Hr. by apply serializeBorshValue_mono, IH. Qed.
End Termination.

Section Terminates.
Context `{Unicode} `{SolanaGo} `{MapOrder}.

Definition terminates (types : list IDLTypeDef) (typ : IDLType) : Prop :=
  exists fuel, forall val, serializeBorshValue fuel types val typ <> None.

Lemma terminates_le types typ fuel fuel' : (fuel <= fuel')%nat ->
  (forall val, serializeBorshValue fuel types val typ <> None) ->
  forall val, serializeBorshValue fuel' types val typ <> None.
Proof.
  intros Hle Hf val. destruct (serializeBorshValue fuel types val typ) as [r|] eqn:E; [|by apply Hf in E].
  by rewrite (serializeBorshValue_le _ _ _ _ _ _ Hle E).
Qed.

(** A fuel enough for every field of a struct. *)
Lemma terminates_fields types fields : Forall (fun f => terminates types (fd_Type f)) fields ->
  exists fuel, forall f val, In f fields -> serializeBorshValue fuel types val (fd_Type f) <> None.
Proof.
  induction 1 as [|f fields [n Hn] _ [m Hm]]; [by exists O|].
  exists (n `max` m)%nat. intros g val [<-|Hg].
  - apply (terminates_le _ _ n); [lia|done].
  - apply (terminates_le _ _ m); [lia|]. intros v. by apply Hm.
Qed.

Lemma args_with_defined ser fields args :
  (forall f val, In f fields -> ser val (fd_Type f) <> None) -> args_with ser fields args <> None.
Proof.
  induction fields as [|f rest IH]; intros Hs; cbn [args_with]; [done|].
  destruct (lookup_arg _ _) as [val|]; [|done].
  destruct (ser val (fd_Type f)) as [[b| |]|] eqn:E; [|done|done|by apply (Hs f val (or_introl eq_refl)) in E].
  destruct (args_with ser rest args) as [[| |]|] eqn:Er; try done.
  exfalso. apply IH; [|done]. intros g v Hg. apply Hs. by right.
Qed.

Lemma ranked_terminates types rank : ranked rank types ->
  forall r d typ, (rank (base_name typ) < r)%nat -> (option_depth typ < d)%nat -> terminates types typ.
Proof.
  intros Hr. induction r as [r IHr] using lt_wf_ind. induction d as [|d IHd]; [lia|].
  intros [prim o vec n elem len] Hn Hd.
  destruct o as [inner|].
  - destruct (IHd inner) as [fuel Hf]; [exact Hn|cbn in Hd; lia|].
    exists (S fuel). intros val. rewrite serializeBorshValue_S. unfold value_step; cbn [ty_Primitive ty_OptionInner].
    destruct (negb _); [done|]. destruct (_ || _); [done|].
    destruct (serializeBorshValue fuel types val inner) as [[| |]|] eqn:E; try done. by apply Hf in E.
  - cbn [base_name] in Hn. destruct (find_type types n) as [td|] eqn:Eft.
    + apply List.find_some in Eft as Hin. destruct Hin as [Hin Hname]. apply bool_decide_eq_true in Hname.
      destruct (terminates_fields types (td_Fields td)) as [fuel Hf].
      { apply List.Forall_forall. intros f Hf. pose proof (Hr td f Hin Hf) as Hlt. rewrite Hname in Hlt.
        apply (IHr (rank n) Hn (S (option_depth (fd_Type f)))); lia. }
      exists (S fuel). intros val. rewrite serializeBorshValue_S. unfold value_step.
      cbn [ty_Primitive ty_OptionInner ty_DefinedName]. rewrite Eft.
      destruct (negb _); [done|]. destruct (negb _); [|done].
      destruct (td_Fields td) as [|f0 fs]; [done|]. by apply args_with_defined.
    + exists 1%nat. intros val. rewrite serializeBorshValue_S. unfold value_step.
      cbn [ty_Primitive ty_OptionInner ty_DefinedName]. rewrite Eft.
      destruct (negb _); [done|]. by destruct (negb _).
Qed.
End Terminates.


(** [IDLType.UnmarshalJSON] terminates on every input: its recursion only
    descends into members of the JSON value, and the length of the input bounds
    its depth. *)
Theorem UnmarshalJSON_total `{IdlJson} `{!IdlJsonLaws} fuel data :
  (length data < fuel)%nat -> UnmarshalJSON fuel data <> None.
Proof.
  revert data. induction fuel as [|fuel IH]; intros data Hl; [lia|]. cbn [UnmarshalJSON].
  destruct (json_string data); [done| |done].
  destruct (json_object data) as [obj| |] eqn:Eobj; [|done|done].
  assert (Hm : forall k raw, obj !! k = Some raw -> UnmarshalJSON fuel raw <> None).
  { intros k raw Hk. apply IH. pose proof (json_object_member _ _ _ _ Eobj Hk). lia. }
  destruct (obj !! "option") as [raw|] eqn:E1.
  { pose proof (Hm _ _ E1). by destruct (UnmarshalJSON fuel raw) as [[| |]|]. }
  destruct (obj !! "vec") as [raw|] eqn:E2.
  { pose proof (Hm _ _ E2). by destruct (UnmarshalJSON fuel raw) as [[| |]|]. }
  destruct (obj !! "defined"); [done|]. destruct (obj !! "array") as [raw|] eqn:E4; [|done].
  destruct (json_array raw) as [l| |] eqn:Earr; [|done|done].
  destruct l as [|elem [|len [|? ?]]]; try done.
  assert (He : UnmarshalJSON fuel elem <> None).
  { apply IH. pose proof (json_array_member _ _ elem Earr (or_introl eq_refl)).
    pose proof (json_object_member _ _ _ _ Eobj E4). lia. }
  by destruct (UnmarshalJSON fuel elem) as [[| |]|].
Qed.

(** ** The layout of IDL accounts *)

Lemma sub_middle {A} (pre mid post : list A) lo hi : lo = zlen pre -> hi = zlen pre + zlen mid ->
  Slice.sub (pre ++ mid ++ post) lo hi = Ret mid.
Proof.
  unfold Slice.sub, zlen. intros -> ->. rewrite !length_app.
  replace (_ && _ && _) with true by (symmetry; lia).
  rewrite Nat2Z.id, drop_app_length.
  replace (Z.to_nat _) with (length mid) by lia. by rewrite take_app_length.
Qed.

Lemma sub_suffix {A} (pre l : list A) lo hi : lo = zlen pre -> hi = zlen (pre ++ l) ->
  Slice.sub (pre ++ l) lo hi = Ret l.
Proof.
  intros -> ->. rewrite <- (app_nil_r l) at 1. rewrite app_assoc, <- app_assoc.
  apply sub_middle; [done|]. unfold zlen. rewrite length_app. lia.
Qed.

Lemma le_bytes_4_zlen (payload padding : bytes) : zlen payload + zlen padding < 2 ^ 32 ->
  Binary.le_Z (Binary.le_bytes 4 (zlen payload)) = zlen payload /\
  (zlen (payload ++ padding) mod 2 ^ 32 <? zlen payload) = false.
Proof.
  intros Hl. assert (zlen (payload ++ padding) = zlen payload + zlen padding) as ->
    by (unfold zlen; rewrite length_app; lia).
  assert (0 <= zlen payload /\ 0 <= zlen padding) by (unfold zlen; lia). split.
  - rewrite Binary.le_Z_le_bytes. apply Z.mod_small. change (256 ^ Z.of_nat 4) with (2 ^ 32). lia.
  - rewrite Z.mod_small by lia. lia.
Qed.

(** What a program's on-chain IDL account holds is what the code takes out of
    it, in both layouts: the length-prefixed payload after the header, whatever
    the other header fields are and whatever the account holds after it, and the
    compression byte of the newer layout. *)
Theorem idl_account_layout (header fields payload padding : bytes) (compression : byte) :
  length header = 40%nat -> length fields = 36%nat -> zlen payload + zlen padding < 2 ^ 32 ->
  let len := Binary.le_bytes 4 (zlen payload) in
  legacy_payload (header ++ len ++ payload ++ padding) = Ret payload /\
  metadata_payload ((header ++ take 34 fields) ++ [compression] ++ drop 34 fields ++ len ++ payload ++ padding)
    = Ret (compression, payload).
Proof.
  intros Hh Hf Hl len. destruct (le_bytes_4_zlen payload padding Hl) as [E1 E2]. fold len in E1.
  assert (Hlen : zlen len = 4) by done.
  assert (H34 : zlen (header ++ take 34 fields) = 74) by (unfold zlen; rewrite length_app, length_take; lia).
  assert (H2 : zlen (drop 34 fields) = 2) by (unfold zlen; rewrite length_drop; lia).
  split.
  - unfold legacy_payload. replace (_ <? 44) with false
      by (symmetry; unfold zlen in *; rewrite !length_app; lia).
    rewrite (sub_middle header len _ 40 44) by (unfold zlen in *; lia). cbn [mbind go_bind]. rewrite E1.
    rewrite app_assoc, (sub_suffix (header ++ len) _ 44) by (unfold zlen in *; rewrite ?length_app; lia).
    cbn [mbind go_bind]. rewrite E2. by rewrite (sub_middle [] payload padding) by done.
  - set (pre := header ++ take 34 fields) in *. unfold metadata_payload, metadataHeaderSize.
    replace (zlen _ <? _) with false by (symmetry; unfold zlen in *; rewrite !length_app; cbn [length]; lia).
    assert (Slice.index (pre ++ [compression] ++ drop 34 fields ++ len ++ payload ++ padding) (8 + 1 + 32 + 32 + 1)
            = Ret compression) as ->.
    { unfold Slice.index. change (0 <=? 8 + 1 + 32 + 32 + 1) with true. cbn match.
      rewrite lookup_app_r by (unfold zlen in *; lia).
      by replace (Z.to_nat (8 + 1 + 32 + 32 + 1) - length pre)%nat with 0%nat by (unfold zlen in *; lia). }
    cbn [mbind go_bind].
    assert (Hpre : forall l, pre ++ [compression] ++ drop 34 fields ++ l = (pre ++ [compression] ++ drop 34 fields) ++ l)
      by (intros l; by rewrite <- !app_assoc).
    assert (H77 : zlen (pre ++ [compression] ++ drop 34 fields) = 77)
      by (unfold zlen in *; rewrite !length_app; cbn [length]; lia).
    rewrite !Hpre, (sub_middle _ len _ (8 + 1 + 32 + 32 + 1 + 1 + 1 + 1 + 4 - 4)) by (rewrite H77; unfold zlen in *; lia). cbn [mbind go_bind]. rewrite E1.
    rewrite (app_assoc _ len), (sub_suffix (_ ++ len)) by (rewrite ?zlen_app; unfold zlen in *; rewrite ?length_app in *; lia).
    cbn [mbind go_bind]. rewrite E2. by rewrite (sub_middle [] payload padding) by done.
Qed.

(** ** A concrete program *)
Import Solana.ToySolana.
Module ToyAnchor.
#[export] Instance order : MapOrder := fun V m => map_to_list m.
#[export] Instance order_laws : MapOrderLaws.
Proof. by intros V m. Qed.
Definition reversed : MapOrder := fun V m => rev (map_to_list m).
#[export] Instance reversed_laws : @MapOrderLaws reversed.
Proof. intros V m. symmetry. apply Permutation_rev. Qed.
#[export] Instance anchor_go : AnchorGo := {|
  SysVarRentPubkey := [x04]; SysVarClockPubkey := [x05]; GenerateKey := fun n => Ret ([x06], [x07]) |}.

Definition discriminator : bytes := [x11; x12; x13; x14; x15; x16; x17; x18].
Definition raw_instruction : rawIxNew := {|
  rx_Name := "setValue"; rx_Discriminator := discriminator; rx_spare := repeat x00 8;
  rx_Accounts := [{| ra_Name := "authority"; ra_Writable := true; ra_Signer := true; ra_Address := ""; ra_PDA := None |};
                  {| ra_Name := "vault"; ra_Writable := true; ra_Signer := false; ra_Address := ""; ra_PDA := None |}];
  rx_Args := [{| fd_Name := "newValue"; fd_Type := primitive "u64" |}] |}.
#[export] Instance json : IdlJson := {|
  json_string := fun d => match d with x22 :: rest => Ret (string_of rest) | _ => Err "not a string" end;
  json_object := fun d => match d with x7b :: rest => Ret {["option" := rest]} | _ => Err "not an object" end;
  json_array := fun _ => Err "not an array"; json_int := fun _ => Ret 0;
  json_bytes := fun _ => Err ""; json_name := fun _ => Err ""; json_program := fun _ => Err "";
  json_probe := fun _ => Ret (true, "0.30");
  json_idl_new := fun _ _ => Ret {| rn_Name := "toy"; rn_Instructions := [raw_instruction]; rn_Types := []; rn_Accounts := [] |};
  json_idl_old := fun _ _ => Err "" |}.
#[export] Instance json_laws : IdlJsonLaws.
Proof.
  split; [|done]. intros d m k raw. cbn. destruct d as [|[] rest]; try done.
  intros [= <-] [_ <-]%lookup_singleton_Some. cbn. lia.
Qed.
#[export] Instance chain : IdlChain := {|
  zlib_open := fun d => Ret (Ret d); programMetadataID := [x08];
  parse_account := fun _ => Ret (None, Some (string_of (repeat x41 108))) |}.

Definition empty : AnchorState := mkAnchorState ∅ ∅ [].
Definition call (value : string) : TxRequest := {|
  tr_From := ""; tr_To := []; tr_Value := ""; tr_Data := []; tr_DerivationPath := "";
  tr_Prefix := ""; tr_Denom := ""; tr_ChainID := ""; tr_AccountNumber := 0; tr_Sequence := 0; tr_Fee := "";
  tr_Gas := 0; tr_Memo := ""; tr_PubKey := []; tr_GasLimit := 0; tr_GasPrice := ""; tr_Nonce := 0; tr_AutoNonce := false;
  tr_RpcURL := "8.8.8.8"; tr_Mint := ""; tr_Instructions := [];
  tr_Program := "prog"; tr_Method := "set_value"; tr_Args := {["new_value" := value]} |}.
(** The state after a first fetch, and the IDL it cached. *)
Definition idl : AnchorIDL := {|
  idl_Name := "toy"; idl_Types := [];
  idl_Instructions := [{| in_Name := "setValue"; in_Discriminator := {| sl_array := 0; sl_len := 8 |};
    in_Accounts := map account_new (rx_Accounts raw_instruction); in_Args := rx_Args raw_instruction |}] |}.
Definition fetched : AnchorState := mkAnchorState ∅ {["prog" := idl]} [discriminator ++ repeat x00 8].
End ToyAnchor.
Import ToyAnchor.

(** 300 does not fit a byte, and the sign of -5 is lost. *)
Lemma borsh_unsigned_witness :
  serializePrimitive "300" "u8" = Ret [x2c] /\ serializePrimitive "-5" "u16" = Ret [x05; x00] /\
  exists b, serializePrimitive "7" "u64" = Ret b /\ Binary.le_Z b = 7.
Proof.
  split; [vm_compute; reflexivity|]. split; [vm_compute; reflexivity|].
  destruct (borsh_unsigned "u64" 8 "7" 7) as (b & Hb & _ & _ & Hv); [cbn; tauto|vm_compute; reflexivity|].
  exists b. split; [exact Hb|]. apply Hv. split; [lia|reflexivity].
Defined.

Definition two_args : list IDLField :=
  [{| fd_Name := "newValue"; fd_Type := primitive "u8" |}; {| fd_Name := "memo"; fd_Type := primitive "string" |}].
Definition two_values : gmap string string := {["new_value" := "7"; "memo" := "hi"]}.
Lemma serializeBorshArgs_order_witness :
  snake_distinct two_values /\
  serializeBorshArgs (H1 := reversed) 1 [] two_args two_values = Some (Ret [x07; x02; x00; x00; x00; x68; x69]).
Proof.
  assert (Hd : snake_distinct two_values).
  { assert (Hk : forall k, is_Some (two_values !! k) -> k = "new_value" \/ k = "memo").
    { unfold two_values. intros k [v Hv]. apply lookup_insert_Some in Hv as [[<- _]|[_ Hv]]; [auto|].
      apply lookup_singleton_Some in Hv as [<- _]. auto. }
    intros k1 k2 [->| ->]%Hk [->| ->]%Hk E; try done; vm_compute in E; discriminate E. }
  split; [exact Hd|].
  rewrite <- (serializeBorshArgs_order order reversed 1 [] two_args two_values Hd). vm_compute. reflexivity.
Defined.

Lemma UnmarshalJSON_total_witness : UnmarshalJSON 10 [x7b; x7b; x22; x75; x38] <> None.
Proof. apply UnmarshalJSON_total. cbn. lia. Defined.


Lemma idl_account_layout_witness :
  legacy_payload (repeat x00 40 ++ [x02; x00; x00; x00] ++ [x7b; x7d] ++ [xff]) = Ret [x7b; x7d] /\
  legacy_payload (repeat x00 40 ++ [x04; x00; x00; x00] ++ [x7b; x7d]) = Err "legacy IDL truncated: want 4, have 2".
Proof.
  split; [|vm_compute; reflexivity].
  apply (idl_account_layout (repeat x00 40) (repeat x00 36) [x7b; x7d] [xff] x01); [reflexivity..|]. reflexivity.
Defined.
