(* ===== verification/AnchorFacts.v ===== *)
(** * AnchorFacts: what an Anchor call signs and who signs it

    The instruction data and the discriminator's backing array that the calls of
    a cached IDL share, the invariant of the package's variables over all calls,
    and the signers a call asks for. *)
From S2P Require Import Prelude GoStd Codec Crypto Protocol Transport Tss Vm Solana Idl Anchor BorshFacts.
Import Solana.ToySolana BorshFacts.ToyAnchor.
Local Open Scope Z_scope.

(** ** Instruction data and the discriminator's array *)

Lemma take_slice h s l n : (n <= sl_len s)%nat -> (sl_len s <= length (array h s))%nat ->
  take n (slice_bytes h s ++ l) = take n (array h s).
Proof.
  intros Hn Hc. unfold slice_bytes. rewrite take_app_le by (rewrite length_take; lia).
  rewrite take_take. f_equal. lia.
Qed.

Lemma append_spec h s l h' s' : (sl_array s < length h)%nat -> (sl_len s <= length (array h s))%nat ->
  append h s l = (h', s') ->
  slice_bytes h' s' = slice_bytes h s ++ l /\ sl_len s' = (sl_len s + length l)%nat /\
  (length h <= length h')%nat /\
  forall t, (sl_array t < length h)%nat -> (sl_array t <> sl_array s \/ (sl_len t <= sl_len s)%nat) ->
    slice_bytes h' t = slice_bytes h t.
Proof.
  intros Ha Hc. unfold append, new_array.
  assert (Hb : length (slice_bytes h s) = sl_len s) by (unfold slice_bytes; rewrite length_take; lia).
  case_match eqn:Hn; intros [= <- <-].
  - apply Nat.leb_le in Hn. unfold slice_bytes at 1, array at 1. cbn [sl_array sl_len].
    rewrite list_lookup_insert_eq by done. cbn [default id]. split.
    { rewrite app_assoc, take_app_le; [apply take_ge|]; rewrite length_app, Hb; lia. }
    split; [done|]. split; [by rewrite length_insert|]. intros t Ht Hor.
    unfold slice_bytes, array. destruct (decide (sl_array t = sl_array s)) as [E|E].
    + rewrite E, list_lookup_insert_eq by done. cbn [default id]. destruct Hor as [?|Hle]; [done|].
      apply take_slice; lia.
    + by rewrite list_lookup_insert_ne.
  - unfold slice_bytes at 1, array at 1. cbn [sl_array sl_len].
    rewrite lookup_app_r, Nat.sub_diag by lia. cbn [lookup list_lookup default id].
    split; [apply take_ge; rewrite length_app, Hb; lia|]. split; [done|].
    split; [rewrite length_app; lia|]. intros t Ht _. unfold slice_bytes, array. by rewrite lookup_app_l.
Qed.

(** Two in-place appends to one slice write the same bytes of its array. *)
Lemma append_twice h s l1 l2 h1 s1 h2 s2 :
  (sl_array s < length h)%nat -> (sl_len s + length l1 <= length (array h s))%nat -> length l2 = length l1 ->
  append h s l1 = (h1, s1) -> append h1 s l2 = (h2, s2) -> slice_bytes h2 s1 = slice_bytes h s ++ l2.
Proof.
  intros Ha Hc Hl E1 E2.
  destruct (append_spec _ _ _ _ _ Ha ltac:(lia) E1) as (B1 & L1 & Hle & F1).
  assert (Hs : slice_bytes h1 s = slice_bytes h s) by (apply F1; [done|by right]).
  assert (Hb : length (slice_bytes h s) = sl_len s) by (unfold slice_bytes; rewrite length_take; lia).
  unfold append in E1. rewrite (proj2 (Nat.leb_le _ _)) in E1 by exact Hc. injection E1 as <- <-.
  assert (Hcap : length (array (<[sl_array s := slice_bytes h s ++ l1 ++ drop (sl_len s + length l1) (array h s)]> h) s)
                 = length (array h s)).
  { unfold array at 1. rewrite list_lookup_insert_eq by done. cbn [default id].
    rewrite !length_app, length_drop, Hb. lia. }
  unfold append in E2. rewrite Hcap, (proj2 (Nat.leb_le _ _)) in E2 by lia. injection E2 as <- _.
  rewrite Hs. unfold slice_bytes at 1, array at 1. cbn [sl_array sl_len].
  rewrite list_lookup_insert_eq by (rewrite length_insert; done). cbn [default id].
  rewrite app_assoc, take_app_le; [apply take_ge|]; rewrite length_app, Hb; lia.
Qed.

(** ** Signers *)

(** solana-go's search for a program address tries 256 bumps; seeds of at most
    32 bytes, at most fifteen of them, leave no other reason to fail. *)
Class ProgramAddressLaw `{SolanaGo} : Prop :=
  program_address_found : forall seeds p, (length seeds <= 15)%nat ->
    Forall (fun s => (length s <= 32)%nat) seeds -> exists pk bump, FindProgramAddress seeds p = Ret (pk, bump).

Section Signers.
Context `{Unicode} `{SolanaGo} `{SolanaWorld} `{MapOrder} `{AnchorGo} `{!ProgramAddressLaw}.

Lemma isProbablyPDA_short programID signer mint name :
  (length (bytes_of name) <= 32)%nat -> isProbablyPDA programID signer mint name = true.
Proof.
  intros Hn. unfold isProbablyPDA, finds.
  destruct (program_address_found [bytes_of name] programID) as (pk & b & ->); [cbn; lia|by constructor|].
  by rewrite orb_true_r.
Qed.

Lemma no_ephemeral programID signer mint accounts s :
  (forall acc, In acc accounts -> (length (bytes_of (toSnakeCase (ac_Name acc))) <= 32)%nat) ->
  go_foldM (ephemeral_step programID signer mint) s accounts = Ret s.
Proof.
  intros Hn. induction accounts as [|acc accounts IH]; cbn [go_foldM]; [done|].
  assert (needs_ephemeral programID signer mint acc = false) as Hf.
  { unfold needs_ephemeral. rewrite (isProbablyPDA_short programID signer mint) by (apply Hn; by left).
    destruct (ac_PDA acc); by rewrite andb_false_r. }
  destruct s as [[keys pubs] n]. cbn [ephemeral_step]. rewrite Hf. cbn [mbind go_bind].
  apply IH. intros a Ha. apply Hn. by right.
Qed.

(** The key of a signing account: the wallet's, or the address the IDL fixes. *)
Definition signer_key (signer : bytes) (acc : IDLAccount) (pk : bytes) : Prop :=
  ac_Signer acc = true ->
  pk = signer \/ (ac_Address acc <> "" /\ PublicKeyFromBase58 (ac_Address acc) = Ret pk).
Definition keys_ok (signer : bytes) (accounts : list IDLAccount) (resolved : gmap string bytes) : Prop :=
  forall acc pk, In acc accounts -> resolved !! ac_Name acc = Some pk -> signer_key signer acc pk.

Lemma Must_Ret {A} (m : go A) a : Must m = Ret a -> m = Ret a.
Proof. by destruct m. Qed.

(** Under distinct names an insertion concerns one account only. *)
Lemma keys_ok_insert signer accounts resolved acc pk : NoDup (map ac_Name accounts) -> In acc accounts ->
  keys_ok signer accounts resolved -> signer_key signer acc pk ->
  keys_ok signer accounts (<[ac_Name acc := pk]> resolved).
Proof.
  intros Hnd Hin Hok Hpk acc' pk' Hin' Hl.
  destruct (decide (ac_Name acc' = ac_Name acc)) as [E|E].
  - rewrite E, lookup_insert_eq in Hl. injection Hl as <-.
    assert (acc' = acc) as ->; [|done].
    apply list_elem_of_In, list_elem_of_lookup in Hin as [i Hi], Hin' as [j Hj].
    assert (i = j) as ->; [|congruence].
    eapply NoDup_lookup; [exact Hnd|..]; rewrite list_lookup_fmap; [by rewrite Hi|by rewrite Hj; cbn; rewrite E].
  - rewrite lookup_insert_ne in Hl by done. by apply (Hok acc').
Qed.

Lemma fixed_step_ok signer accounts resolved acc resolved' : NoDup (map ac_Name accounts) -> In acc accounts ->
  keys_ok signer accounts resolved -> fixed_step resolved acc = Ret resolved' ->
  keys_ok signer accounts resolved'.
Proof.
  intros Hnd Hin Hok. unfold fixed_step. case_bool_decide as Ha; [by intros [= <-]|].
  destruct (resolved !! ac_Name acc); [by intros [= <-]|]. intros Hf. go_inv.
  apply keys_ok_insert; try done. intros _. right. split; [done|]. by apply Must_Ret.
Qed.

Lemma resolveOneAccount_signer rpcURL programID signer mint args mintStr stored acc resolved pk bump ata :
  resolveOneAccount rpcURL programID signer mint args mintStr stored acc resolved = Ret (pk, bump, ata) ->
  signer_key signer acc pk.
Proof.
  unfold resolveOneAccount. case_bool_decide as Ha; cbn [negb].
  - intros Hr Hs. rewrite Hs in Hr. injection Hr as <- _ _. by left.
  - intros Hr _. go_inv. right. split; [done|]. by apply Must_Ret.
Qed.

Lemma resolve_step_ok rpcURL programID signer mint args mintStr stored accounts pass s acc s' :
  NoDup (map ac_Name accounts) -> In acc accounts -> keys_ok signer accounts (rv_resolved s) ->
  resolve_step rpcURL programID signer mint args mintStr stored pass s acc = Ret s' ->
  keys_ok signer accounts (rv_resolved s').
Proof.
  intros Hnd Hin Hok. unfold resolve_step. destruct (rv_resolved s !! ac_Name acc); [by intros [= <-]|].
  destruct (resolveOneAccount _ _ _ _ _ _ _ _ _) as [[[pk bump] ata]|e|] eqn:E; [..|done].
  - intros [= <-]. apply keys_ok_insert; try done. by eapply resolveOneAccount_signer.
  - case_match; [by intros [= <-]|done].
Qed.

Lemma resolveAccounts_signers rpcURL programID signer mint args mintStr stored accounts metas bumps atas :
  NoDup (map ac_Name accounts) ->
  resolveAccountsWithEphemeral rpcURL programID signer mint args mintStr stored accounts ∅ = Ret (metas, bumps, atas) ->
  forall m, In m metas -> am_IsSigner m = true ->
    am_PublicKey m = signer \/
    exists acc, In acc accounts /\ ac_Address acc <> "" /\ PublicKeyFromBase58 (ac_Address acc) = Ret (am_PublicKey m).
Proof.
  intros Hnd Hr. unfold resolveAccountsWithEphemeral in Hr.
  apply go_bind_Ret in Hr as (fixed & Hfixed & Hr). apply go_bind_Ret in Hr as (s & Hs & Hr).
  apply go_bind_Ret in Hr as (result & Hres & Hr). injection Hr as <- _ _.
  assert (Hok : keys_ok signer accounts (rv_resolved s)).
  { eapply (go_foldM_inv (fun s => keys_ok signer accounts (rv_resolved s))); [|..|exact Hs].
    - eapply (go_foldM_inv (keys_ok signer accounts)); [|..|exact Hfixed]; [done|].
      intros ? acc ? Hin Hk. by apply fixed_step_ok.
    - intros s0 pass s1 _ Hk. apply (go_foldM_inv (fun s => keys_ok signer accounts (rv_resolved s))); [exact Hk|].
      intros ? acc ? Hin Hk'. by apply resolve_step_ok. }
  intros m Hm Hs'. destruct (go_mapM_In _ _ _ _ Hres Hm) as (acc & Hin & Hacc).
  unfold account_meta in Hacc. apply go_bind_Ret in Hacc as (pk & Hpk & [= <-]). cbn [meta am_PublicKey am_IsSigner] in *.
  destruct (rv_resolved s !! ac_Name acc) as [pk'|] eqn:El; [|done]. injection Hpk as <-.
  destruct (Hok acc pk' Hin El Hs') as [->|[Ha Hb]]; [by left|]. right. by exists acc.
Qed.
End Signers.

(** ** Calls *)

Section Calls.
Context `{Unicode} `{SolanaGo} `{SolanaWorld} `{MapOrder} `{AnchorGo}.

Lemma collect_start_Ret {A B} (m : go A) (k : A -> option (go B)) r :
  start m k = Some (Ret r) -> exists a, m = Ret a /\ k a = Some (Ret r).
Proof. destruct m; cbn; [eauto|done..]. Qed.

Lemma BuildAnchorInstructions_Ret fuel st rpcURL programID idl method args signer mint st' r :
  BuildAnchorInstructions fuel st rpcURL programID idl method args signer mint = Some (st', Ret r) ->
  exists ix accounts argBytes atas keys pubs,
    find_instruction idl method = Some ix /\
    prepare fuel (as_programAccounts st) rpcURL programID idl ix args signer mint
      = Some (Ret (accounts, argBytes, atas, keys, pubs)) /\
    append (as_heap st) (in_Discriminator ix) argBytes = (as_heap st', ar_data r) /\
    as_idlCache st' = as_idlCache st /\
    as_programAccounts st' =
      fold_left (fun m '(name, pk) =>
        storeProgramAccount m (PublicKeyString programID)
          match mint with Some m => PublicKeyString m | None => "" end name pk) (range pubs) (as_programAccounts st) /\
    ar_accounts r = accounts /\ ar_program r = programID /\
    ar_creations r = map (create_ata signer) atas /\ ExtraSigners r = map snd (range keys).
Proof.
  unfold BuildAnchorInstructions. destruct (find_instruction idl method) as [ix|]; [|done].
  destruct (prepare _ _ _ _ _ _ _ _ _) as [[[[[[accounts argBytes] atas] keys] pubs]| |]|] eqn:Ep; [|done..].
  destruct (append _ _ _) as [h ixData] eqn:Ea. intros [= <- <-].
  exists ix, accounts, argBytes, atas, keys, pubs. by repeat split.
Qed.

Lemma BuildAnchorInstructions_failed fuel st rpcURL programID idl method args signer mint st' m :
  BuildAnchorInstructions fuel st rpcURL programID idl method args signer mint = Some (st', m) ->
  (forall r, m <> Ret r) -> st' = st.
Proof.
  unfold BuildAnchorInstructions. destruct (find_instruction idl method) as [ix|]; [|by intros [= <- <-]].
  destruct (prepare _ _ _ _ _ _ _ _ _) as [[[[[[accounts argBytes] atas] keys] pubs]| |]|]; [|by intros [= <- <-]..|done].
  destruct (append _ _ _) as [h ixData]. intros [= <- <-] Hm. by destruct (Hm _ eq_refl).
Qed.

Lemma find_instruction_In idl method ix :
  find_instruction idl method = Some ix ->
  In (in_Discriminator ix) (map in_Discriminator (idl_Instructions idl)) /\
  (in_Name ix = method \/ toSnakeCase (in_Name ix) = toSnakeCase method).
Proof.
  intros [Hin Hb]%List.find_some. split; [by apply in_map|].
  apply orb_prop in Hb as [Hb|Hb]; apply bool_decide_eq_true in Hb; auto.
Qed.

(** The bytes an instruction's arguments are serialized to. *)
Definition argument_bytes (fuel : nat) (idl : AnchorIDL) (ix : IDLInstruction) (args : gmap string string)
    (argBytes : bytes) : Prop :=
  exists bumps, serializeBorshArgs fuel (idl_Types idl) (in_Args ix) (fold_left (bump_step bumps) (in_Args ix) args)
                = Some (Ret argBytes).

Lemma prepare_Ret fuel stored rpcURL programID idl ix args signer mint accounts argBytes atas keys pubs :
  prepare fuel stored rpcURL programID idl ix args signer mint = Some (Ret (accounts, argBytes, atas, keys, pubs)) ->
  argument_bytes fuel idl ix args argBytes /\
  exists n bumps, go_foldM (ephemeral_step programID signer mint) (∅, ∅, O) (in_Accounts ix) = Ret (keys, pubs, n) /\
    resolveAccountsWithEphemeral rpcURL programID signer mint args
      match mint with Some m => PublicKeyString m | None => "" end stored (in_Accounts ix) pubs
    = Ret (accounts, bumps, atas).
Proof.
  unfold prepare. intros ([[[[accounts' bumps] atas'] keys'] pubs'] & H1' & H2')%collect_start_Ret.
  apply go_bind_Ret in H1' as ([[keys1 pubs1] n] & Hk & H1'). apply go_bind_Ret in H1' as ([[a1 b1] t1] & Hr & [= <- <- <- <- <-]).
  apply wrap_err_Ret in Hr.
  destruct (serializeBorshArgs _ _ _ _) as [m|] eqn:Em; [|done]. injection H2' as Hm.
  apply go_bind_Ret in Hm as (b & Hb & [= <- <- <- <- <-]). apply wrap_err_Ret in Hb as ->.
  split; [by exists b1|]. by exists n, b1.
Qed.
End Calls.

(** ** The cached discriminators *)

(** Slices kept in the heap: each within its array, no two in one array. *)
Definition heap_ok (h : heap) (D : slice -> Prop) : Prop :=
  (forall d, D d -> (sl_array d < length h)%nat /\ (sl_len d <= length (array h d))%nat) /\
  (forall d d', D d -> D d' -> sl_array d = sl_array d' -> d = d').

Definition discriminators (idl : AnchorIDL) : list slice := map in_Discriminator (idl_Instructions idl).
Definition cached (cache : gmap string AnchorIDL) (d : slice) : Prop :=
  exists key idl, cache !! key = Some idl /\ In d (discriminators idl).
Definition state_ok (st : AnchorState) : Prop := heap_ok (as_heap st) (cached (as_idlCache st)).

(** A call appends to one discriminator and leaves them all as they were. *)
Lemma append_keeps h D d l h' s' : heap_ok h D -> D d -> append h d l = (h', s') ->
  slice_bytes h' s' = slice_bytes h d ++ l /\ heap_ok h' D /\
  forall d', D d' -> slice_bytes h' d' = slice_bytes h d'.
Proof.
  intros [Hok Hsame] Hin Ha. destruct (Hok _ Hin) as [Hr Hc].
  destruct (append_spec _ _ _ _ _ Hr Hc Ha) as (Hs & _ & Hle & Hframe).
  assert (Hd' : forall d', D d' -> slice_bytes h' d' = slice_bytes h d').
  { intros d' Hin'. destruct (Hok _ Hin') as [Hr' _]. apply Hframe; [done|].
    destruct (decide (sl_array d' = sl_array d)) as [E|E]; [right|by left].
    by rewrite (Hsame d' d). }
  split; [done|]. split; [|done]. split; [|done]. intros d' Hin'. destruct (Hok _ Hin') as [Hr' Hc'].
  split; [lia|]. pose proof (f_equal length (Hd' d' Hin')) as Hl. unfold slice_bytes in Hl.
  rewrite !length_take in Hl. lia.
Qed.

(** Allocation only extends the heap. *)
Definition extends (h h' : heap) : Prop := exists new, h' = h ++ new.

#[export] Instance extends_preorder : PreOrder extends.
Proof.
  split; [intros h; exists []; by rewrite app_nil_r|].
  intros h1 h2 h3 [a ->] [b ->]. exists (a ++ b). by rewrite app_assoc.
Qed.

Lemma extends_array h h' d : extends h h' -> (sl_array d < length h)%nat -> array h' d = array h d.
Proof. intros [new ->] Hr. unfold array. by rewrite lookup_app_l. Qed.
Lemma extends_length h h' : extends h h' -> (length h <= length h')%nat.
Proof. intros [new ->]. rewrite length_app. lia. Qed.
Lemma extends_slice h h' d : extends h h' -> (sl_array d < length h)%nat -> slice_bytes h' d = slice_bytes h d.
Proof. intros He Hr. unfold slice_bytes. by rewrite (extends_array h h'). Qed.

(** Slices allocated between [h] and [h']. *)
Definition fresh (h h' : heap) (D : slice -> Prop) : Prop :=
  extends h h' /\ heap_ok h' D /\ forall d, D d -> (length h <= sl_array d)%nat.

Lemma fresh_union h h' D D' : heap_ok h D -> fresh h h' D' -> heap_ok h' (fun d => D d \/ D' d).
Proof.
  intros [Hok Hsame] (He & [Hok' Hsame'] & Hnew). split.
  - intros d [Hd|Hd]; [|by apply Hok']. destruct (Hok d Hd) as [Hr Hc].
    pose proof (extends_length _ _ He). split; [lia|]. by rewrite (extends_array h h').
  - intros d d' [Hd|Hd] [Hd'|Hd'] E; [by apply Hsame|..|by apply Hsame'].
    + pose proof (proj1 (Hok d Hd)). pose proof (Hnew d' Hd'). lia.
    + pose proof (proj1 (Hok d' Hd')). pose proof (Hnew d Hd). lia.
Qed.

Lemma heap_ok_sub h D D' : (forall d, D' d -> D d) -> heap_ok h D -> heap_ok h D'.
Proof. intros Hs [Hok Hsame]. split; [by auto|]. intros d d' Hd Hd'. by apply Hsame; apply Hs. Qed.

Lemma new_array_fresh h b n h' d : (n <= length b)%nat -> new_array h b n = (h', d) ->
  fresh h h' (fun d' => d' = d).
Proof.
  intros Hn [= <- <-]. split; [by exists [b]|]. split; [|by intros ? ->]. split; [|by intros ? ? -> -> _].
  intros d ->. cbn [sl_array sl_len]. rewrite length_app. split; [cbn; lia|].
  unfold array. cbn [sl_array]. by rewrite lookup_app_r, Nat.sub_diag by lia.
Qed.

Lemma fresh_cons h h1 h2 D1 D2 : fresh h h1 D1 -> fresh h1 h2 D2 -> fresh h h2 (fun d => D1 d \/ D2 d).
Proof.
  intros (E1 & Hok1 & N1) F2. pose proof F2 as (E2 & _ & N2). split; [by transitivity h1|]. split.
  - by apply (fresh_union h1).
  - intros d [Hd|Hd]; [by apply N1|]. pose proof (extends_length _ _ E1). pose proof (N2 d Hd). lia.
Qed.

Lemma fresh_sub h h' D D' : (forall d, D' d -> D d) -> fresh h h' D -> fresh h h' D'.
Proof.
  intros Hs (He & Hok & Hn). split; [done|]. split; [by apply (heap_ok_sub _ D)|]. auto.
Qed.

Lemma fresh_nil h : fresh h h (fun d => In d []).
Proof. split; [done|]. split; [|done]. by split. Qed.

Section Fetch.
Context `{Unicode} `{IdlJson}.

Lemma anchorDiscriminator_fresh h name h' d :
  anchorDiscriminator h name = (h', d) -> fresh h h' (fun d' => d' = d).
Proof. apply new_array_fresh. rewrite length_Sum256. lia. Qed.

Lemma instructions_old_fresh l : forall h h' ixs, instructions_old h l = (h', ixs) ->
  fresh h h' (fun d => In d (map in_Discriminator ixs)).
Proof.
  induction l as [|rix l IH]; intros h h' ixs; cbn [instructions_old]; [intros [= <- <-]; apply fresh_nil|].
  destruct (anchorDiscriminator h _) as [h1 d] eqn:Ed. destruct (instructions_old h1 l) as [h2 ixs2] eqn:E.
  intros [= <- <-]. eapply fresh_sub; [|exact (fresh_cons _ _ _ _ _ (anchorDiscriminator_fresh _ _ _ _ Ed) (IH _ _ _ E))].
  intros d' [<-|Hd]; [by left|by right].
Qed.

Lemma instructions_new_fresh l : forall h h' ixs, instructions_new h l = (h', ixs) ->
  fresh h h' (fun d => In d (map in_Discriminator ixs)).
Proof.
  induction l as [|rix l IH]; intros h h' ixs; cbn [instructions_new]; [intros [= <- <-]; apply fresh_nil|].
  destruct (if _ =? _ then _ else _) as [h1 d] eqn:Ed. destruct (instructions_new h1 l) as [h2 ixs2] eqn:E.
  assert (Hf : fresh h h1 (fun d' => d' = d)).
  { destruct (_ =? _); [by eapply anchorDiscriminator_fresh|]. eapply new_array_fresh; [|exact Ed].
    rewrite length_app. lia. }
  intros [= <- <-]. eapply fresh_sub; [|exact (fresh_cons _ _ _ _ _ Hf (IH _ _ _ E))].
  intros d' [<-|Hd]; [by left|by right].
Qed.

(** What any way of getting an IDL does to the heap. *)
Definition allocates (h : heap) (p : heap * go AnchorIDL) : Prop :=
  extends h p.1 /\ forall idl, p.2 = Ret idl -> fresh h p.1 (fun d => In d (discriminators idl)).

Lemma allocates_same h m : (forall idl, m <> Ret idl) -> allocates h (h, m).
Proof. intros Hm. split; [done|]. intros idl Hi. by apply Hm in Hi. Qed.

Lemma parseIDL_allocates h data : allocates h (parseIDL h data).
Proof.
  unfold parseIDL. destruct (_ ?: _)%go as [[[|] v]| |]; [..|by apply allocates_same|by apply allocates_same].
  - unfold parseIDLNew. destruct (_ ?: _)%go as [raw| |]; [|by apply allocates_same..].
    destruct (instructions_new h _) as [h' ixs] eqn:E. apply instructions_new_fresh in E.
    split; [apply E|]. intros idl [= <-]. exact E.
  - unfold parseIDLOld. destruct (_ ?: _)%go as [raw| |]; [|by apply allocates_same..].
    destruct (instructions_old h _) as [h' ixs] eqn:E. apply instructions_old_fresh in E.
    split; [apply E|]. intros idl [= <-]. exact E.
Qed.

Lemma then_parse_allocates h m : allocates h (then_parse h m).
Proof. destruct m; cbn [then_parse]; [apply parseIDL_allocates|by apply allocates_same..]. Qed.
End Fetch.

(** ** The state across calls *)

(** What any call does to the package's variables: cached IDLs stay cached, and
    the discriminators of their instructions are never written. *)
Definition evolves (st st' : AnchorState) : Prop :=
  as_idlCache st ⊆ as_idlCache st' /\
  forall d, cached (as_idlCache st) d -> slice_bytes (as_heap st') d = slice_bytes (as_heap st) d.

Lemma cached_mono c c' d : c ⊆ c' -> cached c d -> cached c' d.
Proof. intros Hs (k & idl & Hk & Hd). exists k, idl. split; [by eapply lookup_weaken|done]. Qed.

#[export] Instance evolves_preorder : PreOrder evolves.
Proof.
  split; [by intros st|]. intros s1 s2 s3 [C1 D1] [C2 D2]. split; [by etrans|].
  intros d Hd. rewrite <- D1 by done. apply D2. by eapply cached_mono.
Qed.

Lemma heap_grows st h' : extends (as_heap st) h' -> state_ok st ->
  state_ok (mkAnchorState (as_programAccounts st) (as_idlCache st) h') /\
  evolves st (mkAnchorState (as_programAccounts st) (as_idlCache st) h').
Proof.
  intros He Hok. assert (Hin : forall d, cached (as_idlCache st) d -> (sl_array d < length (as_heap st))%nat)
    by (intros d Hd; apply (proj1 Hok d Hd)). split.
  - destruct Hok as [Hok Hsame]. split; [|exact Hsame]. intros d Hd. destruct (Hok d Hd). cbn [as_heap].
    pose proof (extends_length _ _ He). rewrite (extends_array _ _ _ He) by auto. lia.
  - split; [done|]. intros d Hd. cbn [as_heap]. apply extends_slice; auto.
Qed.

Lemma cache_idl_ok st h' key idl : state_ok st -> as_idlCache st !! key = None ->
  fresh (as_heap st) h' (fun d => In d (discriminators idl)) ->
  state_ok (cache_idl st h' key idl) /\ evolves st (cache_idl st h' key idl).
Proof.
  intros Hok Hk Hf. pose proof Hf as (He & _).
  assert (Hsub : as_idlCache st ⊆ <[key := idl]> (as_idlCache st)) by by apply insert_subseteq. split.
  - pose proof (fresh_union _ _ _ _ Hok Hf) as Hu. eapply heap_ok_sub; [|exact Hu].
    intros d (k & idl' & Hl & Hd). cbn [cache_idl as_idlCache] in Hl.
    apply lookup_insert_Some in Hl as [[<- <-]|[_ Hl]]; [by right|]. left. by exists k, idl'.
  - split; [done|]. intros d Hd. apply (proj2 (proj2 (heap_grows st h' He Hok)) d Hd).
Qed.

Section State.
Context `{Unicode} `{SolanaGo} `{SolanaWorld} `{MapOrder} `{AnchorGo} `{IdlJson} `{IdlChain}.

Lemma fetchIDLFromMetadata_allocates h rpcURL programID : allocates h (fetchIDLFromMetadata h rpcURL programID).
Proof. apply then_parse_allocates. Qed.
Lemma fetchIDLLegacy_allocates h rpcURL programID : allocates h (fetchIDLLegacy h rpcURL programID).
Proof. apply then_parse_allocates. Qed.

Lemma FetchIDL_ok st rpcURL programID st' m : state_ok st -> FetchIDL st rpcURL programID = (st', m) ->
  state_ok st' /\ evolves st st' /\
  forall idl, m = Ret idl -> as_idlCache st' !! PublicKeyString programID = Some idl.
Proof.
  intros Hok. unfold FetchIDL. destruct (as_idlCache st !! PublicKeyString programID) as [idl|] eqn:Ek.
  { intros [= <- <-]. split; [done|]. split; [done|]. by intros ? [= <-]. }
  pose proof (fetchIDLFromMetadata_allocates (as_heap st) rpcURL programID) as [He1 Hf1].
  destruct (fetchIDLFromMetadata _ _ _) as [h1 [idl|e|]]; cbn [fst snd] in *.
  - intros [= <- <-]. destruct (cache_idl_ok st h1 _ _ Hok Ek (Hf1 _ eq_refl)). split; [done|]. split; [done|].
    intros ? [= <-]. apply lookup_insert_eq.
  - pose proof (fetchIDLLegacy_allocates h1 rpcURL programID) as [He2 Hf2].
    destruct (heap_grows st h1 He1 Hok) as [Hok1 Hev1].
    destruct (fetchIDLLegacy _ _ _) as [h2 [idl|e2|]]; cbn [fst snd] in *; intros [= <- <-].
    + destruct (cache_idl_ok _ h2 _ _ Hok1 Ek (Hf2 _ eq_refl)) as [Hok2 Hev2].
      split; [exact Hok2|]. split; [etrans; [exact Hev1|exact Hev2]|]. intros ? [= <-]. apply lookup_insert_eq.
    + destruct (heap_grows st h2 ltac:(by etrans) Hok). by split_and!.
    + destruct (heap_grows st h2 ltac:(by etrans) Hok). by split_and!.
  - intros [= <- <-]. destruct (heap_grows st h1 He1 Hok). by split_and!.
Qed.

Lemma BuildAnchorInstructions_ok fuel st rpcURL programID idl method args signer mint st' m key :
  state_ok st -> as_idlCache st !! key = Some idl ->
  BuildAnchorInstructions fuel st rpcURL programID idl method args signer mint = Some (st', m) ->
  state_ok st' /\ evolves st st'.
Proof.
  intros Hok Hkey. destruct m as [r|e|].
  - intros (ix & ? & argBytes & ? & ? & ? & Hf & _ & Ha & Hc & _)%BuildAnchorInstructions_Ret.
    apply find_instruction_In in Hf as [Hin _].
    assert (Hd : cached (as_idlCache st) (in_Discriminator ix)) by by exists key, idl.
    destruct (append_keeps _ _ _ _ _ _ Hok Hd Ha) as (_ & Hok' & Hkeep).
    unfold state_ok, evolves. rewrite Hc. by split.
  - intros Hb. apply BuildAnchorInstructions_failed in Hb as ->; [|done]. by split.
  - intros Hb. apply BuildAnchorInstructions_failed in Hb as ->; [|done]. by split.
Qed.
End State.

(** C21: The invariant of the Anchor builder's package variables: whatever is
    asked, and whether the call succeeds or not, every cached IDL stays cached as
    it is and the discriminators of its instructions, to one of which the call
    appends, are never overwritten. The instruction a successful call adds after
    the creations of token accounts is the one named by the request, and its
    data, when serialized at once, is the discriminator followed by the encoded
    arguments. *)
Theorem anchor_cache_invariant `{Unicode} `{SolanaGo} `{SolanaWorld} `{MapOrder} `{AnchorGo} `{IdlJson} `{IdlChain}
    fuel st req from st' m :
  state_ok st -> BuildAnchorTx fuel st req from = Some (st', m) ->
  state_ok st' /\ evolves st st' /\
  forall r, m = Ret r -> exists programID idl ix argBytes,
    PublicKeyFromBase58 (tr_Program req) = Ret programID /\
    as_idlCache st' !! PublicKeyString programID = Some idl /\
    find_instruction idl (tr_Method req) = Some ix /\
    argument_bytes fuel idl ix (tr_Args req) argBytes /\
    Instructions (as_heap st') r = ar_creations r ++ [{| ix_ProgramID := programID; ix_Accounts := ar_accounts r;
      ix_Data := slice_bytes (as_heap st') (in_Discriminator ix) ++ argBytes |}].
Proof.
  intros Hok. unfold BuildAnchorTx. destruct (Must _) as [programID|e|] eqn:Ep; [|by intros [= <- <-]..].
  apply Must_Ret in Ep. destruct (FetchIDL st _ programID) as [st1 m1] eqn:Ef.
  destruct (FetchIDL_ok _ _ _ _ _ Hok Ef) as (Hok1 & Hev1 & Hidl).
  destruct m1 as [idl|e|]; [|by intros [= <- <-]..]. pose proof (Hidl _ eq_refl) as Hkey.
  destruct (if bool_decide _ then _ else _) as [mint|e|]; [|by intros [= <- <-]..].
  intros Hb. destruct (BuildAnchorInstructions_ok _ _ _ _ _ _ _ _ _ _ _ _ Hok1 Hkey Hb) as [Hok2 Hev2].
  split; [done|]. split; [by etrans|]. intros r ->. apply BuildAnchorInstructions_Ret in Hb
    as (ix & accounts & argBytes & atas & keys & pubs & Hf & Hp & Ha & Hc & _ & Hacc & Hprog & _ & _).
  exists programID, idl, ix, argBytes. split; [done|]. split; [by rewrite Hc|]. split; [done|].
  apply prepare_Ret in Hp as [Hargs _]. split; [done|].
  apply find_instruction_In in Hf as [Hin _].
  assert (Hd : cached (as_idlCache st1) (in_Discriminator ix)) by by exists (PublicKeyString programID), idl.
  destruct (append_keeps _ _ _ _ _ _ Hok1 Hd Ha) as (Hdata & _ & Hkeep).
  unfold Instructions. by rewrite Hdata, Hprog, (Hkeep _ Hd).
Qed.

(** C40: Two calls of the same instruction of a cached IDL, of which the second
    runs before the first is serialized, as two concurrent requests may. When
    the arguments fit the spare capacity behind the discriminator, which is 24
    bytes for a derived one, both calls append into the same array: the first
    caller's instruction carries the second caller's arguments. *)
Theorem shared_discriminator `{Unicode} `{SolanaGo} `{SolanaWorld} `{MapOrder} `{AnchorGo}
    fuel st rpcURL programID idl method args1 signer1 mint1 st1 r1 args2 signer2 mint2 st2 r2 ix :
  state_ok st -> as_idlCache st !! PublicKeyString programID = Some idl -> find_instruction idl method = Some ix ->
  BuildAnchorInstructions fuel st rpcURL programID idl method args1 signer1 mint1 = Some (st1, Ret r1) ->
  BuildAnchorInstructions fuel st1 rpcURL programID idl method args2 signer2 mint2 = Some (st2, Ret r2) ->
  sl_len (ar_data r1) = sl_len (ar_data r2) ->
  (sl_len (ar_data r1) <= length (array (as_heap st) (in_Discriminator ix)))%nat ->
  slice_bytes (as_heap st2) (ar_data r1) = slice_bytes (as_heap st2) (ar_data r2).
Proof.
  intros Hok Hkey Hix Hb1 Hb2 Hlen Hcap. apply BuildAnchorInstructions_Ret in Hb1
    as (ix1 & ? & l1 & ? & ? & ? & Hf1 & _ & Ha1 & _).
  apply BuildAnchorInstructions_Ret in Hb2 as (ix2 & ? & l2 & ? & ? & ? & Hf2 & _ & Ha2 & _).
  rewrite Hix in Hf1, Hf2. injection Hf1 as <-. injection Hf2 as <-.
  apply find_instruction_In in Hix as [Hin _].
  assert (Hd : cached (as_idlCache st) (in_Discriminator ix)) by by eexists _, idl.
  destruct (append_keeps _ _ _ _ _ _ Hok Hd Ha1) as (_ & Hok1 & Hkeep).
  destruct (append_keeps _ _ _ _ _ _ Hok1 Hd Ha2) as (Hdata2 & _ & _).
  rewrite Hdata2, Hkeep by done. destruct (proj1 Hok _ Hd) as [Hr Hl].
  destruct (append_spec _ _ _ _ _ Hr Hl Ha1) as (_ & L1 & _).
  destruct (proj1 Hok1 _ Hd) as [Hr' Hl'].
  destruct (append_spec _ _ _ _ _ Hr' Hl' Ha2) as (_ & L2 & _).
  eapply append_twice; [exact Hr| | |exact Ha1|exact Ha2]; lia.
Qed.


(** ** On the concrete program *)
#[export] Instance program_address : ProgramAddressLaw.
Proof. intros seeds p _ _. by eexists _, _. Qed.

Lemma fetched_ok : state_ok fetched.
Proof.
  assert (Hd : forall d, cached (as_idlCache fetched) d -> d = {| sl_array := 0; sl_len := 8 |}).
  { intros d (k & i & Hk & Hd). cbn [fetched as_idlCache] in Hk.
    apply lookup_singleton_Some in Hk as [<- <-]. by destruct Hd as [<-|[]]. }
  split; [|by intros ? ? ->%Hd ->%Hd]. intros d ->%Hd. cbn. lia.
Qed.

Lemma anchor_cache_invariant_witness :
  exists st' r, BuildAnchorTx 2 empty (call "7") [x0a] = Some (st', Ret r) /\ state_ok st' /\
    map ix_Data (Instructions (as_heap st') r) = [discriminator ++ Binary.le_bytes 8 7].
Proof.
  assert (Hok : state_ok empty) by (split; intros d *; intros (k & i & Hk & _); vm_compute in Hk; discriminate Hk).
  destruct (BuildAnchorTx 2 empty (call "7") [x0a]) as [[st' m]|] eqn:E; [|vm_compute in E; discriminate E].
  destruct (anchor_cache_invariant 2 empty (call "7") [x0a] st' m Hok E) as (Hok' & _ & _).
  vm_compute in E. injection E as <- <-. eexists _, _. split; [reflexivity|]. split; [exact Hok'|].
  vm_compute. reflexivity.
Defined.

Lemma shared_discriminator_witness :
  exists st1 r1 st2 r2,
    BuildAnchorInstructions 2 fetched "" (bytes_of "prog") idl "set_value" {["new_value" := "7"]} [x0a] None = Some (st1, Ret r1) /\
    BuildAnchorInstructions 2 st1 "" (bytes_of "prog") idl "set_value" {["new_value" := "9"]} [x0b] None = Some (st2, Ret r2) /\
    slice_bytes (as_heap st1) (ar_data r1) = discriminator ++ Binary.le_bytes 8 7 /\
    slice_bytes (as_heap st2) (ar_data r1) = discriminator ++ Binary.le_bytes 8 9.
Proof.
  destruct (BuildAnchorInstructions 2 fetched "" (bytes_of "prog") idl "set_value" {["new_value" := "7"]} [x0a] None)
    as [[st1 [r1| |]]|] eqn:E1; [|vm_compute in E1; discriminate E1..].
  destruct (BuildAnchorInstructions 2 st1 "" (bytes_of "prog") idl "set_value" {["new_value" := "9"]} [x0b] None)
    as [[st2 [r2| |]]|] eqn:E2; [|vm_compute in E1; injection E1 as <- <-; vm_compute in E2; discriminate E2..].
  pose proof (shared_discriminator 2 fetched "" (bytes_of "prog") idl "set_value" _ _ _ st1 r1 _ _ _ st2 r2
    (List.hd (Build_IDLInstruction "" {| sl_array := 0; sl_len := 0 |} [] []) (idl_Instructions idl))
    fetched_ok (lookup_singleton_eq _ _) eq_refl E1 E2) as Hs.
  vm_compute in E1. injection E1 as <- <-. vm_compute in E2. injection E2 as <- <-.
  eexists _, _, _, _. split; [vm_compute; reflexivity|]. split; [vm_compute; reflexivity|].
  split; [vm_compute; reflexivity|]. rewrite Hs; [vm_compute; reflexivity|reflexivity|cbn; lia].
Defined.


