(* ===== verification/PartyA.v ===== *)
(** * PartyA: the signing service (internal/partya)

    The escalation queue (escalation.go), the service (service.go) and the REST
    handlers (api.go), in a state monad over the service's state: store,
    connection to Party B, queue and message counter. What the connection answers
    and what the signing ceremony returns are arguments; so are the JSON forms.
    Each operation runs as one step: the pointer a queue lookup returns is read as
    of the lookup. *)
From S2P Require Import Prelude GoStd Codec Protocol Transport Tss Vm Solana Store.
Local Open Scope Z_scope.
Local Open Scope go_scope.

(** ** Escalation queue (escalation.go) *)
Record PendingTx := {
  pt_TxID : string; pt_Status : TxStatus; pt_Reason : string; pt_UnsignedTx : bytes;
  pt_SignedTx : option bytes; pt_RpcURL : string; pt_ExtraSignerKeys : list bytes }.
Definition EscalationQueue : Type := gmap string PendingTx.
Definition NewEscalationQueue : EscalationQueue := ∅.

Module Queue.
Definition Add (q : EscalationQueue) (txID reason : string) (unsignedTx : bytes) (rpcURL : string)
    (extraSignerKeys : list bytes) : EscalationQueue :=
  <[txID := {| pt_TxID := txID; pt_Status := TxStatusPending; pt_Reason := reason; pt_UnsignedTx := unsignedTx;
               pt_SignedTx := None; pt_RpcURL := rpcURL; pt_ExtraSignerKeys := extraSignerKeys |}]> q.
Definition Get (q : EscalationQueue) (txID : string) : option PendingTx := q !! txID.
Definition Update (q : EscalationQueue) (txID : string) (status : TxStatus) (signedTx : option bytes)
    : EscalationQueue * bool :=
  match q !! txID with
  | None => (q, false)
  | Some p =>
    (<[txID := {| pt_TxID := pt_TxID p; pt_Status := status; pt_Reason := pt_Reason p;
                  pt_UnsignedTx := pt_UnsignedTx p;
                  pt_SignedTx := match signedTx with Some b => Some b | None => pt_SignedTx p end;
                  pt_RpcURL := pt_RpcURL p; pt_ExtraSignerKeys := pt_ExtraSignerKeys p |}]> q, true)
  end.
Definition Delete (q : EscalationQueue) (txID : string) : EscalationQueue := delete txID q.
(** In the order a range visits the map. *)
Definition List (q : EscalationQueue) : list PendingTx := (map_to_list q).*2.
End Queue.

(** ** Requests and results *)
Record APISignRequest := {
  rq_DerivationPath : string; rq_To : list string; rq_Value : string; rq_Data : bytes; rq_ChainID : string;
  rq_GasLimit : Z; rq_GasPrice : string; rq_Nonce : Z; rq_RpcURL : string; rq_Mint : string;
  rq_Instructions : list SolanaInstruction; rq_Program : string; rq_Method : string; rq_Args : gmap string string;
  rq_Prefix : string; rq_Denom : string; rq_AccountNumber : Z; rq_Sequence : Z; rq_Fee : string; rq_Gas : Z;
  rq_Memo : string }.
Record DeriveResult := { dr_Address : string; dr_PublicKey : string }.
Record SignResult := { sr_TxID : string; sr_Status : string; sr_SignedTx : string; sr_Reason : string }.
Record KeyInfo := { ki_DerivationPath : string; ki_Address : string; ki_PubKey : string; ki_Label : string }.
Record HealthStatus := { hs_Status : string; hs_SecureServerConnected : bool }.

(** The anonymous JSON objects of two requests to Party B. *)
Record DeriveReqPayload := { drq_derivationPath : string }.
Record TxStatusReqPayload := { tsq_txId : string }.

(** [SendAndReceive]: a request and its response, or the connection's error. *)
Class TransportClient (T : Type) := SendAndReceive : T -> Message -> T * go Message.

Class PartyACodecs := {
  #[global] codec_SignRequest :: Codec SignRequestPayload;
  #[global] codec_SignResponse :: Codec SignResponsePayload;
  #[global] codec_SignReady :: Codec SignReadyPayload;
  #[global] codec_SignApproved :: Codec SignApprovedPayload;
  #[global] codec_TxStatusResponse :: Codec TxStatusResponsePayload;
  #[global] codec_DeriveReq :: Codec DeriveReqPayload;
  #[global] codec_TxStatusReq :: Codec TxStatusReqPayload;
}.

(** What [base64.DecodeString] returns whatever its error: the bytes decoded
    before it. *)
Definition decode_ignoring_error (s : string) : bytes :=
  (Base64.DecodeString2 s).1.
Definition hex0x (b : bytes) : string := "0x" +:+ Hex.EncodeToString b.
(** [v, _ := json.Marshal(x)]. *)
Definition marshal_ignoring {A} `{Codec A} (a : A) : bytes := default [] (to_option (Marshal a)).

Section PartyA.
Context `{Unicode} `{SolanaGo} `{SolanaWorld} `{PartyACodecs} {S T : Type} `{Store S} `{TransportClient T}.
Context (allowLocalRPC : bool).
Context (proto_DeriveKey : KeyShare -> string -> go DerivedKey).
Context (proto_Sign : T -> SignRequest -> bytes -> PartyID -> list PartyID -> T * go Signature).

Record ServiceA := mkServiceA {
  sa_store : S; sa_transport : T; sa_vmRegistry : Registry; sa_escalation : EscalationQueue; sa_msgCounter : Z }.
Definition NewService (st : S) (tc : T) (registry : Registry) : ServiceA :=
  mkServiceA st tc registry NewEscalationQueue 0.

(** ** The monad *)
Definition M (A : Type) : Type := ServiceA -> ServiceA * go A.
#[local] Instance M_ret : MRet M := fun A a w => (w, Ret a).
#[local] Instance M_bind : MBind M := fun A B f m w =>
  match m w with
  | (w, Ret a) => f a w
  | (w, Err e) => (w, Err e)
  | (w, Panic) => (w, Panic)
  end.
Definition lift {A} (m : go A) : M A := fun w => (w, m).
Definition wrapM {A} (p : string) (m : M A) : M A := fun w => let '(w, r) := m w in (w, r ?: p).
(** The call's result, error included; a panic goes through. *)
Definition try {A} (m : M A) : M (go A) := fun w =>
  match m w with
  | (w, Ret a) => (w, Ret (Ret a))
  | (w, Err e) => (w, Ret (Err e))
  | (w, Panic) => (w, Panic)
  end.
Definition get : M ServiceA := fun w => (w, Ret w).
Definition on_store {A} (f : S -> S * go A) : M A := fun w =>
  let '(s, r) := f (sa_store w) in
  (mkServiceA s (sa_transport w) (sa_vmRegistry w) (sa_escalation w) (sa_msgCounter w), r).
Definition on_transport {A} (f : T -> T * go A) : M A := fun w =>
  let '(t, r) := f (sa_transport w) in
  (mkServiceA (sa_store w) t (sa_vmRegistry w) (sa_escalation w) (sa_msgCounter w), r).
Definition on_queue (f : EscalationQueue -> EscalationQueue) : M unit := fun w =>
  (mkServiceA (sa_store w) (sa_transport w) (sa_vmRegistry w) (f (sa_escalation w)) (sa_msgCounter w), Ret tt).

(** A uint64 counter. *)
Definition nextMsgID : M Z := fun w =>
  let n := (sa_msgCounter w + 1) mod 2 ^ 64 in
  (mkServiceA (sa_store w) (sa_transport w) (sa_vmRegistry w) (sa_escalation w) n, Ret n).

Definition send (ty : byte) (payload : bytes) : M Message :=
  id ← nextMsgID;
  on_transport (fun t => SendAndReceive t {| Type_ := ty; ID := id; Payload := payload |}).

Definition adapter_for (path : string) : M Adapter :=
  w ← get; lift (from_option_err ("no adapter registered for path " +:+ path) (ForPath (sa_vmRegistry w) path)).

(** ** Derive *)
Definition Derive (now : Z) (derivationPath label prefix : string) : M DeriveResult :=
  adapter ← adapter_for derivationPath;
  masterShare ← wrapM "get master share" (on_store (fun s => GetMasterShare s (AdapterCurve adapter)));
  derived ← lift (proto_DeriveKey masterShare derivationPath ?: "derive key");
  let deriveOpts := if bool_decide (prefix = "") then [] else [WithPrefix prefix] in
  address ← lift (DeriveAddress adapter (dk_PublicKey derived) deriveOpts ?: "derive address");
  _ ← wrapM "save derived key" (on_store (fun s => SaveDerivedKey s
        {| dkr_DerivationPath := derivationPath; dkr_Curve := AdapterCurve adapter;
           dkr_PublicKey := dk_PublicKey derived; dkr_Address := address; dkr_Label := label;
           dkr_Share := dk_Share derived; dkr_CreatedAt := now |}));
  _ ← try (send MsgDeriveReq (marshal_ignoring {| drq_derivationPath := derivationPath |}));
  mret {| dr_Address := address; dr_PublicKey := hex0x (dk_PublicKey derived) |}.

(** ** Sign *)
Definition tx_request (req : APISignRequest) (key : DerivedKeyRecord) : TxRequest := {|
  tr_From := dkr_Address key; tr_To := rq_To req; tr_Value := rq_Value req; tr_Data := rq_Data req;
  tr_DerivationPath := rq_DerivationPath req; tr_Prefix := rq_Prefix req; tr_Denom := rq_Denom req;
  tr_ChainID := rq_ChainID req; tr_AccountNumber := rq_AccountNumber req; tr_Sequence := rq_Sequence req;
  tr_Fee := rq_Fee req; tr_Gas := rq_Gas req; tr_Memo := rq_Memo req; tr_PubKey := dkr_PublicKey key;
  tr_GasLimit := rq_GasLimit req; tr_GasPrice := rq_GasPrice req; tr_Nonce := rq_Nonce req;
  tr_AutoNonce := false; tr_RpcURL := rq_RpcURL req; tr_Mint := rq_Mint req;
  tr_Instructions := rq_Instructions req; tr_Program := rq_Program req; tr_Method := rq_Method req;
  tr_Args := rq_Args req |}.

Definition parties : list PartyID :=
  [{| pid_ID := "party-a"; pid_Index := 0 |}; {| pid_ID := "party-b"; pid_Index := 1 |}].
Definition party_a : PartyID := {| pid_ID := "party-a"; pid_Index := 0 |}.

(** The bytes that get signed: for Solana with an RPC URL, those with a fresh
    blockhash. *)
Definition final_bytes (adapter : Adapter) (raw : bytes) (rpcURL : string) : go bytes :=
  if negb (bool_decide (rpcURL = "")) && bool_decide (Name adapter = "solana") then
    blockhash ← FetchRecentBlockhash allowLocalRPC rpcURL ?: "fetch recent blockhash";
    InjectBlockhash raw blockhash ?: "inject blockhash"
  else Ret raw.

Definition runTSSSigning (adapter : Adapter) (derivedKey : DerivedKeyRecord) (raw : bytes) (extraKeys : list bytes)
    (rpcURL txID : string) : M bytes :=
  raw ← lift (final_bytes adapter raw rpcURL);
  signableBytes ← lift (ExtractSignableBytes adapter raw ?: "extract signable bytes");
  _ ← wrapM "send sign-ready to Party B" (send MsgSignReady
        (marshal_ignoring {| srd_TxID := txID; srd_SignableBytes := Base64.EncodeToString signableBytes |}));
  sig ← wrapM "TSS sign" (on_transport (fun t => proto_Sign t
          {| sq_DerivationPath := dkr_DerivationPath derivedKey; sq_Message := signableBytes;
             sq_Curve := dkr_Curve derivedKey |} (dkr_Share derivedKey) party_a parties));
  lift ((if (0 <? zlen extraKeys) && bool_decide (Name adapter = "solana")
         then AssembleSignedTxWithExtra raw sig extraKeys
         else AssembleSignedTx adapter raw sig) ?: "assemble signed tx").

Definition sign_payload (req : APISignRequest) (raw signableBytes : bytes) : SignRequestPayload :=
  {| srq_To := rq_To req; srq_Value := rq_Value req; srq_Data := Hex.EncodeToString (rq_Data req);
     srq_DerivationPath := rq_DerivationPath req; srq_UnsignedTx := Base64.EncodeToString raw;
     srq_SignableBytes := Base64.EncodeToString signableBytes |}.

(** Acting on Party B's decision. *)
Definition sign_decision (now : Z) (req : APISignRequest) (adapter : Adapter) (derivedKey : DerivedKeyRecord)
    (unsignedTx : UnsignedTx) (resp : SignResponsePayload) : M SignResult :=
  let result st tx reason id := {| sr_TxID := id; sr_Status := st; sr_SignedTx := tx; sr_Reason := reason |} in
  if bool_decide (srs_Decision resp = "approve") then
    signedTx ← wrapM "TSS signing" (runTSSSigning adapter derivedKey (utx_RawBytes unsignedTx)
                 (utx_ExtraSignerKeys unsignedTx) (rq_RpcURL req) (srs_TxID resp));
    mret (result "signed" (hex0x signedTx) (srs_Reason resp) "")
  else if bool_decide (srs_Decision resp = "reject") then mret (result "rejected" "" (srs_Reason resp) "")
  else if bool_decide (srs_Decision resp = "escalate") then
    let txID := srs_TxID resp in
    _ ← on_queue (fun q => Queue.Add q txID (srs_Reason resp) (utx_RawBytes unsignedTx) (rq_RpcURL req)
                             (utx_ExtraSignerKeys unsignedTx));
    _ ← wrapM "save pending tx" (on_store (fun s => SaveTx s
          {| tx_ID := txID; tx_DerivationPath := rq_DerivationPath req; tx_To := rq_To req; tx_Value := rq_Value req;
             tx_Data := ""; tx_UnsignedTx := utx_RawBytes unsignedTx; tx_SignedTx := [];
             tx_Status := TxStatusPending; tx_Reason := srs_Reason resp; tx_CreatedAt := now; tx_UpdatedAt := now |}));
    mret (result "pending_review" "" (srs_Reason resp) txID)
  else lift (Err ("unknown decision: " +:+ srs_Decision resp)).

Definition Sign (now : Z) (req : APISignRequest) : M SignResult :=
  adapter ← adapter_for (rq_DerivationPath req);
  derivedKey ← wrapM "get derived key" (on_store (fun s => GetDerivedKey s (rq_DerivationPath req)));
  unsignedTx ← lift (BuildUnsignedTx adapter (tx_request req derivedKey) ?: "build unsigned tx");
  signableBytes ← lift (ExtractSignableBytes adapter (utx_RawBytes unsignedTx) ?: "extract signable bytes");
  payloadBytes ← lift (Marshal (sign_payload req (utx_RawBytes unsignedTx) signableBytes) ?: "marshal sign request");
  resp ← wrapM "send sign request" (send MsgSignRequest payloadBytes);
  signResp ← lift (Unmarshal (A := SignResponsePayload) (Payload resp) ?: "unmarshal sign response");
  sign_decision now req adapter derivedKey unsignedTx signResp.

(** ** Escalated transactions *)
Definition HandleSignApproved (txID derivationPath : string) : M unit :=
  w ← get;
  match Queue.Get (sa_escalation w) txID with
  | None => mret tt
  | Some pending =>
    let set_rejected := on_queue (fun q => (Queue.Update q txID TxStatusRejected None).1) in
    match ForPath (sa_vmRegistry w) derivationPath with
    | None => set_rejected
    | Some adapter =>
      key ← try (on_store (fun s => GetDerivedKey s derivationPath));
      match key with
      | Ret derivedKey =>
        signed ← try (runTSSSigning adapter derivedKey (pt_UnsignedTx pending) (pt_ExtraSignerKeys pending)
                        (pt_RpcURL pending) txID);
        match signed with
        | Ret signedTx =>
          _ ← on_queue (fun q => (Queue.Update q txID TxStatusSigned (Some signedTx)).1);
          _ ← try (on_store (fun s => UpdateTxStatus s txID TxStatusSigned signedTx));
          mret tt
        | _ => set_rejected
        end
      | _ => set_rejected
      end
    end
  end.

Definition queryPartyBTxStatus (txID : string) : M (option SignResult) :=
  resp ← try (send MsgTxStatusReq (marshal_ignoring {| tsq_txId := txID |}));
  match (resp ← resp; Unmarshal (A := TxStatusResponsePayload) (Payload resp)) with
  | Panic => lift Panic
  | Err _ => mret None
  | Ret statusResp =>
    if bool_decide (tsr_Status statusResp = "unknown") then mret None
    else
      let signedTx := if bool_decide (tsr_SignedTx statusResp = "") then None
                      else Some (decode_ignoring_error (tsr_SignedTx statusResp)) in
      _ ← on_queue (fun q => (Queue.Update q txID (tsr_Status statusResp) signedTx).1);
      _ ← (match signedTx with
           | Some _ => if bool_decide (tsr_Status statusResp = TxStatusSigned)
                       then on_queue (fun q => Queue.Delete q txID) else mret tt
           | None => mret tt
           end);
      mret (Some {| sr_TxID := txID; sr_Status := tsr_Status statusResp;
                    sr_SignedTx := match signedTx with Some b => hex0x b | None => "" end;
                    sr_Reason := tsr_Reason statusResp |})
  end.

(** The answer from the queue entry [pending]. *)
Definition queue_answer (txID : string) (pending : PendingTx) : M SignResult :=
  _ ← (match pt_SignedTx pending with
       | Some _ => if bool_decide (pt_Status pending = TxStatusSigned)
                   then on_queue (fun q => Queue.Delete q txID) else mret tt
       | None => mret tt
       end);
  mret {| sr_TxID := txID; sr_Status := pt_Status pending;
          sr_SignedTx := match pt_SignedTx pending with Some b => hex0x b | None => "" end;
          sr_Reason := pt_Reason pending |}.

(** The answer from the store; an absent signed transaction is empty. *)
Definition store_answer (txID : string) : M SignResult :=
  txRecord ← wrapM "get tx" (on_store (fun s => GetTx s txID));
  let signed := tx_SignedTx txRecord in
  _ ← (if (0 <? zlen signed) && bool_decide (tx_Status txRecord = TxStatusSigned)
       then _ ← try (on_store (fun s => DeleteTx s txID)); mret tt else mret tt);
  mret {| sr_TxID := tx_ID txRecord; sr_Status := tx_Status txRecord;
          sr_SignedTx := if 0 <? zlen signed then hex0x signed else ""; sr_Reason := tx_Reason txRecord |}.

Definition GetSignStatus (txID : string) : M SignResult :=
  w ← get;
  match Queue.Get (sa_escalation w) txID with
  | Some pending =>
    if bool_decide (pt_Status pending = TxStatusPending) then
      updated ← queryPartyBTxStatus txID;
      match updated with Some r => mret r | None => queue_answer txID pending end
    else queue_answer txID pending
  | None => store_answer txID
  end.

(** ** Keys and health *)
Definition ListKeys : M (list KeyInfo) :=
  records ← wrapM "list derived keys" (on_store ListDerivedKeys);
  mret (map (fun r => {| ki_DerivationPath := dkr_DerivationPath r; ki_Address := dkr_Address r;
                         ki_PubKey := hex0x (dkr_PublicKey r); ki_Label := dkr_Label r |}) records).

Definition Health : M HealthStatus :=
  resp ← try (send MsgHealthCheck []);
  mret {| hs_Status := "ok"; hs_SecureServerConnected := is_ret resp |}.

(** ** REST handlers (api.go)

    A request body is what the JSON decoder makes of it. *)
Inductive Body :=
| BError (msg : string)
| BDerive (r : DeriveResult)
| BSign (r : SignResult)
| BKeys (keys : gmap string KeyInfo)
| BOk
| BHealth (h : HealthStatus).
Definition Response : Type := Z * Body.
Definition writeJSON (status : Z) (b : Body) : M Response := mret (status, b).
Definition writeError (status : Z) (msg : string) : M Response := mret (status, BError msg).

Record deriveRequest := { drv_DerivationPath : string; drv_Label : string; drv_Prefix : string }.
Definition handleDerive (now : Z) (body : go deriveRequest) : M Response :=
  match body with
  | Ret req =>
    if bool_decide (drv_DerivationPath req = "") then writeError 400 "derivationPath is required"
    else
      result ← try (Derive now (drv_DerivationPath req) (drv_Label req) (drv_Prefix req));
      match result with Ret r => writeJSON 200 (BDerive r) | Err e => writeError 500 e | Panic => lift Panic end
  | _ => writeError 400 "invalid request body"
  end.

(** [signAPIRequest]: the request, its calldata still in hexadecimal. *)
Record signAPIRequest := { sar_req : APISignRequest; sar_Data : string }.
Definition with_data (r : APISignRequest) (data : bytes) : APISignRequest := {|
  rq_DerivationPath := rq_DerivationPath r; rq_To := rq_To r; rq_Value := rq_Value r; rq_Data := data;
  rq_ChainID := rq_ChainID r; rq_GasLimit := rq_GasLimit r; rq_GasPrice := rq_GasPrice r; rq_Nonce := rq_Nonce r;
  rq_RpcURL := rq_RpcURL r; rq_Mint := rq_Mint r; rq_Instructions := rq_Instructions r; rq_Program := rq_Program r;
  rq_Method := rq_Method r; rq_Args := rq_Args r; rq_Prefix := rq_Prefix r; rq_Denom := rq_Denom r;
  rq_AccountNumber := rq_AccountNumber r; rq_Sequence := rq_Sequence r; rq_Fee := rq_Fee r; rq_Gas := rq_Gas r;
  rq_Memo := rq_Memo r |}.
Definition calldata (data : string) : go bytes :=
  if bool_decide (data = "") then Ret [] else Hex.hexDecode (Strings.TrimPrefix data "0x").

Definition handleSign (now : Z) (body : go signAPIRequest) : M Response :=
  match body with
  | Ret req =>
    let r := sar_req req in
    if bool_decide (rq_DerivationPath r = "") then writeError 400 "derivationPath is required"
    else if (zlen (rq_To r) =? 0) && (zlen (rq_Instructions r) =? 0) && bool_decide (rq_Program r = "")
    then writeError 400 "to, instructions, or program required"
    else match calldata (sar_Data req) with
         | Panic => lift Panic
         | Err _ => writeError 400 "invalid hex data"
         | Ret data =>
           result ← try (Sign now (with_data r data));
           match result with
           | Ret r => writeJSON (if bool_decide (sr_Status r = "pending_review") then 202 else 200) (BSign r)
           | Err e => writeError 500 e
           | Panic => lift Panic
           end
         end
  | _ => writeError 400 "invalid request body"
  end.

Definition handleGetSignStatus (txID : string) : M Response :=
  if bool_decide (txID = "") then writeError 400 "txId is required"
  else
    result ← try (GetSignStatus txID);
    match result with Ret r => writeJSON 200 (BSign r) | _ => writeError 404 "transaction not found" end.

Definition handleListKeys : M Response :=
  keys ← try ListKeys;
  match keys with
  | Ret l => writeJSON 200 (BKeys (fold_left (fun m k => <[ki_DerivationPath k := k]> m) l ∅))
  | Err e => writeError 500 e
  | Panic => lift Panic
  end.

Definition handleUpdateLabel (path : string) (body : go string) : M Response :=
  if bool_decide (path = "") then writeError 400 "path is required"
  else match body with
       | Ret label =>
         r ← try (on_store (fun s => UpdateLabel s path label));
         match r with Ret _ => writeJSON 200 BOk | Err e => writeError 500 e | Panic => lift Panic end
       | _ => writeError 400 "invalid request body"
       end.

Definition handleHealth : M Response :=
  health ← Health;
  writeJSON (if bool_decide (hs_Status health = "ok") then 200 else 503) (BHealth health).

(** chi's Recoverer turns a handler's panic into a 500 without a body. *)
Definition recoverer (m : M Response) (w : ServiceA) : ServiceA * (Z * option Body) :=
  match m w with
  | (w, Ret (status, body)) => (w, (status, Some body))
  | (w, _) => (w, (500, None))
  end.
End PartyA.
