(* ===== verification/PartyAFacts.v ===== *)
(** * PartyAFacts: what the signing service guarantees *)
From S2P Require Import Prelude GoStd Codec Crypto Protocol Transport Tss TssFacts Config Vm Solana Store StoreFacts Llm Analyzer AnalyzerFacts Telegram PartyB PartyBFacts PartyA.
Local Open Scope Z_scope.

(** Both parties derive the same public key from the shares a dealer gave
    them. *)
Lemma dealer_derive_public `{Unicode} `{TssLib} {preParams aux}
    `{Codec (SaveData aux)} `{Codec (SaveData unit)}
    (mk_aux : list preParams -> nat -> aux) S256 Edwards `{!CurveLaws S256} `{!SaveCodecLaws S256 aux}
    rand d pub chain pA pB pps ksA ksB path dkA kA kB :
  0 <= d -> uncompressed (mulG S256 d) = Ret pub ->
  map KeyInt (makeSortedPartyIDs [pA; pB]) = [kA; kB] ->
  DealerSetupECDSA mk_aux S256 rand d pub chain [pA; pB] pps = Ret [ksA; ksB] ->
  DeriveKey (aux := aux) S256 Edwards ksA path = Ret dkA ->
  exists dkB, DeriveKey (aux := aux) S256 Edwards ksB path = Ret dkB /\ dk_PublicKey dkB = dk_PublicKey dkA.
Proof.
  intros Hd Hpub Hids HD HA.
  destruct (DealerSetupECDSA_valid mk_aux S256 _ _ _ _ _ _ _ Hd Hpub HD) as (coeffs & _ & HV).
  rewrite Hids in HV.
  destruct (HV 0%nat ksA eq_refl) as (k1 & [= <-] & VA & CA & ChA & _).
  destruct (HV 1%nat ksB eq_refl) as (k2 & [= <-] & VB & CB & ChB & _).
  unfold DeriveKey in *. destruct (parsePath path) as [idxs| |]; try discriminate HA.
  cbn [cause mbind go_bind] in *. rewrite CA in HA. rewrite CB.
  rewrite bool_decide_eq_true_2 in HA |- * by done.
  destruct (derive_with_consistent S256 _ uncompressed _ _ _ _ _ _ ksB _ _ _
              (deriveECDSA_step_in_step S256) VA VB ltac:(congruence) HA) as (dkB & _ & HB & Hpk & _).
  by exists dkB.
Qed.

Section PartyAFacts.
Context `{Unicode} `{SolanaGo} `{SolanaWorld} `{PartyACodecs} {S T : Type} `{Store S} `{TransportClient T}.
Context (allowLocalRPC : bool).
Context (proto_DeriveKey : KeyShare -> string -> go DerivedKey).
Context (proto_Sign : T -> SignRequest -> bytes -> PartyID -> list PartyID -> T * go Signature).
Notation ServiceA := (PartyA.ServiceA (S := S) (T := T)).
Notation M := (PartyA.M (S := S) (T := T)).
Notation Sign := (PartyA.Sign allowLocalRPC proto_Sign).

(** ** Inverting the monad *)
Lemma bind_Ret {A B} (m : M A) (f : A -> M B) (w w' : ServiceA) b :
  PartyA.M_bind A B f m w = (w', Ret b) -> exists w1 a, m w = (w1, Ret a) /\ f a w1 = (w', Ret b).
Proof. unfold PartyA.M_bind. destruct (m w) as [w1 [a|e|]]; [eauto|discriminate..]. Qed.
Lemma wrapM_Ret {A} p (m : M A) (w w' : ServiceA) a : wrapM p m w = (w', Ret a) -> m w = (w', Ret a).
Proof. unfold wrapM. destruct (m w) as [w1 [b|e|]]; cbn; congruence. Qed.
Lemma lift_Ret {A} (m : go A) (w w' : ServiceA) a : lift m w = (w', Ret a) -> w' = w /\ m = Ret a.
Proof. by intros [= <- ->]. Qed.
Lemma adapter_for_Ret path (w w' : ServiceA) a : adapter_for path w = (w', Ret a) ->
  w' = w /\ ForPath (sa_vmRegistry w) path = Some a.
Proof.
  unfold adapter_for. intros (w1 & v & [= <- <-] & [-> E]%lift_Ret)%bind_Ret. split; [done|].
  destruct (ForPath _ _); cbn in E; congruence.
Qed.
Lemma on_store_Ret {A} (f : S -> S * go A) (w w' : ServiceA) a : on_store f w = (w', Ret a) ->
  f (sa_store w) = (sa_store w', Ret a) /\ sa_transport w' = sa_transport w /\
  sa_vmRegistry w' = sa_vmRegistry w.
Proof. unfold on_store. destruct (f (sa_store w)) as [s r]. by intros [= <- ->]. Qed.
Lemma on_transport_Ret {A} (f : T -> T * go A) (w w' : ServiceA) a : on_transport f w = (w', Ret a) ->
  f (sa_transport w) = (sa_transport w', Ret a) /\ sa_store w' = sa_store w.
Proof. unfold on_transport. destruct (f (sa_transport w)) as [t r]. by intros [= <- ->]. Qed.
Lemma send_Ret ty payload (w w' : ServiceA) resp : send ty payload w = (w', Ret resp) ->
  exists id, SendAndReceive (sa_transport w) {| Type_ := ty; ID := id; Payload := payload |}
    = (sa_transport w', Ret resp) /\ sa_store w' = sa_store w.
Proof.
  unfold send. intros (w1 & id & [= <- <-] & [HT Hs]%on_transport_Ret)%bind_Ret. cbn in *. by eexists.
Qed.

(** Running it forwards. *)
#[local] Existing Instances PartyA.M_bind PartyA.M_ret.
Lemma run_bind {A B} (m : M A) (f : A -> M B) (w w1 : ServiceA) a : m w = (w1, Ret a) -> (m ≫= f) w = f a w1.
Proof. intros E. unfold mbind, PartyA.M_bind. by rewrite E. Qed.
Lemma run_send ty payload (w : ServiceA) t' resp :
  SendAndReceive (sa_transport w) {| Type_ := ty; ID := (sa_msgCounter w + 1) mod 2 ^ 64; Payload := payload |}
    = (t', Ret resp) ->
  try (send ty payload) w = (mkServiceA (sa_store w) t' (sa_vmRegistry w) (sa_escalation w)
                               ((sa_msgCounter w + 1) mod 2 ^ 64), Ret (Ret resp)).
Proof.
  intros E. unfold try, send. rewrite (run_bind nextMsgID _ w _ _ eq_refl).
  unfold on_transport. cbn [sa_transport]. by rewrite E.
Qed.

(** One successful exchange with Party B. *)
Definition exchanged (t : T) (ty : byte) (payload : bytes) (t' : T) (resp : Message) : Prop :=
  exists id, SendAndReceive t {| Type_ := ty; ID := id; Payload := payload |} = (t', Ret resp).

Lemma runTSSSigning_Ret adapter key raw extra rpcURL txID (w w' : ServiceA) tx :
  Name adapter <> "solana" ->
  runTSSSigning allowLocalRPC proto_Sign adapter key raw extra rpcURL txID w = (w', Ret tx) ->
  exists hash t2 ack sig,
    ExtractSignableBytes adapter raw = Ret hash /\
    exchanged (sa_transport w) MsgSignReady
      (marshal_ignoring {| srd_TxID := txID; srd_SignableBytes := Base64.EncodeToString hash |}) t2 ack /\
    proto_Sign t2 {| sq_DerivationPath := dkr_DerivationPath key; sq_Message := hash; sq_Curve := dkr_Curve key |}
      (dkr_Share key) party_a PartyA.parties = (sa_transport w', Ret sig) /\
    AssembleSignedTx adapter raw sig = Ret tx.
Proof.
  intros Hn. unfold runTSSSigning, final_bytes.
  assert (Hb : bool_decide (Name adapter = "solana") = false) by (by apply bool_decide_eq_false_2).
  rewrite Hb, !andb_false_r.
  intros (w1 & raw' & [-> [= ->]]%lift_Ret & HX)%bind_Ret.
  apply bind_Ret in HX as (w2 & hash & [-> Hh%wrap_err_Ret]%lift_Ret & HX).
  apply bind_Ret in HX as (w3 & ack & (id & Hack & _)%wrapM_Ret%send_Ret & HX).
  apply bind_Ret in HX as (w4 & sig & [Hsig _]%wrapM_Ret%on_transport_Ret & HX).
  apply lift_Ret in HX as [-> HX%wrap_err_Ret].
  exists hash, (sa_transport w3), ack, sig. split; [done|]. split; [by exists id|]. by split.
Qed.

Lemma Sign_signed now req (w w' : ServiceA) r adapter :
  ForPath (sa_vmRegistry w) (rq_DerivationPath req) = Some adapter -> Name adapter <> "solana" ->
  Sign now req w = (w', Ret r) -> sr_Status r = "signed" ->
  exists key u hash payload t1 t2 resp sresp ack sig tx,
    BuildUnsignedTx adapter (tx_request req key) = Ret u /\
    ExtractSignableBytes adapter (utx_RawBytes u) = Ret hash /\
    Marshal (sign_payload req (utx_RawBytes u) hash) = Ret payload /\
    exchanged (sa_transport w) MsgSignRequest payload t1 resp /\
    Unmarshal (A := SignResponsePayload) (Payload resp) = Ret sresp /\ srs_Decision sresp = "approve" /\
    exchanged t1 MsgSignReady
      (marshal_ignoring {| srd_TxID := srs_TxID sresp; srd_SignableBytes := Base64.EncodeToString hash |}) t2 ack /\
    proto_Sign t2 {| sq_DerivationPath := dkr_DerivationPath key; sq_Message := hash; sq_Curve := dkr_Curve key |}
      (dkr_Share key) party_a PartyA.parties = (sa_transport w', Ret sig) /\
    AssembleSignedTx adapter (utx_RawBytes u) sig = Ret tx /\ sr_SignedTx r = hex0x tx.
Proof.
  intros Hfor Hn. unfold PartyA.Sign.
  intros (w1 & ad & [-> E]%adapter_for_Ret & HX)%bind_Ret. rewrite Hfor in E. injection E as <-.
  apply bind_Ret in HX as (w2 & key & [_ [Ht _]]%wrapM_Ret%on_store_Ret & HX).
  apply bind_Ret in HX as (w3 & u & [-> Hu%wrap_err_Ret]%lift_Ret & HX).
  apply bind_Ret in HX as (w4 & hash & [-> Hh%wrap_err_Ret]%lift_Ret & HX).
  apply bind_Ret in HX as (w5 & payload & [-> Hp%wrap_err_Ret]%lift_Ret & HX).
  apply bind_Ret in HX as (w6 & resp & (id & Hreq & _)%wrapM_Ret%send_Ret & HX).
  apply bind_Ret in HX as (w7 & sresp & [-> Hs%wrap_err_Ret]%lift_Ret & HX).
  revert HX. unfold sign_decision. case_bool_decide as Ea; [|case_bool_decide; [|case_bool_decide]].
  - intros (w8 & tx & HR%wrapM_Ret & [= <- <-])%bind_Ret _.
    destruct (runTSSSigning_Ret _ _ _ _ _ _ _ _ _ Hn HR) as (hash' & t2 & ack & sig & Hh' & Hack & Hsig & Htx).
    rewrite Hh in Hh'. injection Hh' as <-.
    exists key, u, hash, payload, (sa_transport w6), t2, resp, sresp, ack, sig, tx.
    repeat (split; [done|]). split; [exists id; by rewrite <- Ht|]. repeat (split; [done|]). done.
  - by intros [= <- <-].
  - intros (w8 & [] & _ & (w9 & [] & _ & [= <- <-])%bind_Ret)%bind_Ret. done.
  - done.
Qed.

(** C7: what comes back signed is what was approved: whenever [Sign] answers
    "signed" for a chain other than Solana, Party B answered "approve" to a
    request holding the built transaction and its signable bytes, Party A
    announced these same bytes as final and signed these same bytes, and the
    result is that transaction with the ceremony's signature. *)
Theorem sign_returns_approved now req (w w' : ServiceA) r adapter :
  ForPath (sa_vmRegistry w) (rq_DerivationPath req) = Some adapter -> Name adapter <> "solana" ->
  Sign now req w = (w', Ret r) -> sr_Status r = "signed" ->
  exists key u hash payload t1 t2 resp sresp ack sig tx,
    BuildUnsignedTx adapter (tx_request req key) = Ret u /\
    ExtractSignableBytes adapter (utx_RawBytes u) = Ret hash /\
    Marshal (sign_payload req (utx_RawBytes u) hash) = Ret payload /\
    exchanged (sa_transport w) MsgSignRequest payload t1 resp /\
    Unmarshal (A := SignResponsePayload) (Payload resp) = Ret sresp /\ srs_Decision sresp = "approve" /\
    exchanged t1 MsgSignReady
      (marshal_ignoring {| srd_TxID := srs_TxID sresp; srd_SignableBytes := Base64.EncodeToString hash |}) t2 ack /\
    proto_Sign t2 {| sq_DerivationPath := dkr_DerivationPath key; sq_Message := hash; sq_Curve := dkr_Curve key |}
      (dkr_Share key) party_a PartyA.parties = (sa_transport w', Ret sig) /\
    AssembleSignedTx adapter (utx_RawBytes u) sig = Ret tx /\ sr_SignedTx r = hex0x tx.
Proof. apply Sign_signed. Qed.

(** An approved transaction can be lost to polling: when a poll finds the
    entry still pending and Party B already done, the caller is given, as the
    signed transaction, the stored bytes of Party B, which are the JSON of the
    signature; the entry is gone, so the assembled transaction Party A is about
    to produce finds no entry to be stored in. *)
Theorem poll_returns_signature_json (w : ServiceA) txID pending t' resp j id :
  sa_escalation w !! txID = Some pending -> pt_Status pending = TxStatusPending -> j <> [] ->
  id = (sa_msgCounter w + 1) mod 2 ^ 64 ->
  SendAndReceive (sa_transport w)
    {| Type_ := MsgTxStatusReq; ID := id; Payload := marshal_ignoring {| tsq_txId := txID |} |} = (t', Ret resp) ->
  Unmarshal (A := TxStatusResponsePayload) (Payload resp)
    = Ret {| tsr_TxID := txID; tsr_Status := TxStatusSigned; tsr_Reason := ""; tsr_SignedTx := Base64.EncodeToString j |} ->
  exists w', GetSignStatus txID w
      = (w', Ret {| sr_TxID := txID; sr_Status := TxStatusSigned; sr_SignedTx := hex0x j; sr_Reason := "" |}) /\
    sa_escalation w' !! txID = None /\
    forall tx, Queue.Update (sa_escalation w') txID TxStatusSigned (Some tx) = (sa_escalation w', false).
Proof.
  intros Hq Hp Hj -> Hs Hu. eexists. split.
  { unfold GetSignStatus. rewrite (run_bind get _ w w w eq_refl). unfold Queue.Get.
    rewrite Hq, (bool_decide_eq_true_2 _ Hp).
    assert (Hne : Base64.EncodeToString j <> "").
    { intros E. apply Hj. pose proof (Base64.DecodeString_EncodeToString j) as HD. rewrite E in HD.
      by injection HD. }
    assert (Hd : decode_ignoring_error (Base64.EncodeToString j) = j).
    { unfold decode_ignoring_error. pose proof (Base64.DecodeString_EncodeToString j) as HD.
      unfold Base64.DecodeString in HD. destruct (Base64.DecodeString2 _) as [b [e|]]; [discriminate|].
      by injection HD. }
    erewrite run_bind.
    2:{ unfold queryPartyBTxStatus. erewrite run_bind by (by apply run_send).
        cbn [mbind go_bind]. rewrite Hu. cbn [tsr_Status tsr_SignedTx tsr_Reason].
        rewrite (bool_decide_eq_false_2 (TxStatusSigned = "unknown")) by discriminate.
        rewrite (bool_decide_eq_false_2 _ Hne), (bool_decide_eq_true_2 (TxStatusSigned = TxStatusSigned)) by done.
        rewrite Hd. erewrite run_bind by reflexivity. erewrite run_bind by reflexivity. reflexivity. }
    reflexivity. }
  cbn. unfold Queue.Delete, Queue.Update.
  assert (HN : forall q : EscalationQueue, delete txID q !! txID = None) by (intros; apply lookup_delete_eq).
  rewrite HN. by split.
Qed.

(** Calldata with an odd number of digits is answered by a crash, not by the
    documented 400: the handler panics, which the recovery middleware turns into a
    500 without a body, while the digits of any bytes decode to them. *)
Theorem handleSign_odd_hex now (w : ServiceA) r b c :
  rq_DerivationPath r <> "" -> rq_To r <> [] ->
  let odd := "0x" +:+ Hex.EncodeToString b +:+ String c "" in
  recoverer (PartyA.handleSign allowLocalRPC proto_Sign now (Ret {| sar_req := r; sar_Data := odd |})) w = (w, (500, None)) /\
  calldata ("0x" +:+ Hex.EncodeToString b) = Ret b.
Proof.
  intros Hp Ht odd. split.
  - unfold recoverer, PartyA.handleSign. cbn [sar_req sar_Data].
    rewrite (bool_decide_eq_false_2 _ Hp). replace (zlen (rq_To r) =? 0) with false.
    2:{ destruct (rq_To r); [done|]. unfold zlen. cbn. lia. }
    cbn [andb]. unfold calldata. rewrite (bool_decide_eq_false_2 (odd = "")) by discriminate.
    unfold odd. rewrite Strings.TrimPrefix_app. unfold Hex.hexDecode.
    rewrite bytes_of_app. unfold Hex.EncodeToString. rewrite bytes_of_string_of.
    assert (HP : forall l z, Hex.hexDecode_bytes (Hex.encode l ++ [z]) = Panic).
    { intros l z. induction l as [|x l IH]; [done|]. cbn [Hex.encode flat_map app].
      destruct (Hex.nibbles x) as [H1x H2x].
      rewrite Hex.hexDecode_bytes_cons by (rewrite Hex.hexVal_hex_char by done; lia).
      change (flat_map _ l) with (Hex.encode l). by rewrite IH. }
    change (bytes_of (String c "")) with [byte_of_ascii c]. by rewrite HP.
  - unfold calldata. rewrite bool_decide_eq_false_2 by discriminate.
    rewrite Strings.TrimPrefix_app. unfold Hex.hexDecode, Hex.EncodeToString.
    by rewrite bytes_of_string_of, Hex.hexDecode_encode.
Qed.
End PartyAFacts.

(** ** Both parties' keys *)
Section DeriveFacts.
Context `{Unicode} `{SolanaGo} `{SolanaWorld} `{PartyACodecs} {S T : Type} `{Store S} `{!StoreLaws S} `{TransportClient T}.
Context (proto_DeriveKey : KeyShare -> string -> go DerivedKey).
Notation ServiceA := (PartyA.ServiceA (S := S) (T := T)).

Lemma Derive_Ret now path label prefix (w w' : ServiceA) r : store_ok (sa_store w) ->
  Derive proto_DeriveKey now path label prefix w = (w', Ret r) ->
  exists adapter ks d addr, ForPath (sa_vmRegistry w) path = Some adapter /\
    v_shares (view (sa_store w)) !! AdapterCurve adapter = Some ks /\ proto_DeriveKey ks path = Ret d /\
    dr_PublicKey r = hex0x (dk_PublicKey d) /\ dr_Address r = addr /\
    DeriveAddress adapter (dk_PublicKey d) (if bool_decide (prefix = "") then [] else [WithPrefix prefix]) = Ret addr /\
    view (sa_store w') = Spec.SaveDerivedKey (view (sa_store w))
      (stored_key {| dkr_DerivationPath := path; dkr_Curve := AdapterCurve adapter;
                     dkr_PublicKey := dk_PublicKey d; dkr_Address := addr; dkr_Label := label;
                     dkr_Share := dk_Share d; dkr_CreatedAt := now |}) /\
    exists id, sa_transport w' = (SendAndReceive (sa_transport w) {| Type_ := MsgDeriveReq; ID := id;
      Payload := marshal_ignoring {| drq_derivationPath := path |} |}).1.
Proof.
  intros Hok. unfold Derive.
  intros (w1 & ad & [-> Ha]%adapter_for_Ret & HX)%bind_Ret.
  apply bind_Ret in HX as (w2 & ks & [Hks [Ht2 _]]%wrapM_Ret%on_store_Ret & HX).
  apply bind_Ret in HX as (w3 & d & [-> Hd%wrap_err_Ret]%lift_Ret & HX).
  apply bind_Ret in HX as (w4 & addr & [-> Haddr%wrap_err_Ret]%lift_Ret & HX).
  apply bind_Ret in HX as (w5 & [] & [Hsave [Ht5 _]]%wrapM_Ret%on_store_Ret & HX).
  apply bind_Ret in HX as (w6 & sent & Hsend & [= <- <-]).
  assert (Hst : sa_store w6 = sa_store w5 /\ exists id, sa_transport w6 =
    (SendAndReceive (sa_transport w) {| Type_ := MsgDeriveReq; ID := id;
       Payload := marshal_ignoring {| drq_derivationPath := path |} |}).1).
  { unfold try, send, nextMsgID, mbind, M_bind, on_transport in Hsend. cbn in Hsend. rewrite Ht5, Ht2 in Hsend.
    revert Hsend. match goal with |- context [SendAndReceive _ {| Type_ := _; ID := ?i; Payload := _ |}] =>
      set (id := i) end.
    destruct (SendAndReceive _ _) as [t [m|e|]] eqn:Es; intros [= <- _]; (split; [done|]); exists id; by rewrite Es. }
  destruct Hst as [Hst Htr].
  destruct (law_GetMasterShare (sa_store w) (AdapterCurve ad) Hok) as [Hok1 Hv]. rewrite Hks in Hok1, Hv.
  cbn in Hok1, Hv. destruct Hv as [Hv Hs].
  exists ad, ks, d, addr. split; [done|]. split; [done|]. split; [done|]. split; [done|]. split; [done|]. split; [done|]. rewrite Hst.
  match type of Hsave with _ (_ _) ?k = _ => destruct (law_SaveDerivedKey (sa_store w2) k Hok1) as [_ Hv2] end.
  rewrite Hsave in Hv2. cbn in Hv2. split; [by rewrite Hv2, Hv|exact Htr].
Qed.

(** A derivation whose steps succeed succeeds, whatever Party B answers. *)
#[local] Existing Instances PartyA.M_bind PartyA.M_ret.
Lemma Derive_run now path label prefix (w : ServiceA) adapter ks d addr s1 s2 t r :
  ForPath (sa_vmRegistry w) path = Some adapter ->
  GetMasterShare (sa_store w) (AdapterCurve adapter) = (s1, Ret ks) -> proto_DeriveKey ks path = Ret d ->
  DeriveAddress adapter (dk_PublicKey d) (if bool_decide (prefix = "") then [] else [WithPrefix prefix]) = Ret addr ->
  SaveDerivedKey s1 {| dkr_DerivationPath := path; dkr_Curve := AdapterCurve adapter;
    dkr_PublicKey := dk_PublicKey d; dkr_Address := addr; dkr_Label := label; dkr_Share := dk_Share d;
    dkr_CreatedAt := now |} = (s2, Ret tt) ->
  SendAndReceive (sa_transport w) {| Type_ := MsgDeriveReq; ID := (sa_msgCounter w + 1) mod 2 ^ 64;
    Payload := marshal_ignoring {| drq_derivationPath := path |} |} = (t, r) -> r <> Panic ->
  exists w', Derive proto_DeriveKey now path label prefix w
    = (w', Ret {| dr_Address := addr; dr_PublicKey := hex0x (dk_PublicKey d) |}).
Proof.
  intros Ha Hks Hd Haddr Hs Ht Hr. eexists. unfold Derive.
  erewrite run_bind by (unfold adapter_for; erewrite run_bind by reflexivity; unfold lift; rewrite Ha; reflexivity).
  erewrite run_bind by (unfold wrapM, on_store; rewrite Hks; reflexivity).
  erewrite run_bind by (unfold lift; rewrite Hd; reflexivity).
  erewrite run_bind by (unfold lift; rewrite Haddr; reflexivity).
  erewrite run_bind by (unfold wrapM, on_store; cbn [sa_store]; rewrite Hs; reflexivity).
  assert (HT : forall w1 : ServiceA, sa_transport w1 = sa_transport w -> sa_msgCounter w1 = sa_msgCounter w ->
    let m := try (send MsgDeriveReq (marshal_ignoring {| drq_derivationPath := path |})) in
    exists x, m w1 = ((m w1).1, Ret x)).
  { intros w1 E1 E2. unfold try, send. rewrite (run_bind nextMsgID _ w1 _ _ eq_refl).
    unfold on_transport. cbn [sa_transport]. rewrite E1, E2, Ht. destruct r; [by eexists..|done]. }
  match goal with |- (try _ ≫= _) ?w1 = _ => destruct (HT w1 eq_refl eq_refl) as (x & E) end.
  rewrite (run_bind _ _ _ _ _ E). reflexivity.
Qed.

Lemma SaveDerivedKey_lookup v k : exists k', v_keys (Spec.SaveDerivedKey v k) !! dkr_DerivationPath k = Some k' /\
  dkr_PublicKey k' = dkr_PublicKey k /\ dkr_Address k' = dkr_Address k /\ dkr_Share k' = dkr_Share k.
Proof.
  cbn. rewrite lookup_insert_eq. eexists. split; [reflexivity|]. unfold Spec.merge_key.
  by destruct (v_keys v !! dkr_DerivationPath k).
Qed.
End DeriveFacts.

(** The two parties' keys belong together: when the dealer's shares of one
    secret are in the two stores, and Party A derives a secp256k1 path, Party B's
    derivation of that path is not refused by the mathematics: either its store
    holds, as Party A's does, a key with the public key Party A returned, or its
    store failed and is as it was. *)
Theorem derive_parties_agree `{Unicode} `{TssLib} {preParams aux}
    `{Codec (SaveData aux)} `{Codec (SaveData unit)}
    (mk_aux : list preParams -> nat -> aux) S256 Edwards `{!CurveLaws S256} `{!SaveCodecLaws S256 aux}
    `{SolanaGo} `{SolanaWorld} `{PartyACodecs} `{AbiWorld} `{LlmWorld} `{Codec Signature}
    {SA SB T : Type} `{Store SA} `{!StoreLaws SA} `{Store SB} `{!StoreLaws SB} `{TransportClient T}
    rand d pub chain pA pB pps ksA ksB kA kB
    (wA wA' : ServiceA (S := SA) (T := T)) (wB wB' : PartyB.Service (S := SB)) nowA nowB path label prefix adapter r rB :
  0 <= d -> uncompressed (mulG S256 d) = Ret pub ->
  map KeyInt (makeSortedPartyIDs [pA; pB]) = [kA; kB] ->
  DealerSetupECDSA mk_aux S256 rand d pub chain [pA; pB] pps = Ret [ksA; ksB] ->
  store_ok (sa_store wA) -> store_ok (sb_store wB) ->
  v_shares (view (sa_store wA)) !! CurveSecp256k1 = Some ksA ->
  v_shares (view (sb_store wB)) !! CurveSecp256k1 = Some ksB ->
  ForPath (sa_vmRegistry wA) path = Some adapter -> AdapterCurve adapter = CurveSecp256k1 ->
  derive_curve (sb_vmReg wB) path = CurveSecp256k1 ->
  Derive (DeriveKey (aux := aux) S256 Edwards) nowA path label prefix wA = (wA', Ret r) ->
  HandleDeriveRequest (DeriveKey (aux := aux) S256 Edwards) wB nowB path = (wB', rB) ->
  (exists keyA keyB, rB = Ret tt /\
     v_keys (view (sa_store wA')) !! path = Some keyA /\ v_keys (view (sb_store wB')) !! path = Some keyB /\
     dkr_PublicKey keyB = dkr_PublicKey keyA /\ dr_PublicKey r = hex0x (dkr_PublicKey keyA)) \/
  (exists e, rB = Err e /\ view (sb_store wB') = view (sb_store wB)).
Proof.
  intros Hd Hpub Hids HD HokA HokB HsA HsB Hfor Hcurve HcB HA HB.
  destruct (Derive_Ret _ _ _ _ _ _ _ _ HokA HA) as (ad & ks & dk & addr & Ha & Hs & Hdk & Hr & _ & _ & HvA & _).
  rewrite Hfor in Ha. injection Ha as <-. rewrite Hcurve, HsA in Hs. injection Hs as <-.
  destruct (dealer_derive_public mk_aux S256 Edwards _ _ _ _ _ _ _ _ _ _ _ _ _ Hd Hpub Hids HD Hdk) as (dkB & HdB & Hpk).
  destruct (HandleDeriveRequest_spec _ _ _ _ _ _ HokB HB) as [_ HBr].
  destruct rB as [[]|e|]; [left|right; by exists e|exfalso].
  - destruct HBr as (share & dB & Hsh & HdB' & HvB). rewrite HcB, HsB in Hsh. injection Hsh as <-.
    rewrite HdB in HdB'. injection HdB' as <-.
    rewrite HvA, HvB.
    match goal with |- context [Spec.SaveDerivedKey (view (sa_store wA)) ?k] =>
      destruct (SaveDerivedKey_lookup (view (sa_store wA)) k) as (keyA & EA & PA & _) end.
    match goal with |- context [Spec.SaveDerivedKey (view (sb_store wB)) ?k] =>
      destruct (SaveDerivedKey_lookup (view (sb_store wB)) k) as (keyB & EB & PB & _) end.
    exists keyA, keyB. split; [done|]. split; [exact EA|]. split; [exact EB|].
    rewrite PA, PB, Hr. cbn. by rewrite Hpk.
  - destruct HBr as (share & Hsh & HP). rewrite HcB, HsB in Hsh. injection Hsh as <-. congruence.
Qed.

(** ** Concrete parties

    A connection that logs the messages and a co-signer that approves, reports
    every transaction as signed with the bytes "json", and acknowledges the rest. *)
Import Toy ToyStore ToySolana ToyAnalyzer ToyB Postgres.
Module ToyA.
Definition constant {A} (a : A) : Codec A := {|
  Marshal := fun _ => Ret []; Unmarshal := fun _ => Ret a; representable := fun _ => False |}.
#[export] Instance codecs : PartyACodecs := {|
  codec_SignRequest := constant {| srq_To := []; srq_Value := ""; srq_Data := ""; srq_DerivationPath := "";
                                   srq_UnsignedTx := ""; srq_SignableBytes := "" |};
  codec_SignResponse := constant {| srs_Decision := "approve"; srs_Reason := "whitelisted"; srs_TxID := "tx1" |};
  codec_SignReady := constant {| srd_TxID := ""; srd_SignableBytes := "" |};
  codec_SignApproved := constant {| sap_TxID := ""; sap_DerivationPath := "" |};
  codec_TxStatusResponse := constant {| tsr_TxID := "tx1"; tsr_Status := TxStatusSigned; tsr_Reason := "";
                                        tsr_SignedTx := Base64.EncodeToString (bytes_of "json") |};
  codec_DeriveReq := constant {| drq_derivationPath := "" |};
  codec_TxStatusReq := constant {| tsq_txId := "" |} |}.
#[export] Instance transport : TransportClient (list Message) := fun t m => (t ++ [m], Ret m).
Definition sign (t : list Message) (req : SignRequest) (share : bytes) (me : PartyID) (ps : list PartyID)
    : list Message * go Signature :=
  (t, Ret {| sig_R := 0; sig_S := 0; sig_V := x00; sig_Bytes := sq_Message req |}).
Definition adapter : Adapter := {|
  Name := "toy"; AdapterCurve := CurveSecp256k1; DeriveAddress := fun b _ => Ret (string_of b);
  BuildUnsignedTx := BuildUnsignedTx ToyAnalyzer.adapter;
  ExtractSignableBytes := ExtractSignableBytes ToyAnalyzer.adapter;
  AssembleSignedTx := fun raw sig => Ret (raw ++ sig_Bytes sig); DecodeTx := DecodeTx ToyAnalyzer.adapter |}.
Definition registry : Registry := Register NewRegistry ["60"] adapter.
Definition request : APISignRequest := {|
  rq_DerivationPath := ToyB.path; rq_To := ["0xab"]; rq_Value := ""; rq_Data := []; rq_ChainID := "";
  rq_GasLimit := 0; rq_GasPrice := ""; rq_Nonce := 0; rq_RpcURL := ""; rq_Mint := ""; rq_Instructions := [];
  rq_Program := ""; rq_Method := ""; rq_Args := ∅; rq_Prefix := ""; rq_Denom := ""; rq_AccountNumber := 0;
  rq_Sequence := 0; rq_Fee := ""; rq_Gas := 0; rq_Memo := "" |}.
Definition service : PartyA.ServiceA (S := PostgresStore) (T := list Message) :=
  NewService (SaveDerivedKey ToyStore.empty ToyB.key).1 [] registry.
Definition polled : PartyA.ServiceA (S := PostgresStore) (T := list Message) :=
  mkServiceA ToyStore.empty [] registry (Queue.Add ∅ "tx1" "large" [x01] "" []) 0.

(** The dealer's shares in the two stores. *)
Definition dealt_A : PartyA.ServiceA (S := PostgresStore) (T := list Message) :=
  NewService (SaveMasterShare ToyStore.empty Toy.ecdsa_A).1 [] registry.
Definition dealt_B : PartyB.Service (S := PostgresStore) :=
  mkService config None true true (SaveMasterShare ToyStore.empty Toy.ecdsa_B).1 (analyzer false)
    None ∅ ∅ None ∅ [] [] [] None [].
Definition derive_key : KeyShare -> string -> go DerivedKey := DeriveKey (aux := unit) Toy.curve Toy.curve.

Lemma dealt_A_derives : exists w' r, Derive derive_key 0 Toy.path "" "" dealt_A = (w', Ret r).
Proof.
  destruct (GetMasterShare (sa_store dealt_A) CurveSecp256k1) as [s1 ks] eqn:E1.
  assert (ks = Ret Toy.ecdsa_A) as -> by (transitivity (GetMasterShare (sa_store dealt_A) CurveSecp256k1).2; [by rewrite E1|vm_compute; reflexivity]).
  destruct (SaveDerivedKey s1 {| dkr_DerivationPath := Toy.path; dkr_Curve := CurveSecp256k1;
    dkr_PublicKey := dk_PublicKey Toy.ecdsa_dkA; dkr_Address := string_of (dk_PublicKey Toy.ecdsa_dkA);
    dkr_Label := ""; dkr_Share := dk_Share Toy.ecdsa_dkA; dkr_CreatedAt := 0 |}) as [s2 u] eqn:E2.
  assert (u = Ret tt) as ->.
  { apply (f_equal snd) in E2. cbn [snd] in E2. rewrite <- E2. apply (f_equal fst) in E1. cbn [fst] in E1.
    rewrite <- E1. vm_compute. reflexivity. }
  destruct (Derive_run derive_key 0 Toy.path "" "" dealt_A adapter Toy.ecdsa_A Toy.ecdsa_dkA _ s1 s2 _ _
    eq_refl E1 toy_derive_A eq_refl E2 eq_refl) as (w' & E); [discriminate|].
  exists w'. eexists. exact E.
Qed.
End ToyA.
Import ToyA.

Lemma sign_returns_approved_witness :
  exists r hash, (PartyA.Sign false ToyA.sign 5 ToyA.request ToyA.service).2 = Ret r /\
    ExtractSignableBytes ToyA.adapter (bytes_of "0xab") = Ret hash /\
    sr_SignedTx r = hex0x (bytes_of "0xab" ++ hash).
Proof.
  assert (Hok : match (PartyA.Sign false ToyA.sign 5 ToyA.request ToyA.service).2 with
                | Ret r => sr_Status r | _ => "" end = "signed") by (vm_compute; reflexivity).
  destruct (PartyA.Sign false ToyA.sign 5 ToyA.request ToyA.service) as [w' [r|e|]] eqn:E;
    [|discriminate Hok..].
  destruct (sign_returns_approved false ToyA.sign 5 ToyA.request ToyA.service w' r ToyA.adapter)
    as (key & u & hash & payload & t1 & t2 & resp & sresp & ack & sig & tx & Hu & Hh & _ & _ & _ & _ & _ & Hs & Ht & Hr);
    [reflexivity|discriminate|exact E|exact Hok|].
  exists r, hash. split; [reflexivity|]. injection Hu as <-. split; [exact Hh|].
  injection Hs as _ <-. injection Ht as <-. exact Hr.
Defined.

Lemma poll_returns_signature_json_witness :
  exists w', GetSignStatus "tx1" ToyA.polled
    = (w', Ret {| sr_TxID := "tx1"; sr_Status := TxStatusSigned; sr_SignedTx := hex0x (bytes_of "json"); sr_Reason := "" |}).
Proof.
  destruct (poll_returns_signature_json ToyA.polled "tx1"
    {| pt_TxID := "tx1"; pt_Status := TxStatusPending; pt_Reason := "large"; pt_UnsignedTx := [x01];
       pt_SignedTx := None; pt_RpcURL := ""; pt_ExtraSignerKeys := [] |}
    [{| Type_ := MsgTxStatusReq; ID := 1; Payload := [] |}] {| Type_ := MsgTxStatusReq; ID := 1; Payload := [] |}
    (bytes_of "json") 1) as (w' & E & _); [reflexivity|reflexivity|discriminate|reflexivity|reflexivity|reflexivity|].
  exists w'. exact E.
Defined.

Lemma handleSign_odd_hex_witness :
  recoverer (PartyA.handleSign false ToyA.sign 5 (Ret {| sar_req := ToyA.request; sar_Data := "0xa9059cbb1" |})) ToyA.service
    = (ToyA.service, (500, None)).
Proof.
  exact (proj1 (handleSign_odd_hex false ToyA.sign 5 ToyA.service ToyA.request [xa9; x05; x9c; xbb] "1"
    ltac:(discriminate) ltac:(discriminate))).
Defined.

Lemma derive_parties_agree_witness :
  exists wA' r wB' rB,
    Derive ToyA.derive_key 0 Toy.path "" "" ToyA.dealt_A = (wA', Ret r) /\
    HandleDeriveRequest ToyA.derive_key ToyA.dealt_B 0 Toy.path = (wB', rB) /\
    ((exists keyA keyB, rB = Ret tt /\
        v_keys (view (sa_store wA')) !! Toy.path = Some keyA /\ v_keys (view (sb_store wB')) !! Toy.path = Some keyB /\
        dkr_PublicKey keyB = dkr_PublicKey keyA /\ dr_PublicKey r = hex0x (dkr_PublicKey keyA)) \/
     (exists e, rB = Err e /\ view (sb_store wB') = view (sb_store ToyA.dealt_B))).
Proof.
  destruct dealt_A_derives as (wA' & r & EA).
  destruct (HandleDeriveRequest ToyA.derive_key ToyA.dealt_B 0 Toy.path) as [wB' rB] eqn:EB.
  exists wA', r, wB', rB. split; [exact EA|]. split; [reflexivity|].
  apply (derive_parties_agree (preParams := unit) (aux := unit) (fun _ _ => tt) Toy.curve Toy.curve
    (fun _ => Ret 987654321) Toy.secret Toy.pub Toy.chain TssFacts.party_a TssFacts.party_b [tt; tt]
    Toy.ecdsa_A Toy.ecdsa_B (nth 0 Toy.ids 0) (nth 1 Toy.ids 0)
    ToyA.dealt_A wA' ToyA.dealt_B wB' 0 0 Toy.path "" "" ToyA.adapter r rB);
    [discriminate|vm_compute; reflexivity..| | | | |reflexivity|reflexivity|reflexivity|exact EA|exact EB].
  - exact (proj1 (law_SaveMasterShare ToyStore.empty Toy.ecdsa_A ToyStore.empty_ok)).
  - exact (proj1 (law_SaveMasterShare ToyStore.empty Toy.ecdsa_B ToyStore.empty_ok)).
  - vm_compute. reflexivity.
  - vm_compute. reflexivity.
Defined.
