(* ===== verification/Main.v ===== *)
(** * Main: the two programs (cmd/party-a/main.go, cmd/party-b/main.go)

    What the main functions wire together: the registry both parties build, Party
    B's handler of incoming messages over its service, its push of approvals, and
    Party A's handler of pushes. [link] joins the two: Party A's connection is
    Party B's handler, a request without an answer being one that times out.
    Flags, configuration files, sockets and signals are outside the model. *)
From S2P Require Import Prelude GoStd Codec Protocol Transport Tss Config Vm Solana Store Llm Analyzer Telegram PartyB PartyA.
Local Open Scope Z_scope.
Local Open Scope go_scope.

(** Both programs register the same three adapters. *)
Definition main_registry (evm solana tendermint : Adapter) : Registry :=
  Register (Register (Register NewRegistry ["60"] evm) ["501"] solana) ["118"] tendermint.

(** ** Party B *)
Section PartyBMain.
Context `{Unicode} `{AbiWorld} `{LlmWorld} `{PartyACodecs} {S : Type} `{Store S} `{Codec Signature}
        `{Codec (gmap string string)}.
Context (proto_DeriveKey : KeyShare -> string -> go DerivedKey).

(** What the handler draws from outside: identifiers, times, and the outcomes of
    Telegram calls; a message draws at most two of each. *)
Context (uuid : nat -> string) (clock : nat -> Z) (telegram : nat -> option string).

Record ProgramB := mkProgramB {
  pb_service : PartyB.Service (S := S); pb_outputs : list output; pb_draws : nat }.

Definition reply_of (outs : list output) : option SignResponsePayload :=
  match flat_map (fun o => match o with OReply r => [r] | _ => [] end) outs with
  | r :: _ => Some r | [] => None end.

(** [HandleSignRequest] from its first statement to its return: the goroutine's
    steps one after the other, until one of them answers. [None]: blocked. *)
Fixpoint run_until_reply (w : PartyB.Service) (outs : list output) (evs : list event)
    : option (PartyB.Service * list output * go SignResponsePayload) :=
  match evs with
  | [] => None
  | ev :: rest =>
    match PartyB.step proto_DeriveKey w ev with
    | None => None
    | Some (Err e) => Some (w, outs, Err e)
    | Some Panic => Some (w, outs, Panic)
    | Some (Ret (w', o)) =>
      match reply_of o with
      | Some resp => Some (w', outs ++ o, Ret resp)
      | None => run_until_reply w' (outs ++ o) rest
      end
    end
  end.
Definition HandleSignRequest (w : PartyB.Service) (n : nat) (req : SignRequestPayload)
    : option (PartyB.Service * list output * go SignResponsePayload) :=
  let g := length (rt_tasks w) in
  run_until_reply w [] [EvRequest (uuid n) (clock n) req; EvAnalyze g (clock (Datatypes.S n)); EvRoute g (telegram n);
                        EvRegister g; EvCache g].

Definition status_ok : bytes := bytes_of ("{" +:+ quoted "status" +:+ ":" +:+ quoted "ok" +:+ "}").
Definition ready_ok : bytes := bytes_of ("{" +:+ quoted "ok" +:+ ":true}").
Definition reply (ty : byte) (msg : Message) (payload : bytes) : go (option Message) :=
  Ret (Some {| Type_ := ty; ID := ID msg; Payload := payload |}).
Definition tx_status (r : TxRecord) : TxStatusResponsePayload :=
  {| tsr_TxID := tx_ID r; tsr_Status := tx_Status r; tsr_Reason := tx_Reason r;
     tsr_SignedTx := Base64.EncodeToString (tx_SignedTx r) |}.
Definition unknown_status (txID : string) : TxStatusResponsePayload :=
  {| tsr_TxID := txID; tsr_Status := "unknown"; tsr_Reason := ""; tsr_SignedTx := "" |}.

(** The function given to [server.SetHandler]; [None] when it blocks. *)
Definition party_b_handler (b : ProgramB) (msg : Message) : option (ProgramB * go (option Message)) :=
  let w := pb_service b in
  let n := pb_draws b in
  let with_service w' o := mkProgramB w' (pb_outputs b ++ o) (2 + n) in
  if bool_decide (Type_ msg = MsgSignRequest) then
    match Unmarshal (A := SignRequestPayload) (Payload msg) ?: "unmarshal sign request" with
    | Ret req =>
      match HandleSignRequest w n req with
      | None => None
      | Some (w', o, resp) =>
        Some (with_service w' o,
              resp ← resp; respBytes ← Marshal resp ?: "marshal sign response"; reply MsgSignResponse msg respBytes)
      end
    | Err e => Some (b, Err e)
    | Panic => Some (b, Panic)
    end
  else if bool_decide (Type_ msg = MsgTSSRound) then
    w' ← HandleTSSRound w party_a (Payload msg); Some (with_service w' [], Ret None)
  else if bool_decide (Type_ msg = MsgHealthCheck) then Some (b, reply MsgHealthResp msg status_ok)
  else if bool_decide (Type_ msg = MsgDeriveReq) then
    match Unmarshal (A := DeriveReqPayload) (Payload msg) ?: "unmarshal derive request" with
    | Ret req =>
      match HandleDeriveRequest proto_DeriveKey w (clock n) (drq_derivationPath req) with
      | (w', Ret _) => Some (with_service w' [ODerive (Ret tt)], reply MsgDeriveResp msg status_ok)
      | (w', Err e) =>
        Some (with_service w' [ODerive (Err e)],
              reply MsgDeriveResp msg (marshal_ignoring (A := gmap string string) {["status" := "error"; "error" := e]}))
      | (w', Panic) => Some (with_service w' [], Panic)
      end
    | Err e => Some (b, Err e)
    | Panic => Some (b, Panic)
    end
  else if bool_decide (Type_ msg = MsgTxStatusReq) then
    match Unmarshal (A := TxStatusReqPayload) (Payload msg) ?: "unmarshal tx status request" with
    | Ret req =>
      match GetTxStatus w (tsq_txId req) with
      | (w', Ret r) => Some (with_service w' [], reply MsgTxStatusResp msg (marshal_ignoring (tx_status r)))
      | (w', Err _) =>
        Some (with_service w' [], reply MsgTxStatusResp msg (marshal_ignoring (unknown_status (tsq_txId req))))
      | (w', Panic) => Some (with_service w' [], Panic)
      end
    | Err e => Some (b, Err e)
    | Panic => Some (b, Panic)
    end
  else if bool_decide (Type_ msg = MsgSignReady) then
    match Unmarshal (A := SignReadyPayload) (Payload msg) ?: "unmarshal sign-ready" with
    | Ret payload => w' ← HandleSignReady w payload; Some (with_service w' [], reply MsgSignReady msg ready_ok)
    | Err e => Some (b, Err e)
    | Panic => Some (b, Panic)
    end
  else Some (b, Ret None).

(** The service as the program starts it: both callbacks set. *)
Definition party_b_main (cfg : Config) (st : S) (registry : Registry) (api : go unit) (now : nat -> Z) : go ProgramB :=
  svc ← PartyB.Service_New cfg st (Some registry) api now;
  Ret (mkProgramB (SetEscalationApprovedCallback (SetSigningStartedCallback svc)) [] 0).

(** The escalation callback: a push with ID 0; a failed send is only logged. *)
Definition push_approved (s : Server ProgramB) (n : net) (txID derivationPath : string) : net :=
  (Server_Send s n {| Type_ := MsgSignApproved; ID := 0;
                      Payload := marshal_ignoring {| sap_TxID := txID; sap_DerivationPath := derivationPath |} |}).1.

(** ** Party A's connection to it *)

(** [client.Request] answered by Party B's handler. The server keeps the ID of
    the request; no answer, an error (which the server only logs), a blocked
    handler and a dead process all end as the caller's deadline. *)
Definition link (b : ProgramB) (msg : Message) : ProgramB * go Message :=
  match party_b_handler b msg with
  | Some (b', Ret (Some resp)) =>
    (b', Ret {| Type_ := Type_ resp; ID := ID msg; Payload := Payload resp |})
  | Some (b', _) => (b', Err "context deadline exceeded")
  | None => (b, Err "context deadline exceeded")
  end.
#[local] Instance link_transport : TransportClient ProgramB := link.
End PartyBMain.

(** ** Party A *)
Section PartyAMain.
Context `{Unicode} `{SolanaGo} `{SolanaWorld} `{PartyACodecs} {SA T : Type} `{Store SA} `{TransportClient T}.
Context (allowLocalRPC : bool).
Context (proto_Sign : T -> SignRequest -> bytes -> PartyID -> list PartyID -> T * go Signature).

(** The function given to [client.SetHandler]: an approval starts a goroutine,
    listed until it runs; anything else is ignored, malformed ones included. *)
Record ProgramA := mkProgramA { pa_service : ServiceA (S := SA) (T := T); pa_approved : list SignApprovedPayload }.
Definition party_a_push (a : ProgramA) (msg : Message) : ProgramA * go (option Message) :=
  if bool_decide (Type_ msg = MsgSignApproved) then
    match Unmarshal (A := SignApprovedPayload) (Payload msg) with
    | Ret payload => (mkProgramA (pa_service a) (pa_approved a ++ [payload]), Ret None)
    | Err _ => (a, Ret None)
    | Panic => (a, Panic)
    end
  else (a, Ret None).
(** One of the started goroutines, from start to end. *)
Definition run_approved (a : ProgramA) : option (ProgramA * go unit) :=
  match pa_approved a with
  | [] => None
  | p :: rest =>
    let '(w, r) := HandleSignApproved allowLocalRPC proto_Sign (sap_TxID p) (sap_DerivationPath p) (pa_service a) in
    Some (mkProgramA w rest, r)
  end.
Definition party_a_main (st : SA) (tc : T) (registry : Registry) : ProgramA :=
  mkProgramA (NewService st tc registry) [].
End PartyAMain.

(** [transportAdapter]: the client's methods under the service's names. *)
Definition transportAdapter_Send {S : Type} (c : Client S) (n : net) (msg : Message) : net * option string :=
  Client_SendMessage c n msg.
Definition transportAdapter_SendAndReceive {S : Type} (c : Client S) (n : net) (msg : Message)
    : Client S * net * Z * option string :=
  Request_begin c n msg.
Definition transportAdapter_Close {S : Type} (c : Client S) (n : net) : go (Client S * net) := Client_Close c n.
