(* ===== verification/MainFacts.v ===== *)
(** * MainFacts: the two programs together

    Party B's message handler runs the service's transition system, so what holds
    of every run of the service holds of the program; and what Party A's
    operations achieve when the connection is that handler. *)
From S2P Require Import Prelude GoStd Codec Crypto Protocol Transport Tss TssFacts Config Vm Solana Store StoreFacts Llm Analyzer AnalyzerFacts Telegram PartyB PartyBFacts PartyA PartyAFacts Main.
Local Open Scope Z_scope.

Section Handler.
Context `{Unicode} `{AbiWorld} `{LlmWorld} `{PartyACodecs} {S : Type} `{Store S} `{Codec Signature}
        `{Codec (gmap string string)}.
Context (proto_DeriveKey : KeyShare -> string -> go DerivedKey).
Context (uuid : nat -> string) (clock : nat -> Z) (telegram : nat -> option string).
Notation Service := (PartyB.Service (S := S)).
Notation reach := (reach proto_DeriveKey).
Notation handler := (party_b_handler proto_DeriveKey uuid clock telegram).

Lemma reach_trans (w0 w1 w2 : Service) h1 h2 : reach w0 h1 w1 -> reach w1 h2 w2 -> exists h, reach w0 h w2.
Proof.
  intros Hr1. induction 1 as [|h w e w' outs _ [h' IH] Hs]; [by exists h1|].
  exists ((w, e) :: h'). by eapply reach_step.
Qed.
Lemma reach_one (w w' : Service) e outs : step proto_DeriveKey w e = Some (Ret (w', outs)) -> exists h, reach w h w'.
Proof. intros Hs. eexists. eapply reach_step; [apply reach_init|exact Hs]. Qed.

Lemma run_until_reply_reach evs : forall (w w' : Service) outs o r,
  run_until_reply proto_DeriveKey w outs evs = Some (w', o, r) -> exists h, reach w h w'.
Proof.
  induction evs as [|ev evs IH]; intros w w' outs o r; cbn [run_until_reply]; [done|].
  destruct (step proto_DeriveKey w ev) as [[[w1 o1]|e|]|] eqn:Es; [..|done].
  - destruct (reach_one _ _ _ _ Es) as [h1 Hr1]. destruct (reply_of o1) as [resp|].
    + intros [= <- <- <-]. by exists h1.
    + intros [h2 Hr2]%IH. by eapply reach_trans.
  - intros [= <- <- <-]. exists []. apply reach_init.
  - intros [= <- <- <-]. exists []. apply reach_init.
Qed.

(** The type of the answer to a message of type [t]. *)
Definition answer_type (t : byte) : byte :=
  if bool_decide (t = MsgSignRequest) then MsgSignResponse
  else if bool_decide (t = MsgHealthCheck) then MsgHealthResp
  else if bool_decide (t = MsgDeriveReq) then MsgDeriveResp
  else if bool_decide (t = MsgTxStatusReq) then MsgTxStatusResp
  else MsgSignReady.


(** ** Immediate approvals *)

(** When the handler of a sign request answers "approve", the analysis of that
    request did not reject it and found a whitelisted recipient, and the bot was
    in automatic mode. *)
Definition immediately_approved (w : Service) (n : nat) (req : SignRequestPayload) : Prop :=
  exists bot a st' result, sb_bot w = Some bot /\ AutoMode bot = true /\
    Analyze (sb_analyzer w) (clock (Datatypes.S n)) (sb_store (HandleSignRequest_save w (uuid n) (clock n) req)) req
      = (a, st', Ret result) /\
    d_Action (ar_Decision result) <> ActionReject /\ ar_Whitelisted result = true.

Lemma HandleSignRequest_approves (w w' : Service) n req o resp :
  HandleSignRequest proto_DeriveKey uuid clock telegram w n req = Some (w', o, Ret resp) ->
  srs_Decision resp = ActionApprove -> immediately_approved w n req.
Proof.
  intros HX Ha. revert HX. unfold HandleSignRequest. cbn [run_until_reply PartyB.step]. unfold ran.
  cbn [reply_of flat_map app]. set (w1 := HandleSignRequest_save w (uuid n) (clock n) req).
  assert (Hg : rt_tasks w1 !! length (rt_tasks w) = Some (TAnalyze (uuid n) req)).
  { unfold w1. cbn. by rewrite lookup_app_r, Nat.sub_diag by lia. }
  rewrite Hg. unfold HandleSignRequest_analyze.
  assert (sb_analyzer w1 = sb_analyzer w) as -> by done.
  destruct (Analyze (sb_analyzer w) _ (sb_store w1) req) as [[a st'] [result|e|]] eqn:Ean; [|done..].
  cbn [mbind go_bind reply_of flat_map app].
  set (w2 := goto _ _ (TRoute _ _ _)).
  assert (Hg2 : rt_tasks w2 !! length (rt_tasks w) = Some (TRoute (uuid n) req result)).
  { unfold w2. cbn. rewrite list_lookup_insert_eq; [done|]. rewrite length_app. cbn. lia. }
  rewrite Hg2. unfold HandleSignRequest_route.
  case_bool_decide as Er.
  { cbn [reply_of flat_map app]. intros [= _ _ <-]. discriminate Ha. }
  assert (Hb : sb_bot w2 = sb_bot w) by done. rewrite Hb. destruct (sb_bot w) as [bot|] eqn:Eb.
  - destruct (AutoMode bot && ar_Whitelisted result) eqn:Eaw.
    + intros _. apply andb_prop in Eaw as [Em Ew]. by exists bot, a, st', result.
    + unfold escalate_notify. rewrite Hb. destruct (telegram n) as [err|]; cbn [reply_of flat_map app].
      { intros [= _ _ <-]. discriminate Ha. }
      set (w3 := goto w2 _ _).
      assert (rt_tasks w3 !! length (rt_tasks w) = Some (TNotified (uuid n) req result)) as ->.
      { unfold w3. cbn. rewrite list_lookup_insert_eq; [done|]. apply lookup_lt_Some in Hg2. exact Hg2. }
      cbn [reply_of flat_map app]. set (w4 := escalate_register _ _ _ _ _).
      assert (rt_tasks w4 !! length (rt_tasks w) = Some (TRegistered (uuid n) req result (length (rt_decisions w3)))) as ->.
      { unfold w4. cbn. rewrite list_lookup_insert_eq; [done|]. rewrite length_insert.
        apply lookup_lt_Some in Hg2. exact Hg2. }
      unfold escalate_cache. cbn [reply_of flat_map app]. intros [= _ _ <-]. discriminate Ha.
  - unfold escalate_notify. rewrite Hb. cbn [reply_of flat_map app]. intros [= _ _ <-]. discriminate Ha.
Qed.
End Handler.

(** ** Both programs *)
Section Linked.
Context `{Unicode} `{AbiWorld} `{LlmWorld} `{SolanaGo} `{SolanaWorld} `{PartyACodecs}
        {SA SB : Type} `{Store SA} `{Store SB} `{Codec Signature} `{Codec (gmap string string)}.
Context (proto_DeriveKey : KeyShare -> string -> go DerivedKey).
Context (uuid : nat -> string) (clock : nat -> Z) (telegram : nat -> option string).
Context (allowLocalRPC : bool).
Context (proto_Sign : ProgramB (S := SB) -> SignRequest -> bytes -> PartyID -> list PartyID -> ProgramB (S := SB) * go Signature).
#[local] Instance linked : TransportClient (ProgramB (S := SB)) := link proto_DeriveKey uuid clock telegram.
Notation ServiceA := (PartyA.ServiceA (S := SA) (T := ProgramB (S := SB))).

Lemma link_SignRequest (b b' : ProgramB (S := SB)) id payload resp :
  link proto_DeriveKey uuid clock telegram b {| Type_ := MsgSignRequest; ID := id; Payload := payload |}
    = (b', Ret resp) ->
  exists req w' o sresp, Unmarshal (A := SignRequestPayload) payload = Ret req /\
    HandleSignRequest proto_DeriveKey uuid clock telegram (pb_service b) (pb_draws b) req = Some (w', o, Ret sresp) /\
    Marshal sresp = Ret (Payload resp).
Proof.
  unfold link, party_b_handler. cbn [Type_ Payload ID].
  rewrite (bool_decide_eq_true_2 (MsgSignRequest = MsgSignRequest)) by done.
  destruct (_ ?: _)%go as [req|e|] eqn:Eu; [|done..]. apply wrap_err_Ret in Eu.
  destruct (HandleSignRequest _ _ _ _ _ _ _) as [[[w' o] [sresp|e|]]|] eqn:Eh; cbn [mbind go_bind]; [|done..].
  destruct (Marshal sresp) as [bs|e|] eqn:Em; cbn [wrap_err mbind go_bind reply]; [|done..].
  intros [= _ <-]. by exists req, w', o, sresp.
Qed.

Lemma link_DeriveReq `{!CodecLaws DeriveReqPayload} (b : ProgramB (S := SB)) n path :
  representable {| drq_derivationPath := path |} ->
  let r := HandleDeriveRequest proto_DeriveKey (pb_service b) (clock (pb_draws b)) path in
  pb_service (link proto_DeriveKey uuid clock telegram b {| Type_ := MsgDeriveReq; ID := n;
    Payload := marshal_ignoring {| drq_derivationPath := path |} |}).1 = r.1.
Proof.
  intros Hrep r. destruct (Marshal_total _ Hrep) as [bs Hm].
  unfold link, party_b_handler, marshal_ignoring. cbn [Type_ Payload ID].
  rewrite !bool_decide_eq_false_2, bool_decide_eq_true_2 by done. cbn match.
  rewrite Hm. cbn [to_option from_option id]. rewrite (Unmarshal_Marshal _ _ Hrep Hm). cbn [wrap_err drq_derivationPath].
  unfold r. destruct (HandleDeriveRequest _ _ _ _) as [w' [u|e|]]; done.
Qed.
End Linked.



(** ** Concrete programs *)
Import Toy ToyStore ToySolana ToyAnalyzer ToyB Postgres.
Module ToyMain.
(** A codec through an encodable type. *)
Definition codec_by {A B} `{Countable B} (f : A -> B) (g : B -> A) : Codec A := {|
  Marshal := fun a => Marshal (Codec := CountableCodec.codec B) (f a);
  Unmarshal := fun b => g <$> Unmarshal (Codec := CountableCodec.codec B) b; representable := fun _ => True |}.
Lemma codec_by_laws {A B} `{Countable B} (f : A -> B) (g : B -> A) :
  (forall a, g (f a) = a) -> @CodecLaws A (codec_by f g).
Proof.
  intros Hgf. split; cbn [Marshal Unmarshal codec_by]; [intros a _; by eexists|]. intros a b _ Hm.
  by rewrite (@Unmarshal_Marshal _ _ (CountableCodec.codec_laws B) (f a) b I Hm); cbn; rewrite Hgf.
Qed.
#[export] Instance codecs : PartyACodecs := {|
  codec_SignRequest := codec_by
    (fun p => (srq_To p, srq_Value p, srq_Data p, srq_DerivationPath p, srq_UnsignedTx p, srq_SignableBytes p))
    (fun '(t, v, d, p, u, s) => {| srq_To := t; srq_Value := v; srq_Data := d; srq_DerivationPath := p;
                                   srq_UnsignedTx := u; srq_SignableBytes := s |});
  codec_SignResponse := codec_by (fun p => (srs_Decision p, srs_Reason p, srs_TxID p))
    (fun '(d, r, t) => {| srs_Decision := d; srs_Reason := r; srs_TxID := t |});
  codec_SignReady := codec_by (fun p => (srd_TxID p, srd_SignableBytes p))
    (fun '(t, b) => {| srd_TxID := t; srd_SignableBytes := b |});
  codec_SignApproved := codec_by (fun p => (sap_TxID p, sap_DerivationPath p))
    (fun '(t, d) => {| sap_TxID := t; sap_DerivationPath := d |});
  codec_TxStatusResponse := codec_by (fun p => (tsr_TxID p, tsr_Status p, tsr_Reason p, tsr_SignedTx p))
    (fun '(t, s, r, x) => {| tsr_TxID := t; tsr_Status := s; tsr_Reason := r; tsr_SignedTx := x |});
  codec_DeriveReq := codec_by drq_derivationPath (fun p => {| drq_derivationPath := p |});
  codec_TxStatusReq := codec_by tsq_txId (fun p => {| tsq_txId := p |}) |}.
#[export] Instance request_laws : CodecLaws SignRequestPayload.
Proof. apply codec_by_laws. by intros []. Qed.
#[export] Instance response_laws : CodecLaws SignResponsePayload.
Proof. apply codec_by_laws. by intros []. Qed.
#[export] Instance derive_laws : CodecLaws DeriveReqPayload.
Proof. apply codec_by_laws. by intros []. Qed.
#[export] Instance map_codec : Codec (gmap string string) := CountableCodec.codec (gmap string string).

Definition uuid (n : nat) : string := "tx" +:+ Strconv.Itoa (Z.of_nat n).
Definition clock (n : nat) : Z := Z.of_nat n.
Definition telegram (n : nat) : option string := None.
Definition sign (t : ProgramB (S := PostgresStore)) (req : SignRequest) (share : bytes) (me : PartyID) (ps : list PartyID)
    : ProgramB (S := PostgresStore) * go Signature :=
  (t, Ret {| sig_R := 0; sig_S := 0; sig_V := x00; sig_Bytes := sq_Message req |}).
Definition registry : Registry := main_registry ToyA.adapter ToyA.adapter ToyA.adapter.
(** Party B in automatic mode, with "0xab" on its whitelist, and Party A. *)
Definition program_b : ProgramB (S := PostgresStore) := mkProgramB (ToyB.service true) [] 0.
Definition party_a : PartyA.ServiceA (S := PostgresStore) (T := ProgramB (S := PostgresStore)) :=
  NewService (SaveDerivedKey ToyStore.empty ToyB.key).1 program_b registry.
(** Both parties with the dealer's shares. *)
Definition dealt_b : ProgramB (S := PostgresStore) := mkProgramB
  (mkService ToyB.config (Some registry) true true (SaveMasterShare ToyStore.empty Toy.ecdsa_B).1 (analyzer false)
     None ∅ ∅ None ∅ [] [] [] None []) [] 0.
Definition dealt_a : PartyA.ServiceA (S := PostgresStore) (T := ProgramB (S := PostgresStore)) :=
  NewService (SaveMasterShare ToyStore.empty Toy.ecdsa_A).1 dealt_b registry.
#[export] Instance linked_b : TransportClient (ProgramB (S := PostgresStore)) := link ToyA.derive_key uuid clock telegram.
End ToyMain.
Import (hints) ToyMain.



