(* ===== verification/EdwardsPoint.v ===== *)
(** * EdwardsPoint: ed25519 public keys as curve points (cmd/installer/mnemonic.go)

    The installer recovers both coordinates of an ed25519 public key from its 32
    bytes by modular arithmetic of its own ([decodeEd25519PubKey]); here with
    [math/big]'s [ModInverse] and [Exp], and with the theorem that it inverts
    the encoding for every point of the twisted Edwards curve over a prime
    field of the right shape. The field prime is an argument ([curve.Params().P]). *)
From S2P Require Import Prelude GoStd Crypto Protocol Transport Tss.
From Stdlib Require Import Znumtheory Zpow_facts Zcong Zmod.ZmodInv Setoid Morphisms.
Local Open Scope Z_scope.
Local Open Scope go_scope.

(** ** math/big modulo an integer *)
Module BigMod.

(** [ModInverse(g, n)] for [n > 1]: nil when [g] and [n] have a common factor. *)
Definition ModInverse (g n : Z) : option Z :=
  if Z.gcd g n =? 1 then Some (Z.invmod g n) else None.

(** [Exp(x, e, m)] for a non-negative exponent. *)
Definition Exp (x e m : Z) : Z := Zpow_mod x e m.

Lemma ModInverse_prime p g : Z.prime p -> g mod p <> 0 ->
  exists v, ModInverse g p = Some v /\ (v * g) mod p = 1.
Proof.
  intros Hp Hg. exists (Z.invmod g p). split; [|by apply Z.invmod_prime].
  unfold ModInverse. rewrite (Z.gcd_comm g).
  replace (Z.gcd p g) with 1; [done|]. symmetry. apply Zgcd_1_rel_prime.
  apply prime_rel_prime; [by apply prime_alt|]. intros Hd. apply Hg. by apply Z.mod_divide; [apply Z.prime_ge_2 in Hp; lia|].
Qed.

Lemma Exp_spec x e p : p <> 0 -> Exp x e p = x ^ e mod p.
Proof. apply Zpow_mod_correct. Qed.

End BigMod.

(** ** Encoding and decoding *)

(** [edwardsToEd25519PubKey], the installer's copy of [edwardsPointToEd25519PubKey]. *)
Definition edwardsToEd25519PubKey : point -> go bytes := edwardsPointToEd25519PubKey.

(** [compressEdwardsPubKey]: 0x02 or 0x03 by the parity of y, then x. *)
Definition compressEdwardsPubKey : point -> go bytes := compressPublicKey.

Section Decode.
Context (P : Z).

(** [x2] of the code: (y^2 - 1) / (d*y^2 + 1) with d = -121665/121666. *)
Definition recover_x2 (y : Z) : go Z :=
  let y2 := (y * y) mod P in
  i ← deref (BigMod.ModInverse 121666 P);
  let d := (i * -121665) mod P in
  let num := (y2 - 1) mod P in
  let den := (d * y2 + 1) mod P in
  denInv ← deref (BigMod.ModInverse den P);
  Ret ((num * denInv) mod P).

(** The square root of [x2], first as [x2^((p+3)/8)], then times sqrt(-1). *)
Definition sqrt_x2 (x2 : Z) : Z :=
  let x := BigMod.Exp x2 (Z.shiftr (P + 3) 3) P in
  if (x * x) mod P =? x2 then x
  else let sqrtM1 := BigMod.Exp 2 (Z.shiftr (P - 1) 2) P in (x * sqrtM1) mod P.

Definition decodeEd25519PubKey (pub : bytes) : go point :=
  match pub !! 31%nat with
  | None => Panic
  | Some last =>
    let signBit := Z_of_byte last / 128 in
    let yLE := take 31 pub ++ [byte_of_Z (Z.land (Z_of_byte last) 0x7F)] in
    let y := Binary.le_Z yLE in
    x2 ← recover_x2 y;
    let x := sqrt_x2 x2 in
    Ret (if Z.b2z (bit0 x) =? signBit then x else P - x, y)
  end.

(** The twisted Edwards curve, -x^2 + y^2 = 1 + d x^2 y^2, with the denominator
    of d cleared. *)
Definition on_edwards (p : point) : Prop :=
  (121666 * (p.2 * p.2 - p.1 * p.1)) mod P = (121666 - 121665 * (p.1 * p.1) * (p.2 * p.2)) mod P.
Definition in_field (p : point) : Prop := 0 <= p.1 < P /\ 0 <= p.2 < P.

(** What makes [P] a field modulus the decoder works for: it is prime, 5 modulo
    8, of at most 255 bits, prime to 121666, and 2 is not a square (Euler's
    criterion). *)
Class FieldPrime : Prop := {
  P_prime : Z.prime P;
  P_mod8 : P mod 8 = 5;
  P_bits : P <= 2 ^ 255;
  P_121666 : 121666 mod P <> 0;
  P_two : 2 ^ ((P - 1) / 2) mod P = P - 1;
}.
End Decode.

(** ** Congruence

    A record, so that rewriting treats it as a relation of its own. *)
Record congr (n a b : Z) : Prop := Congr { congr_mod : a mod n = b mod n }.
Arguments Congr {n a b}.
Arguments congr_mod {n a b}.

#[export] Instance congr_equivalence n : Equivalence (congr n).
Proof.
  split; [by constructor|intros a b [E]; by constructor|intros a b c [E] [F]].
  constructor. by rewrite E.
Qed.
#[export] Instance congr_add n : Proper (congr n ==> congr n ==> congr n) Z.add.
Proof. intros a b [E] c d [F]. constructor. by rewrite Zplus_mod, E, F, <- Zplus_mod. Qed.
#[export] Instance congr_sub n : Proper (congr n ==> congr n ==> congr n) Z.sub.
Proof. intros a b [E] c d [F]. constructor. by rewrite Zminus_mod, E, F, <- Zminus_mod. Qed.
#[export] Instance congr_mul n : Proper (congr n ==> congr n ==> congr n) Z.mul.
Proof. intros a b [E] c d [F]. constructor. by rewrite Zmult_mod, E, F, <- Zmult_mod. Qed.
#[export] Instance congr_opp n : Proper (congr n ==> congr n) Z.opp.
Proof. intros a b E. rewrite <- !Z.sub_0_l. by rewrite E. Qed.
#[export] Instance congr_pow n : Proper (congr n ==> eq ==> congr n) Z.pow.
Proof. intros a b [E] e _ <-. constructor. by rewrite <- (Z.mod_pow_l a), <- (Z.mod_pow_l b), E. Qed.

Lemma mod_congr n a : congr n (a mod n) a.
Proof. constructor. apply Zmod_mod. Qed.

Section Field.
Context (P : Z) `{!FieldPrime P}.
Local Notation "a == b" := (congr P a b) (at level 70).

Lemma P_ge : 5 <= P.
Proof.
  pose proof (P_mod8 P) as H8. pose proof (Z.prime_ge_2 _ (P_prime P)).
  pose proof (Z.div_mod P 8 ltac:(lia)). lia.
Qed.

Lemma congr_zero_mul a b : a * b == 0 -> a == 0 \/ b == 0.
Proof.
  pose proof P_ge. intros [E]. rewrite Zmod_0_l in E. apply Z.mod_divide in E; [|lia].
  apply (prime_mult P) in E; [|by apply prime_alt, P_prime].
  destruct E as [E|E]; [left|right]; constructor; rewrite Zmod_0_l; apply Z.mod_divide; lia || done.
Qed.

Lemma congr_diff a b : a == b <-> a - b == 0.
Proof.
  split; intros E; [by rewrite E, Z.sub_diag|].
  replace a with (a - b + b) by ring. by rewrite E.
Qed.

Lemma congr_cancel c a b : ~ c == 0 -> c * a == c * b -> a == b.
Proof.
  intros Hc E. apply congr_diff in E. rewrite <- Z.mul_sub_distr_l in E. apply congr_diff.
  by destruct (congr_zero_mul _ _ E).
Qed.

Lemma sqrt_congr a b : a * a == b * b -> a == b \/ a == - b.
Proof.
  intros E. assert (Hz : (a - b) * (a + b) == 0).
  { replace ((a - b) * (a + b)) with (a * a - b * b) by ring. by apply (proj1 (congr_diff _ _)). }
  destruct (congr_zero_mul _ _ Hz) as [H|H]; [left; by apply (proj2 (congr_diff _ _))|right].
  apply (proj2 (congr_diff _ _)). by replace (a - - b) with (a + b) by ring.
Qed.


(** [P = 8k + 5], and the exponents of the code in terms of [k]. *)
Lemma P_shape : exists k, 0 <= k /\ P = 8 * k + 5 /\ Z.shiftr (P + 3) 3 = k + 1 /\
  Z.shiftr (P - 1) 2 = 2 * k + 1 /\ (P - 1) / 2 = 4 * k + 2.
Proof.
  pose proof (P_mod8 P) as H8. pose proof P_ge. pose proof (Z.div_mod P 8 ltac:(lia)) as Hd.
  exists (P / 8). rewrite !Z.shiftr_div_pow2 by lia. change (2 ^ 3) with 8. change (2 ^ 2) with 4.
  repeat split; try lia; symmetry.
  - apply (Z.div_unique_pos _ _ _ 0); lia.
  - apply (Z.div_unique_pos _ _ _ 0); lia.
  - apply (Z.div_unique_pos _ _ _ 0); lia.
Qed.

Lemma congr_small a b : a == b -> 0 <= a < P -> 0 <= b < P -> a = b.
Proof. intros [E] ? ?. rewrite !Z.mod_small in E by lia. done. Qed.

Lemma fermat_congr a : ~ a == 0 -> a ^ (P - 1) == 1.
Proof.
  intros Ha. pose proof P_ge. constructor. rewrite (Z.mod_small 1) by lia.
  apply Z.fermat_nz; [apply (P_prime P)|]. intros E. apply Ha. constructor. by rewrite Zmod_0_l.
Qed.

Lemma Exp_congr x e : BigMod.Exp x e P == x ^ e.
Proof. pose proof P_ge. rewrite BigMod.Exp_spec by lia. apply mod_congr. Qed.

Lemma not_twice_zero a : ~ a == 0 -> ~ a == - a.
Proof.
  intros Ha E. apply congr_diff in E. replace (a - - a) with (2 * a) in E by ring.
  destruct (congr_zero_mul _ _ E) as [F|F]; [|done].
  apply congr_small in F; pose proof P_ge; lia.
Qed.

Lemma pow_square a e : 0 <= e -> (a * a) ^ e = a ^ (2 * e).
Proof. intros He. by rewrite <- Z.pow_2_r, <- Z.pow_mul_r by lia. Qed.

(** The root the code computes squares to [x2]. *)
Lemma sqrt_x2_square x0 x2 : x2 == x0 * x0 -> 0 <= x2 < P -> ~ x0 == 0 ->
  sqrt_x2 P x2 * sqrt_x2 P x2 == x2.
Proof.
  intros Hx2 Hr Hx0. unfold sqrt_x2. pose proof (fermat_congr _ Hx0) as Hf.
  destruct P_shape as (k & Hk & HP & -> & -> & Hhalf).
  set (c := BigMod.Exp x2 (k + 1) P). set (s := BigMod.Exp 2 (2 * k + 1) P).
  assert (Hc : c * c == x2 * x0 ^ (4 * k + 2)).
  { unfold c. rewrite Exp_congr, Hx2, pow_square, <- Z.pow_add_r, <- Z.pow_2_r, <- Z.pow_add_r by lia.
    replace (2 * (k + 1) + 2 * (k + 1)) with (2 + (4 * k + 2)) by lia. done. }
  assert (Hs : s * s == - (1)).
  { unfold s. rewrite Exp_congr, <- Z.pow_add_r by lia. pose proof (P_two P) as H2.
    rewrite Hhalf in H2. replace (2 * k + 1 + (2 * k + 1)) with (4 * k + 2) by lia.
    constructor. rewrite H2. apply (Z.mod_unique_pos _ _ (-1)); lia. }
  assert (Hx2' : ~ x2 == 0).
  { rewrite Hx2. intros E. by destruct (congr_zero_mul _ _ E). }
  destruct (sqrt_congr (x0 ^ (4 * k + 2)) 1) as [Hh|Hh].
  { rewrite <- Z.pow_add_r by lia. replace (4 * k + 2 + (4 * k + 2)) with (P - 1) by lia. done. }
  - rewrite Hh, Z.mul_1_r in Hc. rewrite (congr_mod Hc), (Z.mod_small x2), Z.eqb_refl by done. done.
  - assert (Hc' : c * c == - x2) by (rewrite Hc, Hh; by replace (x2 * - (1)) with (- x2) by ring).
    destruct (Z.eqb_spec ((c * c) mod P) x2) as [E|_].
    + exfalso. apply (not_twice_zero _ Hx2'). rewrite <- Hc'. rewrite <- E at 1. apply mod_congr.
    + rewrite mod_congr. replace (c * s * (c * s)) with ((c * c) * (s * s)) by ring.
      rewrite Hc', Hs. by replace (- x2 * - (1)) with x2 by ring.
Qed.

Lemma sqrt_x2_range x2 : 0 <= sqrt_x2 P x2 < P.
Proof.
  pose proof P_ge. unfold sqrt_x2. case_match; [|apply Z.mod_pos_bound; lia].
  rewrite BigMod.Exp_spec by lia. apply Z.mod_pos_bound; lia.
Qed.

(** It is one of the two roots. *)
Lemma sqrt_x2_root x0 x2 : x2 == x0 * x0 -> 0 <= x2 < P -> 0 <= x0 < P ->
  sqrt_x2 P x2 = x0 \/ (x0 <> 0 /\ sqrt_x2 P x2 = P - x0).
Proof.
  intros Hx2 Hr H0. pose proof (sqrt_x2_range x2) as Hx. pose proof P_ge.
  destruct (decide (x0 = 0)) as [->|Hn].
  - left. assert (x2 = 0) as -> by (apply (congr_small _ _ Hx2); lia).
    unfold sqrt_x2. destruct P_shape as (k & Hk & _ & -> & _).
    by rewrite BigMod.Exp_spec, Z.pow_0_l, Zmod_0_l by lia.
  - assert (Hn' : ~ x0 == 0) by (intros E; apply Hn; apply (congr_small _ _ E); lia).
    pose proof (sqrt_x2_square x0 x2 Hx2 Hr Hn') as Hq. rewrite Hx2 in Hq at 3.
    destruct (sqrt_congr _ _ Hq) as [E|E]; [left|right].
    + by apply (congr_small _ _ E).
    + split; [done|]. apply congr_small; [|lia|lia]. rewrite E. constructor.
      by replace (P - x0) with (- x0 + 1 * P) by ring; rewrite Z_mod_plus_full.
Qed.

(** The x-coordinate squared of a curve point is recovered from y. *)
Lemma recover_x2_spec x y : on_edwards P (x, y) ->
  exists x2, recover_x2 P y = Ret x2 /\ 0 <= x2 < P /\ x2 == x * x.
Proof.
  pose proof P_ge. intros HE. apply Congr in HE. cbn [fst snd] in HE. unfold recover_x2.
  destruct (BigMod.ModInverse_prime P 121666 (P_prime P) (P_121666 P)) as (i & -> & Hi).
  cbn [deref mbind go_bind].
  assert (Hi' : i * 121666 == 1) by (constructor; rewrite Hi, Z.mod_small; lia).
  set (num := (y * y mod P - 1) mod P). set (den := ((i * -121665) mod P * (y * y mod P) + 1) mod P).
  assert (Hden : den == i * -121665 * (y * y) + 1) by (unfold den; by rewrite !mod_congr).
  assert (Hnum : num == x * x * den).
  { unfold num. rewrite Hden, !mod_congr. apply (congr_cancel 121666).
    { intros [E]. rewrite Zmod_0_l in E. exact (P_121666 P E). }
    replace (121666 * (x * x * (i * -121665 * (y * y) + 1)))
      with ((i * 121666) * -121665 * (x * x * (y * y)) + 121666 * (x * x)) by ring.
    rewrite Hi'. replace (121666 * (y * y - 1))
      with (121666 * (y * y - x * x) + 121666 * (x * x) - 121666) by ring.
    rewrite HE. constructor. f_equal. ring. }
  assert (Hnz : den mod P <> 0).
  { intros E. assert (E' : den == 0) by (constructor; by rewrite Zmod_0_l).
    rewrite E', Z.mul_0_r in Hnum. unfold num in Hnum. rewrite !mod_congr in Hnum.
    apply congr_diff in Hnum. rewrite Hden, Hnum in E'.
    assert (F : 1 == 0); [|apply congr_small in F; lia].
    rewrite <- (Z.mul_0_r 121666), <- E' at 1.
    replace (121666 * (i * -121665 * 1 + 1)) with ((i * 121666) * -121665 + 121666) by ring.
    by rewrite Hi'. }
  destruct (BigMod.ModInverse_prime P den (P_prime P) Hnz) as (v & -> & Hv).
  cbn [deref mbind go_bind]. eexists. split; [reflexivity|].
  split; [apply Z.mod_pos_bound; lia|]. rewrite mod_congr, Hnum.
  assert (Hv' : v * den == 1) by (constructor; rewrite Hv, Z.mod_small; lia).
  replace (x * x * den * v) with (x * x * (v * den)) by ring. by rewrite Hv', Z.mul_1_r.
Qed.
End Field.

(** ** The encoding *)

Lemma le_bytes_snoc n z :
  Binary.le_bytes (S n) z = Binary.le_bytes n z ++ [byte_of_Z (z / 256 ^ Z.of_nat n)].
Proof.
  revert z. induction n as [|n IH]; intros z; [by rewrite Z.div_1_r|].
  change (Binary.le_bytes (S (S n)) z) with (byte_of_Z z :: Binary.le_bytes (S n) (z / 256)).
  rewrite IH, Nat2Z.inj_succ, Z.pow_succ_r by lia.
  rewrite Z.div_div by (try apply Z.pow_pos_nonneg; lia). done.
Qed.

Lemma rev_Bytes_pad z : 0 <= z < 2 ^ 256 ->
  rev (Big.Bytes z) ++ repeat x00 (32 - length (Big.Bytes z)) = Binary.le_bytes 32 z.
Proof.
  intros Hz. pose proof (Big.pad_left_Bytes 32 z Hz) as Hp.
  apply (f_equal (@rev byte)) in Hp. unfold Big.pad_left, Binary.be_bytes in Hp.
  rewrite rev_involutive, rev_app_distr, rev_repeat in Hp. exact Hp.
Qed.

(** Byte 31: its top bit is free for the sign. *)
Lemma sign_bit_byte b : Z_of_byte b < 128 ->
  let s := byte_of_Z (Z.lor (Z_of_byte b) 0x80) in
  Z_of_byte b / 128 = 0 /\ byte_of_Z (Z.land (Z_of_byte b) 0x7F) = b /\
  Z_of_byte s / 128 = 1 /\ byte_of_Z (Z.land (Z_of_byte s) 0x7F) = b.
Proof. intros Hb. destruct b; solve [by exfalso|by repeat split]. Qed.


(** An encoded point: y little end first, the parity of x in the top bit. *)
Lemma edwards_encoding p : 0 <= p.2 < 2 ^ 255 ->
  exists b, Z_of_byte b < 128 /\ Binary.le_bytes 32 p.2 = Binary.le_bytes 31 p.2 ++ [b] /\
    edwardsPointToEd25519PubKey p = Ret (Binary.le_bytes 31 p.2 ++
      [if bit0 p.1 then byte_of_Z (Z.lor (Z_of_byte b) 0x80) else b]).
Proof.
  intros Hy. set (b := byte_of_Z (p.2 / 256 ^ 31)). exists b.
  assert (Hq : 0 <= p.2 / 256 ^ 31 < 128).
  { split; [apply Z.div_pos; lia|apply Z.div_lt_upper_bound; [lia|]].
    change (256 ^ 31 * 128) with (2 ^ 255). lia. }
  assert (Hs : Binary.le_bytes 32 p.2 = Binary.le_bytes 31 p.2 ++ [b]) by apply (le_bytes_snoc 31).
  split; [unfold b; rewrite Z_of_byte_of_Z, Z.mod_small; lia|]. split; [exact Hs|].
  assert (Hlen : length (Binary.le_bytes 31 p.2) = 31%nat) by apply Binary.length_le_bytes.
  unfold edwardsPointToEd25519PubKey. pose proof (Big.length_Bytes_le p.2 32 ltac:(lia)) as Hl.
  replace (32 <? zlen (Big.Bytes p.2)) with false by (unfold zlen; lia).
  rewrite rev_Bytes_pad, Hs by lia. rewrite lookup_app_r, Hlen by lia. cbn [lookup list_lookup default Nat.sub].
  destruct (bit0 p.1); [|done]. rewrite <- Hlen at 1. by rewrite take_app_length.
Qed.

Lemma decode_edwards P `{!FieldPrime P} p b :
  in_field P p -> on_edwards P p ->
  edwardsToEd25519PubKey p = Ret b -> decodeEd25519PubKey P b = Ret p.
Proof.
  intros [Hx Hy] HE. pose proof (P_bits P). destruct (edwards_encoding p ltac:(lia)) as (c & Hc & Hs & Henc).
  unfold edwardsToEd25519PubKey. rewrite Henc. intros E. apply Ret_inj in E as <-.
  destruct p as [x y]. cbn [fst snd] in *.
  assert (Hlen : length (Binary.le_bytes 31 y) = 31%nat) by apply Binary.length_le_bytes.
  destruct (sign_bit_byte c Hc) as (S0 & L0 & S1 & L1).
  unfold decodeEd25519PubKey. rewrite lookup_app_r, Hlen by lia. cbn [lookup list_lookup Nat.sub].
  assert (Htake : forall r, take 31 (Binary.le_bytes 31 y ++ r) = Binary.le_bytes 31 y)
    by (intros r; by rewrite take_app_length').
  rewrite !Htake.
  assert (Hyy : Binary.le_Z (Binary.le_bytes 31 y ++ [c]) = y).
  { rewrite <- Hs, Binary.le_Z_le_bytes. apply Z.mod_small. lia. }
  assert (Hl : byte_of_Z (Z.land (Z_of_byte (if bit0 x then byte_of_Z (Z.lor (Z_of_byte c) 128) else c)) 127) = c)
    by (destruct (bit0 x); assumption).
  assert (Hb : Z_of_byte (if bit0 x then byte_of_Z (Z.lor (Z_of_byte c) 128) else c) / 128 = Z.b2z (bit0 x))
    by (destruct (bit0 x); assumption).
  rewrite Hl, Hyy, Hb. destruct (recover_x2_spec P x y HE) as (x2 & -> & Hr & Hx2). cbn [mbind go_bind].
  assert (Hodd : Z.odd P = true).
  { destruct (P_shape P) as (k & _ & -> & _). rewrite Z.odd_add, Z.odd_mul. by rewrite andb_false_l. }
  unfold bit0. destruct (sqrt_x2_root P x x2 Hx2 Hr Hx) as [->|[Hn ->]].
  - by rewrite Z.eqb_refl.
  - rewrite Z.odd_sub, Hodd. destruct (Z.odd x); cbn; repeat f_equal; lia.
Qed.

(** C25: The installer's decoder inverts the ed25519 encoding: for any field
    prime of the right shape, the 32 bytes of a point of the Edwards curve
    (-x^2 + y^2 = 1 + d x^2 y^2) decode to that point, both coordinates. In
    particular the division and the square root always exist: the modular
    inverses are never nil, and one of the two candidate roots is right. *)
Theorem decodeEd25519PubKey_inverts P `{!FieldPrime P} p b :
  in_field P p -> on_edwards P p ->
  edwardsToEd25519PubKey p = Ret b -> decodeEd25519PubKey P b = Ret p.
Proof. exact (decode_edwards P p b). Qed.

(** A curve of the laws: multiples of the base point are on the Edwards curve
    with reduced coordinates. *)
Class EdwardsLaws (c : EllipticCurve) `{CurveLaws c} (P : Z) : Prop := {
  edwards_field :: FieldPrime P;
  mulG_in_field k : in_field P (mulG c k);
  mulG_on_edwards k : on_edwards P (mulG c k);
  mulG_IsOnCurve k : IsOnCurve c (mulG c k) = true;   (* the identity (0, 1) included *)
}.

(** ** A small instance

    The curve over the field of 293 elements, of the same shape as the one over
    2^255 - 19, with a base point of order 37: small enough for every law to be
    checked by evaluation. *)
Module Small.
Definition p : Z := 293.
Definition N : Z := 37.
Definition d : Z := Eval vm_compute in (Z.invmod 121666 p * -121665) mod p.

(** The addition law of twisted Edwards curves. *)
Definition ed_add (a b : point) : point :=
  let t := d * a.1 * b.1 * a.2 * b.2 in
  (((a.1 * b.2 + b.1 * a.2) * Z.invmod (1 + t) p) mod p,
   ((a.2 * b.2 + a.1 * b.1) * Z.invmod (1 - t) p) mod p).
Fixpoint multiples (n : nat) (acc : point) : list point :=
  match n with O => [] | S n' => acc :: multiples n' (ed_add acc (3, 260)) end.
Definition table : list point := Eval vm_compute in multiples 37 (0, 1).

Definition small_mulG (k : Z) : point := nth (Z.to_nat (k mod N)) table (0, 1).
Definition on_edwardsb (q : point) : bool :=
  (121666 * (q.2 * q.2 - q.1 * q.1)) mod p =? (121666 - 121665 * (q.1 * q.1) * (q.2 * q.2)) mod p.
Definition curve : EllipticCurve := {|
  ec_N := N; IsOnCurve := on_edwardsb; Add := ed_add;
  ScalarBaseMult := fun b => small_mulG (Binary.be_Z b) |}.

Lemma mod_in k : k mod N ∈ seqZ 0 N.
Proof. apply elem_of_seqZ. pose proof (Z.mod_pos_bound k N eq_refl). lia. Qed.

Lemma small_mod k : small_mulG (k mod N) = small_mulG k.
Proof. unfold small_mulG. by rewrite Zmod_mod. Qed.

Lemma small_check (f : point -> bool) : forallb (fun k => f (small_mulG k)) (seqZ 0 N) = true ->
  forall k, f (small_mulG k) = true.
Proof.
  intros Hf k. rewrite forallb_forall in Hf. rewrite <- small_mod. apply Hf, list_elem_of_In, mod_in.
Qed.

Lemma small_add j k : ed_add (small_mulG j) (small_mulG k) = small_mulG (j + k).
Proof.
  assert (Hf : forallb (fun j => forallb (fun k =>
    bool_decide (ed_add (small_mulG j) (small_mulG k) = small_mulG (j + k))) (seqZ 0 N)) (seqZ 0 N) = true)
    by (vm_compute; reflexivity).
  rewrite forallb_forall in Hf. specialize (Hf (j mod N) (proj1 (list_elem_of_In _ _) (mod_in j))).
  rewrite forallb_forall in Hf. specialize (Hf (k mod N) (proj1 (list_elem_of_In _ _) (mod_in k))).
  apply bool_decide_eq_true in Hf. rewrite !small_mod in Hf. rewrite Hf.
  rewrite <- (small_mod (j + k)), Zplus_mod. by rewrite small_mod.
Qed.

#[export] Instance field_prime : FieldPrime p.
Proof.
  split; [apply prime_alt; apply prime_intro; [reflexivity|]|reflexivity|discriminate|discriminate|reflexivity].
  intros n Hn. apply Zgcd_1_rel_prime, Z.eqb_eq.
  assert (Hf : forallb (fun n => Z.gcd n p =? 1) (seqZ 1 (p - 1)) = true) by (vm_compute; reflexivity).
  rewrite forallb_forall in Hf. apply Hf, list_elem_of_In, elem_of_seqZ. lia.
Qed.

#[export] Instance curve_laws : CurveLaws curve.
Proof.
  refine {| mulG := small_mulG |}; [reflexivity|reflexivity|exact small_mod|exact small_add| |].
  - intros k _. by apply (small_check on_edwardsb).
  - intros k. assert (H : (fun q => (0 <=? q.1) && (q.1 <? 2 ^ 256) && (0 <=? q.2) && (q.2 <? 2 ^ 256)) (small_mulG k) = true)
      by (apply (small_check (fun q => (0 <=? q.1) && (q.1 <? 2 ^ 256) && (0 <=? q.2) && (q.2 <? 2 ^ 256))); vm_compute; reflexivity).
    cbn beta in H. lia.
Defined.

#[export] Instance edwards_laws : EdwardsLaws curve p.
Proof.
  split; [apply field_prime| | |].
  - intros k. assert (H : (fun q => (0 <=? q.1) && (q.1 <? p) && (0 <=? q.2) && (q.2 <? p)) (small_mulG k) = true)
      by (apply (small_check (fun q => (0 <=? q.1) && (q.1 <? p) && (0 <=? q.2) && (q.2 <? p))); vm_compute; reflexivity).
    cbn beta in H. unfold in_field, mulG, curve_laws. lia.
  - intros k. apply Z.eqb_eq. by apply (small_check on_edwardsb).
  - intros k. by apply (small_check on_edwardsb).
Qed.
End Small.
#[export] Existing Instances Small.field_prime Small.curve_laws Small.edwards_laws.

Lemma decodeEd25519PubKey_inverts_witness :
  exists b, edwardsToEd25519PubKey (3, 260) = Ret b /\ decodeEd25519PubKey 293 b = Ret (3, 260).
Proof.
  exists ([x04; x01] ++ repeat x00 29 ++ [x80]). split; [reflexivity|].
  apply (decodeEd25519PubKey_inverts Small.p); [by split|reflexivity|reflexivity].
Defined.
