(* ===== verification/Mnemonic.v ===== *)
(** * Mnemonic: keys from a recovery phrase (cmd/installer/mnemonic.go, ed25519_sign.go)

    The installer derives both master keys from a BIP-39 mnemonic, splits them
    with the dealer, and can later recompute from the mnemonic alone the private
    key of any address the threshold parties derived ([DeriveECDSAKeyTSS],
    [ExportSolanaKeyAtPath], [deriveScalarAtPath]), and sign with a raw ed25519
    scalar. bip39, base58, go-ethereum's and cosmos-sdk's addresses and
    filippo.io/edwards25519 are classes. *)
From S2P Require Import Prelude GoStd Codec Crypto Protocol Transport Tss EdwardsPoint.
Local Open Scope Z_scope.
Local Open Scope go_scope.

Class Bip39 := {
  IsMnemonicValid : string -> bool;
  NewSeed : string -> string -> bytes;        (* mnemonic, passphrase *)
}.
Class AddressLibs := {
  base58_Encode : bytes -> string;
  PubkeyToAddress_Hex : point -> string;               (* ethcrypto.PubkeyToAddress(pub).Hex() *)
  cosmos_Address : bytes -> go bytes;                   (* (&cosmosecp.PubKey{Key: k}).Address() *)
  bech32_Encode : string -> bytes -> go string;         (* bech32.ConvertAndEncode *)
}.

Record MnemonicKeys := {
  mk_Mnemonic : string;
  mk_ECDSAPrivKey : Z; mk_ECDSAPubKey : bytes; mk_ECDSAChainCode : bytes;
  mk_EdDSAPrivKey : Z; mk_EdDSAPubKey : bytes; mk_EdDSAChainCode : bytes }.
Record DerivedKeyExport := { ex_Path : string; ex_PrivKeyHex : string; ex_Address : string }.

(** ** Paths *)

Definition is_marker (c : byte) : bool :=
  (Z_of_byte c =? 0x27) || (Z_of_byte c =? 0x68) || (Z_of_byte c =? 0x48).

(** [val = val*10 + uint32(c-'0')], in 32 bits. *)
Definition bip32_digit (part : string) (val c : Z) : go Z :=
  if (c <? 0x30) || (0x39 <? c) then Err ("invalid path component: " +:+ part)
  else Ret ((val * 10 + (c - 0x30)) mod 2 ^ 32).

Definition bip32_component (part : string) : go Z :=
  let hardened := match last (bytes_of part) with Some c => is_marker c | None => false end in
  let part := if hardened then drop_last part else part in
  val ← go_foldM (bip32_digit part) 0 (Utf8.runes_of (bytes_of part));
  Ret (if hardened then (val + hardenedOffset) mod 2 ^ 32 else val).

Definition parseBIP32Path (path : string) : go (list Z) :=
  if bool_decide (path = "") || bool_decide (path = "m") then Err "empty derivation path"
  else
    let parts := Strings.Split (Strings.TrimPrefix path "m/") "/" in
    indices ← go_mapM bip32_component (filter (fun part => part <> "") parts);
    if bool_decide (indices = []) then Err "empty derivation path" else Ret indices.

(** ** secp256k1 *)
Section ECDSA.
Context (S256 : EllipticCurve).

(** The BIP-32 master key: HMAC-SHA512 under "Bitcoin seed". *)
Definition masterKey (seed : bytes) : go (Z * bytes) :=
  let I := Hmac.Sum512 (bytes_of "Bitcoin seed") seed in
  let key := Binary.be_Z (take 32 I) in
  if (key =? 0) || (ec_N S256 <=? key) then Err "invalid master key" else Ret (key, drop 32 I).

Definition deriveECDSAKey (seed : bytes) : go (Z * bytes * bytes) :=
  '(key, chainCode) ← masterKey seed;
  pubKey ← elliptic_Marshal S256 (ScalarBaseMult S256 (Big.Bytes key));
  Ret (key, pubKey, chainCode).

Definition compressPubKey : point -> go bytes := compressPublicKey.

(** The data hashed for a child: serP(point(key)) || ser32(index) for a normal
    child, 0x00 || ser256(key) || ser32(index) for a hardened one. *)
Definition normal_data (key index : Z) : go bytes :=
  compressed ← compressPubKey (ScalarBaseMult S256 (Big.Bytes key));
  Ret (compressed ++ Binary.be_bytes 4 index).
Definition hardened_data (key index : Z) : go bytes :=
  let keyBytes := Big.Bytes key in
  data ← Slice.copy_at (repeat x00 33) (33 - zlen keyBytes) 33 keyBytes;
  Ret (data ++ Binary.be_bytes 4 index).

Definition child_key (key : Z) (chainCode data : bytes) (index : Z) : go (Z * bytes) :=
  let I := Hmac.Sum512 chainCode data in
  let il := Binary.be_Z (take 32 I) in
  if ec_N S256 <=? il then Err ("derived key >= curve order at index " +:+ Strconv.Itoa index)
  else
    let childKey := (il + key) mod ec_N S256 in
    if childKey =? 0 then Err ("derived key is zero at index " +:+ Strconv.Itoa index)
    else Ret (childKey, drop 32 I).

Definition step_BIP44 (s : Z * bytes) (index : Z) : go (Z * bytes) :=
  data ← (if 0x80000000 <=? index then hardened_data s.1 index else normal_data s.1 index);
  child_key s.1 s.2 data index.
(** The threshold parties' derivation: no child is hardened. *)
Definition step_TSS (s : Z * bytes) (index : Z) : go (Z * bytes) :=
  data ← normal_data s.1 index;
  child_key s.1 s.2 data index.

Context `{Bip39} `{AddressLibs}.

Definition DeriveECDSAKeyBIP44 (mnemonic : string) (indices : list Z) : go (Z * bytes) :=
  if negb (IsMnemonicValid mnemonic) then Err "invalid mnemonic"
  else
    m ← masterKey (NewSeed mnemonic "");
    '(key, _) ← go_foldM step_BIP44 m indices;
    pubKey ← elliptic_Marshal S256 (ScalarBaseMult S256 (Big.Bytes key));
    Ret (key, pubKey).

(** Only the first optional prefix is looked at; the empty one means EVM. *)
Definition export_address (pub : point) (bech32Prefix : list string) : go string :=
  match bech32Prefix with
  | prefix :: _ =>
    if bool_decide (prefix = "") then Ret (PubkeyToAddress_Hex pub)
    else
      compressed ← compressPubKey pub;
      addr ← cosmos_Address compressed;
      bech32_Encode prefix addr ?: "bech32 encode"
  | [] => Ret (PubkeyToAddress_Hex pub)
  end.

Definition DeriveECDSAKeyTSS (mnemonic path : string) (bech32Prefix : list string) : go DerivedKeyExport :=
  if negb (IsMnemonicValid mnemonic) then Err "invalid mnemonic"
  else
    indices ← parseBIP32Path path ?: "parse path";
    m ← masterKey (NewSeed mnemonic "");
    '(key, _) ← go_foldM step_TSS m indices;
    addr ← export_address (ScalarBaseMult S256 (Big.Bytes key)) bech32Prefix;
    let privBytes := Big.Bytes key in
    padded ← Slice.copy_at (repeat x00 32) (32 - zlen privBytes) 32 privBytes;
    Ret {| ex_Path := path; ex_PrivKeyHex := Hex.EncodeToString padded; ex_Address := addr |}.
End ECDSA.

(** ** ed25519 *)
Section EdDSA.
Context (Edwards : EllipticCurve) (P : Z).

(** [ed25519.NewKeyFromSeed(seed)[SeedSize:]]: the public key of RFC 8032, the
    encoding of the multiple of the base point by the clamped hash; [Edwards] is
    that curve. *)
Definition clamp (h : bytes) : bytes :=
  alter (fun b => byte_of_Z (Z.lor (Z.land (Z_of_byte b) 127) 64)) 31%nat
    (alter (fun b => byte_of_Z (Z.land (Z_of_byte b) 248)) 0%nat h).
(** The clamped bytes reversed and read as a big-endian number. *)
Definition ed_scalar (seed : bytes) : Z := Binary.be_Z (rev (take 32 (clamp (Sha512.Sum512 seed)))).
Definition ed25519_public (seed : bytes) : go bytes :=
  edwardsPointToEd25519PubKey (ScalarBaseMult Edwards (Big.Bytes (ed_scalar seed))).

(** SLIP-0010: every level is hardened. *)
Definition slip10_step (s : bytes * bytes) (index : Z) : bytes * bytes :=
  let I := Hmac.Sum512 s.2 (x00 :: s.1 ++ Binary.be_bytes 4 index) in
  (take 32 I, drop 32 I).
Definition slip10_indices : list Z := [0x8000002C; 0x800001F5; 0x80000000; 0x80000000].
Definition slip10 (seed : bytes) : bytes * bytes :=
  let I := Hmac.Sum512 (bytes_of "ed25519 seed") seed in
  fold_left slip10_step slip10_indices (take 32 I, drop 32 I).

(** The three derivations run the same loop and differ in what they return. *)
Definition deriveEdDSAMaster (seed : bytes) : go (bytes * bytes * bytes) :=
  let '(key, chainCode) := slip10 seed in
  pubKey ← ed25519_public key;
  Ret (key, pubKey, chainCode).
Definition deriveEdDSAKeyRaw (seed : bytes) : go (bytes * bytes) :=
  let '(key, chainCode) := slip10 seed in
  pubKey ← ed25519_public key;
  Ret (key, pubKey).
Definition deriveEdDSAKey (seed : bytes) : go (Z * bytes * bytes) :=
  let '(key, chainCode) := slip10 seed in
  pubKey ← ed25519_public key;
  Ret (ed_scalar key, pubKey, chainCode).

(** One level of the derivation from the full key: scalar, point, chain code. *)
Definition ed_step (s : Z * point * bytes) (idx : Z) : go (Z * point * bytes) :=
  let '(scalar, pub, chainCode) := s in
  compressed ← compressEdwardsPubKey pub;
  let ilIr := Hmac.Sum512 chainCode (compressed ++ Binary.be_bytes 4 idx) in
  let ilInt := Binary.be_Z (take 32 ilIr) mod ec_N Edwards in
  let ilB := Big.Bytes ilInt in
  ilBytes ← Slice.copy_at (repeat x00 32) (32 - zlen ilB) 32 ilB;
  Ret ((scalar + ilInt) mod ec_N Edwards, Add Edwards pub (ScalarBaseMult Edwards ilBytes), drop 32 ilIr).

Context `{Bip39} `{AddressLibs}.

(** The common part of [deriveScalarAtPath] and [ExportSolanaKeyAtPath]. *)
Definition ed_at_path (mnemonic path : string) : go (Z * bytes) :=
  if negb (IsMnemonicValid mnemonic) then Err "invalid mnemonic"
  else
    indices ← parseBIP32Path path ?: "parse path";
    '(masterSeed, masterPub, masterCC) ← deriveEdDSAMaster (NewSeed mnemonic "") ?: "derive master";
    pub ← decodeEd25519PubKey P masterPub;
    '(scalar, pub, _) ← go_foldM ed_step (ed_scalar masterSeed, pub, masterCC) indices;
    pubKey ← edwardsToEd25519PubKey pub;
    Ret (scalar, pubKey).
Definition deriveScalarAtPath : string -> string -> go (Z * bytes) := ed_at_path.

(** [scalarLE[i] = scalarBytes[len-1-i]] into 32 bytes. *)
Definition little_endian32 (z : Z) : go bytes :=
  let b := Big.Bytes z in
  if 32 <? zlen b then Panic else Ret (rev b ++ repeat x00 (32 - length b)).

Definition ExportSolanaKeyAtPath (mnemonic path : string) : go DerivedKeyExport :=
  '(scalar, pubKey) ← ed_at_path mnemonic path;
  scalarLE ← little_endian32 scalar;
  Ret {| ex_Path := path; ex_PrivKeyHex := base58_Encode (scalarLE ++ pubKey);
         ex_Address := base58_Encode pubKey |}.

Definition ExportSolanaKey (mnemonic : string) : go (string * string) :=
  if negb (IsMnemonicValid mnemonic) then Err "invalid mnemonic"
  else
    '(solSeed, solPub) ← deriveEdDSAKeyRaw (NewSeed mnemonic "") ?: "derive SOL key";
    Ret (base58_Encode (solSeed ++ solPub), base58_Encode solPub).

Context (S256 : EllipticCurve).

Definition DeriveKeysFromMnemonic (mnemonic : string) : go MnemonicKeys :=
  if negb (IsMnemonicValid mnemonic) then Err "invalid mnemonic"
  else
    let seed := NewSeed mnemonic "" in
    '(ecdsaPriv, ecdsaPub, ecdsaCC) ← deriveECDSAKey S256 seed ?: "derive ECDSA key";
    '(eddsaScalar, eddsaPub, eddsaCC) ← deriveEdDSAKey seed ?: "derive EdDSA key";
    Ret {| mk_Mnemonic := mnemonic;
           mk_ECDSAPrivKey := ecdsaPriv; mk_ECDSAPubKey := ecdsaPub; mk_ECDSAChainCode := ecdsaCC;
           mk_EdDSAPrivKey := eddsaScalar; mk_EdDSAPubKey := eddsaPub; mk_EdDSAChainCode := eddsaCC |}.

(** [NewEntropy(256)] and [NewMnemonic] of bip39 are [entropy] and [newMnemonic]. *)
Definition GenerateMnemonicKeys (entropy : go bytes) (newMnemonic : bytes -> go string) : go MnemonicKeys :=
  e ← entropy ?: "generate entropy";
  mnemonic ← newMnemonic e ?: "generate mnemonic";
  DeriveKeysFromMnemonic mnemonic.
End EdDSA.

(** ** Signing with a raw scalar (ed25519_sign.go) *)

(** filippo.io/edwards25519. *)
Class Edwards25519 := {
  Scalar : Type;
  Point : Type;
  SetCanonicalBytes : bytes -> go Scalar;
  SetUniformBytes : bytes -> go Scalar;
  MultiplyAdd : Scalar -> Scalar -> Scalar -> Scalar;
  Scalar_Bytes : Scalar -> bytes;
  Point_ScalarBaseMult : Scalar -> Point;
  Point_Bytes : Point -> bytes;
}.

(** The order of the base point, a literal of the code. *)
Definition ed_order : Z := 7237005577332262213973186563042994240857116359379907606001950938285454250989.

Section Sign.
Context `{Edwards25519}.

Definition signEd25519WithScalar (scalar : Z) (pubKey message : bytes) : go bytes :=
  scalarLE ← little_endian32 (scalar mod ed_order);
  s ← SetCanonicalBytes scalarLE ?: "set scalar";
  r ← SetUniformBytes (Sha512.Sum512 (scalarLE ++ message)) ?: "set nonce";
  let R := Point_Bytes (Point_ScalarBaseMult r) in
  k ← SetUniformBytes (Sha512.Sum512 (R ++ pubKey ++ message)) ?: "set hram";
  let S := Scalar_Bytes (MultiplyAdd k s r) in
  (* the two halves of the 64-byte signature *)
  Ret (take 32 R ++ repeat x00 (32 - length R) ++ take 32 S ++ repeat x00 (32 - length S)).
End Sign.

(* Conversion unfolds the entry points before the hash functions they call. *)
#[global] Strategy expand [masterKey deriveECDSAKey child_key step_BIP44 step_TSS DeriveECDSAKeyBIP44
  DeriveECDSAKeyTSS deriveEdDSAMaster deriveEdDSAKeyRaw deriveEdDSAKey ed_step ed_at_path deriveScalarAtPath
  ExportSolanaKeyAtPath ExportSolanaKey DeriveKeysFromMnemonic signEd25519WithScalar].
#[global] Strategy 1000 [Hmac.Sum512 Sha512.Sum512].
#[global] Strategy 900 [slip10 ed_scalar].
