(* ===== verification/MnemonicFacts.v ===== *)
(** * MnemonicFacts: the recovery phrase recovers what the parties derived

    Path parsing agrees with the threshold parties' where they accept, and
    wraps where they refuse; the ECDSA and EdDSA recovery functions give the
    discrete logarithm of the very public key a threshold derivation gives; a
    raw-scalar signature satisfies the ed25519 verification equation. *)
From S2P Require Import Prelude GoStd Codec Crypto Protocol Transport Tss TssFacts EdwardsPoint Mnemonic.
Local Open Scope Z_scope.

(** ** Paths *)

Lemma bytes_of_cons c s : bytes_of (String c s) = byte_of_ascii c :: bytes_of s.
Proof. reflexivity. Qed.

Lemma runes_of_digit c d l : Strconv.digit c = Some d ->
  Utf8.runes_of (byte_of_ascii c :: l) = (0x30 + d) :: Utf8.runes_of l.
Proof.
  unfold Strconv.digit. case_match eqn:E; [|done]. intros [= <-].
  cbn [Utf8.runes_of]. replace (Z_of_byte (byte_of_ascii c) <? 0x80) with true by lia.
  f_equal. lia.
Qed.

Lemma bip32_digit_ok part val d : 0 <= d < 10 ->
  bip32_digit part val (0x30 + d) = Ret ((val * 10 + d) mod 2 ^ 32).
Proof.
  intros Hd. unfold bip32_digit. replace (_ || _) with false by lia. by replace (0x30 + d - 0x30) with d by lia.
Qed.

Lemma bip32_digits part s : forall max acc n, max < 2 ^ 32 -> 0 <= acc ->
  Strconv.parse_uint max acc s = inr n ->
  go_foldM (bip32_digit part) acc (Utf8.runes_of (bytes_of s)) = Ret n.
Proof.
  induction s as [|c s IH]; intros max acc n Hm Ha; cbn [Strconv.parse_uint]; [by intros [= <-]|].
  destruct (Strconv.digit c) as [d|] eqn:Hd; [|done]. pose proof (Strconv.digit_bound _ _ Hd).
  case_match eqn:Hlt; [done|]. intros Hp. rewrite bytes_of_cons, (runes_of_digit c d) by done.
  cbn [go_foldM]. rewrite bip32_digit_ok by lia. cbn [mbind go_bind].
  rewrite Z.mod_small by lia. apply (IH max); [done|lia|done].
Qed.

Lemma last_snoc_byte s c : last (bytes_of (s +:+ String c "")) = Some (byte_of_ascii c).
Proof. rewrite bytes_of_app. apply last_snoc. Qed.

Lemma is_marker_ascii c :
  is_marker (byte_of_ascii c)
  = Ascii.eqb "'"%char c || Ascii.eqb "h"%char c || Ascii.eqb "H"%char c.
Proof. by destruct c as [[] [] [] [] [] [] [] []]. Qed.

Lemma marker_suffix part : part <> "" ->
  match last (bytes_of part) with Some c => is_marker c | None => false end
  = Strings.HasSuffix part "'" || Strings.HasSuffix part "h" || Strings.HasSuffix part "H".
Proof.
  intros Hne. destruct (Strings.string_snoc part) as [?|(s & c & ->)]; [done|].
  by rewrite last_snoc_byte, is_marker_ascii, !Strings.HasSuffix_snoc.
Qed.

Section Paths.
Context `{Unicode}.

Lemma bip32_component_agrees part i : part <> "" ->
  parseComponent part = Ret i -> bip32_component part = Ret i.
Proof.
  intros Hne. unfold parseComponent, bip32_component. rewrite marker_suffix by done.
  set (h := Strings.HasSuffix part "'" || _ || _). set (part' := if h then drop_last part else part).
  intros (idx & Hp%wrap_err_Ret & [= <-])%go_bind_Ret.
  pose proof (Strconv.ParseUint_range _ 31 _ ltac:(lia) Hp) as Hr.
  assert (go_foldM (bip32_digit part') 0 (Utf8.runes_of (bytes_of part')) = Ret idx) as ->.
  { unfold Strconv.ParseUint, Strconv.parse_base10 in Hp. destruct part' as [|c s]; [done|].
    destruct (Strconv.parse_uint _ _ _) eqn:E; [done|]. injection Hp as ->.
    by apply (bip32_digits _ _ (2 ^ 31 - 1)). }
  cbn [mbind go_bind]. destruct h; [|done]. unfold hardenedOffset. by rewrite Z.mod_small by lia.
Qed.

Lemma go_mapM_agrees {A B} (f g : A -> go B) l ys :
  (forall x y, In x l -> f x = Ret y -> g x = Ret y) -> go_mapM f l = Ret ys -> go_mapM g l = Ret ys.
Proof.
  revert ys. induction l as [|x l IH]; intros ys Hfg; cbn [go_mapM]; [done|].
  intros (y & Hy & (ys' & Hys & [= <-])%go_bind_Ret)%go_bind_Ret.
  rewrite (Hfg x y) by (done || by left). cbn [mbind go_bind].
  rewrite (IH ys'); [done| |done]. intros z w Hz. apply Hfg. by right.
Qed.

(** The installer reads every path the parties accept the same way. *)
Lemma parseBIP32Path_agrees path l : parsePath path = Ret l -> l <> [] -> parseBIP32Path path = Ret l.
Proof.
  intros Hp Hl. assert (path <> "" /\ path <> "m") as [H1 H2] by (split; intros ->; done).
  unfold parseBIP32Path. rewrite !bool_decide_eq_false_2 by done. cbn [orb].
  unfold parsePath in Hp. case_bool_decide; [done|].
  rewrite (go_mapM_agrees parseComponent bip32_component _ l); [|..|exact Hp].
  - cbn [mbind go_bind]. by rewrite bool_decide_eq_false_2.
  - intros part i Hin. apply bip32_component_agrees.
    apply list_elem_of_In, list_elem_of_filter in Hin. tauto.
Qed.
End Paths.

Lemma parse_uint_value max s : forall acc n, Strconv.parse_uint max acc s = inr n -> Strconv.digits acc s = Some n.
Proof.
  induction s as [|c s IH]; intros acc n; cbn; [by intros [= <-]|].
  destruct (Strconv.digit c) as [d|]; cbn; [|done]. case_match; [done|]. apply IH.
Qed.

Lemma bip32_digits_wrap part s : forall acc n, Strconv.digits acc s = Some n ->
  go_foldM (bip32_digit part) (acc mod 2 ^ 32) (Utf8.runes_of (bytes_of s)) = Ret (n mod 2 ^ 32).
Proof.
  induction s as [|c s IH]; intros acc n; cbn [Strconv.digits]; [by intros [= <-]|].
  destruct (Strconv.digit c) as [d|] eqn:Hd; cbn [mbind option_bind]; [|done].
  pose proof (Strconv.digit_bound _ _ Hd). intros Hn.
  rewrite bytes_of_cons, (runes_of_digit c d) by done. cbn [go_foldM].
  rewrite bip32_digit_ok by lia. cbn [mbind go_bind].
  rewrite <- Zplus_mod_idemp_l, Zmult_mod_idemp_l, Zplus_mod_idemp_l. by apply IH.
Qed.

(** The installer's path parser computes each index modulo 2^32 without a
    range check, while the parties' refuses every component past 2^31 - 1: from
    a path with a large component the installer silently exports the key of
    another path. *)
Theorem parseBIP32Path_wraps `{Unicode} n : 0 <= n ->
  parseBIP32Path ("m/" +:+ Strconv.Itoa n) = Ret [n mod 2 ^ 32] /\
  (2 ^ 31 <= n -> exists e, parsePath ("m/" +:+ Strconv.Itoa n) = Err e).
Proof.
  intros Hn. destruct (Strconv.Itoa_digits n Hn) as [Hd Hne].
  assert (Hsplit : filter (fun part => part <> "") (Strings.Split (Strconv.Itoa n) "/") = [Strconv.Itoa n]).
  { rewrite Strings.Split_no_sep by (apply Strconv.digits_no_char; done).
    by rewrite filter_cons_True, filter_nil. }
  assert (Hsuf : Strings.HasSuffix (Strconv.Itoa n) "'" || Strings.HasSuffix (Strconv.Itoa n) "h"
                 || Strings.HasSuffix (Strconv.Itoa n) "H" = false)
    by (by rewrite !Strconv.digits_no_suffix).
  pose proof (Strconv.decimal_Itoa n Hn) as Hdec. unfold Strconv.decimal in Hdec.
  unfold parseBIP32Path, parsePath. rewrite Strings.TrimPrefix_app, Hsplit. split.
  - rewrite !bool_decide_eq_false_2 by done. cbn [orb go_mapM].
    unfold bip32_component. rewrite marker_suffix, Hsuf by done.
    destruct (Strconv.Itoa n) as [|c s] eqn:E; [done|].
    pose proof (bip32_digits_wrap (String c s) _ _ _ Hdec) as Hw. rewrite Zmod_0_l in Hw. rewrite Hw. done.
  - intros Hbig. rewrite bool_decide_eq_false_2 by done. cbn [go_mapM].
    unfold parseComponent. rewrite Hsuf. unfold Strconv.ParseUint, Strconv.parse_base10.
    destruct (Strconv.Itoa n) as [|c s] eqn:E; [done|].
    destruct (Strconv.parse_uint _ _ _) as [b|m] eqn:Ep; [by eexists|exfalso].
    pose proof Ep as Hr. apply Strconv.parse_uint_range in Hr; [|lia].
    apply parse_uint_value in Ep. rewrite Hdec in Ep. injection Ep as <-. lia.
Qed.

Lemma parseBIP32Path_wraps_witness :
  parseBIP32Path "m/4294967340" = Ret [44] /\ exists e, parsePath (H := Toy.unicode) "m/4294967340" = Err e.
Proof.
  destruct (parseBIP32Path_wraps (H := Toy.unicode) 4294967340 ltac:(discriminate)) as [Hi Hp].
  split; [exact Hi|]. apply Hp. discriminate.
Defined.

(** ** Recovering a derived key *)

Section Recover.
Context (c : EllipticCurve) `{!CurveLaws c}.

Lemma in_step_cong coeffs ids k1 k2 d d' s1 s2 : d mod ec_N c = d' mod ec_N c ->
  in_step c coeffs ids k1 k2 d s1 s2 -> in_step c coeffs ids k1 k2 d' s1 s2.
Proof.
  intros E (Hp & Hp2 & Hc & H1 & H2 & B1 & B2).
  assert (Hsum : forall z, (d + z) mod ec_N c = (d' + z) mod ec_N c)
    by (intros z; by rewrite <- Zplus_mod_idemp_l, E, Zplus_mod_idemp_l).
  assert (HB : forall l, bigX_ok c coeffs d ids l -> bigX_ok c coeffs d' ids l).
  { intros l HB. eapply Forall2_impl; [exact HB|]. intros k o Ho p Hpo.
    destruct (Ho p Hpo) as [-> Hon]. split; [|done]. by apply mulG_cong. }
  unfold is_share in *. rewrite Hsum in H1, H2.
  split; [rewrite Hp; by apply mulG_cong|]. repeat (split; [done|]). split; by apply HB.
Qed.

Lemma copy_Bytes_32 z : 0 <= z < 2 ^ 256 ->
  Slice.copy_at (repeat x00 32) (32 - zlen (Big.Bytes z)) 32 (Big.Bytes z) = Ret (Binary.be_bytes 32 z).
Proof. exact (Slice.copy_Bytes_field 32 z). Qed.

Lemma ScalarBaseMult_Bytes z : 0 <= z -> ScalarBaseMult c (Big.Bytes z) = mulG c z.
Proof. intros Hz. by rewrite ScalarBaseMult_mulG, Big.be_Z_Bytes. Qed.

Lemma derive_data_normal key s idx data : 0 <= key -> d_pub s = mulG c key ->
  normal_data c key idx = Ret data ->
  derive_data c s idx = Ret (take 32 (Hmac.Sum512 (d_chain s) data), drop 32 (Hmac.Sum512 (d_chain s) data)).
Proof.
  intros Hk Hp. unfold derive_data, normal_data, compressPubKey. rewrite ScalarBaseMult_Bytes, Hp by done.
  destruct (compressPublicKey (mulG c key)); [|done|done]. by intros [= <-].
Qed.

(** A key that is a step of the recovery, beside the parties' state. *)
Definition recovers (coeffs ids : list Z) (k key : Z) (cc : bytes) (s : dstate) : Prop :=
  0 < key < ec_N c /\ d_chain s = cc /\ in_step c coeffs ids k k key s s.

Lemma step_TSS_derives coeffs ids k key cc s idx key' cc' :
  recovers coeffs ids k key cc s -> step_TSS c (key, cc) idx = Ret (key', cc') ->
  exists s', deriveECDSA_step c s idx = Ret s' /\ recovers coeffs ids k key' cc' s'.
Proof.
  intros (Hk & Hcc & HI). pose proof HI as (Hp & _). unfold step_TSS. cbn [fst snd].
  intros (data & Hd & Hch)%go_bind_Ret. unfold child_key in Hch. case_match eqn:Hil; [done|].
  case_match eqn:Hz; [done|]. injection Hch as Hk' Hc'.
  unfold deriveECDSA_step.
  rewrite (derive_data_normal key s idx data ltac:(lia) Hp Hd).
  cbn [mbind go_bind]. rewrite Hcc, Hil. eexists. split; [reflexivity|].
  rewrite ScalarBaseMult_mulG. pose proof (ec_N_pos (c := c)).
  pose proof (Z.mod_pos_bound (Binary.be_Z (take 32 (Hmac.Sum512 cc data)) + key) (ec_N c) ltac:(lia)).
  split; [subst key'; lia|]. split; [exact Hc'|].
  eapply in_step_cong; [|by apply in_step_advance]. subst key'. rewrite Zmod_mod. f_equal. lia.
Qed.

Lemma fold_TSS_derives coeffs ids k idxs : forall key cc s key' cc',
  recovers coeffs ids k key cc s -> go_foldM (step_TSS c) (key, cc) idxs = Ret (key', cc') ->
  exists s', go_foldM (deriveECDSA_step c) s idxs = Ret s' /\ recovers coeffs ids k key' cc' s'.
Proof.
  induction idxs as [|i idxs IH]; intros key cc s key' cc' HR; cbn [go_foldM].
  - intros [= <- <-]. by exists s.
  - intros ([key1 cc1] & H1 & Hf)%go_bind_Ret.
    destruct (step_TSS_derives _ _ _ _ _ _ _ _ _ HR H1) as (s1 & -> & HR1). cbn [mbind go_bind].
    by apply (IH key1 cc1).
Qed.

(** A derivation whose loop ends on a curve point returns its child share. *)
Lemma derive_with_runs {aux} `{Codec (SaveData aux)} `{!SaveCodecLaws c aux}
    step encode_pub coeffs d ids k (ks : KeyShare) (save : SaveData aux) path idxs s' d' pk :
  Unmarshal (ks_Share ks) = Ret save -> Pub save = Some (mulG c d) -> ShareID save = k -> Ks save = ids ->
  go_foldM step (init_state c (ks_ChainCode ks) save (mulG c d)) idxs = Ret s' ->
  in_step c coeffs ids k k d' s' s' -> IsOnCurve c (mulG c d') = true -> encode_pub (mulG c d') = Ret pk ->
  exists dk, derive_with (aux := aux) c step encode_pub ks path idxs = Ret dk /\
    dk_PublicKey dk = pk /\ valid_share c (aux := aux) coeffs d' ids k (dk_Share dk).
Proof.
  intros Hu Hp Hk Hi Hf (Hd & _ & _ & Hx & _ & HB & _) Hon Hpk. unfold derive_with.
  rewrite Hu. cbn [wrap_err cause mbind go_bind]. rewrite Hp. cbn [deref mbind go_bind].
  rewrite Hf. cbn [mbind go_bind]. rewrite Hd, Hpk. cbn [mbind go_bind].
  unfold NewECPoint. rewrite Hon. cbn [wrap_err cause mbind go_bind].
  destruct (Marshal_total (derived_save save s' (mulG c d'))) as [sh Hsh];
    [by eapply derived_representable|].
  rewrite Hsh. cbn [wrap_err cause mbind go_bind]. eexists. split; [reflexivity|]. split; [done|].
  by eapply derived_valid.
Qed.
End Recover.

Lemma masterKey_range c seed key chain : masterKey c seed = Ret (key, chain) -> 0 < key < ec_N c.
Proof.
  unfold masterKey. set (I := Hmac.Sum512 _ _). pose proof (Binary.be_Z_bound (take 32 I)) as Hb.
  case_match eqn:Hr; [done|]. intros [= <- _]. lia.
Qed.

Lemma deriveECDSAKey_Ret c seed d pub chain :
  deriveECDSAKey c seed = Ret (d, pub, chain) -> masterKey c seed = Ret (d, chain).
Proof. unfold deriveECDSAKey. intros ([d0 cc] & -> & (? & _ & [= <- _ <-])%go_bind_Ret)%go_bind_Ret. done. Qed.

Lemma DeriveECDSAKeyTSS_Ret `{Bip39} `{AddressLibs} c mnemonic path prefix e :
  DeriveECDSAKeyTSS c mnemonic path prefix = Ret e ->
  exists l m key cc padded, parseBIP32Path path = Ret l /\ masterKey c (NewSeed mnemonic "") = Ret m /\
    go_foldM (step_TSS c) m l = Ret (key, cc) /\
    export_address (ScalarBaseMult c (Big.Bytes key)) prefix = Ret (ex_Address e) /\
    Slice.copy_at (repeat x00 32) (32 - zlen (Big.Bytes key)) 32 (Big.Bytes key) = Ret padded /\
    ex_PrivKeyHex e = Hex.EncodeToString padded.
Proof.
  unfold DeriveECDSAKeyTSS. destruct (negb _); [done|].
  intros (l & Hl%wrap_err_Ret & HE)%go_bind_Ret. apply go_bind_Ret in HE as (m & Hm & HE).
  apply go_bind_Ret in HE as ([key cc] & Hf & HE). apply go_bind_Ret in HE as (addr & Ha & HE).
  apply go_bind_Ret in HE as (padded & Hpad & HE). apply Ret_inj in HE as <-.
  by exists l, m, key, cc, padded.
Qed.

(** The recovery phrase alone recovers what the parties derived. If the
    dealer's secret came from a mnemonic and a party holds a valid share of it,
    then for every path the parties accept, whenever [DeriveECDSAKeyTSS] exports a
    key from the mnemonic, the party's own derivation of that path succeeds, the
    exported 32 bytes are the discrete logarithm of the public key it stores,
    its child share is a share of them, and the exported address is the one of
    that public key. *)
Theorem mnemonic_recovers_ECDSA `{Unicode} `{Bip39} `{AddressLibs} {aux}
    `{Codec (SaveData aux)} `{Codec (SaveData unit)}
    S256 Edwards `{!CurveLaws S256} `{!SaveCodecLaws S256 aux}
    mnemonic path prefix e d pub chain coeffs ids k ks l :
  ec_N S256 <= 2 ^ 256 ->
  deriveECDSAKey S256 (NewSeed mnemonic "") = Ret (d, pub, chain) ->
  valid_share S256 (aux := aux) coeffs d ids k (ks_Share ks) ->
  ks_Curve ks = CurveSecp256k1 -> ks_ChainCode ks = chain ->
  parsePath path = Ret l -> l <> [] ->
  DeriveECDSAKeyTSS S256 mnemonic path prefix = Ret e ->
  exists dk key, DeriveKey (aux := aux) S256 Edwards ks path = Ret dk /\
    0 < key < ec_N S256 /\ ex_PrivKeyHex e = Hex.EncodeToString (Binary.be_bytes 32 key) /\
    uncompressed (mulG S256 key) = Ret (dk_PublicKey dk) /\
    valid_share S256 (aux := aux) coeffs key ids k (dk_Share dk) /\
    export_address (mulG S256 key) prefix = Ret (ex_Address e).
Proof.
  intros HN HD (save & Hu & Hp & Hk & Hi & Hx & HB) HC Hch Hl Hne HE.
  apply deriveECDSAKey_Ret in HD. pose proof (masterKey_range _ _ _ _ HD) as Hd.
  apply DeriveECDSAKeyTSS_Ret in HE as (l' & m & key & cc' & padded & Hl' & Hm & Hf & Ha & Hpad & Hhex).
  rewrite (parseBIP32Path_agrees path l Hl Hne) in Hl'. injection Hl' as <-.
  rewrite HD in Hm. injection Hm as <-.
  destruct (fold_TSS_derives S256 coeffs ids k l d chain (init_state S256 (ks_ChainCode ks) save (mulG S256 d)) key cc')
    as (s' & Hs' & Hkey & _ & HI'); [|done|].
  { split; [done|]. split; [done|]. repeat (split; [done|]). split; by apply init_bigX_ok. }
  assert (Hon : IsOnCurve S256 (mulG S256 key) = true).
  { apply mulG_on_curve. rewrite Z.mod_small; lia. }
  destruct (mulG_coords (c := S256) key) as [Hc1 Hc2].
  destruct (derive_with_runs S256 (deriveECDSA_step S256) uncompressed coeffs d ids k ks save path l s' key
              _ Hu Hp Hk Hi Hs' HI' Hon (uncompressed_spec _ Hc1 Hc2)) as (dk & Hdk & Hpk & Hv).
  exists dk, key. split.
  { unfold DeriveKey. rewrite Hl, HC. cbn [cause mbind go_bind]. by rewrite bool_decide_eq_true_2. }
  split; [done|]. split.
  { rewrite copy_Bytes_32 in Hpad by lia. by apply Ret_inj in Hpad as <-. }
  rewrite Hpk, uncompressed_spec by done. split; [done|]. split; [done|].
  by rewrite <- (ScalarBaseMult_Bytes S256 key) by lia.
Qed.

Section RecoverEd.
Context (c : EllipticCurve) `{!CurveLaws c}.

Definition ed_recovers (coeffs ids : list Z) (k : Z) (st : Z * point * bytes) (s : dstate) : Prop :=
  let '(scalar, pub, cc) := st in
  0 <= scalar /\ pub = mulG c scalar /\ d_chain s = cc /\ in_step c coeffs ids k k scalar s s.

Lemma ed_step_derives coeffs ids k st s idx st' : ec_N c <= 2 ^ 256 ->
  ed_recovers coeffs ids k st s -> ed_step c st idx = Ret st' ->
  exists s', deriveEdDSA_step c s idx = Ret s' /\ ed_recovers coeffs ids k st' s'.
Proof.
  destruct st as [[scalar pub] cc]. intros HN (Hs & -> & Hcc & HI).
  pose proof HI as (Hp & _). pose proof (ec_N_pos (c := c)). unfold ed_step, deriveEdDSA_step, derive_data.
  unfold compressEdwardsPubKey. rewrite Hp, Hcc.
  destruct (compressPublicKey (mulG c scalar)) as [b| |]; cbn [mbind go_bind]; [|done|done].
  set (mac := Hmac.Sum512 cc (b ++ Binary.be_bytes 4 idx)).
  set (z := Binary.be_Z (take 32 mac) mod ec_N c).
  assert (Hz : 0 <= z < ec_N c) by (apply Z.mod_pos_bound; lia).
  rewrite copy_Bytes_32 by lia. cbn [mbind go_bind].
  intros [= <-]. eexists. split; [reflexivity|].
  rewrite !ScalarBaseMult_mulG, Binary.be_Z_be_bytes, (Z.mod_small z) by (change (256 ^ Z.of_nat 32) with (2 ^ 256); lia).
  pose proof (Z.mod_pos_bound (scalar + z) (ec_N c) ltac:(lia)).
  split; [lia|]. split; [by rewrite mulG_add, mulG_mod|]. split; [done|].
  eapply in_step_cong; [|by apply in_step_advance]. by rewrite Zmod_mod.
Qed.

Lemma ed_fold_derives coeffs ids k idxs : ec_N c <= 2 ^ 256 -> forall st s st',
  ed_recovers coeffs ids k st s -> go_foldM (ed_step c) st idxs = Ret st' ->
  exists s', go_foldM (deriveEdDSA_step c) s idxs = Ret s' /\ ed_recovers coeffs ids k st' s'.
Proof.
  intros HN. induction idxs as [|i idxs IH]; intros st s st' HR; cbn [go_foldM].
  - intros [= <-]. by exists s.
  - intros (st1 & H1 & Hf)%go_bind_Ret.
    destruct (ed_step_derives _ _ _ _ _ _ _ HN HR H1) as (s1 & -> & HR1). cbn [mbind go_bind].
    by apply (IH st1).
Qed.

(** Scalars are reduced at every level of the loop. *)
Lemma ed_fold_reduced idxs st st' : idxs <> [] ->
  go_foldM (ed_step c) st idxs = Ret st' -> 0 <= st'.1.1 < ec_N c.
Proof.
  pose proof (ec_N_pos (c := c)). revert st. induction idxs as [|i idxs IH]; intros st Hne; [done|].
  cbn [go_foldM]. intros (st1 & H1 & Hf)%go_bind_Ret. destruct idxs as [|j idxs]; [|by apply (IH st1)].
  cbn in Hf. injection Hf as <-. destruct st as [[x p] cc]. unfold ed_step in H1. go_inv.
  cbn [fst]. apply Z.mod_pos_bound. lia.
Qed.
End RecoverEd.

Lemma ed_scalar_nonneg seed : 0 <= ed_scalar seed.
Proof. unfold ed_scalar. apply Binary.be_Z_bound. Qed.

Lemma little_endian32_spec z : 0 <= z < 2 ^ 256 -> little_endian32 z = Ret (Binary.le_bytes 32 z).
Proof.
  intros Hz. unfold little_endian32. pose proof (Big.length_Bytes_le z 32 Hz).
  replace (32 <? zlen (Big.Bytes z)) with false by (unfold zlen; lia). by rewrite rev_Bytes_pad.
Qed.

(** Both EdDSA entry points start from the same SLIP-0010 key. *)
Lemma DeriveKeysFromMnemonic_EdDSA `{Bip39} Edwards S256 mnemonic mk :
  DeriveKeysFromMnemonic Edwards S256 mnemonic = Ret mk ->
  IsMnemonicValid mnemonic = true /\
  mk_EdDSAPrivKey mk = ed_scalar (slip10 (NewSeed mnemonic "")).1 /\
  mk_EdDSAChainCode mk = (slip10 (NewSeed mnemonic "")).2.
Proof.
  unfold DeriveKeysFromMnemonic. destruct (IsMnemonicValid mnemonic); [|done].
  intros ([[? ?] ?] & _ & HM)%go_bind_Ret. apply go_bind_Ret in HM as ([[x p] cc] & Hed%wrap_err_Ret & HM).
  apply Ret_inj in HM as <-. revert Hed. unfold deriveEdDSAKey.
  destruct (slip10 (NewSeed mnemonic "")) as [key cc'].
  intros (? & _ & HE)%go_bind_Ret. apply Ret_inj in HE. injection HE as Hx _ Hc.
  cbn [mk_EdDSAPrivKey mk_EdDSAChainCode fst snd]. by rewrite <- Hx, <- Hc.
Qed.

(** Both encodings of a 256-bit point are total. *)
Lemma compressPublicKey_total p : 0 <= p.1 < 2 ^ 256 -> exists b, compressPublicKey p = Ret b.
Proof.
  intros Hx. unfold compressPublicKey. eexists.
  exact (copy_Bytes_256 [if bit0 p.2 then x03 else x02] [] p.1 Hx).
Qed.

Section EdTotal.
Context (Edwards : EllipticCurve) (P : Z) `{!CurveLaws Edwards} `{!EdwardsLaws Edwards P}.

Lemma encode_total k : exists b, edwardsPointToEd25519PubKey (mulG Edwards k) = Ret b.
Proof.
  destruct (mulG_in_field (c := Edwards) (P := P) k) as [_ Hy]. pose proof (P_bits P).
  assert (Hb : 0 <= (mulG Edwards k).2 < 2 ^ 255) by lia.
  destruct (edwards_encoding (mulG Edwards k) Hb) as (b & _ & _ & ->). by eexists.
Qed.

Lemma ed_step_total z cc idx : ec_N Edwards <= 2 ^ 256 -> 0 <= z ->
  exists z' cc', ed_step Edwards (z, mulG Edwards z, cc) idx = Ret (z', mulG Edwards z', cc') /\ 0 <= z'.
Proof.
  intros HN Hz. unfold ed_step, compressEdwardsPubKey.
  destruct (compressPublicKey_total (mulG Edwards z)) as [b ->]; [apply mulG_coords|].
  cbn [mbind go_bind]. set (mac := Hmac.Sum512 cc (b ++ Binary.be_bytes 4 idx)).
  set (il := Binary.be_Z (take 32 mac) mod ec_N Edwards). pose proof (ec_N_pos (c := Edwards)).
  assert (Hil : 0 <= il < ec_N Edwards) by (apply Z.mod_pos_bound; lia).
  rewrite copy_Bytes_32 by lia. cbn [mbind go_bind].
  rewrite ScalarBaseMult_mulG, Binary.be_Z_be_bytes, (Z.mod_small il)
    by (change (256 ^ Z.of_nat 32) with (2 ^ 256); lia).
  do 2 eexists. rewrite mulG_add, mulG_mod. split; [reflexivity|]. apply Z.mod_pos_bound. lia.
Qed.

Lemma ed_fold_total idxs : ec_N Edwards <= 2 ^ 256 -> forall z cc, 0 <= z ->
  exists z' cc', go_foldM (ed_step Edwards) (z, mulG Edwards z, cc) idxs = Ret (z', mulG Edwards z', cc').
Proof.
  intros HN. induction idxs as [|i idxs IH]; intros z cc Hz; cbn [go_foldM]; [by do 2 eexists|].
  destruct (ed_step_total z cc i HN Hz) as (z1 & cc1 & -> & Hz1). cbn [mbind go_bind]. by apply IH.
Qed.

Lemma ed25519_public_total seed :
  exists b, ed25519_public Edwards seed = Ret b /\ decodeEd25519PubKey P b = Ret (mulG Edwards (ed_scalar seed)).
Proof.
  unfold ed25519_public. rewrite (ScalarBaseMult_Bytes Edwards) by apply ed_scalar_nonneg.
  destruct (encode_total (ed_scalar seed)) as [b Hb]. exists b. split; [exact Hb|].
  exact (decode_edwards P _ _ (mulG_in_field _) (mulG_on_edwards _) Hb).
Qed.

Lemma ed_at_path_total `{Bip39} mnemonic path l : ec_N Edwards <= 2 ^ 256 ->
  IsMnemonicValid mnemonic = true -> parseBIP32Path path = Ret l ->
  exists z cc b, ed_at_path Edwards P mnemonic path = Ret (z, b) /\
    go_foldM (ed_step Edwards) (ed_scalar (slip10 (NewSeed mnemonic "")).1,
      mulG Edwards (ed_scalar (slip10 (NewSeed mnemonic "")).1), (slip10 (NewSeed mnemonic "")).2) l
    = Ret (z, mulG Edwards z, cc) /\
    edwardsPointToEd25519PubKey (mulG Edwards z) = Ret b.
Proof.
  intros HN Hv Hl. unfold ed_at_path. rewrite Hv, Hl. cbn [negb wrap_err mbind go_bind].
  unfold deriveEdDSAMaster. destruct (slip10 (NewSeed mnemonic "")) as [key cc]. cbn [fst snd].
  destruct (ed25519_public_total key) as (mb & -> & Hdec). cbn [wrap_err mbind go_bind]. rewrite Hdec.
  cbn [mbind go_bind].
  destruct (ed_fold_total l HN (ed_scalar key) cc (ed_scalar_nonneg key)) as (z & cc' & Hf). rewrite Hf.
  cbn [mbind go_bind]. unfold edwardsToEd25519PubKey. destruct (encode_total z) as [b Hb]. rewrite Hb.
  by exists z, cc', b.
Qed.
End EdTotal.

(** The same for Solana keys, where the recovery is total. The installer
    recomputes a derived ed25519 key from the mnemonic with curve arithmetic of
    its own, starting from a point it decodes from the 32-byte public key. For
    every mnemonic whose keys were dealt and every path the parties accept, this
    succeeds with a scalar and a public key, a party holding a valid share of the
    mnemonic's master scalar derives exactly that public key, its child share is
    a share of that scalar, and the address is the one [ExportSolanaKeyAtPath]
    prints. *)
Theorem mnemonic_recovers_EdDSA `{Unicode} `{Bip39} `{AddressLibs} {aux}
    `{Codec (SaveData aux)} `{Codec (SaveData unit)}
    S256 Edwards P `{!CurveLaws Edwards} `{!EdwardsLaws Edwards P} `{!SaveCodecLaws Edwards unit}
    mnemonic path mk coeffs ids k ks l :
  ec_N Edwards <= 2 ^ 256 ->
  DeriveKeysFromMnemonic Edwards S256 mnemonic = Ret mk ->
  valid_share Edwards (aux := unit) coeffs (mk_EdDSAPrivKey mk) ids k (ks_Share ks) ->
  ks_Curve ks = CurveEd25519 -> ks_ChainCode ks = mk_EdDSAChainCode mk ->
  parsePath path = Ret l -> l <> [] ->
  exists scalar pubKey dk,
    deriveScalarAtPath Edwards P mnemonic path = Ret (scalar, pubKey) /\
    DeriveKey (aux := aux) S256 Edwards ks path = Ret dk /\ dk_PublicKey dk = pubKey /\
    edwardsPointToEd25519PubKey (mulG Edwards scalar) = Ret pubKey /\
    valid_share Edwards (aux := unit) coeffs scalar ids k (dk_Share dk) /\
    ExportSolanaKeyAtPath Edwards P mnemonic path
      = Ret {| ex_Path := path; ex_PrivKeyHex := base58_Encode (Binary.le_bytes 32 scalar ++ pubKey);
               ex_Address := base58_Encode pubKey |}.
Proof.
  intros HN HM (save & Hu & Hp & Hk & Hi & Hx & HB) HC Hch Hl Hne.
  apply DeriveKeysFromMnemonic_EdDSA in HM as (Hv & Hd & Hcc). rewrite Hd in *. rewrite Hcc in Hch.
  destruct (ed_at_path_total Edwards P mnemonic path l HN Hv (parseBIP32Path_agrees path l Hl Hne))
    as (scalar & cc' & pubKey & HS & Hf & Hpk).
  set (key := (slip10 (NewSeed mnemonic "")).1) in *. set (cc := (slip10 (NewSeed mnemonic "")).2) in *.
  clearbody key cc. pose proof (ed_scalar_nonneg key) as Hnn.
  assert (HR : ed_recovers Edwards coeffs ids k (ed_scalar key, mulG Edwards (ed_scalar key), cc)
                 (init_state Edwards (ks_ChainCode ks) save (mulG Edwards (ed_scalar key)))).
  { split; [done|]. split; [done|]. split; [done|]. repeat (split; [done|]). split; by apply init_bigX_ok. }
  destruct (ed_fold_derives Edwards coeffs ids k l HN _ _ _ HR Hf) as (s' & Hs' & _ & _ & _ & HI').
  pose proof (ed_fold_reduced Edwards l _ _ Hne Hf) as Hz. cbn [fst] in Hz.
  destruct (derive_with_runs Edwards (deriveEdDSA_step Edwards) edwardsPointToEd25519PubKey coeffs
              (ed_scalar key) ids k ks save path l s' scalar pubKey Hu Hp Hk Hi Hs' HI'
              (mulG_IsOnCurve (P := P) scalar) Hpk) as (dk & Hdk & Hpk' & Hvs).
  exists scalar, pubKey, dk. split; [exact HS|]. split.
  { unfold DeriveKey. rewrite Hl, HC. cbn [cause mbind go_bind].
    rewrite bool_decide_eq_false_2 by discriminate. by rewrite bool_decide_eq_true_2. }
  split; [done|]. split; [done|]. split; [done|].
  unfold ExportSolanaKeyAtPath. rewrite HS. cbn [mbind go_bind]. by rewrite little_endian32_spec by lia.
Qed.

(** Deriving the keys of a valid mnemonic fails only with its ECDSA part. *)
Lemma DeriveKeysFromMnemonic_total `{Bip39} Edwards P S256 `{!CurveLaws Edwards} `{!EdwardsLaws Edwards P}
    mnemonic x :
  IsMnemonicValid mnemonic = true -> deriveECDSAKey S256 (NewSeed mnemonic "") = Ret x ->
  exists mk, DeriveKeysFromMnemonic Edwards S256 mnemonic = Ret mk.
Proof.
  intros Hv. destruct x as [[d pub] cc]. unfold DeriveKeysFromMnemonic. intros Hx. rewrite Hv, Hx.
  cbn [negb wrap_err mbind go_bind]. unfold deriveEdDSAKey.
  destruct (slip10 (NewSeed mnemonic "")) as [key ecc].
  destruct (ed25519_public_total Edwards P key) as (b & -> & _). by eexists.
Qed.

(** ** The raw-scalar signature *)

Section SmulFacts.
Context (c : EllipticCurve) `{!CurveLaws c}.

(** [k] times a point, by doubling; the base point's zero multiple for [k <= 0]. *)
Definition smul (k : Z) (A : point) : point :=
  match k with Zpos p => Pos.iter_op (Add c) p A | _ => ScalarBaseMult c [] end.

Lemma smul_mulG k a : 0 <= k -> smul k (mulG c a) = mulG c (k * a).
Proof.
  destruct k as [|p|p]; [intros _; exact (ScalarBaseMult_mulG [])| |lia].
  intros _. cbn [smul]. revert a. induction p as [p IH|p IH|]; intros a; cbn [Pos.iter_op].
  - rewrite mulG_add, IH, mulG_add. f_equal. lia.
  - rewrite mulG_add, IH. f_equal. lia.
  - f_equal. lia.
Qed.
End SmulFacts.

(** RFC 8032 verification of [sig] = R || S: S is canonical and
    S*B = R + k*A with k = SHA-512(R || A || M). *)
Definition ed25519_verifies (c : EllipticCurve) `{CurveLaws c} (pubKey message sig : bytes) : Prop :=
  exists A R : point,
    edwardsPointToEd25519PubKey A = Ret pubKey /\ edwardsPointToEd25519PubKey R = Ret (take 32 sig) /\
    length sig = 64%nat /\ Binary.le_Z (drop 32 sig) < ec_N c /\
    mulG c (Binary.le_Z (drop 32 sig))
      = Add c R (smul c (Binary.le_Z (Sha512.Sum512 (take 32 sig ++ pubKey ++ message))) A).

(** What edwards25519 documents of its scalars and points. *)
Class Edwards25519Laws `{Edwards25519} (c : EllipticCurve) `{CurveLaws c} := {
  value : Scalar -> Z;
  group_order : ec_N c = ed_order;
  value_range s : 0 <= value s < ed_order;
  canonical_value b : length b = 32%nat -> Binary.le_Z b < ed_order ->
    exists s, SetCanonicalBytes b = Ret s /\ value s = Binary.le_Z b;
  uniform_value b : length b = 64%nat ->
    exists s, SetUniformBytes b = Ret s /\ value s = Binary.le_Z b mod ed_order;
  multiply_add_value k s r : value (MultiplyAdd k s r) = (value k * value s + value r) mod ed_order;
  scalar_bytes s : Scalar_Bytes s = Binary.le_bytes 32 (value s);
  point_bytes s : edwardsPointToEd25519PubKey (mulG c (value s)) = Ret (Point_Bytes (Point_ScalarBaseMult s));
}.

Lemma length_ed25519 p b : edwardsPointToEd25519PubKey p = Ret b -> length b = 32%nat.
Proof.
  unfold edwardsPointToEd25519PubKey. destruct (32 <? zlen (Big.Bytes p.2)) eqn:Hl; [done|].
  assert (Hlen : length (rev (Big.Bytes p.2) ++ repeat x00 (32 - length (Big.Bytes p.2))) = 32%nat).
  { unfold zlen in Hl. rewrite length_app, length_rev, List.repeat_length. lia. }
  intros E. apply Ret_inj in E as <-. destruct (bit0 p.1); [|done].
  rewrite length_app, length_take, Hlen. done.
Qed.

Lemma ed_order_bound : ed_order < 2 ^ 256.
Proof. reflexivity. Qed.

Lemma signature_equation (c : EllipticCurve) `{!CurveLaws c} k s r h a n : 1 < n -> ec_N c = n ->
  k = h mod n -> s = a mod n -> 0 <= h ->
  mulG c ((k * s + r) mod n) = Add c (mulG c r) (smul c h (mulG c a)).
Proof.
  intros Hn HN -> -> Hh. rewrite smul_mulG, mulG_add by done. apply mulG_cong. rewrite HN, Zmod_mod.
  rewrite <- Zplus_mod_idemp_l, Zmult_mod_idemp_l, Zmult_mod_idemp_r, Zplus_mod_idemp_l. f_equal. lia.
Qed.

(** C24: Signing with the scalar itself, as the installer does when it sweeps a
    recovered address, always succeeds and gives a 64-byte signature that
    satisfies the ed25519 verification equation under the scalar's public key,
    for any scalar (reduced or not) and any message: the local verification
    before broadcasting can not fail. *)
Theorem signEd25519WithScalar_verifies `{Edwards25519} c `{!CurveLaws c} `{!Edwards25519Laws c}
    scalar pubKey message :
  edwardsPointToEd25519PubKey (mulG c scalar) = Ret pubKey ->
  exists sig, signEd25519WithScalar scalar pubKey message = Ret sig /\ ed25519_verifies c pubKey message sig.
Proof.
  intros Hpub. pose proof ed_order_bound.
  assert (Hr : 0 <= scalar mod ed_order < ed_order) by (apply Z.mod_pos_bound; reflexivity).
  unfold signEd25519WithScalar. rewrite little_endian32_spec by lia. cbn [mbind go_bind].
  destruct (canonical_value (Binary.le_bytes 32 (scalar mod ed_order))) as (s & -> & Hs);
    [by rewrite Binary.length_le_bytes|rewrite Binary.le_Z_le_bytes, Z.mod_small; [lia|] |].
  { change (256 ^ Z.of_nat 32) with (2 ^ 256). lia. }
  rewrite Binary.le_Z_le_bytes, Z.mod_small in Hs by (change (256 ^ Z.of_nat 32) with (2 ^ 256); lia).
  cbn [wrap_err mbind go_bind].
  destruct (uniform_value (Sha512.Sum512 (Binary.le_bytes 32 (scalar mod ed_order) ++ message)))
    as (r & -> & _); [apply length_Sum512|]. cbn [wrap_err mbind go_bind].
  pose proof (point_bytes r) as HR. pose proof (length_ed25519 _ _ HR) as HRl.
  set (Rb := Point_Bytes (Point_ScalarBaseMult r)) in *.
  destruct (uniform_value (Sha512.Sum512 (Rb ++ pubKey ++ message))) as (k & -> & Hk); [apply length_Sum512|].
  cbn [wrap_err mbind go_bind]. eexists. split; [reflexivity|].
  pose proof (value_range (MultiplyAdd k s r)) as Hm.
  rewrite scalar_bytes, HRl, Binary.length_le_bytes. cbn [repeat Nat.sub].
  rewrite (take_ge Rb) by lia. rewrite (take_ge (Binary.le_bytes _ _)) by (by rewrite Binary.length_le_bytes).
  rewrite !app_nil_r. cbn [app].
  exists (mulG c scalar), (mulG c (value r)).
  rewrite take_app_length', drop_app_length' by done.
  split; [done|]. split; [done|]. split; [by rewrite length_app, HRl, Binary.length_le_bytes|].
  rewrite Binary.le_Z_le_bytes, Z.mod_small by (change (256 ^ Z.of_nat 32) with (2 ^ 256); lia).
  split; [rewrite group_order; lia|]. rewrite multiply_add_value.
  eapply signature_equation; [reflexivity|exact group_order|exact Hk|exact Hs|apply Binary.le_Z_bound].
Qed.

(** ** Witnesses *)

(** A party's share of any master secret, and its encoding. *)
Lemma share_exists (c : EllipticCurve) `{!CurveLaws c} `{Codec (SaveData unit)} `{!SaveCodecLaws c unit} d k :
  IsOnCurve c (mulG c d) = true ->
  exists b, valid_share c (aux := unit) [] d [k] k b.
Proof.
  intros Hon. set (save := {| sd_aux := tt; Xi := d; ShareID := k; Ks := [k];
    BigXj := [Some (mulG c d)]; Pub := Some (mulG c d) |}).
  assert (Hrep : representable save).
  { apply (save_representable c). split; [by intros p [= <-]|]. repeat constructor. by intros p [= <-]. }
  destruct (Marshal_total save Hrep) as [b Hb]. exists b, save.
  split; [by eapply Unmarshal_Marshal|]. repeat (split; [done|]). split.
  - unfold is_share. cbn. by rewrite Z.add_0_r.
  - constructor; [|constructor]. intros p [= <-]. split; [|done]. f_equal. cbn. lia.
Qed.

Module ToyMnemonic.
#[export] Instance bip39 : Bip39 := {|
  IsMnemonicValid := fun m => negb (bool_decide (m = "")); NewSeed := fun m p => bytes_of (m +:+ p) |}.
#[export] Instance addresses : AddressLibs := {|
  base58_Encode := string_of; PubkeyToAddress_Hex := fun p => Strconv.Itoa p.1;
  cosmos_Address := fun b => Ret b; bech32_Encode := fun prefix b => Ret (prefix +:+ string_of b) |}.
Definition mnemonic : string := "abandon ability able".

(** secp256k1 replaced by the integers modulo its order. *)
Definition master : Z * bytes * bytes :=
  Eval vm_compute in match deriveECDSAKey Toy.curve (NewSeed mnemonic "") with
                     | Ret x => x | _ => (0, [], []) end.
Lemma master_eq : deriveECDSAKey Toy.curve (NewSeed mnemonic "") = Ret master.
Proof. vm_compute. reflexivity. Qed.
(* The other examples share these evaluations: hashing is most of their cost. *)
Definition slip10_key : bytes * bytes := Eval vm_compute in slip10 (NewSeed mnemonic "").
Lemma slip10_eq : slip10 (NewSeed mnemonic "") = slip10_key.
Proof. vm_compute. reflexivity. Qed.
Definition keys : MnemonicKeys :=
  Eval vm_compute in match DeriveKeysFromMnemonic Small.curve Toy.curve mnemonic with
                     | Ret k => k
                     | _ => {| mk_Mnemonic := ""; mk_ECDSAPrivKey := 0; mk_ECDSAPubKey := []; mk_ECDSAChainCode := [];
                               mk_EdDSAPrivKey := 0; mk_EdDSAPubKey := []; mk_EdDSAChainCode := [] |} end.
Lemma keys_eq : DeriveKeysFromMnemonic Small.curve Toy.curve mnemonic = Ret keys.
Proof.
  unfold DeriveKeysFromMnemonic, deriveEdDSAKey. rewrite master_eq, slip10_eq. vm_compute. reflexivity.
Qed.
Definition sol_scalar : Z * bytes :=
  Eval vm_compute in match deriveScalarAtPath Small.curve Small.p mnemonic "m/0" with Ret x => x | _ => (0, []) end.
Lemma sol_scalar_eq : deriveScalarAtPath Small.curve Small.p mnemonic "m/0" = Ret sol_scalar.
Proof.
  unfold deriveScalarAtPath, ed_at_path, deriveEdDSAMaster. rewrite slip10_eq. vm_compute. reflexivity.
Qed.
Definition path : string := "m/44'/60'".
Definition exported : DerivedKeyExport :=
  Eval vm_compute in match DeriveECDSAKeyTSS Toy.curve mnemonic path [] with
                     | Ret x => x | _ => {| ex_Path := ""; ex_PrivKeyHex := ""; ex_Address := "" |} end.

Lemma exported_eq : DeriveECDSAKeyTSS Toy.curve mnemonic path [] = Ret exported.
Proof.
  unfold DeriveECDSAKeyTSS. rewrite (deriveECDSAKey_Ret Toy.curve _ master.1.1 master.1.2 master.2 master_eq). vm_compute. reflexivity.
Qed.

(** edwards25519 over the integers modulo the order of the base point. *)
Definition line : EllipticCurve := {|
  ec_N := ed_order; IsOnCurve := fun _ => true;
  Add := fun p q => (0, (p.2 + q.2) mod ed_order);
  ScalarBaseMult := fun b => (0, Binary.be_Z b mod ed_order) |}.
Lemma ed_order_mod_bound k : 0 <= k mod ed_order < ed_order.
Proof. apply Z.mod_pos_bound. reflexivity. Qed.
#[export] Instance line_laws : CurveLaws line.
Proof.
  refine {| mulG := fun k => (0, k mod ed_order) : point |}; cbn [line ec_N IsOnCurve Add ScalarBaseMult fst snd].
  - reflexivity.
  - reflexivity.
  - intros k. by rewrite Zmod_mod.
  - intros j k. by rewrite <- Zplus_mod.
  - done.
  - intros k. pose proof (ed_order_mod_bound k). pose proof ed_order_bound. lia.
Defined.
Definition point_of (s : Z) : bytes :=
  match edwardsPointToEd25519PubKey (0, s mod ed_order) with Ret b => b | _ => [] end.
#[export] Instance edwards25519 : Edwards25519 := {|
  Scalar := Z; Point := Z;
  SetCanonicalBytes := fun b => if (zlen b =? 32) && (Binary.le_Z b <? ed_order)
                                then Ret (Binary.le_Z b) else Err "invalid scalar encoding";
  SetUniformBytes := fun b => if zlen b =? 64 then Ret (Binary.le_Z b mod ed_order)
                              else Err "invalid SetUniformBytes input length";
  MultiplyAdd := fun k s r => (k * s + r) mod ed_order;
  Scalar_Bytes := fun s => Binary.le_bytes 32 (s mod ed_order);
  Point_ScalarBaseMult := fun s => s; Point_Bytes := point_of |}.
#[export] Instance edwards25519_laws : Edwards25519Laws line.
Proof.
  refine {| value := (fun s => s mod ed_order) : @Scalar edwards25519 -> Z |}; cbn [edwards25519 SetCanonicalBytes SetUniformBytes
    MultiplyAdd Scalar_Bytes Point_ScalarBaseMult Point_Bytes].
  - reflexivity.
  - apply ed_order_mod_bound.
  - intros b Hl Hb. exists (Binary.le_Z b).
    replace (_ && _) with true by (symmetry; unfold zlen; rewrite Hl; lia).
    split; [done|]. apply Z.mod_small. pose proof (Binary.le_Z_bound b). lia.
  - intros b Hl. exists (Binary.le_Z b mod ed_order).
    replace (zlen b =? 64) with true by (unfold zlen; by rewrite Hl). split; [done|]. apply Zmod_mod.
  - intros k s r. change (((k * s + r) mod ed_order) mod ed_order
      = ((k mod ed_order) * (s mod ed_order) + r mod ed_order) mod ed_order).
    by rewrite Zmod_mod, (Zplus_mod (k * s)), (Zmult_mod k s), Zplus_mod_idemp_l.
  - reflexivity.
  - intros s. change (edwardsPointToEd25519PubKey (0, (s mod ed_order) mod ed_order) = Ret (point_of s)).
    rewrite Zmod_mod. unfold point_of. pose proof (ed_order_mod_bound s) as Hb.
    destruct (edwards_encoding (0, s mod ed_order)) as (b & _ & _ & Henc); [|by rewrite Henc].
    assert (ed_order < 2 ^ 255) by reflexivity. cbn [snd]. lia.
Defined.
End ToyMnemonic.
#[local] Existing Instances Toy.unicode Toy.toy_save_codec Toy.curve_laws Toy.save_codec_laws.
#[local] Instance small_codec_laws : SaveCodecLaws Small.curve unit.
Proof. split; [apply CountableCodec.codec_laws|done]. Qed.
#[local] Existing Instances ToyMnemonic.bip39 ToyMnemonic.addresses ToyMnemonic.line_laws
  ToyMnemonic.edwards25519 ToyMnemonic.edwards25519_laws.

Lemma signEd25519WithScalar_verifies_witness :
  exists sig, signEd25519WithScalar (2 ^ 254 + 8) (ToyMnemonic.point_of (2 ^ 254 + 8)) (bytes_of "sweep") = Ret sig /\
    ed25519_verifies ToyMnemonic.line (ToyMnemonic.point_of (2 ^ 254 + 8)) (bytes_of "sweep") sig.
Proof.
  apply (signEd25519WithScalar_verifies ToyMnemonic.line (2 ^ 254 + 8)). vm_compute. reflexivity.
Defined.

Lemma mnemonic_recovers_ECDSA_witness :
  exists b dk key,
    DeriveECDSAKeyTSS Toy.curve ToyMnemonic.mnemonic ToyMnemonic.path [] = Ret ToyMnemonic.exported /\
    DeriveKey (aux := unit) Toy.curve Toy.curve
      {| ks_Curve := CurveSecp256k1; ks_PartyID := party_a; ks_Share := b; ks_PublicKey := [];
         ks_ChainCode := ToyMnemonic.master.2 |} ToyMnemonic.path = Ret dk /\
    0 < key < Toy.order /\ ex_PrivKeyHex ToyMnemonic.exported = Hex.EncodeToString (Binary.be_bytes 32 key) /\
    uncompressed (mulG Toy.curve key) = Ret (dk_PublicKey dk).
Proof.
  destruct (share_exists Toy.curve ToyMnemonic.master.1.1 5) as [b Hb]; [reflexivity|]. exists b.
  pose proof ToyMnemonic.exported_eq as HE.
  destruct (mnemonic_recovers_ECDSA (aux := unit) Toy.curve Toy.curve ToyMnemonic.mnemonic ToyMnemonic.path []
    ToyMnemonic.exported ToyMnemonic.master.1.1 ToyMnemonic.master.1.2 ToyMnemonic.master.2 [] [5] 5
    {| ks_Curve := CurveSecp256k1; ks_PartyID := party_a; ks_Share := b; ks_PublicKey := [];
       ks_ChainCode := ToyMnemonic.master.2 |} [2147483692; 2147483708])
    as (dk & key & HD & Hk & Hhex & Hpk & _);
    [discriminate|exact ToyMnemonic.master_eq|exact Hb|reflexivity|reflexivity|reflexivity|discriminate|exact HE|].
  exists dk, key. split; [exact HE|]. split; [exact HD|]. split; [exact Hk|]. split; [exact Hhex|exact Hpk].
Defined.

Lemma mnemonic_recovers_EdDSA_witness :
  exists mk b scalar pubKey dk,
    DeriveKeysFromMnemonic Small.curve Toy.curve ToyMnemonic.mnemonic = Ret mk /\
    deriveScalarAtPath Small.curve Small.p ToyMnemonic.mnemonic "m/0" = Ret (scalar, pubKey) /\
    DeriveKey (aux := unit) Toy.curve Small.curve
      {| ks_Curve := CurveEd25519; ks_PartyID := party_a; ks_Share := b; ks_PublicKey := [];
         ks_ChainCode := mk_EdDSAChainCode mk |} "m/0" = Ret dk /\ dk_PublicKey dk = pubKey.
Proof.
  destruct (DeriveKeysFromMnemonic_total Small.curve Small.p Toy.curve ToyMnemonic.mnemonic ToyMnemonic.master)
    as [mk Hmk]; [reflexivity|exact ToyMnemonic.master_eq|].
  destruct (share_exists Small.curve (mk_EdDSAPrivKey mk) 5) as [b Hb]; [apply (mulG_IsOnCurve (P := Small.p))|].
  destruct (mnemonic_recovers_EdDSA (aux := unit) Toy.curve Small.curve Small.p ToyMnemonic.mnemonic "m/0"
    mk [] [5] 5
    {| ks_Curve := CurveEd25519; ks_PartyID := party_a; ks_Share := b; ks_PublicKey := [];
       ks_ChainCode := mk_EdDSAChainCode mk |} [0])
    as (scalar & pubKey & dk & HS & HD & Hpk & _);
    [discriminate|exact Hmk|exact Hb|reflexivity|reflexivity|reflexivity|discriminate|].
  exists mk, b, scalar, pubKey, dk. split; [exact Hmk|]. split; [exact HS|]. split; [exact HD|exact Hpk].
Defined.
