(* ===== verification/Wizard.v ===== *)
(** * Wizard: the installer's state (cmd/installer: state.go, and ssh.go's configuration)

    [WizardState] and its methods, JSON responses, the pre-parameter generation
    that runs in the background from start-up, and what the installer's goroutines
    share. Each critical section of the state's mutex is one function on it. *)
From S2P Require Import Prelude GoStd Codec Crypto Protocol Transport Tss Vm EdwardsPoint Mnemonic.
Local Open Scope Z_scope.
Local Open Scope go_scope.

(** JSON documents. *)
Inductive jv :=
| jnull | jbool (b : bool) | jnum (n : Z) | jstr (s : string)
| jarr (l : list jv) | jobj (fields : list (string * jv)).
Definition Response : Type := Z * jv.
Definition writeJSON (status : Z) (v : jv) : Response := (status, v).
Definition writeError (status : Z) (msg : string) : Response := writeJSON status (jobj [("error", jstr msg)]).
Definition ok_status : Response := writeJSON 200 (jobj [("status", jstr "ok")]).
(** A request body the decoder refused. *)
Definition invalid_body (e : string) : Response := writeError 400 ("invalid request body: " +:+ e).

(** ** SSH (ssh.go) *)
Record SSHConfig := { ssh_Host : string; ssh_Port : Z; ssh_User : string; ssh_Password : string; ssh_KeyPath : string }.
Definition no_server : SSHConfig := {| ssh_Host := ""; ssh_Port := 0; ssh_User := ""; ssh_Password := ""; ssh_KeyPath := "" |}.
Definition local_server : SSHConfig :=
  {| ssh_Host := "127.0.0.1"; ssh_Port := 22; ssh_User := "local"; ssh_Password := ""; ssh_KeyPath := "" |}.
Definition Addr (c : SSHConfig) : string :=
  Net.JoinHostPort (ssh_Host c) (Strconv.Itoa (if ssh_Port c =? 0 then 22 else ssh_Port c)).

(** ** The state (state.go), its fields in groups *)
Section State.
Context {preParams : Type}.

Record Servers := {
  ServerA : SSHConfig; ServerB : SSHConfig; LocalMode : bool; PartyAAddr : string; TransportPort : Z }.
Record Certs := { CACert : bytes; CAKey : bytes; CertA : bytes; KeyA : bytes; CertB : bytes; KeyB : bytes }.
Record Keys := {
  k_Mnemonic : string; ECDSAPubKey : string; EdDSAPubKey : string;
  ShareA : option KeyShare; ShareB : option KeyShare; EdShareA : option KeyShare; EdShareB : option KeyShare }.
Record LLM := {
  LLMProvider : string; LLMAPIKey : string; LLMModel : string; LLMEndpoint : string; DisableAI : bool }.
Record Telegram := { TelegramBotToken : string; TelegramBotUsername : string; TelegramUserID : Z }.
Record Deployment := { DeployLogs : list string; DeployDone : bool; DeployFailed : bool }.
(** [preParamReady]: the nil channel, open or closed. *)
Inductive ready := NotStarted | Generating | Ready.
Record PreParams := {
  preParamA : option preParams; preParamB : option preParams; preParamReady : ready; preParamErr : option string }.
Record WizardState := mkWizard {
  Step : string; Mode : string; servers : Servers; certs : Certs; keys : Keys; llm : LLM; telegram : Telegram;
  deployment : Deployment; pre : PreParams }.

Definition set_step (s : WizardState) (step : string) : WizardState :=
  mkWizard step (Mode s) (servers s) (certs s) (keys s) (llm s) (telegram s) (deployment s) (pre s).
Definition set_mode (s : WizardState) (mode : string) : WizardState :=
  mkWizard (Step s) mode (servers s) (certs s) (keys s) (llm s) (telegram s) (deployment s) (pre s).
Definition set_servers (s : WizardState) (x : Servers) : WizardState :=
  mkWizard (Step s) (Mode s) x (certs s) (keys s) (llm s) (telegram s) (deployment s) (pre s).
Definition set_certs (s : WizardState) (x : Certs) : WizardState :=
  mkWizard (Step s) (Mode s) (servers s) x (keys s) (llm s) (telegram s) (deployment s) (pre s).
Definition set_keys (s : WizardState) (x : Keys) : WizardState :=
  mkWizard (Step s) (Mode s) (servers s) (certs s) x (llm s) (telegram s) (deployment s) (pre s).
Definition set_llm (s : WizardState) (x : LLM) : WizardState :=
  mkWizard (Step s) (Mode s) (servers s) (certs s) (keys s) x (telegram s) (deployment s) (pre s).
Definition set_telegram (s : WizardState) (x : Telegram) : WizardState :=
  mkWizard (Step s) (Mode s) (servers s) (certs s) (keys s) (llm s) x (deployment s) (pre s).
Definition set_deployment (s : WizardState) (x : Deployment) : WizardState :=
  mkWizard (Step s) (Mode s) (servers s) (certs s) (keys s) (llm s) (telegram s) x (pre s).
Definition set_pre (s : WizardState) (x : PreParams) : WizardState :=
  mkWizard (Step s) (Mode s) (servers s) (certs s) (keys s) (llm s) (telegram s) (deployment s) x.

Definition new_state : WizardState := mkWizard "" ""
  {| ServerA := no_server; ServerB := no_server; LocalMode := false; PartyAAddr := ""; TransportPort := 0 |}
  {| CACert := []; CAKey := []; CertA := []; KeyA := []; CertB := []; KeyB := [] |}
  {| k_Mnemonic := ""; ECDSAPubKey := ""; EdDSAPubKey := "";
     ShareA := None; ShareB := None; EdShareA := None; EdShareB := None |}
  {| LLMProvider := ""; LLMAPIKey := ""; LLMModel := ""; LLMEndpoint := ""; DisableAI := false |}
  {| TelegramBotToken := ""; TelegramBotUsername := ""; TelegramUserID := 0 |}
  {| DeployLogs := []; DeployDone := false; DeployFailed := false |}
  {| preParamA := None; preParamB := None; preParamReady := NotStarted; preParamErr := None |}.

Definition GetTransportPort (s : WizardState) : Z :=
  if TransportPort (servers s) <=? 0 then 443 else TransportPort (servers s).

Definition nonempty (s : string) : bool := negb (bool_decide (s = "")).
Definition server_json (c : SSHConfig) : jv := jobj [
  ("host", jstr (ssh_Host c)); ("port", jnum (ssh_Port c)); ("user", jstr (ssh_User c));
  ("hasKey", jbool (nonempty (ssh_KeyPath c))); ("hasPassword", jbool (nonempty (ssh_Password c)))].
Definition is_some {A} (o : option A) : bool := match o with Some _ => true | None => false end.
Definition SanitizedState (s : WizardState) : jv := jobj [
  ("step", jstr (Step s)); ("mode", jstr (Mode s)); ("localMode", jbool (LocalMode (servers s)));
  ("serverA", server_json (ServerA (servers s))); ("serverB", server_json (ServerB (servers s)));
  ("certsGenerated", jbool (0 <? zlen (CACert (certs s))));
  ("ecdsaPubKey", jstr (ECDSAPubKey (keys s))); ("eddsaPubKey", jstr (EdDSAPubKey (keys s)));
  ("dkgComplete", jbool (is_some (ShareA (keys s)) && is_some (ShareB (keys s))));
  ("mnemonicGenerated", jbool (nonempty (k_Mnemonic (keys s))));
  ("llmProvider", jstr (LLMProvider (llm s))); ("llmModel", jstr (LLMModel (llm s)));
  ("llmEndpoint", jstr (LLMEndpoint (llm s)));
  ("llmConfigured", jbool (nonempty (LLMProvider (llm s)) || DisableAI (llm s)));
  ("disableAI", jbool (DisableAI (llm s)));
  ("telegramConfigured", jbool (nonempty (TelegramBotToken (telegram s))));
  ("telegramBotUsername", jstr (TelegramBotUsername (telegram s)));
  ("telegramUserId", jnum (TelegramUserID (telegram s)));
  ("deployDone", jbool (DeployDone (deployment s))); ("partyAAddr", jstr (PartyAAddr (servers s)));
  ("transportPort", jnum (GetTransportPort s))].

(** Both read the public key of the first share, whose pointer may be nil. *)
Definition SetECDSAKeys (s : WizardState) (shareA shareB : KeyShare) : WizardState :=
  let k := keys s in
  set_keys s {| k_Mnemonic := k_Mnemonic k; ECDSAPubKey := Hex.EncodeToString (ks_PublicKey shareA);
                EdDSAPubKey := EdDSAPubKey k; ShareA := Some shareA; ShareB := Some shareB;
                EdShareA := EdShareA k; EdShareB := EdShareB k |}.
Definition SetEdDSAKeys (s : WizardState) (shareA shareB : KeyShare) : WizardState :=
  let k := keys s in
  set_keys s {| k_Mnemonic := k_Mnemonic k; ECDSAPubKey := ECDSAPubKey k;
                EdDSAPubKey := Hex.EncodeToString (ks_PublicKey shareA); ShareA := ShareA k; ShareB := ShareB k;
                EdShareA := Some shareA; EdShareB := Some shareB |}.

Definition AppendLog (s : WizardState) (msg : string) : WizardState :=
  set_deployment s {| DeployLogs := DeployLogs (deployment s) ++ [msg]; DeployDone := DeployDone (deployment s);
                      DeployFailed := DeployFailed (deployment s) |}.
Definition DrainLogs (s : WizardState) : WizardState * list string :=
  (set_deployment s {| DeployLogs := []; DeployDone := DeployDone (deployment s);
                       DeployFailed := DeployFailed (deployment s) |}, DeployLogs (deployment s)).

(** *** Pre-parameters *)

Definition set_ready (p : PreParams) (r : ready) : PreParams :=
  {| preParamA := preParamA p; preParamB := preParamB p; preParamReady := r; preParamErr := preParamErr p |}.
(** [close] panics on a closed channel, and on a nil one. *)
Definition close_ready (p : PreParams) : go PreParams :=
  match preParamReady p with Generating => Ret (set_ready p Ready) | _ => Panic end.
(** The foreground part; the goroutine ends in [generation_done] with what the
    two generations returned, and closes the channel in a deferred call. *)
Definition StartPreParamGeneration (s : WizardState) : WizardState := set_pre s (set_ready (pre s) Generating).
Definition generation_done (s : WizardState) (a b : go preParams) : go WizardState :=
  let p := pre s in
  let p := match a, b with
           | Ret ppA, Ret ppB => {| preParamA := Some ppA; preParamB := Some ppB; preParamReady := preParamReady p;
                                    preParamErr := preParamErr p |}
           | Err e, _ => {| preParamA := preParamA p; preParamB := preParamB p; preParamReady := preParamReady p;
                            preParamErr := Some e |}
           | _, Err e => {| preParamA := preParamA p; preParamB := preParamB p; preParamReady := preParamReady p;
                            preParamErr := Some e |}
           | _, _ => p
           end in
  p ← close_ready p; Ret (set_pre s p).
Definition InjectPreParams (s : WizardState) (a b : option preParams) : WizardState :=
  let p := {| preParamA := a; preParamB := b; preParamReady := preParamReady (pre s); preParamErr := preParamErr (pre s) |} in
  set_pre s (match preParamReady p with Generating => set_ready p Ready | _ => p end).
(** The first critical section of [WaitPreParams]: both are there already. *)
Definition precomputed (s : WizardState) : option (option preParams * option preParams) :=
  if is_some (preParamA (pre s)) && is_some (preParamB (pre s)) then Some (preParamA (pre s), preParamB (pre s)) else None.
(** Receiving from [preParamReady] does not block. *)
Definition ready_to_receive (s : WizardState) : bool := match preParamReady (pre s) with Ready => true | _ => false end.

(** *** What the goroutines share

    The state, whether its mutex [mu] is held across several calls, and the
    mutexes of the two handlers that start a deployment. *)
Record Shared := { wizard : WizardState; mu : bool; deploying : bool; updating : bool }.
Definition with_wizard (s : Shared) (w : WizardState) : Shared :=
  {| wizard := w; mu := mu s; deploying := deploying s; updating := updating s |}.
Definition with_mu (s : Shared) (b : bool) : Shared :=
  {| wizard := wizard s; mu := b; deploying := deploying s; updating := updating s |}.
Definition with_deploying (s : Shared) (b : bool) : Shared :=
  {| wizard := wizard s; mu := mu s; deploying := b; updating := updating s |}.
Definition with_updating (s : Shared) (b : bool) : Shared :=
  {| wizard := wizard s; mu := mu s; deploying := deploying s; updating := b |}.
End State.
Arguments WizardState preParams : clear implicits.
Arguments PreParams preParams : clear implicits.
Arguments Shared preParams : clear implicits.
