(* ===== verification/Effects.v ===== *)
(** * Effects: the installer's goroutines and their environment

    The installer's code runs shell commands, reads and writes files, talks to
    servers over SSH and HTTP and to databases, and shares one state between
    handlers. Such code is a tree of calls to its environment: [Do e k] asks for
    [e] and continues with the answer. [exec] runs a tree while other goroutines
    change the shared state between its calls; [safe] is a proof rule for what
    every execution calls, sound by [safe_sound]. *)
From S2P Require Import Prelude GoStd Codec Transport Tss Wizard.
Local Open Scope Z_scope.

(** An SSH client: what it was dialed with. *)
Record SSHClient := { cl_Addr : string; cl_User : string }.
(** An authentication method: a private key file's contents, or a password. *)
Inductive auth := KeyAuth (key : bytes) | PasswordAuth (password : string).
(** What an upload through a session's standard input ended in: where it failed. *)
Inductive upload := Uploaded | PipeErr (e : string) | StartErr (e : string) | CopyErr (e : string) | WaitErr (stderr e : string).
Inductive stat := Found | NotExist | StatErr.
(** What a local command's caller looks at: standard output, both streams, or
    only whether it failed. *)
Inductive capture := Output | CombinedOutput | Run.
(** A Telegram update: its message, with the sender (ID, user and first name) and the chat. *)
Record TgMessage := { tg_From : option (Z * string * string); tg_Chat : Z }.
Record TgUpdate := { tg_UpdateID : Z; tg_Message : option TgMessage }.

Section Programs.
Context {pp : Type}.

(** A call to the environment, indexed by its answer. *)
Inductive effect : Type -> Type :=
(* the shared state: one critical section; [None] blocks *)
| State {A : Type} (f : Shared pp -> option (Shared pp * A)) : effect A
(* files *)
| ReadFile (path : string) : effect (go bytes)
| WriteFile (path : string) (data : bytes) : effect (go unit)
| MkdirAll (path : string) : effect (go unit)
| MkdirTemp : effect (go string)
| CreateTemp : effect (go string)
| Remove (path : string) : effect unit
| Chmod (path : string) : effect unit
| Stat (path : string) : effect stat
| UserHomeDir : effect (go string)
| TempDir : effect string
| Getwd : effect (go string)
(* processes *)
| Getenv (name : string) : effect string
| LookPath (name : string) : effect bool
| Exec (c : capture) (command : list string) : effect (string * option string)
| ExecLines (dir : string) (command : list string) : effect (go (list string * option string))
| Sleep (seconds : Z) : effect unit
(* SSH *)
| ParsePrivateKey (data : bytes) : effect (go unit)
| Dial (addr user : string) (auths : list auth) : effect (go unit)
| NewSession (c : SSHClient) : effect (go unit)
| SessionRun (c : SSHClient) (cmd : string) : effect (string * string * option string)
| SessionUpload (c : SSHClient) (cmd : string) (stdin : bytes) : effect upload
| Tunnel (c : SSHClient) : effect (go unit)
| Listen : effect (go Z)
(* HTTP *)
| NewRequest (url : string) : effect (go unit)
| HttpPost (url : string) (headers : list (string * string)) (body : string) : effect (go (Z * bytes))
(* Telegram *)
| NewBotAPI (token : string) : effect (go string)
| GetUpdates (token : string) (offset timeout : Z) : effect (go (list TgUpdate))
| SendMessage (token : string) (chat : Z) (text : string) : effect unit
(* databases *)
| NewPostgresStore (dsn passphrase : string) : effect (go unit)
| GetMasterShare (dsn : string) (curve : Curve) : effect (go KeyShare)
| SaveMasterShare (dsn : string) (share : KeyShare) : effect (go unit)
| ClearDerivedKeys (dsn : string) : effect (go unit)
| PgConnect (conn : string) : effect (go unit)
| PgQuery (conn sql : string) : effect (go (list (go (string * string * string))))
(* randomness, and what the scheduler and the clock decide *)
| NewEntropy : effect (go bytes)
| RandInts : effect (nat -> go Z)
| RandKeys : effect nat
| Now : effect Z
| Ticks : effect nat
| Schedule : effect bool.

Inductive prog (R : Type) : Type :=
| Done (r : go R)
| Do {A : Type} (e : effect A) (k : A -> prog R).
Arguments Done {R} r.
Arguments Do {R A} e k.

Definition call {A} (e : effect A) : prog A := Do e (fun a => Done (Ret a)).
#[export] Instance prog_ret : MRet prog := fun A a => Done (Ret a).
#[export] Instance prog_bind : MBind prog := fun A B f =>
  fix bind (m : prog A) : prog B :=
    match m with
    | Done (Ret a) => f a
    | Done (Err e) => Done (Err e)
    | Done Panic => Done Panic
    | Do e k => Do e (fun a => bind (k a))
    end.
(** An answer that is itself a result: its error ends the program. *)
Definition answer {A} (e : effect (go A)) : prog A := Do e (fun a => Done a).
(** [fmt.Errorf("p: %w", err)] around a program. *)
Fixpoint wrap {A} (p : string) (m : prog A) : prog A :=
  match m with Done r => Done (wrap_err p r) | Do e k => Do e (fun a => wrap p (k a)) end.
(** The result of [m], error included; a panic is the process's. *)
Fixpoint attempt {A} (m : prog A) : prog (go A) :=
  match m with
  | Done Panic => Done Panic
  | Done r => Done (Ret r)
  | Do e k => Do e (fun a => attempt (k a))
  end.
Definition fail {A} (msg : string) : prog A := Done (Err msg).
Fixpoint each {A} (l : list A) (f : A -> prog unit) : prog unit :=
  match l with [] => mret tt | x :: l => _ ← f x; each l f end.
Fixpoint collect {A B} (l : list A) (f : A -> prog (list B)) : prog (list B) :=
  match l with [] => mret [] | x :: l => a ← f x; b ← collect l f; mret (a ++ b) end.

(** A critical section of the state's mutex: it blocks where the mutex is held. *)
Definition locked {A} (f : WizardState pp -> WizardState pp * A) : prog A :=
  call (State (fun s => if mu s then None else Some (with_wizard s (f (wizard s)).1, (f (wizard s)).2))).
Definition modify (f : WizardState pp -> WizardState pp) : prog unit := locked (fun s => (f s, tt)).
Definition read {A} (f : WizardState pp -> A) : prog A := locked (fun s => (s, f s)).
(** A read without the mutex. *)
Definition peek {A} (f : WizardState pp -> A) : prog A := call (State (fun s => Some (s, f (wizard s)))).
(** [logFn] of the deployment: [state.AppendLog]. *)
Definition log (msg : string) : prog unit := modify (fun s => AppendLog s msg).

(** Two goroutines and [wg.Wait()]: the results of both. *)
Fixpoint par {A B} (p : prog A) (q : prog B) {struct p} : prog (go A * go B) :=
  match p with
  | Done Panic => Done Panic
  | Done r => s ← attempt q; mret (r, s)
  | Do e k =>
    (fix inner (q : prog B) : prog (go A * go B) :=
       match q with
       | Done Panic => Done Panic
       | Done s => r ← attempt p; mret (r, s)
       | Do e' k' => Do Schedule (fun b => if b : bool then Do e (fun a => par (k a) q)
                                           else Do e' (fun a => inner (k' a)))
       end) q
  end.
End Programs.
Arguments effect pp A : clear implicits.
Arguments prog pp R : clear implicits.
Arguments Done {pp R} r.
Arguments Do {pp R A} e k.

(** ** Executions *)

(** A call and its answer. *)
Inductive event (pp : Type) := | Called {A : Type} (e : effect pp A) (a : A).
Arguments Called {pp A} e a.
(** [P] holds of the call of an event. *)
Definition on_call {pp} (P : forall A, effect pp A -> A -> Prop) (x : event pp) : Prop :=
  match x with Called e a => P _ e a end.

Section Exec.
Context {pp : Type}.
Local Notation effect := (effect pp).
Local Notation prog := (prog pp).
Local Notation event := (event pp).
(** What the other goroutines may do to the shared state, in one step. *)
Context (rely : Shared pp -> Shared pp -> Prop).

(** A state effect runs on the state; any other may answer anything. *)
Definition answers {A} (e : effect A) : Shared pp -> Shared pp -> A -> Prop :=
  match e in Effects.effect _ A return Shared pp -> Shared pp -> A -> Prop with
  | State f => fun s s' a => f s = Some (s', a)
  | _ => fun s s' _ => s' = s
  end.

(** From [s], [p] makes the calls of [t] and leaves the state [s'], the others
    running in between; [None]: it has not ended. *)
Fixpoint exec {R} (s : Shared pp) (p : prog R) (t : list event) (s' : Shared pp) (r : option (go R)) : Prop :=
  exists s1, rtc rely s s1 /\
  match p with
  | Done r' => t = [] /\ s' = s1 /\ (r = Some r' \/ r = None)
  | Do e k => (t = [] /\ s' = s1 /\ r = None) \/
      exists s2 a t', answers e s1 s2 a /\ t = Called e a :: t' /\ exec s2 (k a) t' s' r
  end.

(** An execution of [m ≫= f] is one of [m], and one of [f] if [m] returned. *)
Lemma exec_bind {A B} (m : prog A) (f : A -> prog B) s t s' r :
  exec s (m ≫= f) t s' r ->
  (exec s m t s' None /\ r = None) \/
  (exists e, exec s m t s' (Some (Err e)) /\ (r = Some (Err e) \/ r = None)) \/
  (exec s m t s' (Some Panic) /\ (r = Some Panic \/ r = None)) \/
  (exists a t1 t2 s1, t = t1 ++ t2 /\ exec s m t1 s1 (Some (Ret a)) /\ exec s1 (f a) t2 s' r).
Proof.
  revert s t. induction m as [[a|e|]|A' e k IH]; intros s t.
  - intros Hx. right; right; right. exists a, [], t, s. split; [done|]. split; [|exact Hx].
    exists s. split; [apply rtc_refl|]. auto.
  - intros (s1 & Hs & -> & -> & [->| ->]); right; left; exists e; (split; [exists s1; auto|auto]).
  - intros (s1 & Hs & -> & -> & [->| ->]); right; right; left; (split; [exists s1; auto|auto]).
  - intros (s1 & Hs & [(-> & -> & ->)|(s2 & a & t' & Ha & -> & Hx)]).
    + left. split; [|done]. exists s1. auto.
    + apply IH in Hx as [[Hx ->]|[(e' & Hx & Hr)|[[Hx Hr]|(b & t1 & t2 & s3 & -> & Hx & Hy)]]].
      * left. split; [|done]. exists s1. split; [done|]. right. eauto 10.
      * right; left. exists e'. split; [|done]. exists s1. split; [done|]. right. eauto 10.
      * right; right; left. split; [|done]. exists s1. split; [done|]. right. eauto 10.
      * right; right; right. exists b, (Called e a :: t1), t2, s3. split; [done|]. split; [|done].
        exists s1. split; [done|]. right. exists s2, a, t1. auto.
Qed.

Lemma exec_wrap {A} p (m : prog A) s t s' r : exec s (wrap p m) t s' r ->
  exists r', exec s m t s' r' /\ r = wrap_err p <$> r'.
Proof.
  revert s t. induction m as [r0|A' e k IH]; intros s t.
  - intros (s1 & Hs & -> & -> & [->| ->]); [exists (Some r0)|exists None]; (split; [exists s1; auto|done]).
  - intros (s1 & Hs & [(-> & -> & ->)|(s2 & a & t' & Ha & -> & Hx)]).
    + exists None. split; [|done]. exists s1. auto.
    + apply IH in Hx as (r' & Hx & ->). exists r'. split; [|done]. exists s1. split; [done|]. right. eauto 10.
Qed.

(** An execution by an oracle that answers the calls other than those of the
    state, alone with the state; [None]: it stops there. *)
Definition answer_with (oracle : forall A, effect A -> option A) {A} (e : effect A) (s : Shared pp) : option (Shared pp * A) :=
  match e in Effects.effect _ A return effect A -> option (Shared pp * A) with
  | State f => fun _ => f s
  | _ => fun e => a ← oracle _ e; Some (s, a)
  end e.
Fixpoint run (oracle : forall A, effect A -> option A) {R} (s : Shared pp) (p : prog R) : list event * Shared pp * option (go R) :=
  match p with
  | Done r => ([], s, Some r)
  | Do e k => match answer_with oracle e s with
              | Some (s', a) => let '(t, s'', r) := run oracle s' (k a) in (Called e a :: t, s'', r)
              | None => ([], s, None)
              end
  end.
Lemma run_exec oracle {R} (p : prog R) s t s' r : run oracle s p = (t, s', r) -> exec s p t s' r.
Proof.
  revert s t. induction p as [r0|A e k IH]; intros s t; cbn.
  - intros [= <- <- <-]. exists s. split; [apply rtc_refl|]. auto.
  - destruct (answer_with oracle e s) as [[s1 a]|] eqn:E.
    + destruct (run oracle s1 (k a)) as [[t' s2] r'] eqn:Er. intros [= <- <- <-].
      exists s. split; [apply rtc_refl|]. right. exists s1, a, t'. split; [|split; [done|by apply IH]].
      destruct e; cbn in *; first [exact E|apply bind_Some in E as (b & _ & E); by simplify_eq].
    + intros [= <- <- <-]. exists s. split; [apply rtc_refl|]. auto.
Qed.

(** ** A rule for every execution

    [safe]: if every state the program sees satisfies [K], then its calls satisfy
    [P], its critical sections keep [K], and a value it returns satisfies [Q]. *)
Context (K : Shared pp -> Prop) (P : forall A, effect A -> A -> Prop).

(** The answers that are possible where [K] holds. *)
Definition possible {A} (e : effect A) : A -> Prop :=
  match e in Effects.effect _ A return A -> Prop with
  | State f => fun a => exists s s', K s /\ f s = Some (s', a)
  | _ => fun _ => True
  end.
Definition keeps {A} (e : effect A) : Prop :=
  match e with State f => forall s s' a, K s -> f s = Some (s', a) -> K s' | _ => True end.

Fixpoint safe {R} (Q : R -> Prop) (p : prog R) : Prop :=
  match p with
  | Done r => forall a, r = Ret a -> Q a
  | Do e k => keeps e /\ forall a, possible e a -> P _ e a /\ safe Q (k a)
  end.

Lemma safe_mono {R} (Q Q' : R -> Prop) p : safe Q p -> (forall a, Q a -> Q' a) -> safe Q' p.
Proof.
  intros Hp HQ. induction p as [r|A e k IH]; cbn in *; [eauto|].
  destruct Hp as [Hk Hp]. split; [done|]. intros a Ha. destruct (Hp a Ha). eauto.
Qed.
Lemma safe_bind {A B} (Q' : A -> Prop) (Q : B -> Prop) (m : prog A) (f : A -> prog B) :
  safe Q' m -> (forall a, Q' a -> safe Q (f a)) -> safe Q (m ≫= f).
Proof.
  intros Hm Hf. induction m as [[a|e|]|A' e k IH]; cbn in *; [by apply Hf, Hm|done|done|].
  destruct Hm as [Hk Hm]. split; [done|]. intros a Ha. destruct (Hm a Ha). eauto.
Qed.
Lemma safe_wrap {A} (Q : A -> Prop) p (m : prog A) : safe Q m -> safe Q (wrap p m).
Proof.
  induction m as [r|A' e k IH]; cbn; [by destruct r|]. intros [Hk Hm]. split; [done|].
  intros a Ha. destruct (Hm a Ha). eauto.
Qed.
Lemma safe_attempt {A} (Q : A -> Prop) (m : prog A) : safe Q m -> safe (fun r => forall a, r = Ret a -> Q a) (attempt m).
Proof.
  induction m as [r|A' e k IH]; cbn; [destruct r; cbn; [|intros _ ? [= <-]; done..]; intros H ? [= <-]; exact H|].
  intros [Hk Hm]. split; [done|]. intros a Ha. destruct (Hm a Ha). eauto.
Qed.
Lemma safe_each {A} (l : list A) f : (forall x, In x l -> safe (fun _ => True) (f x)) -> safe (fun _ => True) (each l f).
Proof.
  induction l as [|x l IH]; intros Hf; cbn [each]; [done|].
  apply (safe_bind (fun _ => True)); [apply Hf; by left|]. intros _ _. apply IH. intros y Hy. apply Hf. by right.
Qed.
Lemma safe_collect {A B} (l : list A) (f : A -> prog (list B)) :
  (forall x, In x l -> safe (fun _ => True) (f x)) -> safe (fun _ => True) (collect l f).
Proof.
  induction l as [|x l IH]; intros Hf; cbn [collect]; [done|].
  apply (safe_bind (fun _ => True)); [apply Hf; by left|]. intros a _.
  apply (safe_bind (fun _ => True)); [|done]. apply IH. intros y Hy. apply Hf. by right.
Qed.
Lemma safe_par {A B} (QA : A -> Prop) (QB : B -> Prop) (p : prog A) (q : prog B) :
  (forall b, P _ Schedule b) -> safe QA p -> safe QB q ->
  safe (fun r => (forall a, r.1 = Ret a -> QA a) /\ (forall b, r.2 = Ret b -> QB b)) (par p q).
Proof.
  intros Hs. revert q. induction p as [[a|e|]|A' e k IH]; intros q Hp Hq; cbn [par].
  - eapply safe_bind; [by apply safe_attempt|]. intros r Hr ? [= <-]. split; [exact Hp|exact Hr].
  - eapply safe_bind; [by apply safe_attempt|]. intros r Hr ? [= <-]. split; [exact Hp|exact Hr].
  - done.
  - induction q as [[b|e'|]|B' e' k' IHq].
    + eapply safe_bind; [apply safe_attempt, Hp|]. intros r Hr ? [= <-]. split; [exact Hr|exact Hq].
    + eapply safe_bind; [apply safe_attempt, Hp|]. intros r Hr ? [= <-]. split; [exact Hr|exact Hq].
    + done.
    + split; [done|]. intros b _. split; [apply Hs|]. destruct b.
      * destruct Hp as [Hk Hp]. split; [done|]. intros a Ha. destruct (Hp a Ha). auto.
      * destruct Hq as [Hk Hq]. split; [done|]. intros a Ha. destruct (Hq a Ha). auto.
Qed.

(** Soundness: in every execution from a state that satisfies [K], among
    others that keep [K], each call satisfies [P], [K] still holds, and a value
    returned satisfies [Q]. *)
Lemma safe_sound {R} (Q : R -> Prop) (p : prog R) s t s' r :
  (forall s1 s2, rely s1 s2 -> K s1 -> K s2) -> safe Q p -> K s -> exec s p t s' r ->
  Forall (on_call P) t /\ K s' /\ forall a, r = Some (Ret a) -> Q a.
Proof.
  intros HR. assert (forall s1 s2, rtc rely s1 s2 -> K s1 -> K s2) as HR'
    by (induction 1; eauto).
  revert s t. induction p as [r0|A e k IH]; intros s t Hp Hs (s1 & Hrt & Hx); apply (HR' _ _ Hrt) in Hs; cbn in Hp.
  - destruct Hx as (-> & -> & [->| ->]); (split; [constructor|split; [done|]]); [|done]. intros a [= ->]. by apply Hp.
  - destruct Hp as [Hk Hp]. destruct Hx as [(-> & -> & ->)|(s2 & a & t' & Ha & -> & Hx)]; [done|].
    assert (possible e a /\ K s2) as [Hposs HK2].
    { destruct e; cbn in *; subst; eauto. split; [eauto|]. eapply Hk; eauto. }
    destruct (Hp a Hposs) as [HP Hsafe]. destruct (IH _ _ _ Hsafe HK2 Hx) as (HF & HK' & HQ).
    split; [by constructor|done].
Qed.
End Exec.

(** ** Programs whose calls carry nothing

    [quiet]: the calls that change no file, directory or database, send no data to a
    machine, and keep [K]. Where [P] only restricts the others, most of a program
    is covered by the rules below. *)
Section Rules.
Context {pp : Type} (K : Shared pp -> Prop) (P : forall A, effect pp A -> A -> Prop).
Local Notation ok := (safe K P (fun _ => True)).

Definition quiet {A} (e : effect pp A) : Prop :=
  match e with
  | WriteFile _ _ | MkdirTemp | Remove _ | SessionUpload _ _ _ | SaveMasterShare _ _ | ClearDerivedKeys _ => False
  | State f => keeps K (State f)
  | _ => True
  end.
Class Quiet : Prop := {
  quiet_P A (e : effect pp A) a : quiet e -> P A e a;
  K_log s msg : K s -> K (with_wizard s (AppendLog (wizard s) msg)) }.

Lemma ok_of {R} (Q : R -> Prop) p : safe K P Q p -> ok p.
Proof. intros Hp. by eapply safe_mono. Qed.
Lemma ok_bind {A B} (m : prog pp A) (f : A -> prog pp B) : ok m -> (forall a, ok (f a)) -> ok (m ≫= f).
Proof. intros Hm Hf. eapply safe_bind; [exact Hm|]. intros a _. apply Hf. Qed.
Lemma ok_done {A} (r : go A) : ok (Done r).
Proof. done. Qed.
Lemma ok_attempt {A} (m : prog pp A) : ok m -> ok (attempt m).
Proof. intros Hm. eapply ok_of, safe_attempt, Hm. Qed.
Lemma ok_wrap {A} p (m : prog pp A) : ok m -> ok (wrap p m).
Proof. apply safe_wrap. Qed.
Lemma ok_locked {A} (f : WizardState pp -> WizardState pp * A) Q :
  (forall A (g : Shared pp -> option (Shared pp * A)) a, P A (State g) a) ->
  (forall s, K s -> K (with_wizard s (f (wizard s)).1)) -> (forall s, K s -> Q (f (wizard s)).2) ->
  safe K P Q (locked f).
Proof.
  intros HP HK HQ. split.
  - cbn. intros s s' a Hs. destruct (mu s); [done|]. intros [= <- <-]. auto.
  - cbn. intros a (s & s' & Hs & E). split; [apply HP|]. destruct (mu s); [done|]. injection E as <- <-.
    intros ? [= <-]. auto.
Qed.

Context `{!Quiet}.
Lemma safe_call {A} (e : effect pp A) Q : quiet e -> (forall a, possible K e a -> Q a) -> safe K P Q (call e).
Proof.
  intros He HQ. split; [by destruct e|]. intros a Ha. split; [by apply quiet_P|]. intros ? [= <-]. auto.
Qed.
Lemma ok_call {A} (e : effect pp A) : quiet e -> ok (call e).
Proof. intros He. by apply safe_call. Qed.
Lemma ok_answer {A} (e : effect pp (go A)) : quiet e -> ok (answer e).
Proof. intros He. split; [by destruct e|]. intros a Ha. split; [by apply quiet_P|done]. Qed.
Lemma quiet_same {A} (f : Shared pp -> option (Shared pp * A)) :
  (forall s s' a, f s = Some (s', a) -> s' = s) -> quiet (State f).
Proof. intros Hf s s' a Hs E. by apply Hf in E as ->. Qed.
Lemma safe_read {A} (f : WizardState pp -> A) (Q : A -> Prop) : (forall s, K s -> Q (f (wizard s))) -> safe K P Q (read f).
Proof.
  intros HQ. apply safe_call.
  - apply quiet_same. intros s s' a. destruct (mu s), s; cbn; [done|]. by intros [= <- _].
  - intros a (s & s' & Hs & E). cbn in E. destruct (mu s); [done|]. injection E as _ <-. auto.
Qed.
Lemma safe_peek {A} (f : WizardState pp -> A) (Q : A -> Prop) : (forall s, K s -> Q (f (wizard s))) -> safe K P Q (peek f).
Proof.
  intros HQ. apply safe_call.
  - apply quiet_same. by intros s s' a [= <- _].
  - intros a (s & s' & Hs & [= _ <-]). auto.
Qed.
Lemma ok_modify f : (forall s, K s -> K (with_wizard s (f (wizard s)))) -> ok (modify f).
Proof.
  intros Hf. apply ok_call. intros s s' a Hs. destruct (mu s); [done|]. intros [= <- _]. by apply Hf.
Qed.
Lemma ok_log msg : ok (log msg).
Proof. apply ok_modify. intros s. apply K_log. Qed.
Lemma ok_read {A} (f : WizardState pp -> A) : ok (read f).
Proof. by apply safe_read. Qed.
Lemma ok_peek {A} (f : WizardState pp -> A) : ok (peek f).
Proof. by apply safe_peek. Qed.
Lemma ok_par {A B} (p : prog pp A) (q : prog pp B) : ok p -> ok q -> ok (par p q).
Proof. intros Hp Hq. eapply ok_of, safe_par; [|exact Hp|exact Hq]. intros b. by apply quiet_P. Qed.
End Rules.

Create HintDb effects.
#[export] Hint Resolve ok_done ok_log ok_read ok_peek ok_attempt ok_wrap safe_each safe_collect ok_par : effects.
#[export] Hint Extern 1 (quiet _ _) => exact I : effects.
#[export] Hint Extern 1 (Quiet _ _) => typeclasses eauto : effects.
#[export] Hint Resolve ok_call ok_answer : effects.
(** Go through a program; what is left is about what it sends. *)
Ltac effects :=
  repeat first
    [ solve [eauto 3 with effects nocore]
    | simple apply ok_bind; [|intros ?]
    | simple apply ok_wrap | simple apply ok_attempt
    | apply safe_each; intros ? ?
    | apply safe_collect; intros ? ?
    | apply ok_par
    | match goal with |- safe _ _ _ (match ?x with _ => _ end) => destruct x end
    | match goal with |- safe _ _ _ (let '_ := ?x in _) => destruct x end ].
