(* ===== verification/Certs.v ===== *)
(** * Certs: TLS certificates (internal/transport/certs.go, cmd/installer/certs.go)

    The certificate authority and the two party certificates of an installation,
    and loading them. crypto/x509, crypto/ecdsa, crypto/tls and PEM are the class
    [X509]; a random draw is a number the environment picks. *)
From S2P Require Import Prelude GoStd Codec Transport Tss Wizard Effects.
Local Open Scope Z_scope.
Local Open Scope go_scope.

(** [x509.Certificate]: the fields the code sets, and the encoding of a parsed one. *)
Record Certificate := {
  c_SerialNumber : Z; c_CommonName : string; c_Organization : list string; c_NotBefore : Z; c_NotAfter : Z;
  c_KeyUsage : list string; c_ExtKeyUsage : list string; c_BasicConstraintsValid : bool; c_IsCA : bool; c_MaxPathLen : Z;
  c_IPAddresses : list string; c_DNSNames : list string; c_Raw : bytes }.

(** Random draws first. [CreateCertificate draw template parent key parentKey]
    certifies the public key of [key]. A [ca_pool] holds certificates; an address
    is kept as the string it was parsed from. *)
Class X509 := {
  PrivateKey : Type;
  GenerateKey : nat -> go PrivateKey;
  RandInt128 : nat -> go Z;
  CreateCertificate : nat -> Certificate -> Certificate -> PrivateKey -> PrivateKey -> go bytes;
  ParseCertificate : bytes -> go Certificate;
  MarshalECPrivateKey : PrivateKey -> go bytes;
  pem_Encode : string -> bytes -> bytes;
  is_ip : string -> bool;                       (* net.ParseIP(h) != nil *)
  KeyPair : Type;
  X509KeyPair : bytes -> bytes -> go KeyPair;
  AppendCertsFromPEM : bytes -> option (list Certificate);
}.

Section Certs.
Context {pp : Type} `{X509}.
Notation prog := (prog pp).

Record PartyCert := { pc_Cert : Certificate; pc_Key : PrivateKey; pc_CertPEM : bytes; pc_KeyPEM : bytes }.
Definition CACert : Type := PartyCert.
(** [tls.Config]; TLS 1.3 is the least version. *)
Record TLSConfig := { tls_Certificate : KeyPair; tls_RootCAs : list Certificate; tls_ClientCAs : list Certificate }.
Record CertBundle := {
  cb_CACert : bytes; cb_CAKey : bytes; cb_CertA : bytes; cb_KeyA : bytes; cb_CertB : bytes; cb_KeyB : bytes }.

Definition pure {A} (m : go A) : prog A := Done m.
Definition hour : Z := 3600 * 10 ^ 9.
Definition ca_template (serial now : Z) (commonName : string) : Certificate :=
  {| c_SerialNumber := serial; c_CommonName := commonName; c_Organization := ["crypto-claw"];
     c_NotBefore := now - hour; c_NotAfter := now + 10 * 365 * 24 * hour;
     c_KeyUsage := ["CertSign"; "CRLSign"]; c_ExtKeyUsage := []; c_BasicConstraintsValid := true; c_IsCA := true;
     c_MaxPathLen := 1; c_IPAddresses := []; c_DNSNames := []; c_Raw := [] |}.
(** Addresses and names are separated; with no host at all, localhost is added. *)
Definition party_template (serial now : Z) (commonName : string) (hosts : list string) : Certificate :=
  let ips := filter (fun h => is_ip h = true) hosts in
  let names := filter (fun h => is_ip h = false) hosts in
  let none := bool_decide (ips = []) && bool_decide (names = []) in
  {| c_SerialNumber := serial; c_CommonName := commonName; c_Organization := ["crypto-claw"];
     c_NotBefore := now - hour; c_NotAfter := now + 5 * 365 * 24 * hour;
     c_KeyUsage := ["DigitalSignature"; "KeyEncipherment"]; c_ExtKeyUsage := ["ClientAuth"; "ServerAuth"];
     c_BasicConstraintsValid := false; c_IsCA := false; c_MaxPathLen := 0;
     c_IPAddresses := if none then ["127.0.0.1"] else ips; c_DNSNames := if none then ["localhost"] else names; c_Raw := [] |}.

(** The two private keys' PEM blocks carry the same type. *)
Definition pem_pair (role : string) (certDER : bytes) (key : PrivateKey) : prog PartyCert :=
  cert ← wrap ("parse " +:+ role +:+ " cert") (pure (ParseCertificate certDER));
  let certPEM := pem_Encode "CERTIFICATE" certDER in
  keyDER ← wrap ("marshal " +:+ role +:+ " key") (pure (MarshalECPrivateKey key));
  mret {| pc_Cert := cert; pc_Key := key; pc_CertPEM := certPEM; pc_KeyPEM := pem_Encode "EC PRIVATE KEY" keyDER |}.

Definition GenerateCA (commonName : string) : prog CACert :=
  d ← call RandKeys;
  key ← wrap "generate CA key" (pure (GenerateKey d));
  d ← call RandKeys;
  serialNumber ← wrap "generate serial" (pure (RandInt128 d));
  now ← call Now;
  let template := ca_template serialNumber now commonName in
  d ← call RandKeys;
  certDER ← wrap "create CA cert" (pure (CreateCertificate d template template key key));
  pem_pair "CA" certDER key.

Definition GeneratePartyCert (ca : CACert) (commonName : string) (hosts : list string) : prog PartyCert :=
  d ← call RandKeys;
  key ← wrap "generate party key" (pure (GenerateKey d));
  d ← call RandKeys;
  serialNumber ← wrap "generate serial" (pure (RandInt128 d));
  now ← call Now;
  d ← call RandKeys;
  certDER ← wrap "create party cert"
    (pure (CreateCertificate d (party_template serialNumber now commonName hosts) (pc_Cert ca) key (pc_Key ca)));
  pem_pair "party" certDER key.

Definition LoadCerts (certFile keyFile caCertFile : string) : prog TLSConfig :=
  cert ← wrap "load key pair" (
    certPEM ← answer (ReadFile certFile);
    keyPEM ← answer (ReadFile keyFile);
    pure (X509KeyPair certPEM keyPEM));
  caCertPEM ← wrap "read CA cert" (answer (ReadFile caCertFile));
  match AppendCertsFromPEM caCertPEM with
  | None => fail "failed to parse CA cert"
  | Some caPool => mret {| tls_Certificate := cert; tls_RootCAs := caPool; tls_ClientCAs := caPool |}
  end.
Definition SavePEM (path : string) (data : bytes) : prog unit := answer (WriteFile path data).

(** ** The installer's bundle *)

Fixpoint dedup_from (seen : gset string) (ss : list string) : list string :=
  match ss with
  | [] => []
  | s :: ss => if bool_decide (s ∈ seen) then dedup_from seen ss else s :: dedup_from ({[s]} ∪ seen) ss
  end.
Definition dedupStrings (ss : list string) : list string := dedup_from ∅ ss.
Definition sans (hosts : list string) : list string := dedupStrings (["localhost"; "127.0.0.1"] ++ hosts).

Definition GenerateCerts (hostsA hostsB : list string) : prog CertBundle :=
  ca ← wrap "generate CA" (GenerateCA "crypto-claw-ca");
  certA ← wrap "generate party A cert" (GeneratePartyCert ca "crypto-claw-party-a" (sans hostsA));
  certB ← wrap "generate party B cert" (GeneratePartyCert ca "crypto-claw-party-b" (sans hostsB));
  mret {| cb_CACert := pc_CertPEM ca; cb_CAKey := pc_KeyPEM ca; cb_CertA := pc_CertPEM certA; cb_KeyA := pc_KeyPEM certA;
          cb_CertB := pc_CertPEM certB; cb_KeyB := pc_KeyPEM certB |}.
End Certs.
