(* ===== verification/Deploy.v ===== *)
(** * Deploy: installing the parties on machines (cmd/installer: ssh.go, deploy.go)

    SSH connections, uploads and commands; Docker and PostgreSQL on a remote or the
    local machine; the parties' configurations; and the import of key shares into
    their databases. [logFn] is [state.AppendLog]. Configurations are also loaded
    and saved here (internal/config/config.go). The JSON forms of configurations
    and shares are codecs. *)
From S2P Require Import Prelude GoStd Codec Protocol Transport Tss Config Solana Wizard Effects.
Local Open Scope Z_scope.
Local Open Scope go_scope.

(** [json.MarshalIndent] of a configuration, and [json.Unmarshal]. *)
Class ConfigJson := { MarshalIndent : Config -> go bytes; UnmarshalConfig : bytes -> go Config }.

Section Deploy.
Context {pp : Type} `{Unicode} `{MapOrder} `{ConfigJson} `{Codec KeyShare}.
Notation prog := (prog pp).
Notation WizardState := (WizardState pp).

(** [return p: err] if there is an error. *)
Definition check (p : string) (err : option string) : prog unit :=
  match err with Some e => fail (p +:+ ": " +:+ e) | None => mret tt end.
Definition failed (err : option string) : bool := is_some err.
(** A pure call that can fail. *)
Definition lift {A} (m : go A) : prog A := Done m.
Definition tag (party msg : string) : string := "[" +:+ party +:+ "] " +:+ msg.

(** ** Configuration files (config.go) *)

Definition with_dir (c : Config) (dir : string) : Config :=
  {| cfg_Party := cfg_Party c; cfg_DataDir := dir; cfg_Database := cfg_Database c; cfg_API := cfg_API c;
     cfg_Transport := cfg_Transport c; cfg_Analyzer := cfg_Analyzer c; cfg_Telegram := cfg_Telegram c |}.
Definition Load (path : string) : prog Config :=
  data ← wrap "read config" (answer (ReadFile path));
  cfg ← wrap "parse config" (lift (UnmarshalConfig data));
  mret (if bool_decide (cfg_DataDir cfg = "") then with_dir cfg (Filepath.Dir path) else cfg).
Definition Save (path : string) (cfg : Config) : prog unit :=
  data ← wrap "marshal config" (lift (MarshalIndent cfg));
  answer (WriteFile path data).

(** ** SSH (ssh.go) *)

(** The first default key that can be read and parsed. *)
Fixpoint default_key (home : string) (names : list string) : prog (list auth) :=
  match names with
  | [] => mret []
  | name :: names =>
    data ← attempt (answer (ReadFile (Filepath.Join (Filepath.Join home ".ssh") name)));
    match data with
    | Ret keyData =>
      signer ← attempt (answer (ParsePrivateKey keyData));
      match signer with Ret _ => mret [KeyAuth keyData] | _ => default_key home names end
    | _ => default_key home names
    end
  end.

(** Any host key is accepted. *)
Definition SSHConnect (cfg : SSHConfig) : prog SSHClient :=
  keys ← (if nonempty (ssh_KeyPath cfg) then
            keyData ← wrap ("read SSH key " +:+ ssh_KeyPath cfg) (answer (ReadFile (ssh_KeyPath cfg)));
            _ ← wrap "parse SSH key" (answer (ParsePrivateKey keyData));
            mret [KeyAuth keyData]
          else
            homeDir ← attempt (answer UserHomeDir);
            match homeDir with
            | Ret home => default_key home ["id_ed25519"; "id_rsa"; "id_ecdsa"]
            | _ => mret []
            end);
  let authMethods := keys ++ (if nonempty (ssh_Password cfg) then [PasswordAuth (ssh_Password cfg)] else []) in
  if bool_decide (zlen authMethods = 0)
  then fail "no SSH authentication methods available (provide password or key)"
  else
    _ ← wrap ("SSH dial " +:+ Addr cfg) (answer (Dial (Addr cfg) (ssh_User cfg) authMethods));
    mret {| cl_Addr := Addr cfg; cl_User := ssh_User cfg |}.

(** Standard output, standard error, and the error. *)
Definition SSHRunCommand (client : SSHClient) (cmd : string) : prog (string * string * option string) :=
  session ← attempt (answer (NewSession client));
  match session with
  | Err e => mret ("", "", Some ("create SSH session: " +:+ e))
  | _ => call (SessionRun client cmd)
  end.

Definition SSHUploadFile (client : SSHClient) (content : bytes) (remotePath : string) : prog unit :=
  let dir := Filepath.Dir remotePath in
  '(_, _, err) ← SSHRunCommand client ("mkdir -p " +:+ Strconv.Quote dir);
  _ ← check ("mkdir " +:+ dir) err;
  _ ← wrap "create SSH session" (answer (NewSession client));
  r ← call (SessionUpload client ("cat > " +:+ Strconv.Quote remotePath) content);
  _ ← match r with
      | Uploaded => mret tt
      | PipeErr e => fail ("open stdin pipe: " +:+ e)
      | StartErr e => fail ("start cat command: " +:+ e)
      | CopyErr e => fail ("write file data: " +:+ e)
      | WaitErr stderr e => fail ("upload to " +:+ remotePath +:+ ": " +:+ stderr +:+ ": " +:+ e)
      end;
  '(_, _, err) ← SSHRunCommand client ("chmod 0600 " +:+ Strconv.Quote remotePath);
  check ("chmod " +:+ remotePath) err.

(** ** Remote machines (deploy.go) *)

Definition remoteConfigDir : string := "/etc/crypto-claw".
Definition containerNameA : string := "crypto-claw-party-a".
Definition containerNameB : string := "crypto-claw-party-b".
Definition containerNamePG : string := "crypto-claw-postgres".
Definition dockerImage : string := "ghcr.io/seeingred/crypto-claw".
Definition containerName (party : string) : string := if bool_decide (party = "b") then containerNameB else containerNameA.

Definition remoteOS (client : SSHClient) : prog string :=
  '(out, _, _) ← SSHRunCommand client "uname -s";
  mret (if bool_decide (Strings.TrimSpace (Strings.ToLower out) = "darwin") then "darwin" else "linux").
Definition darwin (osType : string) : bool := bool_decide (osType = "darwin").
Definition remoteConfigPath (osType : string) (client : SSHClient) : prog string :=
  if darwin osType then
    '(home, _, _) ← SSHRunCommand client "echo $HOME";
    mret (Filepath.Join (Strings.TrimSpace home) ".crypto-claw")
  else mret remoteConfigDir.
Definition sudoPrefix (osType : string) : string := if darwin osType then "" else "sudo ".
Definition sshRunWithPath (client : SSHClient) (osType cmd : string) : prog (string * string * option string) :=
  SSHRunCommand client
    (if darwin osType then "export PATH=" +:+ quoted "/usr/local/bin:/opt/homebrew/bin:$PATH" +:+ "; " +:+ cmd else cmd).

Definition install_command (osRelease : string) : string :=
  if Strings.Contains osRelease "Ubuntu" || Strings.Contains osRelease "Debian" then
    "export DEBIAN_FRONTEND=noninteractive && sudo apt-get update -qq && sudo apt-get install -y -qq apt-transport-https ca-certificates curl software-properties-common && curl -fsSL https://get.docker.com | sudo sh"
  else if Strings.Contains osRelease "CentOS" || Strings.Contains osRelease "Red Hat" || Strings.Contains osRelease "Fedora" then
    "sudo yum install -y yum-utils && sudo yum-config-manager --add-repo https://download.docker.com/linux/centos/docker-ce.repo && sudo yum install -y docker-ce docker-ce-cli containerd.io && sudo systemctl start docker && sudo systemctl enable docker"
  else "curl -fsSL https://get.docker.com | sudo sh".

Definition ensureDocker (client : SSHClient) (party osType : string) : prog unit :=
  '(_, _, err) ← sshRunWithPath client osType "docker --version";
  if negb (failed err) then
    _ ← (if darwin osType then
           '(_, _, daemonErr) ← sshRunWithPath client osType "docker info >/dev/null 2>&1";
           if failed daemonErr
           then fail "Docker is installed but not running. Please start Docker Desktop and try again" else mret tt
         else mret tt);
    log (tag party "Docker is already installed.")
  else if darwin osType then
    fail "Docker is not installed on this macOS server. Please install Docker Desktop (https://docker.com/products/docker-desktop) or run: brew install --cask docker — then start Docker Desktop and try again"
  else
    _ ← log (tag party "Docker not found, installing...");
    '(osRelease, _, _) ← SSHRunCommand client "cat /etc/os-release 2>/dev/null || cat /etc/redhat-release 2>/dev/null || echo unknown";
    _ ← log (tag party "Running Docker installation (this may take a minute)...");
    '(stdout, stderr, err) ← SSHRunCommand client (install_command osRelease);
    _ ← check ("install docker: stdout=" +:+ stdout +:+ " stderr=" +:+ stderr) err;
    '(_, _, err) ← SSHRunCommand client "sudo docker --version";
    _ ← check "docker not available after install" err;
    log (tag party "Docker installed successfully.").

Definition build_commands (sudo osType party : string) : list string := [
  if darwin osType then "which git || xcode-select --install 2>/dev/null || brew install git || true"
  else "sudo apt-get install -y -qq git 2>/dev/null || sudo yum install -y git 2>/dev/null || true";
  "rm -rf /tmp/crypto-claw-build";
  "git clone --depth 1 https://github.com/seeingred/crypto-claw.git /tmp/crypto-claw-build";
  "cd /tmp/crypto-claw-build && " +:+ sudo +:+ "docker build -t crypto-claw-party-" +:+ party
    +:+ ":latest -f docker/Dockerfile.party-" +:+ party +:+ " .";
  "rm -rf /tmp/crypto-claw-build"].
Definition buildFromSource (client : SSHClient) (party osType : string) : prog unit :=
  _ ← log (tag party "Cloning source repository...");
  each (build_commands (sudoPrefix osType) osType party) (fun cmd =>
    _ ← log (tag party cmd);
    '(stdout, stderr, err) ← sshRunWithPath client osType cmd;
    check ("command " +:+ Strconv.Quote cmd +:+ ": stdout=" +:+ stdout +:+ " stderr=" +:+ stderr) err).

(** [ready] up to [n] times, a second apart. *)
Fixpoint poll_ready (n : nat) (ready : prog bool) : prog bool :=
  match n with
  | O => mret false
  | S n => ok ← ready; if ok : bool then mret true else _ ← call (Sleep 1); poll_ready n ready
  end.
Definition not_ready {A} : prog A := fail "PostgreSQL container failed to become ready within 30s".

(** The database's port is published on every interface. *)
Definition ensureRemotePostgres (client : SSHClient) (party sudo osType : string) : prog unit :=
  let pgContainer := "crypto-claw-postgres-" +:+ party in
  let dbName := "crypto_claw_" +:+ party in
  '(out, _, _) ← sshRunWithPath client osType (sudo +:+ "docker inspect -f '{{.State.Running}}' " +:+ pgContainer +:+ " 2>/dev/null");
  if bool_decide (Strings.TrimSpace out = "true") then log (tag party "PostgreSQL container already running.")
  else
    _ ← sshRunWithPath client osType (sudo +:+ "docker rm " +:+ pgContainer +:+ " 2>/dev/null");
    _ ← log (tag party "Starting PostgreSQL container...");
    '(out, stderr, err) ← sshRunWithPath client osType
      (sudo +:+ "docker run -d --name " +:+ pgContainer +:+ " -p 5432:5432 -e POSTGRES_USER=crypto_claw -e POSTGRES_PASSWORD=crypto_claw -e POSTGRES_DB="
       +:+ dbName +:+ " --restart unless-stopped postgres:16-alpine");
    _ ← check ("start postgres container: " +:+ out +:+ " " +:+ stderr) err;
    _ ← log (tag party "Waiting for PostgreSQL to be ready...");
    ok ← poll_ready 30 ('(_, _, err) ← sshRunWithPath client osType
           (sudo +:+ "docker exec " +:+ pgContainer +:+ " pg_isready -U crypto_claw"); mret (negb (failed err)));
    if ok : bool then log (tag party "PostgreSQL is ready.") else not_ready.

(** *** The party's configuration *)

Definition tls_files (dir remote listen : string) : TransportConfig :=
  {| tc_RemoteAddr := remote; tc_ListenAddr := listen; tc_CertFile := Filepath.Join dir "cert.pem";
     tc_KeyFile := Filepath.Join dir "key.pem"; tc_CACertFile := Filepath.Join dir "ca.pem" |}.
Definition database (host party : string) : DatabaseConfig :=
  {| db_Host := host; db_Port := 5432; db_User := "crypto_claw"; db_Password := "crypto_claw";
     db_DBName := "crypto_claw_" +:+ party; db_SSLMode := "disable" |}.
Definition no_analyzer : AnalyzerConfig :=
  {| ac_LLM := {| llm_Provider := ""; llm_APIKey := ""; llm_Endpoint := ""; llm_Model := "" |};
     ac_AutoMode := false; ac_DisableAI := false; ac_ExplorerAPIs := []; ac_Whitelist := [] |}.
Definition no_telegram : TelegramConfig := {| tg_BotToken := ""; tg_AuthorizedUserID := 0; tg_EscalationTimeout := 0 |}.
(** [5 * time.Minute], in nanoseconds. *)
Definition escalation_timeout : Z := 5 * 60 * 10 ^ 9.
(** A loopback address becomes the wildcard address with the same port. *)
Definition api_addr (partyAAddr : string) : string :=
  if bool_decide (partyAAddr = "") || Strings.HasPrefix partyAAddr "127.0.0.1:" then
    "0.0.0.0:" +:+ match Strings.SplitN2 partyAAddr ":" with [_; port] => port | _ => "8080" end
  else partyAAddr.
Definition analyzer_config (l : LLM) (endpoint : string) : AnalyzerConfig :=
  {| ac_LLM := {| llm_Provider := LLMProvider l; llm_APIKey := LLMAPIKey l; llm_Endpoint := endpoint; llm_Model := LLMModel l |};
     ac_AutoMode := false; ac_DisableAI := DisableAI l; ac_ExplorerAPIs := []; ac_Whitelist := [] |}.
Definition telegram_config (t : Telegram) : TelegramConfig :=
  {| tg_BotToken := TelegramBotToken t; tg_AuthorizedUserID := TelegramUserID t; tg_EscalationTimeout := escalation_timeout |}.

Definition buildPartyConfig (s : WizardState) (party certDir : string) : Config :=
  let tport := Strconv.Itoa (GetTransportPort s) in
  let a := bool_decide (party = "a") in
  {| cfg_Party := party; cfg_DataDir := certDir; cfg_Database := database "127.0.0.1" party;
     cfg_API := {| api_ListenAddr := if a then api_addr (PartyAAddr (servers s)) else ""; api_WebDir := "" |};
     cfg_Transport :=
       if a then tls_files certDir ((if LocalMode (servers s) then "127.0.0.1" else ssh_Host (ServerB (servers s))) +:+ ":" +:+ tport) ""
       else tls_files certDir "" ("0.0.0.0:" +:+ tport);
     cfg_Analyzer := if a then no_analyzer else analyzer_config (llm s) (LLMEndpoint (llm s));
     cfg_Telegram := if a then no_telegram else telegram_config (telegram s) |}.

Definition buildLocalDockerConfig (s : WizardState) (party : string) : Config :=
  let tport := Strconv.Itoa (GetTransportPort s) in
  let a := bool_decide (party = "a") in
  let host_side endpoint :=
    Strings.Replace1 (Strings.Replace1 endpoint "localhost" "host.docker.internal") "127.0.0.1" "host.docker.internal" in
  {| cfg_Party := party; cfg_DataDir := remoteConfigDir; cfg_Database := database "host.docker.internal" party;
     cfg_API := {| api_ListenAddr := if a then api_addr (PartyAAddr (servers s)) else ""; api_WebDir := "" |};
     cfg_Transport := if a then tls_files remoteConfigDir ("host.docker.internal:" +:+ tport) ""
                      else tls_files remoteConfigDir "" ("0.0.0.0:" +:+ tport);
     cfg_Analyzer := if a then no_analyzer else analyzer_config (llm s) (host_side (LLMEndpoint (llm s)));
     cfg_Telegram := if a then no_telegram else telegram_config (telegram s) |}.

(** *** Deploying one party *)

Definition mkdir_command (osType sudo cfgDir : string) : string :=
  if darwin osType then "mkdir -p " +:+ cfgDir +:+ " && chmod 700 " +:+ cfgDir
  else sudo +:+ "mkdir -p " +:+ cfgDir +:+ " && " +:+ sudo +:+ "chmod 700 " +:+ cfgDir.

(** The paths of the configuration follow the remote directory; on macOS the
    container reaches the host's database under another name. *)
Definition remote_config (cfg : Config) (osType cfgDir : string) : Config :=
  let d := cfg_Database cfg in
  let t := cfg_Transport cfg in
  {| cfg_Party := cfg_Party cfg; cfg_DataDir := cfgDir;
     cfg_Database :=
       {| db_Host := if darwin osType && bool_decide (db_Host d = "127.0.0.1") then "host.docker.internal" else db_Host d;
          db_Port := db_Port d; db_User := db_User d; db_Password := db_Password d; db_DBName := db_DBName d;
          db_SSLMode := db_SSLMode d |};
     cfg_API := cfg_API cfg; cfg_Transport := tls_files cfgDir (tc_RemoteAddr t) (tc_ListenAddr t);
     cfg_Analyzer := cfg_Analyzer cfg; cfg_Telegram := cfg_Telegram cfg |}.

Definition listen_port (party : string) (cfg : Config) : string :=
  if bool_decide (party = "b") then
    match Net.SplitHostPort (tc_ListenAddr (cfg_Transport cfg)) with Ret (_, p) => p | _ => "443" end
  else "8080".
Definition run_command (osType sudo name cfgDir imageTag port : string) : string :=
  if bool_decide (osType = "linux") then
    sudo +:+ "docker run -d --name " +:+ name +:+ " --restart unless-stopped --network host -v " +:+ cfgDir +:+ ":" +:+ cfgDir
    +:+ ":ro " +:+ imageTag +:+ " -config " +:+ cfgDir +:+ "/config.json"
  else
    "docker run -d --name " +:+ name +:+ " --restart unless-stopped -v " +:+ cfgDir +:+ ":" +:+ cfgDir +:+ ":ro -p " +:+ port
    +:+ ":" +:+ port +:+ " --add-host=host.docker.internal:host-gateway " +:+ imageTag +:+ " -config " +:+ cfgDir +:+ "/config.json".
(** The short form of a container's ID. *)
Definition container_id (stdout : string) : string :=
  let id := Strings.TrimSpace stdout in if 12 <? slen id then String.substring 0 12 id else id.

Definition upload_config (client : SSHClient) (cfg : Config) (path : string) : prog unit :=
  cfgJSON ← wrap "marshal config" (lift (MarshalIndent cfg));
  wrap "upload config" (SSHUploadFile client cfgJSON path).

(** Steps 1 to 4: Docker, PostgreSQL, the directory, certificates and
    configuration, as one upload per file; the certificates in the order of a map. *)
Definition provision (client : SSHClient) (party osType cfgDir : string) (cfg : Config) (cert key caCert : bytes) : prog unit :=
  let sudo := sudoPrefix osType in
  _ ← log (tag party ("Detected remote OS: " +:+ osType));
  _ ← log (tag party "Checking for Docker installation...");
  _ ← wrap "ensure docker" (ensureDocker client party osType);
  _ ← log (tag party "Setting up PostgreSQL...");
  _ ← wrap "ensure postgres" (ensureRemotePostgres client party sudo osType);
  _ ← log (tag party ("Creating config directory " +:+ cfgDir +:+ "..."));
  '(_, _, err) ← SSHRunCommand client (mkdir_command osType sudo cfgDir);
  _ ← check "create config dir" err;
  _ ← log (tag party "Uploading TLS certificates...");
  let certFiles : gmap string bytes := <[Filepath.Join cfgDir "ca.pem" := caCert]> (<[Filepath.Join cfgDir "key.pem" := key]>
    (<[Filepath.Join cfgDir "cert.pem" := cert]> ∅)) in
  _ ← each (range certFiles) (fun '(path, data) => wrap ("upload " +:+ path) (SSHUploadFile client data path));
  _ ← log (tag party "Writing configuration...");
  upload_config client (remote_config cfg osType cfgDir) (Filepath.Join cfgDir "config.json").

(** Steps 5 to 8: the image, the container, and whether it runs. *)
Definition start_party (client : SSHClient) (party osType cfgDir : string) (cfg : Config) : prog unit :=
  let sudo := sudoPrefix osType in
  let name := containerName party in
  _ ← log (tag party "Pulling Docker image...");
  let imageTag := dockerImage +:+ ":party-" +:+ party +:+ "-latest" in
  '(stdout, stderr, err) ← sshRunWithPath client osType (sudo +:+ "docker pull " +:+ imageTag +:+ " 2>&1");
  imageTag ← (if failed err || Strings.Contains stdout "denied" || Strings.Contains stdout "not found" then
                _ ← log (tag party "Docker pull failed, building from source...");
                _ ← wrap "build from source" (buildFromSource client party osType);
                mret ("crypto-claw-party-" +:+ party +:+ ":latest")
              else mret imageTag);
  _ ← log (tag party "Stopping any existing container...");
  _ ← sshRunWithPath client osType (sudo +:+ "docker stop " +:+ name +:+ " 2>/dev/null; " +:+ sudo +:+ "docker rm " +:+ name +:+ " 2>/dev/null");
  _ ← log (tag party "Starting Docker container...");
  '(stdout, stderr, err) ← sshRunWithPath client osType (run_command osType sudo name cfgDir imageTag (listen_port party cfg));
  _ ← check ("start container: " +:+ stdout +:+ " " +:+ stderr) err;
  _ ← log (tag party ("Container started: " +:+ container_id stdout));
  _ ← log (tag party "Verifying container health...");
  _ ← call (Sleep 2);
  '(stdout, _, err) ← sshRunWithPath client osType (sudo +:+ "docker inspect -f '{{.State.Running}}' " +:+ name);
  if failed err || negb (bool_decide (Strings.TrimSpace stdout = "true")) then
    '(logs, _, _) ← sshRunWithPath client osType (sudo +:+ "docker logs --tail 20 " +:+ name +:+ " 2>&1");
    _ ← log (tag party ("WARNING: Container may not be running. Logs: " +:+ logs));
    fail "container not running after start"
  else log (tag party "Deployment complete.").

Definition DeployParty (client : SSHClient) (party : string) (cfg : Config) (cert key caCert : bytes) : prog unit :=
  osType ← remoteOS client;
  cfgDir ← remoteConfigPath osType client;
  _ ← provision client party osType cfgDir cfg cert key caCert;
  start_party client party osType cfgDir cfg.
End Deploy.
