(* ===== verification/DeployFacts.v ===== *)
(** * DeployFacts: what a deployment sends

    Every function of [Deploy.v] and [DeployLocal.v] is covered by the rules of
    [Effects.v]: commands, logs and queries are quiet, so only uploads leave an
    obligation, namely about their contents. *)
From S2P Require Import Prelude GoStd Codec Protocol Transport Tss Config Wizard Effects Certs Deploy DeployLocal Install.
Local Open Scope Z_scope.

Section Sends.
Context {pp : Type} `{Unicode} `{MapOrder} `{ConfigJson} `{Codec KeyShare}.
Context (K : Shared pp -> Prop) (P : forall A, effect pp A -> A -> Prop) `{!Quiet K P}.
Local Notation ok := (safe K P (fun _ => True)).

Lemma ok_lift {A} (m : go A) : ok (lift m).
Proof. done. Qed.
Lemma ok_fail {A} msg : ok (fail msg : prog pp A).
Proof. done. Qed.
Lemma ok_check p err : ok (check p err).
Proof. unfold check. effects. Qed.
Lemma ok_mret {A} (a : A) : ok (mret a).
Proof. done. Qed.
#[local] Hint Resolve ok_lift ok_fail ok_check ok_mret : effects.

(** The client a connection to a server gives. *)
Definition client_of (cfg : SSHConfig) : SSHClient := {| cl_Addr := Addr cfg; cl_User := ssh_User cfg |}.

Lemma ok_default_key home names : ok (default_key home names).
Proof. induction names as [|n names IH]; cbn [default_key]; effects. Qed.
#[local] Hint Resolve ok_default_key : effects.
Lemma safe_SSHConnect cfg : safe K P (fun c => c = client_of cfg) (SSHConnect cfg).
Proof.
  unfold SSHConnect. eapply (safe_bind _ _ (fun _ => True)); [effects|]. intros keys _. case_bool_decide; [done|].
  eapply (safe_bind _ _ (fun _ => True)); [effects|]. by intros _ _ ? [= <-].
Qed.
Lemma ok_SSHRunCommand c cmd : ok (SSHRunCommand c cmd).
Proof. unfold SSHRunCommand. effects. Qed.
#[local] Hint Resolve ok_SSHRunCommand : effects.
Lemma ok_sshRunWithPath c os cmd : ok (sshRunWithPath c os cmd).
Proof. apply ok_SSHRunCommand. Qed.
#[local] Hint Resolve ok_sshRunWithPath : effects.
Lemma ok_SSHUploadFile c content path :
  (forall r, P _ (SessionUpload c ("cat > " +:+ Strconv.Quote path) content) r) -> ok (SSHUploadFile c content path).
Proof.
  intros HP. unfold SSHUploadFile. effects. split; [done|]. intros r _. split; [apply HP|done].
Qed.
Lemma ok_remoteOS c : ok (remoteOS c).
Proof. unfold remoteOS. effects. Qed.
Lemma ok_remoteConfigPath os c : ok (remoteConfigPath os c).
Proof. unfold remoteConfigPath. effects. Qed.
Lemma ok_ensureDocker c p os : ok (ensureDocker c p os).
Proof. unfold ensureDocker. effects. Qed.
Lemma ok_buildFromSource c p os : ok (buildFromSource c p os).
Proof. unfold buildFromSource. effects. Qed.
Lemma ok_poll_ready n (m : prog pp bool) : ok m -> ok (poll_ready n m).
Proof. intros Hm. induction n; cbn [poll_ready]; effects. Qed.
#[local] Hint Resolve ok_remoteOS ok_remoteConfigPath ok_ensureDocker ok_buildFromSource ok_poll_ready : effects.
Lemma ok_ensureRemotePostgres c p sudo os : ok (ensureRemotePostgres c p sudo os).
Proof. unfold ensureRemotePostgres, not_ready. effects. apply ok_poll_ready. effects. Qed.
Lemma ok_start_party c p os dir cfg : ok (start_party c p os dir cfg).
Proof. unfold start_party. effects. Qed.
#[local] Hint Resolve ok_ensureRemotePostgres ok_start_party : effects.

Lemma safe_report {A} (Q : A -> Prop) p (m : prog pp A) : safe K P Q m -> safe K P Q (report p m).
Proof.
  intros Hm. unfold report. eapply safe_bind; [by apply safe_attempt|]. intros [a|e|] Ha; [intros ? [= <-]; by apply Ha| |done].
  eapply (safe_bind _ _ (fun _ => True)); [apply ok_log; exact _|done].
Qed.
(** The import writes to the database. *)
Definition imports_ok : Prop :=
  (forall dsn share r, P _ (SaveMasterShare dsn share) r) /\ (forall dsn r, P _ (ClearDerivedKeys dsn) r).
Lemma ok_importSharesToDB dsn dir party : imports_ok -> ok (importSharesToDB dsn dir party).
Proof.
  intros [HS HC]. unfold importSharesToDB, importShare. effects; (split; [done|]; by intros ? _; split; [auto|]).
Qed.
Lemma ok_both what r : ok (both what r).
Proof. unfold both. effects. Qed.
(** A value that was marshalled. *)
Lemma safe_marshal {A} p (m : go A) : safe K P (fun a => m = Ret a) (wrap p (lift m)).
Proof. apply safe_wrap. by intros a Ha. Qed.
Lemma ok_upload_config c cfg path :
  (forall data cmd r, MarshalIndent cfg = Ret data -> P _ (SessionUpload c cmd data) r) -> ok (upload_config c cfg path).
Proof.
  intros HP. unfold upload_config. eapply safe_bind; [apply safe_marshal|]. intros data Hd.
  apply ok_wrap, ok_SSHUploadFile. intros r. by apply HP.
Qed.

(** What [DeployParty] uploads: the three TLS files and the configuration. *)
Lemma ok_DeployParty `{!MapOrderLaws} c party cfg cert key caCert :
  (forall data cmd r, (data = cert \/ data = key \/ data = caCert \/
     exists os dir, MarshalIndent (remote_config cfg os dir) = Ret data) ->
     P _ (SessionUpload c cmd data) r) -> ok (DeployParty c party cfg cert key caCert).
Proof.
  intros HP. unfold DeployParty, provision. effects.
  - apply ok_SSHUploadFile. intros r. apply HP.
    match goal with HI : In _ (range _) |- _ => rename HI into Hin end.
    apply list_elem_of_In in Hin. rewrite range_perm in Hin. apply elem_of_map_to_list in Hin.
    rewrite !lookup_insert_Some, lookup_empty in Hin. naive_solver.
  - apply ok_upload_config. intros data cmd r Hd. apply HP. do 3 right. eauto.
Qed.

(** The local installation sends nothing: it writes files and runs commands. *)
Lemma ok_each_acc {A S} (f : S -> A -> prog pp S) s l : (forall s x, ok (f s x)) -> ok (each_acc f s l).
Proof. intros Hf. revert s. induction l as [|x l IH]; intros s; cbn [each_acc]; effects. Qed.
Lemma ok_project_root n dir : ok (project_root n dir).
Proof. revert dir. induction n as [|n IH]; intros dir; cbn [project_root]; effects. Qed.
Lemma ok_localBaseDir : ok localBaseDir.
Proof. unfold localBaseDir. effects. Qed.
Lemma ok_findProjectRoot : ok findProjectRoot.
Proof. unfold findProjectRoot. effects. apply ok_project_root. Qed.
Lemma ok_run_cmd cmd : ok (run_cmd cmd).
Proof. unfold run_cmd. effects. Qed.
#[local] Hint Resolve ok_project_root ok_localBaseDir ok_findProjectRoot ok_run_cmd : effects.
Lemma ok_inspect name : ok (inspect name).
Proof. unfold inspect. effects. Qed.
#[local] Hint Resolve ok_inspect : effects.
Lemma ok_killExistingParties : ok killExistingParties.
Proof.
  unfold killExistingParties. effects; apply ok_each_acc; intros st x; unfold kill_container, kill_port; effects.
Qed.
Lemma ok_build_image prefix verb built root party : ok (build_image prefix verb built root party).
Proof. unfold build_image, dockerBuildWithLogs. effects. Qed.
Lemma ok_start_container prefix dir party : ok (start_container prefix dir party).
Proof. unfold start_container. effects. Qed.
Lemma ok_verify_containers prefix : ok (verify_containers prefix).
Proof. unfold verify_containers, container_error, dockerLogs. effects. Qed.
Lemma ok_ensureLocalPostgres : ok ensureLocalPostgres.
Proof.
  unfold ensureLocalPostgres, hostPGAvailable, ensureHostPostgresDatabases, ensureDockerPostgres, ensureDockerPostgresDatabases, not_ready.
  effects. apply ok_poll_ready. effects.
Qed.
#[local] Hint Resolve ok_importSharesToDB ok_killExistingParties ok_build_image ok_start_container ok_verify_containers ok_ensureLocalPostgres : effects.
Lemma ok_UpdateLocal : ok UpdateLocal.
Proof. unfold UpdateLocal. effects. Qed.
Lemma ok_DeployLocal : imports_ok -> (forall path data r, P _ (WriteFile path data) r) -> ok DeployLocal.
Proof.
  intros HI HW. assert (forall path data, ok (answer (WriteFile path data))) as Hw by (intros; split; [done|]; by split).
  unfold DeployLocal, start_local, write_party, writeKeyShares, write_share. effects.
Qed.
End Sends.
