(* ===== verification/Handlers.v ===== *)
(** * Handlers: the installer's API (cmd/installer/handlers.go)

    The handlers that record the wizard's answers, generate, restore and export
    keys, test credentials and report the state. A request is the decoded body or
    the decoder's error, and a panic of a handler ends its request only. The
    handlers of deployments are in [Install.v], those of sweeps in [Sweep.v]. *)
From S2P Require Import Prelude GoStd Codec Protocol Transport Tss Vm Solana EdwardsPoint Mnemonic Wizard Effects Deploy.
Local Open Scope Z_scope.
Local Open Scope go_scope.

Section Handlers.
Context {pp : Type} `{Unicode} `{Bip39} `{AddressLibs}.
Notation prog := (prog pp).
Notation WizardState := (WizardState pp).

(** A body that does not decode is answered with status 400. *)
Definition with_body {Req} (req : go Req) (k : Req -> prog Response) : prog Response :=
  match req with Ret r => k r | Err e => mret (invalid_body e) | Panic => Done Panic end.
Definition bad_request (msg : string) : prog Response := mret (writeError 400 msg).

(** ** Servers *)

Definition handleServersTest (req : go SSHConfig) : prog Response := with_body req (fun cfg =>
  if bool_decide (ssh_Host cfg = "") then bad_request "host is required"
  else if bool_decide (ssh_User cfg = "") then bad_request "user is required"
  else
    client ← attempt (SSHConnect cfg);
    match client with
    | Ret client =>
      '(stdout, _, err) ← SSHRunCommand client "uname -a";
      match err with
      | Some e => mret (writeJSON 200 (jobj [("success", jbool false); ("error", jstr ("connected but command failed: " +:+ e))]))
      | None => mret (writeJSON 200 (jobj [("success", jbool true); ("system", jstr stdout)]))
      end
    | Err e => mret (writeJSON 200 (jobj [("success", jbool false); ("error", jstr e)]))
    | Panic => Done Panic
    end).

Record ServersReq := { sv_A : SSHConfig; sv_B : SSHConfig; sv_LocalMode : bool; sv_TransportPort : Z }.
Definition save_servers (r : ServersReq) (s : WizardState) : WizardState :=
  let local := sv_LocalMode r in
  set_step (set_servers s
    {| ServerA := if local then local_server else sv_A r; ServerB := if local then local_server else sv_B r;
       LocalMode := local; PartyAAddr := if local then "127.0.0.1:8080" else PartyAAddr (servers s);
       TransportPort := sv_TransportPort r |}) "servers".
Definition handleServersSave (req : go ServersReq) : prog Response := with_body req (fun r =>
  _ ← modify (save_servers r); mret ok_status).

Definition save_localhost (addr : string) (s : WizardState) : WizardState :=
  set_step (set_servers s {| ServerA := local_server; ServerB := local_server; LocalMode := true; PartyAAddr := addr;
                             TransportPort := TransportPort (servers s) |}) "servers".
(** A body that does not decode is taken for an empty one. *)
Definition handleLocalhostSetup (req : go string) : prog Response :=
  let addr := match req with Ret a => if bool_decide (a = "") then "127.0.0.1:8080" else a | _ => "127.0.0.1:8080" end in
  _ ← modify (save_localhost addr); mret ok_status.

Definition preflight_error (out err : string) : string :=
  if Strings.Contains out "Cannot connect" || Strings.Contains out "no such file" || Strings.Contains err "executable file not found"
  then "Docker is not running. Please start Docker Desktop." else "Docker check failed: " +:+ Strings.TrimSpace out.
Definition handlePreflight : prog Response :=
  localMode ← read (fun s => LocalMode (servers s));
  if localMode : bool then
    '(out, err) ← call (Exec CombinedOutput ["docker"; "info"]);
    let ok := negb (failed err) in
    mret (writeJSON 200 (jobj [
      ("docker", jobj [("ok", jbool ok); ("error", jstr (match err with Some e => preflight_error out e | None => "" end))]);
      ("ready", jbool ok)]))
  else mret (writeJSON 200 (jobj [("ready", jbool true)])).

Definition handleState : prog Response := s ← read SanitizedState; mret (writeJSON 200 s).

(** [file]: the multipart field and what reading it gives. *)
Definition handleSSHKeyUpload (file : go (go bytes)) : prog Response :=
  match file with
  | Err e => bad_request ("missing 'key' file field: " +:+ e)
  | Panic => Done Panic
  | Ret (Err e) => bad_request ("failed to read uploaded file: " +:+ e)
  | Ret Panic => Done Panic
  | Ret (Ret data) =>
    key ← attempt (answer (ParsePrivateKey data));
    match key with
    | Err e => bad_request ("not a valid SSH private key: " +:+ e)
    | _ =>
      tmp ← attempt (answer CreateTemp);
      match tmp with
      | Ret path =>
        w ← attempt (answer (WriteFile path data));
        match w with
        | Err e => _ ← call (Remove path); mret (writeError 500 ("failed to write temp file: " +:+ e))
        | _ => _ ← call (Chmod path); mret (writeJSON 200 (jobj [("path", jstr path)]))
        end
      | Err e => mret (writeError 500 ("failed to create temp file: " +:+ e))
      | Panic => Done Panic
      end
    end
  end.

(** ** Keys *)
Context (S256 Edwards : EllipticCurve) (P : Z) (newMnemonic : bytes -> go string).

Definition save_keys (mode : string) (k : MnemonicKeys) (s : WizardState) : WizardState :=
  let old := keys s in
  set_mode (set_step (set_keys s
    {| k_Mnemonic := mk_Mnemonic k; ECDSAPubKey := Hex.EncodeToString (mk_ECDSAPubKey k);
       EdDSAPubKey := Hex.EncodeToString (mk_EdDSAPubKey k); ShareA := ShareA old; ShareB := ShareB old;
       EdShareA := EdShareA old; EdShareB := EdShareB old |}) "prepared") mode.
(** After the mutex is released the state's public keys are read again, for a
    log line with their first 16 digits and for the response. *)
Definition keys_response (extra : list (string * jv)) : prog Response :=
  k ← peek keys;
  _ ← lift (Slice.sub (bytes_of (ECDSAPubKey k)) 0 16);
  k' ← peek keys;
  _ ← lift (Slice.sub (bytes_of (EdDSAPubKey k')) 0 16);
  e ← peek (fun s => ECDSAPubKey (keys s));
  d ← peek (fun s => EdDSAPubKey (keys s));
  mret (writeJSON 200 (jobj ([("status", jstr "ok")] ++ extra ++ [("ecdsaPubKey", jstr e); ("eddsaPubKey", jstr d)]))).

Definition handleInstallPrepare : prog Response :=
  entropy ← call NewEntropy;
  match GenerateMnemonicKeys Edwards S256 entropy newMnemonic with
  | Err e => mret (writeError 500 ("generate keys: " +:+ e))
  | Panic => Done Panic
  | Ret k => _ ← modify (save_keys "install" k); keys_response [("mnemonic", jstr (mk_Mnemonic k))]
  end.

Definition handleInstallRestore (req : go string) : prog Response := with_body req (fun mnemonic =>
  let mnemonic := Strings.TrimSpace mnemonic in
  if bool_decide (mnemonic = "") then bad_request "mnemonic is required"
  else match DeriveKeysFromMnemonic Edwards S256 mnemonic with
       | Err e => bad_request ("invalid mnemonic: " +:+ e)
       | Panic => Done Panic
       | Ret k => _ ← modify (save_keys "restore" k); keys_response []
       end).

(** *** Export *)
Record exportKeyReq := { ek_Path : string; ek_Prefix : string }.
Record ExportReq := { ex_Mnemonic : string; ex_Paths : list string; ex_Keys : list exportKeyReq }.

Definition extractCoinTypeFromPath (path : string) : string :=
  match Strings.Split (Strings.TrimPrefix path "m/") "/" with
  | _ :: ct :: _ => Strings.TrimRight ct "'hH"
  | _ => ""
  end.
(** The routine a requested key is derived with: the coin type 501 selects
    ed25519, a prefix or the coin type 118 a Cosmos address. *)
Inductive export_route := Ed25519 | Secp256k1 (prefix : list string).
Definition route (kr : exportKeyReq) : export_route :=
  let coinType := extractCoinTypeFromPath (ek_Path kr) in
  if bool_decide (coinType = "501") then Ed25519
  else if nonempty (ek_Prefix kr) then Secp256k1 [ek_Prefix kr]
  else if bool_decide (coinType = "118") then Secp256k1 ["cosmos"]
  else Secp256k1 [].
Definition export_key (mnemonic : string) (kr : exportKeyReq) : string * go DerivedKeyExport :=
  match route kr with
  | Ed25519 => ("ed25519", ExportSolanaKeyAtPath Edwards P mnemonic (ek_Path kr))
  | Secp256k1 prefix => ("secp256k1", DeriveECDSAKeyTSS S256 mnemonic (ek_Path kr) prefix)
  end.
(** An entry of [derivedKeys]; [None]: the derivation panics. *)
Definition export_entry (mnemonic : string) (kr : exportKeyReq) : go jv :=
  let '(curve, r) := export_key mnemonic kr in
  match r with
  | Ret x => Ret (jobj [("path", jstr (ex_Path x)); ("curve", jstr curve); ("privKeyHex", jstr (ex_PrivKeyHex x));
                        ("address", jstr (ex_Address x))])
  | Err e => Ret (jobj [("path", jstr (ek_Path kr)); ("curve", jstr curve); ("error", jstr e)])
  | Panic => Panic
  end.

(** A nil slice is [null]. *)
Definition jlist (l : list jv) : jv := match l with [] => jnull | _ => jarr l end.
Definition export_conn : string :=
  "host=127.0.0.1 port=5432 user=crypto_claw password=crypto_claw dbname=crypto_claw_a sslmode=disable".
Definition listDerivedAddressesFromDB : prog (list jv) :=
  conn ← attempt (answer (PgConnect export_conn));
  match conn with
  | Ret _ =>
    rows ← attempt (answer (PgQuery export_conn "SELECT derivation_path, curve, address FROM derived_keys ORDER BY created_at"));
    match rows with
    | Ret rows => mret (omap (fun row => match row with
        | Ret (path, curve, address) => Some (jobj [("path", jstr path); ("curve", jstr curve); ("address", jstr address)])
        | _ => None end) rows)
    | _ => mret []
    end
  | _ => mret []
  end.

Definition handleInstallExport (req : go ExportReq) : prog Response := with_body req (fun r =>
  let mnemonic := Strings.TrimSpace (ex_Mnemonic r) in
  if bool_decide (mnemonic = "") then bad_request "mnemonic is required"
  else
    match DeriveKeysFromMnemonic Edwards S256 mnemonic with
    | Err e => bad_request ("invalid mnemonic: " +:+ e)
    | Panic => Done Panic
    | Ret k =>
      match ExportSolanaKey Edwards mnemonic with
      | Err e => bad_request ("derive Solana key: " +:+ e)
      | Panic => Done Panic
      | Ret (solPriv, solAddr) =>
        dbAddrs ← listDerivedAddressesFromDB;
        let exportReqs := map (fun p => {| ek_Path := p; ek_Prefix := "" |}) (ex_Paths r) ++ ex_Keys r in
        derivedKeys ← lift (go_mapM (export_entry mnemonic) exportReqs);
        _ ← lift (Slice.sub (mk_ECDSAPubKey k) 0 8);
        mret (writeJSON 200 (jobj [("status", jstr "ok"); ("solPrivKey", jstr solPriv); ("solAddress", jstr solAddr);
                                   ("derivedKeys", jlist derivedKeys); ("dbAddresses", jlist dbAddrs)]))
      end
    end).

(** ** The language model *)
Record LLMReq := { lr_Provider : string; lr_APIKey : string; lr_Model : string; lr_Endpoint : string }.

Definition detectLLMProvider (apiKey : string) : string :=
  if Strings.HasPrefix apiKey "sk-ant-" then "anthropic"
  else if Strings.HasPrefix apiKey "sk-proj-" || Strings.HasPrefix apiKey "sk-or-" then "openai"
  else "".
(** The provider the key's format shows, if it differs from the one selected. *)
Definition mismatch (r : LLMReq) : option string :=
  let detected := detectLLMProvider (lr_APIKey r) in
  if nonempty detected && negb (bool_decide (detected = lr_Provider r)) then Some detected else None.
Definition effective_provider (r : LLMReq) : string :=
  if nonempty (lr_APIKey r) then default (lr_Provider r) (mismatch r) else lr_Provider r.
Definition save_llm (r : LLMReq) (s : WizardState) : WizardState :=
  let provider := effective_provider r in
  set_step (set_llm s
    {| LLMProvider := provider; LLMAPIKey := lr_APIKey r; LLMModel := lr_Model r;
       LLMEndpoint := if bool_decide (provider = "local") then lr_Endpoint r else "";
       DisableAI := DisableAI (llm s) |}) "llm".
Definition handleLLMSave (req : go LLMReq) : prog Response := with_body req (fun r =>
  if bool_decide (lr_Provider r = "") then bad_request "provider is required"
  else _ ← modify (save_llm r); mret ok_status).

Definition skip_llm (s : WizardState) : WizardState :=
  set_step (set_llm s {| LLMProvider := ""; LLMAPIKey := ""; LLMModel := ""; LLMEndpoint := ""; DisableAI := true |}) "llm".
Definition handleLLMSkip : prog Response := _ ← modify skip_llm; mret ok_status.

(** The message of an error response, empty if there is none. *)
Context (parse_error : bytes -> string).
Definition json_header : string * string := ("Content-Type", "application/json").
Definition chat_body (model : string) : string :=
  "{" +:+ quoted "model" +:+ ":" +:+ quoted model +:+ "," +:+ quoted "max_tokens" +:+ ":1," +:+ quoted "messages" +:+ ":[{"
  +:+ quoted "role" +:+ ":" +:+ quoted "user" +:+ "," +:+ quoted "content" +:+ ":" +:+ quoted "hi" +:+ "}]}".
Definition ollama_body (model : string) : string :=
  "{" +:+ quoted "model" +:+ ":" +:+ quoted model +:+ "," +:+ quoted "messages" +:+ ":[{" +:+ quoted "role" +:+ ":" +:+ quoted "user"
  +:+ "," +:+ quoted "content" +:+ ":" +:+ quoted "ping" +:+ "}]," +:+ quoted "stream" +:+ ":false}".

(** The request both cloud providers are tested with. *)
Definition testCloudKey (url : string) (headers : list (string * string)) (model : string) : prog unit :=
  _ ← answer (NewRequest url);
  '(status, body) ← wrap "connection failed" (answer (HttpPost url (json_header :: headers) (chat_body model)));
  if status =? 401 then fail "invalid API key (401 Unauthorized)"
  else if status =? 403 then fail "API key lacks permission (403 Forbidden)"
  else if 400 <=? status then
    let msg := parse_error body in
    if nonempty msg then fail msg else fail ("API returned status " +:+ Strconv.Itoa status)
  else mret tt.
Definition or_default (model dflt : string) : string := if bool_decide (model = "") then dflt else model.
Definition testAnthropicKey (apiKey model : string) : prog unit :=
  testCloudKey "https://api.anthropic.com/v1/messages" [("x-api-key", apiKey); ("anthropic-version", "2023-06-01")]
    (or_default model "claude-haiku-4-5-20251001").
Definition testOpenAIKey (apiKey model : string) : prog unit :=
  testCloudKey "https://api.openai.com/v1/chat/completions" [("Authorization", "Bearer " +:+ apiKey)]
    (or_default model "gpt-4o-mini").
Definition tryLocalRequest (url body : string) : prog unit :=
  _ ← answer (NewRequest url);
  '(status, _) ← wrap "connection failed" (answer (HttpPost url [json_header] body));
  if 400 <=? status then fail ("status " +:+ Strconv.Itoa status) else mret tt.
Definition testLocalEndpoint (endpoint model : string) : prog unit :=
  if bool_decide (endpoint = "") then fail "endpoint URL is required"
  else
    let model := or_default model "default" in
    let base := Strings.TrimRight endpoint "/" in
    r ← attempt (tryLocalRequest (base +:+ "/api/chat") (ollama_body model));
    match r with
    | Ret _ => mret tt
    | _ => wrap ("endpoint not reachable (tried " +:+ base +:+ "/api/chat and " +:+ base +:+ "/v1/chat/completions)")
             (tryLocalRequest (base +:+ "/v1/chat/completions") (chat_body model))
    end.

Definition handleLLMTest (req : go LLMReq) : prog Response :=
  match req with
  | Err _ => bad_request "invalid request body"
  | Panic => Done Panic
  | Ret r =>
    if bool_decide (lr_Provider r = "") then bad_request "provider is required"
    else if negb (bool_decide (lr_Provider r = "local")) && bool_decide (lr_APIKey r = "") then bad_request "API key is required"
    else match mismatch r with
    | Some detected => bad_request ("API key looks like " +:+ detected +:+ " but you selected " +:+ lr_Provider r)
    | None =>
      let test (m : prog unit) : prog Response :=
        e ← attempt m;
        match e with
        | Err e => mret (writeJSON 200 (jobj [("success", jbool false); ("error", jstr e)]))
        | _ => mret (writeJSON 200 (jobj [("success", jbool true)]))
        end in
      if bool_decide (lr_Provider r = "anthropic") then test (testAnthropicKey (lr_APIKey r) (lr_Model r))
      else if bool_decide (lr_Provider r = "openai") then test (testOpenAIKey (lr_APIKey r) (lr_Model r))
      else if bool_decide (lr_Provider r = "local") then test (testLocalEndpoint (lr_Endpoint r) (lr_Model r))
      else bad_request ("unknown provider: " +:+ lr_Provider r)
    end
  end.

(** ** Telegram *)

Definition save_bot (token username : string) (s : WizardState) : WizardState :=
  set_step (set_telegram s {| TelegramBotToken := token; TelegramBotUsername := username;
                              TelegramUserID := TelegramUserID (telegram s) |}) "telegram".
Definition handleTelegramSave (req : go string) : prog Response := with_body req (fun token =>
  if bool_decide (token = "") then bad_request "botToken is required"
  else
    bot ← attempt (answer (NewBotAPI token));
    match bot with
    | Err e => mret (writeJSON 200 (jobj [("status", jstr "error"); ("error", jstr ("Invalid bot token: " +:+ e))]))
    | Panic => Done Panic
    | Ret username =>
      _ ← modify (save_bot token username);
      mret (writeJSON 200 (jobj [("status", jstr "ok"); ("botUsername", jstr username)]))
    end).

Definition save_user (userID : Z) (s : WizardState) : WizardState :=
  set_telegram s {| TelegramBotToken := TelegramBotToken (telegram s); TelegramBotUsername := TelegramBotUsername (telegram s);
                    TelegramUserID := userID |}.
(** The first update with a message, and the offset after the updates before
    it; a message without a sender is dereferenced all the same. *)
Fixpoint first_message (offset : Z) (updates : list TgUpdate) : go (Z + (Z * string * string * Z)) :=
  match updates with
  | [] => Ret (inl offset)
  | u :: updates =>
    match tg_Message u with
    | None => first_message (tg_UpdateID u + 1) updates
    | Some m => match tg_From m with
                | None => Panic
                | Some (id, userName, firstName) => Ret (inr (id, userName, firstName, tg_Chat m))
                end
    end
  end.
(** [n] polls until the deadline. *)
Fixpoint verify_poll (n : nat) (token : string) (offset : Z) : prog Response :=
  match n with
  | O => mret (writeJSON 200 (jobj [("status", jstr "timeout");
           ("error", jstr "No message received within 60 seconds. Please send /start to the bot and try again.")]))
  | S n =>
    updates ← attempt (answer (GetUpdates token offset 5));
    match updates with
    | Ret updates =>
      m ← lift (first_message offset updates);
      match m with
      | inl offset => verify_poll n token offset
      | inr (userID, userName, firstName, chat) =>
        let userName := if bool_decide (userName = "") then firstName else userName in
        _ ← modify (save_user userID);
        _ ← call (SendMessage token chat
          ("✅ Connected! Welcome " +:+ userName +:+ ". Crypto Claw will send notifications to this chat."));
        mret (writeJSON 200 (jobj [("status", jstr "ok"); ("userId", jnum userID); ("username", jstr userName)]))
      end
    | _ => verify_poll n token offset
    end
  end.
Definition handleTelegramVerify : prog Response :=
  token ← read (fun s => TelegramBotToken (telegram s));
  if bool_decide (token = "") then bad_request "save bot token first"
  else
    bot ← attempt (answer (NewBotAPI token));
    match bot with
    | Err e => mret (writeError 500 ("bot init: " +:+ e))
    | Panic => Done Panic
    | Ret _ =>
      _ ← attempt (answer (GetUpdates token (-1) 1));
      n ← call Ticks;
      verify_poll n token 0
    end.
End Handlers.
