(* ===== verification/Sweep.v ===== *)
(** * Sweep: emptying recovered Solana addresses (cmd/installer/ed25519_sign.go, handlers.go)

    The transfer of all SOL or all of a token from an address recovered from the
    recovery phrase, signed with its scalar, and the RPC calls it is made of. *)
From S2P Require Import Prelude GoStd Codec Crypto Protocol Transport Tss Vm Solana EdwardsPoint Mnemonic Wizard Effects Deploy Handlers.
Local Open Scope Z_scope.
Local Open Scope go_scope.

(** The JSON of the answers: an error's message and the value ([getBalance],
    [getTokenAccountBalance], [sendTransaction]), and the accounts as mint, amount
    and program. A value that is absent is zero or empty. *)
Class SweepJson := {
  parse_balance : bytes -> go (option string * Z);
  parse_token_amount : bytes -> go (option string * string);
  parse_accounts : bytes -> go (list (string * string * string));
  parse_txid : bytes -> go (option string * string);
}.

Section Sweep.
Context {pp : Type} `{Unicode} `{Bip39} `{AddressLibs} `{SolanaGo} `{SolanaWorld} `{Edwards25519} `{SweepJson}.
Context (Edwards : EllipticCurve) (P : Z).
(** [ed25519.Verify]: key, message, signature. *)
Context (ed25519_Verify : bytes -> bytes -> bytes -> bool).
Notation prog := (prog pp).

(** ** RPC *)

Definition rpc_body (id : Z) (method params : string) : string :=
  "{" +:+ quoted "jsonrpc" +:+ ":" +:+ quoted "2.0" +:+ "," +:+ quoted "id" +:+ ":" +:+ Strconv.Itoa id +:+ "," +:+ quoted "method" +:+ ":"
  +:+ quoted method +:+ "," +:+ quoted "params" +:+ ":[" +:+ params +:+ "]}".
(** The status is not looked at; at most [limit] bytes of the answer are read. *)
Definition rpc (rpcURL body : string) (limit : Z) : prog bytes :=
  _ ← answer (NewRequest rpcURL);
  '(_, respBody) ← answer (HttpPost rpcURL [json_header] body);
  mret (take (Z.to_nat limit) respBody).
Definition no_rpc_error {A} (r : option string * A) : prog A :=
  match r with (Some m, _) => fail m | (None, a) => mret a end.

Definition balance_body (address : string) : string := rpc_body 1 "getBalance" (quoted address).
Definition getSOLBalance (rpcURL address : string) : prog Z :=
  b ← rpc rpcURL (balance_body address) 4096;
  r ← lift (parse_balance b);
  no_rpc_error r.
(** What is no number, or too large a one, counts as zero. *)
Definition scanned (s : string) : Z := match Strconv.SscanfUint64 s with Ret n => n | _ => 0 end.
Definition getTokenBalance (rpcURL ataAddress : string) : prog Z :=
  b ← rpc rpcURL (rpc_body 1 "getTokenAccountBalance" (quoted ataAddress)) 4096;
  r ← lift (parse_token_amount b);
  amount ← no_rpc_error r;
  mret (scanned amount).
Definition fetchBlockhash (rpcURL : string) : prog string :=
  b ← rpc rpcURL blockhash_body 4096;
  r ← lift (parse_blockhash b);
  blockhash ← no_rpc_error r;
  if bool_decide (blockhash = "") then fail "empty blockhash" else mret blockhash.
Definition send_body (txBytes : bytes) : string :=
  rpc_body 1 "sendTransaction" (quoted (Base64.EncodeToString txBytes) +:+ ",{" +:+ quoted "encoding" +:+ ":" +:+ quoted "base64"
    +:+ "," +:+ quoted "preflightCommitment" +:+ ":" +:+ quoted "confirmed" +:+ "}").
Definition sendTransaction (rpcURL : string) (txBytes : bytes) : prog string :=
  b ← rpc rpcURL (send_body txBytes) 4096;
  r ← lift (parse_txid b);
  no_rpc_error r.
Definition detectTokenProgramRPC (rpcURL : string) (mint : bytes) : prog bytes :=
  b ← rpc rpcURL (account_info_body mint) 8192;
  owner ← lift (parse_owner b);
  match owner with
  | None => fail ("mint account not found: " +:+ PublicKeyString mint)
  | Some owner => mret (if bool_decide (owner = PublicKeyString Token2022ProgramID) then Token2022ProgramID else TokenProgramID)
  end.

Record TokenAccountInfo := { ta_Mint : string; ta_Amount : string; ta_Program : string }.
Definition holding (a : string * string * string) : option TokenAccountInfo :=
  let '(mint, amount, program) := a in
  if nonempty amount && negb (bool_decide (amount = "0"))
  then Some {| ta_Mint := mint; ta_Amount := amount; ta_Program := program |} else None.
Definition holdings : list (string * string * string) -> list TokenAccountInfo := omap holding.
Definition fetchTokenAccountsRPC (rpcURL body : string) : prog (list TokenAccountInfo) :=
  b ← rpc rpcURL body 65536;
  accounts ← lift (parse_accounts b);
  mret (holdings accounts).
Definition accounts_body (id : Z) (owner : string) (program : bytes) : string :=
  rpc_body id "getTokenAccountsByOwner" (quoted owner +:+ ",{" +:+ quoted "programId" +:+ ":" +:+ quoted (PublicKeyString program)
    +:+ "},{" +:+ quoted "encoding" +:+ ":" +:+ quoted "jsonParsed" +:+ "}").
(** Best effort: an error of either query counts as no accounts. *)
Definition getTokenAccounts (rpcURL owner : string) : prog (list TokenAccountInfo) :=
  collect [accounts_body 1 owner TokenProgramID; accounts_body 2 owner Token2022ProgramID] (fun b =>
    r ← attempt (fetchTokenAccountsRPC rpcURL b);
    mret (match r with Ret l => l | _ => [] end)).

(** ** Transactions *)

Definition with_blockhash (m : SolMessage msg_rest) (h : bytes) : SolMessage msg_rest :=
  mkMessage (sm_NumRequiredSignatures m) (sm_AccountKeys m) h (sm_rest m).
(** From building the transaction to broadcasting it. *)
Definition sign_and_send (scalar : Z) (pubKey : bytes) (instructions : list Instruction) (from : bytes) (rpcURL : string)
    : prog string :=
  tx ← wrap "build tx" (lift (NewTransaction instructions (repeat x00 32) from));
  blockhash ← wrap "fetch blockhash" (fetchBlockhash rpcURL);
  h ← lift (Must (HashFromBase58 blockhash));
  let msg := with_blockhash (st_Message tx) h in
  msgBytes ← wrap "serialize message" (lift (MarshalMessage msg));
  sig ← wrap "sign" (lift (signEd25519WithScalar scalar pubKey msgBytes));
  if negb (ed25519_Verify pubKey msgBytes sig) then fail "local signature verification failed"
  else
    txBytes ← wrap "serialize signed tx" (lift (MarshalTransaction (mkTransaction [fill_slot sig (repeat x00 64)] msg)));
    wrap "send tx" (sendTransaction rpcURL txBytes).

Definition fee : Z := 5000.
Definition sweepSOL (mnemonic path destination rpcURL : string) : prog string :=
  '(scalar, pubKey) ← wrap "derive key" (lift (deriveScalarAtPath Edwards P mnemonic path));
  let from := PublicKeyFromBytes pubKey in
  to ← lift (Must (PublicKeyFromBase58 destination));
  balance ← wrap "get balance" (getSOLBalance rpcURL (PublicKeyString from));
  if balance =? 0 then fail ("zero balance at " +:+ PublicKeyString from)
  else if balance <=? fee then fail ("balance " +:+ Strconv.Itoa balance +:+ " lamports is too low to cover fee")
  else sign_and_send scalar pubKey [TransferInstruction (balance - fee) from to] from rpcURL.

(** Creating the destination's token account if it is missing, and the transfer. *)
Definition token_instructions (from to mint tokenProgram fromATA toATA : bytes) (amount : Z) : list Instruction := [
  {| ix_ProgramID := SPLAssociatedTokenAccountProgramID;
     ix_Accounts := [meta from true true; meta toATA false true; meta to false false; meta mint false false;
                     meta SystemProgramID false false; meta tokenProgram false false];
     ix_Data := [x01] |};
  {| ix_ProgramID := tokenProgram;
     ix_Accounts := [meta fromATA false true; meta toATA false true; meta from true false];
     ix_Data := x03 :: Binary.le_bytes 8 amount |}].
Definition sweepSPLToken (mnemonic path destination mint rpcURL : string) : prog string :=
  '(scalar, pubKey) ← wrap "derive key" (lift (deriveScalarAtPath Edwards P mnemonic path));
  let from := PublicKeyFromBytes pubKey in
  to ← lift (Must (PublicKeyFromBase58 destination));
  mintPK ← lift (Must (PublicKeyFromBase58 mint));
  tokenProgram ← wrap "detect token program" (detectTokenProgramRPC rpcURL mintPK);
  '(fromATA, _) ← wrap "find from ATA" (lift (findATA from mintPK tokenProgram));
  balance ← wrap "get token balance" (getTokenBalance rpcURL (PublicKeyString fromATA));
  if balance =? 0 then fail ("zero token balance at " +:+ PublicKeyString fromATA)
  else
    '(toATA, _) ← wrap "find to ATA" (lift (findATA to mintPK tokenProgram));
    sign_and_send scalar pubKey (token_instructions from to mintPK tokenProgram fromATA toATA balance) from rpcURL.

(** ** The handlers *)

Record SweepReq := { sw_Mnemonic : string; sw_Path : string; sw_Destination : string; sw_Mint : string; sw_RpcURL : string }.
Definition swept (what : string) (m : prog string) : prog Response :=
  r ← attempt m;
  match r with
  | Ret txid => mret (writeJSON 200 (jobj [("status", jstr "ok"); ("txid", jstr txid)]))
  | Err e => mret (writeError 500 (what +:+ " failed: " +:+ e))
  | Panic => Done Panic
  end.
Definition handleSweepSOL (req : go SweepReq) : prog Response := with_body req (fun r =>
  let mnemonic := Strings.TrimSpace (sw_Mnemonic r) in
  if bool_decide (mnemonic = "") || bool_decide (sw_Path r = "") || bool_decide (sw_Destination r = "") || bool_decide (sw_RpcURL r = "")
  then bad_request "mnemonic, path, destination, and rpcUrl are required"
  else swept "sweep" (sweepSOL mnemonic (sw_Path r) (sw_Destination r) (sw_RpcURL r))).
Definition handleSweepToken (req : go SweepReq) : prog Response := with_body req (fun r =>
  let mnemonic := Strings.TrimSpace (sw_Mnemonic r) in
  if bool_decide (mnemonic = "") || bool_decide (sw_Path r = "") || bool_decide (sw_Destination r = "")
     || bool_decide (sw_Mint r = "") || bool_decide (sw_RpcURL r = "")
  then bad_request "mnemonic, path, destination, mint, and rpcUrl are required"
  else swept "token sweep" (sweepSPLToken mnemonic (sw_Path r) (sw_Destination r) (sw_Mint r) (sw_RpcURL r))).
(** Address and endpoint. *)
Definition handleTokenAccounts (req : go (string * string)) : prog Response := with_body req (fun '(address, rpcURL) =>
  if bool_decide (address = "") || bool_decide (rpcURL = "") then bad_request "address and rpcUrl are required"
  else
    r ← attempt (getTokenAccounts rpcURL address);
    match r with
    | Ret accounts => mret (writeJSON 200 (jobj [("status", jstr "ok");
        ("accounts", jlist (map (fun a => jobj [("mint", jstr (ta_Mint a)); ("amount", jstr (ta_Amount a)); ("program", jstr (ta_Program a))]) accounts))]))
    | Err e => mret (writeError 500 ("failed to fetch token accounts: " +:+ e))
    | Panic => Done Panic
    end).
End Sweep.
