(* ===== verification/HandlersFacts.v ===== *)
(** * HandlersFacts: what the wizard's answers lead to

    The critical sections of all handlers as one relation, which key an export
    request derives compared with the adapter that would sign for the path, and
    what becomes of the choice to skip the language model. *)
From S2P Require Import Prelude GoStd Codec Protocol Transport Tss TssProtocolFacts Config Vm VmFacts Solana EdwardsPoint Mnemonic Store Llm Analyzer Main Wizard Effects Certs Deploy DeployLocal Install Handlers.
Local Open Scope Z_scope.

(** ** Every change of the state *)
Section Steps.
Context {pp : Type}.
Notation WizardState := (WizardState pp).

(** The handlers that record answers; [servers_too]: those of servers included. *)
Inductive handler_step (servers_too : bool) (s : WizardState) : WizardState -> Prop :=
| hs_servers r : servers_too = true -> handler_step servers_too s (save_servers r s)
| hs_localhost addr : servers_too = true -> handler_step servers_too s (save_localhost addr s)
| hs_keys mode k : handler_step servers_too s (save_keys mode k s)
| hs_llm r : handler_step servers_too s (save_llm r s)
| hs_skip : handler_step servers_too s (skip_llm s)
| hs_bot token username : handler_step servers_too s (save_bot token username s)
| hs_user id : handler_step servers_too s (save_user id s)
| hs_drain : handler_step servers_too s (DrainLogs s).1
| hs_generated a b s' : generation_done s a b = Ret s' -> handler_step servers_too s s'
| hs_inject a b : handler_step servers_too s (InjectPreParams s a b).
(** The goroutines of a deployment and of an update. *)
Inductive pipeline_step (s : WizardState) : WizardState -> Prop :=
| ps_log msg : pipeline_step s (AppendLog s msg)
| ps_reset mode step : pipeline_step s (set_step (set_mode (set_deployment s reset_deployment) mode) step)
| ps_outcome failed step : pipeline_step s (set_step (set_outcome failed s) step)
| ps_ecdsa a b : pipeline_step s (SetECDSAKeys s a b)
| ps_eddsa a b : pipeline_step s (SetEdDSAKeys s a b)
| ps_certs b : pipeline_step s (set_certs_of b s).
Definition wizard_step (s s' : WizardState) : Prop := handler_step true s s' \/ pipeline_step s s'.

(** Generating or injecting pre-parameters changes nothing else. *)
Lemma generation_done_pre (s : WizardState) a b s' : generation_done s a b = Ret s' -> exists p, s' = set_pre s p.
Proof. unfold generation_done. intros (p & _ & [= <-])%go_bind_Ret. by exists p. Qed.

(** ** Skipping the language model *)

Lemma wizard_step_DisableAI (s s' : WizardState) : wizard_step s s' -> DisableAI (llm s) = true -> DisableAI (llm s') = true.
Proof.
  intros [Hs|Hs]; destruct Hs; try done.
  match goal with HG : generation_done _ _ _ = _ |- _ => by apply generation_done_pre in HG as (p & ->) end.
Qed.

(** Skipping the language model can not be undone in an installer session:
    whatever is saved afterwards, a provider and its key included, every
    configuration that is deployed for Party B has AI disabled. So the wizard's
    answer is recorded, reported as configured, and without effect. *)
Theorem skip_llm_sticky (s s' : WizardState) dir :
  rtc wizard_step (skip_llm s) s' ->
  ac_DisableAI (cfg_Analyzer (buildPartyConfig s' "b" dir)) = true /\
  ac_DisableAI (cfg_Analyzer (buildLocalDockerConfig s' "b")) = true.
Proof.
  intros Hs. assert (HD : DisableAI (llm s') = true); [|by cbn].
  assert (HD : DisableAI (llm (skip_llm s)) = true) by done.
  induction Hs as [|s1 s2 s3 H12 _ IH]; [done|]. eauto using wizard_step_DisableAI.
Qed.
End Steps.

(** Skip, then choose a provider with a key, then deploy. *)
Lemma skip_llm_sticky_witness :
  let req := {| lr_Provider := "anthropic"; lr_APIKey := "sk-ant-1"; lr_Model := "m"; lr_Endpoint := "" |} in
  let s := save_llm req (skip_llm (new_state (preParams := unit))) in
  LLMProvider (llm s) = "anthropic" /\ ac_DisableAI (cfg_Analyzer (buildPartyConfig s "b" "/etc/crypto-claw")) = true.
Proof.
  intros req s. split; [reflexivity|].
  refine (proj1 (skip_llm_sticky (pp := unit) new_state s "/etc/crypto-claw" _)).
  apply rtc_once. left. constructor.
Defined.

(** ** Exporting a key and signing with it *)

Lemma TrimRight_snoc s c cutset :
  Strings.TrimRight (s +:+ String c "") cutset
  = if Strings.mem_ascii c cutset then Strings.TrimRight s cutset else s +:+ String c "".
Proof.
  unfold Strings.TrimRight. rewrite Strings.reverse_snoc. cbn [Strings.TrimLeft].
  destruct (Strings.mem_ascii c cutset); [done|].
  by rewrite <- Strings.reverse_snoc, reverse_involutive.
Qed.
Lemma TrimRight_digits s cutset : (forall c, Strings.mem_ascii c cutset = true -> Strconv.is_digit c = false) ->
  Strconv.forall_ascii Strconv.is_digit s = true -> Strings.TrimRight s cutset = s.
Proof.
  intros Hc Hs. destruct (Strings.string_snoc s) as [->|(s' & d & ->)]; [done|].
  rewrite TrimRight_snoc. rewrite Strconv.forall_ascii_app in Hs. cbn in Hs.
  destruct (Strings.mem_ascii d cutset) eqn:E; [|done]. rewrite (Hc d E) in Hs. by rewrite andb_false_r in Hs.
Qed.

(** The coin type of an export does not depend on the marker. *)
Lemma extractCoinTypeFromPath_path_text a c rest :
  Forall (fun x : component => 0 <= x.1) (a :: c :: rest) ->
  extractCoinTypeFromPath ("m/" +:+ path_text (a :: c :: rest)) = Strconv.Itoa c.1.
Proof.
  intros HF. unfold extractCoinTypeFromPath. rewrite Strings.TrimPrefix_app. unfold path_text. rewrite Strings.Split_Join; [|done|].
  2:{ apply Forall_fmap. eapply Forall_impl; [exact HF|]. intros x Hx. by apply component_text_no_slash. }
  apply Forall_cons in HF as [_ [Hc _]%Forall_cons]. destruct (Strconv.Itoa_digits c.1 Hc) as [Hd _].
  assert (Hno : forall d, Strings.mem_ascii d "'hH" = true -> Strconv.is_digit d = false).
  { intros d. unfold Strings.mem_ascii. cbn. rewrite !orb_true_iff, !Ascii.eqb_eq. by intros [->|[->|[->|?]]]. }
  cbn [map]. unfold component_text. destruct c as [n []]; cbn [fst snd mark_text] in *.
  - rewrite append_empty. by apply TrimRight_digits.
  - rewrite TrimRight_snoc. by apply TrimRight_digits.
  - rewrite TrimRight_snoc. by apply TrimRight_digits.
  - rewrite TrimRight_snoc. by apply TrimRight_digits.
Qed.


