(* ===== verification/InstallFacts.v ===== *)
(** * InstallFacts: what an installation does with the keys

    Who receives which key material, from the recovery phrase to the two machines,
    whatever the environment answers and the other handlers do meanwhile; that
    the recovery phrase recovers the keys of the parties an installation set up;
    and what happens when the pre-parameters are still being generated. *)
From S2P Require Import Prelude GoStd Codec Crypto Protocol Transport Tss TssFacts Config EdwardsPoint Mnemonic MnemonicFacts Wizard Effects Certs Deploy DeployLocal Install DeployFacts Handlers HandlersFacts.
Local Open Scope Z_scope.

Section Session.
Context {pp aux : Type} `{Unicode} `{MapOrder} `{ConfigJson} `{Codec KeyShare} `{TssLib}
        `{Codec (SaveData aux)} `{Codec (SaveData unit)} `{Bip39} `{X509}.
Context (mk_aux : list pp -> nat -> aux) (S256 Edwards : EllipticCurve).
Notation Shared := (Shared pp).

(** ** Key material *)

(** The two shares of one dealing of the keys of the phrase, Party A's first. *)
Definition dealt_ECDSA (mnemonic : string) (a b : KeyShare) : Prop :=
  exists k rand pps, DeriveKeysFromMnemonic Edwards S256 mnemonic = Ret k /\
    DealerSetupECDSA mk_aux S256 rand (mk_ECDSAPrivKey k) (mk_ECDSAPubKey k) (mk_ECDSAChainCode k) party_ids pps = Ret [a; b].
Definition dealt_EdDSA (mnemonic : string) (a b : KeyShare) : Prop :=
  exists k rand, DeriveKeysFromMnemonic Edwards S256 mnemonic = Ret k /\
    DealerSetupEdDSA Edwards rand (mk_EdDSAPrivKey k) (mk_EdDSAPubKey k) (mk_EdDSAChainCode k) party_ids = Ret [a; b].
Definition pair_of (D : KeyShare -> KeyShare -> Prop) (a b : option KeyShare) : Prop :=
  match a, b with Some a, Some b => D a b | None, None => True | _, _ => False end.
(** A party's certificate and private key, as PEM. *)
Definition issued (name : string) (cert key : bytes) : Prop :=
  exists d d' template ca k caKey certDER keyDER,
    GenerateKey d = Ret k /\ c_CommonName template = name /\ c_IsCA template = false /\
    CreateCertificate d' template ca k caKey = Ret certDER /\ MarshalECPrivateKey k = Ret keyDER /\
    cert = pem_Encode "CERTIFICATE" certDER /\ key = pem_Encode "EC PRIVATE KEY" keyDER.
Definition is_certificate (data : bytes) : Prop := data = [] \/ exists der, data = pem_Encode "CERTIFICATE" der.
Definition party_name (p : string) : string := "crypto-claw-party-" +:+ p.
(** Empty before certificates are generated. *)
Definition party_certs (p : string) (cert key : bytes) : Prop := (cert = [] /\ key = []) \/ issued (party_name p) cert key.
Definition certs_ok (c : Certs) : Prop :=
  is_certificate (Wizard.CACert c) /\ party_certs "a" (CertA c) (KeyA c) /\ party_certs "b" (CertB c) (KeyB c).

(** An installer session with one recovery phrase and two servers. *)
Record session (mnemonic : string) (sA sB : SSHConfig) (s : Shared) : Prop := {
  ss_ecdsa : pair_of (dealt_ECDSA mnemonic) (ShareA (keys (wizard s))) (ShareB (keys (wizard s)));
  ss_eddsa : pair_of (dealt_EdDSA mnemonic) (EdShareA (keys (wizard s))) (EdShareB (keys (wizard s)));
  ss_certs : certs_ok (certs (wizard s));
  ss_servers : ServerA (servers (wizard s)) = sA /\ ServerB (servers (wizard s)) = sB }.

(** What may be sent to a party: certificates, its own private key and shares,
    and its configuration, in which Party A gets no credentials of Party B. *)
Inductive material (mnemonic p : string) (data : bytes) : Prop :=
| m_cert : is_certificate data -> material mnemonic p data
| m_key cert : party_certs p cert data -> material mnemonic p data
| m_share a b : dealt_ECDSA mnemonic a b \/ dealt_EdDSA mnemonic a b ->
    Marshal (if bool_decide (p = "a") then a else b) = Ret data -> material mnemonic p data
| m_config cfg : cfg_Party cfg = p -> (p = "a" -> cfg_Analyzer cfg = no_analyzer /\ cfg_Telegram cfg = no_telegram) ->
    MarshalIndent cfg = Ret data -> material mnemonic p data.

Section Remote.
Context (mnemonic : string) (sA sB : SSHConfig).
Notation K := (session mnemonic sA sB).
(** Uploads are to the server of the party the data belongs to. *)
Definition to_its_party (A : Type) (e : effect pp A) (_ : A) : Prop :=
  match e with
  | SessionUpload c _ data => (c = client_of sA /\ material mnemonic "a" data) \/ (c = client_of sB /\ material mnemonic "b" data)
  | _ => True
  end.
Notation ok := (safe K to_its_party (fun _ => True)).
Local Instance quiet_session : Quiet K to_its_party.
Proof. split; [by intros A [] a|]. by intros s msg []. Qed.

Lemma to_party_upload c cmd data r p server : (p = "a" /\ server = sA) \/ (p = "b" /\ server = sB) ->
  c = client_of server -> material mnemonic p data -> to_its_party _ (SessionUpload c cmd data) r.
Proof. intros [[-> ->]|[-> ->]] -> Hm; [by left|by right]. Qed.

(** The servers as the theorems index them. *)
Definition party_server (p : string) (server : SSHConfig) : Prop := (p = "a" /\ server = sA) \/ (p = "b" /\ server = sB).

Lemma material_config (s : WizardState pp) p os dir dir' data : p = "a" \/ p = "b" ->
  MarshalIndent (remote_config (buildPartyConfig s p dir) os dir') = Ret data -> material mnemonic p data.
Proof. intros Hp. apply m_config; destruct Hp as [-> | ->]; by cbn. Qed.

Lemma safe_deploy_party `{!MapOrderLaws} name p server cert key caCert :
  party_server p server -> is_certificate caCert -> party_certs p cert key ->
  safe K to_its_party (fun x => x.1 = client_of server) (deploy_party name p server cert key caCert).
Proof.
  intros Hp Hca Hpc. unfold deploy_party. eapply (safe_bind _ _ (fun _ => True)); [effects|]. intros _ _.
  eapply (safe_bind _ _ (fun c => c = client_of server)).
  { apply safe_report, safe_SSHConnect; exact _. }
  intros c ->. eapply (safe_bind _ _ (fun _ => True)); [apply ok_remoteOS; exact _|]. intros os _.
  eapply (safe_bind _ _ (fun _ => True)); [apply ok_remoteConfigPath; exact _|]. intros dir _.
  eapply (safe_bind _ _ (fun _ => True)); [effects|]. intros s _.
  eapply (safe_bind _ _ (fun _ => True)); [|by intros _ _ ? [= <-]].
  apply safe_report; try exact _. apply ok_DeployParty; try exact _.
  intros data cmd r Hd. eapply to_party_upload; [exact Hp|done|].
  destruct Hd as [-> |[-> |[-> |(os' & dir' & Hd)]]].
  - destruct Hpc as [[-> ->]|(d & d' & t & ca & k & ck & cd & kd & _ & _ & _ & _ & _ & -> & _)]; apply m_cert; [by left|].
    right. eauto.
  - by eapply m_key.
  - by apply m_cert.
  - eapply material_config; [|exact Hd]. destruct Hp as [[-> _]|[-> _]]; auto.
Qed.
(** A share of [p] in a dealing. *)
Definition own_share (p : string) (sh : KeyShare) : Prop :=
  exists a b, (dealt_ECDSA mnemonic a b \/ dealt_EdDSA mnemonic a b) /\ sh = if bool_decide (p = "a") then a else b.
Lemma pair_of_own D (p : string) a b sh : (forall x y, D x y -> dealt_ECDSA mnemonic x y \/ dealt_EdDSA mnemonic x y) ->
  pair_of D a b -> (if bool_decide (p = "a") then a else b) = Some sh -> own_share p sh.
Proof.
  intros HD Hab Hsh. destruct a as [a|], b as [b|]; try done; [|by case_bool_decide].
  exists a, b. split; [by apply HD|]. by case_bool_decide; injection Hsh as <-.
Qed.
Lemma session_shares s p sh : K s ->
  (party_shares (keys (wizard s)) p).1 = Some sh \/ (party_shares (keys (wizard s)) p).2 = Some sh -> own_share p sh.
Proof.
  intros [He Hd _ _] Hsh. unfold party_shares in Hsh. destruct Hsh as [Hsh|Hsh].
  - eapply (pair_of_own _ p _ _ sh); [|exact He|by case_bool_decide]. auto.
  - eapply (pair_of_own _ p _ _ sh); [|exact Hd|by case_bool_decide]. auto.
Qed.
Lemma safe_read_shares p : safe K to_its_party
  (fun k => forall sh, (party_shares k p).1 = Some sh \/ (party_shares k p).2 = Some sh -> own_share p sh) (read keys).
Proof. apply safe_read; [exact _|]. intros s Hs sh. by apply session_shares. Qed.

Lemma ok_upload_share c p server sh path label : party_server p server -> c = client_of server ->
  (forall x, sh = Some x -> own_share p x) -> ok (upload_share c sh path label).
Proof.
  intros Hp Hc Hsh. destruct sh as [sh|]; [|done]. cbn [upload_share].
  eapply safe_bind; [apply safe_marshal|]. intros data Hd. apply ok_wrap, ok_SSHUploadFile; [exact _|]. intros r.
  eapply to_party_upload; [exact Hp|done|]. destruct (Hsh sh eq_refl) as (a & b & HD & ->). by eapply m_share.
Qed.
Lemma ok_uploadKeyShares c p server dir : party_server p server -> c = client_of server -> ok (uploadKeyShares c p dir).
Proof.
  intros Hp Hc. unfold uploadKeyShares. eapply safe_bind; [apply (safe_read_shares p)|]. intros k Hk. cbv beta in Hk.
  destruct (party_shares k p) as [e d]; cbn [fst snd] in Hk.
  apply ok_bind; [|intros _]; (eapply ok_upload_share; [done..|auto]).
Qed.
Lemma ok_temp_share sh path : ok (temp_share sh path).
Proof. destruct sh; [|done]. cbn [temp_share]. apply ok_bind; [|done]. apply ok_attempt. by split. Qed.
Lemma ok_importRemoteShares c p : ok (importRemoteShares c p).
Proof.
  unfold importRemoteShares. effects; [by split|apply ok_temp_share..| |by split].
  apply ok_importSharesToDB; [exact _|]. by split.
Qed.

Lemma ok_deployRemote `{!MapOrderLaws} : ok deployRemote.
Proof.
  unfold deployRemote.
  eapply (safe_bind _ _ (fun x => ServerA x.1 = sA /\ ServerB x.1 = sB /\ certs_ok x.2)).
  { apply safe_read; [exact _|]. intros s [_ _ Hc [HA HB]]. by split; [|split]. }
  intros [sv c] (HA & HB & Hca & HcA & HcB). cbn [fst snd] in *. rewrite HA, HB.
  eapply safe_bind; [apply (safe_deploy_party "B" "b"); [by right|done..]|]. intros [cB dB] HcB'.
  eapply safe_bind; [apply (safe_deploy_party "A" "a"); [by left|done..]|]. intros [cA dA] HcA'. cbn [fst] in *.
  effects; try (apply ok_both; exact _); try apply ok_importRemoteShares.
  - by apply (ok_uploadKeyShares _ _ sA); [left|].
  - by apply (ok_uploadKeyShares _ _ sB); [right|].
Qed.

(** *** The pipeline *)

Lemma safe_pem_pair role der (k : PrivateKey) : safe (pp := pp) K to_its_party (fun c => pc_CertPEM c = pem_Encode "CERTIFICATE" der /\
  exists keyDER, MarshalECPrivateKey k = Ret keyDER /\ pc_KeyPEM c = pem_Encode "EC PRIVATE KEY" keyDER) (pem_pair role der k).
Proof.
  unfold pem_pair. eapply safe_bind; [apply safe_marshal|]. intros cert _.
  eapply safe_bind; [apply safe_marshal|]. intros keyDER Hk ? [= <-]. split; [done|]. by exists keyDER.
Qed.
Lemma safe_GenerateCA name : safe (pp := pp) K to_its_party (fun c => is_certificate (pc_CertPEM c)) (GenerateCA name).
Proof.
  unfold GenerateCA. eapply (safe_bind _ _ (fun _ => True)); [effects|]. intros d _.
  do 5 (eapply (safe_bind _ _ (fun _ => True)); [first [by apply safe_wrap|effects]|]; intros ? _).
  eapply (safe_bind _ _ (fun _ => True)); [by apply safe_wrap|]. intros der _.
  eapply safe_mono; [apply safe_pem_pair|]. intros c [-> _]. right. eauto.
Qed.
Lemma safe_GeneratePartyCert ca name hosts :
  safe (pp := pp) K to_its_party (fun c => issued name (pc_CertPEM c) (pc_KeyPEM c)) (GeneratePartyCert ca name hosts).
Proof.
  unfold GeneratePartyCert. eapply (safe_bind _ _ (fun _ => True)); [effects|]. intros d _.
  eapply safe_bind; [apply safe_marshal|]. intros k Hk.
  eapply (safe_bind _ _ (fun _ => True)); [effects|]. intros d' _.
  eapply safe_bind; [apply safe_marshal|]. intros serial _.
  eapply (safe_bind _ _ (fun _ => True)); [effects|]. intros now _.
  eapply (safe_bind _ _ (fun _ => True)); [effects|]. intros d'' _.
  eapply safe_bind; [apply safe_marshal|]. intros der Hder.
  eapply safe_mono; [apply safe_pem_pair|]. intros c [Hc (kd & Hkd & Hkey)].
  exists d, d'', (party_template serial now name hosts), (pc_Cert ca), k, (pc_Key ca), der, kd. by repeat (split; [done|]).
Qed.
Lemma safe_GenerateCerts hA hB : safe (pp := pp) K to_its_party (fun b => is_certificate (cb_CACert b) /\
  party_certs "a" (cb_CertA b) (cb_KeyA b) /\ party_certs "b" (cb_CertB b) (cb_KeyB b)) (GenerateCerts hA hB).
Proof.
  unfold GenerateCerts. eapply safe_bind; [apply safe_wrap, safe_GenerateCA|]. intros ca Hca.
  eapply safe_bind; [apply safe_wrap, safe_GeneratePartyCert|]. intros cA HA.
  eapply safe_bind; [apply safe_wrap, safe_GeneratePartyCert|]. intros cB HB ? [= <-]. cbn.
  split; [done|]. split; by right.
Qed.

(** A critical section that changes neither shares, nor certificates, nor servers. *)
Definition keeps_session (f : WizardState pp -> WizardState pp) : Prop :=
  forall s, keys (f s) = keys s /\ certs (f s) = certs s /\ servers (f s) = servers s.
Lemma ok_modify_other f : keeps_session f -> ok (modify f).
Proof.
  intros Hf. apply ok_modify; [exact _|]. intros s [He Hd Hc Hs]. destruct (Hf (wizard s)) as (Ek & Ec & Es).
  by split; cbn; rewrite ?Ek, ?Ec, ?Es.
Qed.
Lemma ok_phase {A} (Q : A -> Prop) what (m : prog pp A) k :
  safe K to_its_party Q m -> (forall a, Q a -> ok (k a)) -> ok (phase what m k).
Proof.
  intros Hm Hk. unfold phase. eapply safe_bind; [by apply safe_attempt|]. intros [a|e|] Ha; [by apply Hk, Ha| |done].
  apply ok_bind; [effects|intros _]. by apply ok_modify_other.
Qed.
Lemma ok_run_and_finish name prefix m : ok m -> ok (run_and_finish name prefix m).
Proof.
  intros Hm. unfold run_and_finish, finish. effects; by apply ok_modify_other.
Qed.

Lemma two_shares (P : KeyShare * KeyShare -> Prop) (m : go (list KeyShare)) :
  (forall l, m = Ret l -> length l = 2%nat) -> (forall a b, m = Ret [a; b] -> P (a, b)) ->
  safe (pp := pp) K to_its_party P (shares ← lift m; match shares with a :: b :: _ => mret (a, b) | _ => Done Panic end).
Proof.
  intros Hl HP. eapply (safe_bind _ _ (fun l => m = Ret l)); [by intros l Hm|]. intros l Hm.
  specialize (Hl l Hm). destruct l as [|a [|b [|c l]]]; try discriminate Hl. intros ? [= <-]. by apply HP.
Qed.
Lemma build_shares_length {x} `{Codec (SaveData x)} curve pub chain sorted (auxs : list x) shares ids pts q l :
  build_shares curve pub chain sorted auxs shares ids pts q = Ret l -> length l = length auxs.
Proof. unfold build_shares. intros Hb%go_mapM_length. by rewrite Hb, length_seq. Qed.
Ltac built := match goal with HB : build_shares _ _ _ _ _ _ _ _ _ = Ret _ |- _ => rewrite (build_shares_length _ _ _ _ _ _ _ _ _ _ HB) end.
Lemma safe_deal_ECDSA k ab : DeriveKeysFromMnemonic Edwards S256 mnemonic = Ret k ->
  safe K to_its_party (fun x => dealt_ECDSA mnemonic x.1 x.2) (deal_ECDSA mk_aux S256 k ab).
Proof.
  intros Hk. unfold deal_ECDSA. eapply (safe_bind _ _ (fun _ => True)); [effects|]. intros rand _.
  do 2 (eapply (safe_bind _ _ (fun _ => True)); [by effects|]; intros ? _).
  apply two_shares; [|by intros x y HD; exists k, rand, [a; a0]].
  intros l. unfold DealerSetupECDSA. case_match; [done|]. intros HD. go_inv. by built.
Qed.
Lemma safe_deal_EdDSA k : DeriveKeysFromMnemonic Edwards S256 mnemonic = Ret k ->
  safe K to_its_party (fun x => dealt_EdDSA mnemonic x.1 x.2) (deal_EdDSA Edwards k).
Proof.
  intros Hk. unfold deal_EdDSA. eapply (safe_bind _ _ (fun _ => True)); [effects|]. intros rand _.
  apply two_shares; [|by intros x y HD; exists k, rand].
  intros l. unfold DealerSetupEdDSA. intros HD. go_inv. by built.
Qed.

Lemma ok_certify_and_deploy `{!MapOrderLaws} localMode : ok (certify_and_deploy localMode).
Proof.
  unfold certify_and_deploy. apply ok_bind; [effects|intros _]. apply ok_bind; [effects|intros sv].
  eapply ok_phase; [apply safe_GenerateCerts|]. intros b Hb.
  apply ok_bind; [|intros _; effects; apply ok_run_and_finish; [by apply ok_DeployLocal; [exact _|split|]|apply ok_deployRemote]].
  apply ok_modify; [exact _|]. intros s [He Hd _ Hs]. by split.
Qed.
Lemma ok_split_keys `{!MapOrderLaws} k ab localMode : DeriveKeysFromMnemonic Edwards S256 mnemonic = Ret k ->
  ok (split_keys mk_aux S256 Edwards k ab localMode).
Proof.
  intros Hk. unfold split_keys. do 2 (apply ok_bind; [effects|intros _]).
  eapply ok_phase; [by apply safe_deal_ECDSA|]. intros [a b] Hab. apply ok_bind; [effects|intros _].
  eapply ok_phase; [by apply safe_deal_EdDSA|]. intros [ea eb] Heab.
  apply ok_bind; [apply ok_modify; [exact _|]; intros s [He Hd Hc Hs]; by split|intros _].
  apply ok_bind; [apply ok_modify; [exact _|]; intros s [He Hd Hc Hs]; by split|intros _].
  apply ok_bind; [effects|intros _]. apply ok_certify_and_deploy.
Qed.
Lemma quiet_lock : quiet K (State (fun s : Shared => if ready_to_receive (wizard s) && negb (mu s) then Some (with_mu s true, pre (wizard s)) else None)).
Proof. intros s s' a [He Hd Hc Hs]. case_match; [|done]. intros [= <- _]. by split. Qed.
Lemma ok_WaitPreParams : ok (WaitPreParams (pp := pp)).
Proof.
  unfold WaitPreParams, receive_and_lock, unlock. effects; try (apply ok_call; [exact _|apply quiet_lock]);
    (apply ok_call; [exact _|]; intros s1 s2 ? [He Hd Hc Hs] [= <- _]; by split).
Qed.
Lemma ok_pipeline `{!MapOrderLaws} localMode : ok (pipeline mk_aux S256 Edwards mnemonic localMode).
Proof.
  unfold pipeline. apply ok_bind; [effects|intros _].
  eapply (ok_phase (fun k => DeriveKeysFromMnemonic Edwards S256 mnemonic = Ret k)); [by intros k Hk|]. intros k Hk.
  apply ok_bind; [apply ok_WaitPreParams|]. intros r.
  eapply (ok_phase (fun _ => True)); [done|]. intros ab _. by apply ok_split_keys.
Qed.

(** What the other handlers do meanwhile, and the goroutine of an update: anything
    but change a server, a share or a certificate. *)
Definition meanwhile (s s' : WizardState pp) : Prop :=
  handler_step false s s' \/ (pipeline_step s s' /\ keys s' = keys s /\ certs s' = certs s).
Definition others (s s' : Shared) : Prop :=
  (mu s = false /\ exists w, meanwhile (wizard s) w /\ s' = with_wizard s w) \/ (exists b, s' = with_updating s b).
Lemma others_session s s' : others s s' -> K s -> K s'.
Proof.
  intros [(_ & w & [Hw|(Hw & Ek & Ec)] & ->)|(b & ->)] [He Hd Hc Hs]; [..|by split].
  - destruct Hw; try done; try by split.
    match goal with HG : generation_done _ _ _ = _ |- _ => apply generation_done_pre in HG as (p & ->) end. by split.
  - split; cbn; rewrite ?Ek, ?Ec; [done..|]. by destruct Hw.
Qed.

End Remote.

(** ** Waiting for the pre-parameters *)

Notation exec := (exec others).

(** While the mutex is held nothing changes the wizard's state. *)
Lemma others_held s s' : rtc others s s' -> mu s = true -> mu s' = true /\ wizard s' = wizard s.
Proof.
  induction 1 as [|s1 s2 s3 [(Hm & _)|(b & ->)] _ IH]; [done|by rewrite Hm|]. intros Hs. by apply IH.
Qed.
(** Then no critical section runs any more. *)
Lemma held_blocks {A B} (f : WizardState pp -> WizardState pp * A) (k : A -> prog pp B) s t s' r :
  mu s = true -> exec s (locked f ≫= k) t s' r -> t = [] /\ r = None /\ mu s' = true /\ wizard s' = wizard s.
Proof.
  intros Hs (s1 & Hr & Hx). destruct (others_held _ _ Hr Hs) as [Hm Hw].
  destruct Hx as [(-> & -> & ->)|(s2 & a & t' & Ha & _)]; [done|]. cbn in Ha. by rewrite Hm in Ha.
Qed.
(** What the code before the wait does to the mutex: nothing. *)
Lemma others_free s s' : others s s' -> mu s = false -> mu s' = false.
Proof. by intros [(_ & w & _ & ->)|(b & ->)]. Qed.
Definition anything (A : Type) (e : effect pp A) (_ : A) : Prop := True.
#[local] Instance quiet_free : Quiet (fun s : Shared => mu s = false) anything.
Proof. by split. Qed.
Lemma exec_free {A} (m : prog pp A) s t s' r : safe (fun s => mu s = false) anything (fun _ => True) m ->
  mu s = false -> exec s m t s' r -> mu s' = false.
Proof. intros Hm Hs Hx. by destruct (safe_sound _ _ _ _ _ _ _ _ _ others_free Hm Hs Hx) as (_ & ? & _). Qed.
Lemma exec_state {A} (f : Shared -> option (Shared * A)) s t s' a :
  exec s (call (State f)) t s' (Some (Ret a)) -> exists s1 s2, rtc others s s1 /\ f s1 = Some (s2, a) /\ rtc others s2 s'.
Proof.
  intros (s1 & Hr1 & [(_ & _ & [=])|(s2 & a' & t' & Ha & _ & s3 & Hr3 & _ & -> & [[= ->]|[=]])]). eauto.
Qed.
Lemma exec_read {A} (f : WizardState pp -> A) s t s' a : exec s (read f) t s' (Some (Ret a)) ->
  exists s1, rtc others s s1 /\ a = f (wizard s1).
Proof.
  intros (s1 & s2 & Hr1 & E & _)%exec_state. destruct (mu s1); [done|]. injection E as _ <-. eauto.
Qed.

(** What follows the receive: with an error the mutex is released, without one
    the log entry waits for it. *)
Definition after_receive (p : PreParams pp) : prog pp (go (option pp * option pp)) :=
  match preParamErr p with
  | Some e => _ ← unlock; mret (Err e)
  | None => _ ← log "Cryptographic parameters ready."; _ ← unlock; mret (Ret (preParamA p, preParamB p))
  end.
Lemma exec_after_receive s t s' r : mu s = true -> exec s (after_receive (pre (wizard s))) t s' r ->
  (forall ab, r <> Some (Ret (Ret ab))) /\
  (mu s' = true -> preParamErr (pre (wizard s')) = None -> r = None).
Proof.
  intros Hs. unfold after_receive. destruct (preParamErr (pre (wizard s))) as [e|] eqn:E.
  - intros (s1 & Hr & Hx). destruct (others_held _ _ Hr Hs) as [Hm Hw]. cbn in Hx.
    destruct Hx as [(-> & -> & ->)|(s2 & a & t' & [= <- <-] & -> & s3 & Hr' & -> & -> & [->| ->])]; (split; [done|]); [done| |done].
    intros Hm'. assert (mu s3 = false); [|congruence].
    clear -Hr'. remember (with_mu s1 false) as x eqn:Ex. assert (mu x = false) as Hx by (by subst). clear Ex.
    induction Hr'; eauto using others_free.
  - intros Hx. destruct (held_blocks _ _ _ _ _ _ Hs Hx) as (-> & -> & _). done.
Qed.

(** A piece of the program that leaves the mutex free. *)
Lemma exec_free_bind {A B} (m : prog pp A) (f : A -> prog pp B) s t s' r :
  safe (fun s => mu s = false) anything (fun _ => True) m -> mu s = false -> exec s (m ≫= f) t s' r ->
  (mu s' = false /\ forall b, r <> Some (Ret b)) \/
  exists a t1 t2 s1, mu s1 = false /\ exec s m t1 s1 (Some (Ret a)) /\ exec s1 (f a) t2 s' r.
Proof.
  intros Hm Hs [[Hx ->]|[(e & Hx & Hr)|[[Hx Hr]|(a & t1 & t2 & s1 & -> & Hx & Hf)]]]%exec_bind;
    pose proof (exec_free _ _ _ _ _ Hm Hs Hx) as Hfree; [by left|left; by destruct Hr as [-> | ->]..|].
  right. by exists a, t1, t2, s1.
Qed.
Ltac free_step Hs Hx :=
  apply exec_free_bind in Hx; [|effects|exact Hs]; destruct Hx as [[Hfree ?]|(? & ? & ? & ? & Hs' & ? & Hx)];
  [by split; [auto|rewrite Hfree]|clear Hs; rename Hs' into Hs].
Lemma exec_waiting s t s' r : mu s = false ->
  exec s (_ ← log "Waiting for safe prime generation (started when wizard launched)...";
          n ← call Ticks; _ ← each (seq 1 n) (fun i => log (still_generating i));
          p ← receive_and_lock; after_receive p) t s' r ->
  (forall ab, r <> Some (Ret (Ret ab))) /\ (mu s' = true -> preParamErr (pre (wizard s')) = None -> r = None).
Proof.
  intros Hs Hx. do 3 free_step Hs Hx.
  destruct Hx as (s1 & Hr & [(-> & -> & ->)|(s2 & p & t' & E & -> & Hx)]); [done|]. cbn in E.
  destruct (ready_to_receive (wizard s1) && negb (mu s1)); [|done]. injection E as <- <-.
  by apply exec_after_receive in Hx.
Qed.

(** C19: Waiting for pre-parameters locks the installer up. [WaitPreParams] logs
    its success while it still holds the state's mutex, which the log takes. So it
    returns parameters only if they were there when it was called, and if the
    generation succeeds later it never returns: it stops with the mutex held, and
    from then on no handler's critical section runs. This happens in some
    execution from every state in which the generation is still running. *)
Theorem WaitPreParams_self_deadlock s : mu s = false ->
  (forall t s' ab, exec s WaitPreParams t s' (Some (Ret (Ret ab))) ->
     exists s1, rtc others s s1 /\ precomputed (wizard s1) = Some ab) /\
  (forall t s' r, exec s WaitPreParams t s' r -> mu s' = true -> preParamErr (pre (wizard s')) = None ->
     r = None /\
     forall A (f : WizardState pp -> WizardState pp * A) t2 s2 r2, exec s' (locked f) t2 s2 r2 ->
       t2 = [] /\ r2 = None /\ mu s2 = true) /\
  (forall a b, precomputed (wizard s) = None -> preParamReady (pre (wizard s)) = Generating ->
     preParamErr (pre (wizard s)) = None ->
     exists t s', exec s WaitPreParams t s' None /\ mu s' = true /\ preParamErr (pre (wizard s')) = None /\
       preParamA (pre (wizard s')) = Some a /\ preParamB (pre (wizard s')) = Some b).
Proof.
  intros Hs. assert (forall t s' r, exec s WaitPreParams t s' r ->
    (forall ab, r = Some (Ret (Ret ab)) -> exists s1, rtc others s s1 /\ precomputed (wizard s1) = Some ab) /\
    (mu s' = true -> preParamErr (pre (wizard s')) = None -> r = None)) as HW.
  { intros t s' r Hx. unfold WaitPreParams in Hx.
    apply exec_free_bind in Hx as [[Hf Hr]|(c & ? & ? & s1 & Hs1 & Hread & Hx)]; [by split; [intros ab E; by apply Hr in E|rewrite Hf]| |effects|done].
    apply exec_read in Hread as (s2 & Hr2 & ->). destruct (precomputed (wizard s2)) as [ab|] eqn:E.
    - apply exec_free_bind in Hx as [[Hf Hr]|(u & ? & ? & s3 & Hs3 & _ & Hx)]; [by split; [intros ? E'; by apply Hr in E'|rewrite Hf]| |effects|done].
      destruct Hx as (s4 & Hr4 & -> & -> & Hr). split.
      + intros ab' ->. destruct Hr as [[= ->]|[=]]. eauto.
      + intros Hm. assert (mu s4 = false); [|congruence]. clear -Hr4 Hs3. induction Hr4; eauto using others_free.
    - apply exec_waiting in Hx as [Hx Hx']; [|done]. split; [|done]. intros ab ->. by destruct (Hx ab). }
  split; [intros t s' ab Hx; by apply (HW _ _ _ Hx)|]. split.
  - intros t s' r Hx Hm He. split; [by apply (HW _ _ _ Hx)|]. intros A f t2 s2 r2 Hx2.
    destruct (held_blocks f (fun a => Done (Ret a)) s' t2 s2 r2 Hm Hx2) as (? & ? & ? & _). done.
  - intros a b Hp Hg He.
    set (w1 := AppendLog (wizard s) "Waiting for safe prime generation (started when wizard launched)...").
    destruct (generation_done w1 (Ret a) (Ret b)) as [w2|e|] eqn:Hgen; [|by unfold generation_done, close_ready in Hgen; cbn in Hgen; rewrite Hg in Hgen..].
    assert (pre w2 = {| preParamA := Some a; preParamB := Some b; preParamReady := Ready; preParamErr := None |}) as Hw2.
    { unfold generation_done, close_ready in Hgen. cbn in Hgen. rewrite Hg, He in Hgen. by injection Hgen as <-. }
    eexists _, (with_mu (with_wizard s w2) true). split; [|cbn; by rewrite Hw2].
    exists s. split; [done|]. right. exists s, None. eexists. split; [cbn; rewrite Hs, Hp; by destruct s|]. split; [done|]. cbn iota.
    exists s. split; [done|]. right. exists (with_wizard s w1), tt. eexists. split; [cbn; by rewrite Hs|]. split; [done|].
    eexists. split; [done|]. right. eexists _, 0%nat, _. split; [done|]. split; [done|].
    exists (with_wizard s w2). split.
    { apply rtc_once. left. split; [done|]. exists w2. split; [|done]. left. by eapply hs_generated. }
    right. eexists (with_mu (with_wizard s w2) true), _, _. split; [cbn; unfold ready_to_receive; by rewrite Hw2, Hs|]. split; [done|].
    cbn. eexists. split; [done|]. left. auto.
Qed.

(** ** The recovery phrase *)

Section Recover.
Context `{AddressLibs} (P : Z) `{!CurveLaws S256} `{!CurveLaws Edwards} `{!EdwardsLaws Edwards P}
        `{!SaveCodecLaws S256 aux} `{!SaveCodecLaws Edwards unit}.

Lemma hex_be_inj x y : 0 <= x < 2 ^ 256 -> 0 <= y < 2 ^ 256 ->
  Hex.EncodeToString (Binary.be_bytes 32 x) = Hex.EncodeToString (Binary.be_bytes 32 y) -> x = y.
Proof.
  intros Hx Hy E%(f_equal (fun s => Hex.hexDecode_bytes (bytes_of s))). unfold Hex.EncodeToString in E.
  rewrite !bytes_of_string_of, !Hex.hexDecode_encode in E. apply Ret_inj, (f_equal Binary.be_Z) in E.
  rewrite !Binary.be_Z_be_bytes in E. change (256 ^ Z.of_nat 32) with (2 ^ 256) in E. by rewrite !Z.mod_small in E.
Qed.
(** Both shares of a dealing are of the secret the phrase gives. *)
Lemma dealt_ECDSA_valid mnemonic a b : dealt_ECDSA mnemonic a b ->
  exists d pub chain coeffs ids kA kB, deriveECDSAKey S256 (NewSeed mnemonic "") = Ret (d, pub, chain) /\
    (valid_share S256 (aux := aux) coeffs d ids kA (ks_Share a) /\ ks_Curve a = CurveSecp256k1 /\ ks_ChainCode a = chain) /\
    (valid_share S256 (aux := aux) coeffs d ids kB (ks_Share b) /\ ks_Curve b = CurveSecp256k1 /\ ks_ChainCode b = chain).
Proof.
  intros (k & rand & pps & Hk & HD). unfold DeriveKeysFromMnemonic in Hk. case_match; [done|].
  apply go_bind_Ret in Hk as ([[d pub] chain] & Hd%wrap_err_Ret & Hk).
  apply go_bind_Ret in Hk as ([[x p] cc] & _ & [= <-]). cbn in HD.
  assert (uncompressed (mulG S256 d) = Ret pub /\ 0 <= d) as [Hpub Hnn].
  { unfold deriveECDSAKey in Hd. apply go_bind_Ret in Hd as ([d0 cc0] & Hm%masterKey_range & Hd).
    apply go_bind_Ret in Hd as (pub' & Hp & [= -> -> ->]). split; [|lia].
    rewrite (ScalarBaseMult_Bytes S256) in Hp by lia. unfold elliptic_Marshal in Hp. case_match; [|done].
    injection Hp as <-. apply uncompressed_spec; apply mulG_coords. }
  destruct (DealerSetupECDSA_valid mk_aux S256 rand d pub chain party_ids pps [a; b] Hnn Hpub HD) as (coeffs & _ & HV).
  destruct (HV 0%nat a eq_refl) as (kA & _ & VA & CA & HA & _). destruct (HV 1%nat b eq_refl) as (kB & _ & VB & CB & HB & _).
  eexists d, pub, chain, coeffs, _, kA, kB. split; [exact Hd|]. by repeat split.
Qed.
Lemma dealt_EdDSA_valid mnemonic a b : dealt_EdDSA mnemonic a b ->
  exists k coeffs ids kA kB, DeriveKeysFromMnemonic Edwards S256 mnemonic = Ret k /\
    (valid_share Edwards (aux := unit) coeffs (mk_EdDSAPrivKey k) ids kA (ks_Share a) /\ ks_Curve a = CurveEd25519 /\
       ks_ChainCode a = mk_EdDSAChainCode k) /\
    (valid_share Edwards (aux := unit) coeffs (mk_EdDSAPrivKey k) ids kB (ks_Share b) /\ ks_Curve b = CurveEd25519 /\
       ks_ChainCode b = mk_EdDSAChainCode k).
Proof.
  intros (k & rand & Hk & HD). destruct (DeriveKeysFromMnemonic_EdDSA _ _ _ _ Hk) as (_ & Hd & _).
  destruct (DealerSetupEdDSA_valid Edwards rand _ _ _ _ _ (eq_ind_r (fun z => 0 <= z) (ed_scalar_nonneg _) Hd) HD) as (coeffs & _ & HV).
  destruct (HV 0%nat a eq_refl) as (kA & _ & VA & CA & HA & _). destruct (HV 1%nat b eq_refl) as (kB & _ & VB & CB & HB & _).
  eexists k, coeffs, _, kA, kB. split; [exact Hk|]. by repeat split.
Qed.

Lemma dealt_ECDSA_recovers mnemonic a b path prefix e l : dealt_ECDSA mnemonic a b ->
  ec_N S256 <= 2 ^ 256 -> parsePath path = Ret l -> l <> [] -> DeriveECDSAKeyTSS S256 mnemonic path prefix = Ret e ->
  exists key pub dkA dkB, DeriveKey (aux := aux) S256 Edwards a path = Ret dkA /\ DeriveKey (aux := aux) S256 Edwards b path = Ret dkB /\
    dk_PublicKey dkA = pub /\ dk_PublicKey dkB = pub /\
    0 < key < ec_N S256 /\ uncompressed (mulG S256 key) = Ret pub /\
    ex_PrivKeyHex e = Hex.EncodeToString (Binary.be_bytes 32 key) /\
    export_address (mulG S256 key) prefix = Ret (ex_Address e).
Proof.
  intros He HN Hl Hne HE.
  apply dealt_ECDSA_valid in He as (d & pub & chain & coeffs & ids & kA & kB & HD & (VA & CA & HA) & (VB & CB & HB)).
  destruct (mnemonic_recovers_ECDSA S256 Edwards mnemonic path prefix e d pub chain coeffs ids kA a l)
    as (dkA & key & DA & Hkey & Hhex & PA & _ & Hadr); try done.
  destruct (mnemonic_recovers_ECDSA S256 Edwards mnemonic path prefix e d pub chain coeffs ids kB b l)
    as (dkB & key' & DB & Hkey' & Hhex' & PB & _ & _); try done.
  assert (key' = key) as -> by (apply hex_be_inj; [lia..|congruence]).
  exists key, (dk_PublicKey dkA), dkA, dkB. repeat (split; [done|]). split; [congruence|]. done.
Qed.

Lemma dealt_EdDSA_recovers mnemonic a b path l : dealt_EdDSA mnemonic a b ->
  ec_N Edwards <= 2 ^ 256 -> parsePath path = Ret l -> l <> [] ->
  exists scalar pub dkA dkB, DeriveKey (aux := aux) S256 Edwards a path = Ret dkA /\ DeriveKey (aux := aux) S256 Edwards b path = Ret dkB /\
    dk_PublicKey dkA = pub /\ dk_PublicKey dkB = pub /\
    edwardsPointToEd25519PubKey (mulG Edwards scalar) = Ret pub /\
    ExportSolanaKeyAtPath Edwards P mnemonic path
      = Ret {| ex_Path := path; ex_PrivKeyHex := base58_Encode (Binary.le_bytes 32 scalar ++ pub); ex_Address := base58_Encode pub |}.
Proof.
  intros Hd HNe Hl Hne. apply dealt_EdDSA_valid in Hd as (k & coeffs & ids & kA & kB & Hk & (VA & CA & HA) & (VB & CB & HB)).
  destruct (mnemonic_recovers_EdDSA (aux := aux) S256 Edwards P mnemonic path k coeffs ids kA a l)
    as (z & pub & dkA & Hz & DA & PA & HP & _ & HX); try done.
  destruct (mnemonic_recovers_EdDSA (aux := aux) S256 Edwards P mnemonic path k coeffs ids kB b l)
    as (z' & pub' & dkB & Hz' & DB & PB & _); try done.
  rewrite Hz in Hz'. injection Hz' as <- <-. exists z, pub, dkA, dkB. by repeat (split; [done|]).
Qed.

(** C4: The recovery phrase recovers every key of an installation, from the code
    that derives and deals the keys to the code that exports them. After any
    execution of the installation pipeline, for every path the parties accept, the
    share of Party A and the share of Party B in the session derive the same public
    key. For ECDSA, whenever [DeriveECDSAKeyTSS] exports a key from the phrase alone,
    it is the discrete logarithm of that public key and the address is that key's.
    For ed25519, [ExportSolanaKeyAtPath] always exports the scalar of that public
    key, with its address. *)
Theorem installed_keys_recoverable `{!MapOrderLaws} mnemonic sA sB localMode s t s' r path l :
  ec_N S256 <= 2 ^ 256 -> ec_N Edwards <= 2 ^ 256 ->
  session mnemonic sA sB s -> exec s (pipeline mk_aux S256 Edwards mnemonic localMode) t s' r ->
  parsePath path = Ret l -> l <> [] ->
  (forall a b prefix e, ShareA (keys (wizard s')) = Some a -> ShareB (keys (wizard s')) = Some b ->
     DeriveECDSAKeyTSS S256 mnemonic path prefix = Ret e ->
     exists key pub dkA dkB, DeriveKey (aux := aux) S256 Edwards a path = Ret dkA /\ DeriveKey (aux := aux) S256 Edwards b path = Ret dkB /\
       dk_PublicKey dkA = pub /\ dk_PublicKey dkB = pub /\
       0 < key < ec_N S256 /\ uncompressed (mulG S256 key) = Ret pub /\
       ex_PrivKeyHex e = Hex.EncodeToString (Binary.be_bytes 32 key) /\
       export_address (mulG S256 key) prefix = Ret (ex_Address e)) /\
  (forall a b, EdShareA (keys (wizard s')) = Some a -> EdShareB (keys (wizard s')) = Some b ->
     exists scalar pub dkA dkB, DeriveKey (aux := aux) S256 Edwards a path = Ret dkA /\ DeriveKey (aux := aux) S256 Edwards b path = Ret dkB /\
       dk_PublicKey dkA = pub /\ dk_PublicKey dkB = pub /\
       edwardsPointToEd25519PubKey (mulG Edwards scalar) = Ret pub /\
       ExportSolanaKeyAtPath Edwards P mnemonic path
         = Ret {| ex_Path := path; ex_PrivKeyHex := base58_Encode (Binary.le_bytes 32 scalar ++ pub);
                  ex_Address := base58_Encode pub |}).
Proof.
  intros HN HNe Hs Hx Hl Hne.
  destruct (safe_sound others _ (to_its_party mnemonic sA sB) _ _ _ _ _ _ (others_session mnemonic sA sB)
              (ok_pipeline mnemonic sA sB localMode) Hs Hx) as (_ & [He Hd _ _] & _).
  split.
  - intros a b prefix e Ea Eb HE. rewrite Ea, Eb in He.
    destruct (dealt_ECDSA_recovers mnemonic a b path prefix e l He HN Hl Hne HE) as (key & pub & dkA & dkB & HR). by exists key, pub, dkA, dkB.
  - intros a b Ea Eb. rewrite Ea, Eb in Hd. by apply (dealt_EdDSA_recovers mnemonic a b path l).
Qed.
End Recover.
End Session.

(** ** A small installation

    Servers that accept everything, alone with the installer. *)
Module ToyInstall.
#[export] Instance order : MapOrder := fun V m => map_to_list m.
#[export] Instance order_laws : MapOrderLaws.
Proof. by intros V m. Qed.
#[export] Instance config_json : ConfigJson := {|
  MarshalIndent := fun c => Ret (bytes_of (cfg_Party c)); UnmarshalConfig := fun _ => Err "" |}.
#[export] Instance share_codec : Codec KeyShare := {|
  Marshal := fun s => Ret (ks_Share s); Unmarshal := fun _ => Err ""; representable := fun _ => True |}.
#[export] Instance x509 : X509 := {|
  PrivateKey := nat; GenerateKey := fun d => Ret d; RandInt128 := fun d => Ret (Z.of_nat d);
  CreateCertificate := fun _ t _ _ _ => Ret (bytes_of (c_CommonName t));
  ParseCertificate := fun _ => Ret (ca_template 1 1 "crypto-claw-ca");
  MarshalECPrivateKey := fun k => Ret (bytes_of (Strconv.Itoa (Z.of_nat k)));
  pem_Encode := fun type b => bytes_of type ++ b; is_ip := fun _ => false;
  KeyPair := bytes; X509KeyPair := fun c k => Ret (c ++ k); AppendCertsFromPEM := fun _ => None |}.

Definition server (host : string) : SSHConfig :=
  {| ssh_Host := host; ssh_Port := 22; ssh_User := "root"; ssh_KeyPath := ""; ssh_Password := "pw" |}.
Definition mk_aux (l : list unit) (i : nat) : unit := tt.
(** The phrase and the servers are entered; the pre-parameters may be ready. *)
Definition start (p : PreParams unit) : Shared unit :=
  let w := new_state (preParams := unit) in
  {| wizard := set_pre (set_servers w {| ServerA := server "a.example"; ServerB := server "b.example"; LocalMode := false;
                                         PartyAAddr := ""; TransportPort := 0 |}) p;
     mu := false; deploying := true; updating := false |}.
Definition generated : PreParams unit :=
  {| preParamA := Some tt; preParamB := Some tt; preParamReady := Ready; preParamErr := None |}.
Definition generating : PreParams unit :=
  {| preParamA := None; preParamB := None; preParamReady := Generating; preParamErr := None |}.

(** Commands succeed and files are not there. *)
Definition oracle (A : Type) (e : effect unit A) : option A :=
  match e in Effects.effect _ A return option A with
  | ReadFile _ => Some (Err "no such file") | WriteFile _ _ => Some (Ret tt) | MkdirAll _ => Some (Ret tt)
  | MkdirTemp => Some (Ret "/tmp/import") | Remove _ => Some tt | UserHomeDir => Some (Err "no home")
  | Sleep _ => Some tt | Dial _ _ _ => Some (Ret tt) | NewSession _ => Some (Ret tt)
  | SessionRun _ _ => Some ("true", "", None) | SessionUpload _ _ _ => Some Uploaded
  | Tunnel _ => Some (Ret tt) | Listen => Some (Ret 40000) | NewPostgresStore _ _ => Some (Ret tt)
  | RandInts => Some (fun _ => Ret 987654321) | RandKeys => Some 7%nat | Now => Some 1 | Ticks => Some 0%nat
  | Schedule => Some true
  | _ => None
  end.
Definition uploads (t : list (event unit)) : list (string * string) :=
  omap (fun x => match x with Called e _ => match e with SessionUpload c cmd _ => Some (cl_Addr c, cmd) | _ => None end end) t.
End ToyInstall.
#[local] Existing Instances Toy.unicode number_parties Toy.toy_save_codec Toy.curve_laws Toy.save_codec_laws ToyMnemonic.bip39 ToyMnemonic.addresses
  ToyInstall.order ToyInstall.order_laws ToyInstall.config_json ToyInstall.share_codec ToyInstall.x509 small_codec_laws.

Definition example : prog unit unit :=
  pipeline (pp := unit) (aux := unit) ToyInstall.mk_aux Toy.curve Small.curve ToyMnemonic.mnemonic false.
Definition example_run : list (event unit) * Shared unit * option (go unit) :=
  run ToyInstall.oracle (ToyInstall.start ToyInstall.generated) example.

Lemma example_result :
  let '(t, s, r) := example_run in
  r = Some (Ret tt) /\
  map fst (ToyInstall.uploads t) = (let host h n := repeat (h +:+ ".example:22") n in host "b" 4 ++ host "a" 6 ++ host "b" 2)%nat /\
  let k := keys (wizard s) in
  is_some (ShareA k) = true /\ is_some (ShareB k) = true /\ is_some (EdShareA k) = true /\ is_some (EdShareB k) = true.
Proof.
  unfold example_run, example, pipeline. rewrite ToyMnemonic.keys_eq.
  vm_compute. repeat (split; [reflexivity|]). reflexivity.
Qed.
Lemma example_session : session ToyInstall.mk_aux Toy.curve Small.curve ToyMnemonic.mnemonic (ToyInstall.server "a.example")
  (ToyInstall.server "b.example") (ToyInstall.start ToyInstall.generated).
Proof. split; [done|done| |done]. split; [by left|]. split; by left. Qed.


Lemma installed_keys_recoverable_witness :
  exists t s' a b dkA dkB,
    exec others (ToyInstall.start ToyInstall.generated) example t s' (Some (Ret tt)) /\
    ShareA (keys (wizard s')) = Some a /\ ShareB (keys (wizard s')) = Some b /\
    DeriveKey (aux := unit) Toy.curve Small.curve a ToyMnemonic.path = Ret dkA /\
    DeriveKey (aux := unit) Toy.curve Small.curve b ToyMnemonic.path = Ret dkB /\ dk_PublicKey dkA = dk_PublicKey dkB.
Proof.
  pose proof example_result as HE. destruct example_run as [[t s'] r] eqn:E. destruct HE as (-> & _ & Ha & Hb & _).
  pose proof (run_exec others _ _ _ _ _ _ E) as Hx.
  destruct (ShareA (keys (wizard s'))) as [a|] eqn:Ea; [|discriminate Ha].
  destruct (ShareB (keys (wizard s'))) as [b|] eqn:Eb; [|discriminate Hb].
  pose proof ToyMnemonic.exported_eq as HD.
  destruct (installed_keys_recoverable (aux := unit) ToyInstall.mk_aux Toy.curve Small.curve Small.p ToyMnemonic.mnemonic
    (ToyInstall.server "a.example") (ToyInstall.server "b.example") false _ t s' _ ToyMnemonic.path [2147483692; 2147483708]
    ltac:(discriminate) ltac:(discriminate) example_session Hx ltac:(reflexivity) ltac:(discriminate)) as [HR _].
  destruct (HR a b [] _ Ea Eb HD) as (key & pub & dkA & dkB & DA & DB & PA & PB & _).
  exists t, s', a, b, dkA, dkB. split; [exact Hx|]. repeat (split; [assumption|]). congruence.
Defined.

Lemma WaitPreParams_self_deadlock_witness :
  exists t s', exec others (ToyInstall.start ToyInstall.generating) WaitPreParams t s' None /\
    mu s' = true /\ preParamA (pre (wizard s')) = Some tt /\
    forall t2 s2 r2, exec others s' (log "anything") t2 s2 r2 -> r2 = None.
Proof.
  destruct (WaitPreParams_self_deadlock (ToyInstall.start ToyInstall.generating) eq_refl) as (_ & Hstuck & Hreach).
  destruct (Hreach tt tt eq_refl eq_refl eq_refl) as (t & s' & Hx & Hm & He & Ha & _).
  exists t, s'. split; [exact Hx|]. split; [exact Hm|]. split; [exact Ha|].
  intros t2 s2 r2 H2. destruct (proj2 (Hstuck _ _ _ Hx Hm He) _ _ _ _ _ H2) as (_ & Hr & _). exact Hr.
Defined.
