(* ===== verification/LinkFacts.v ===== *)
(** * LinkFacts: how the parties of an installation reach each other

    The address Party A dials, the address Party B listens on, the port the
    containers publish and the names in Party B's certificate are written by
    different functions of the installer; whether they fit together. *)
From S2P Require Import Prelude GoStd Codec Protocol Transport Tss Config Wizard Effects Certs Deploy DeployLocal Install.
Local Open Scope Z_scope.

(** ** Host and port *)

Lemma cut_char s c : Strings.mem_ascii c s = true ->
  exists a b, s = a +:+ String c b /\ Strings.mem_ascii c a = false /\ Strings.cut s (String c "") = Some (a, b).
Proof.
  induction s as [|d s IH]; [done|]. unfold Strings.mem_ascii in *. cbn.
  destruct (Ascii.eqb_spec c d) as [->|Hn]; cbn.
  - intros _. exists "", s. done.
  - intros Hs. destruct (IH Hs) as (a & b & -> & Ha & ->). exists (String d a), b. cbn.
    destruct (Ascii.eqb_spec c d); done.
Qed.
Lemma cut_app a c b : Strings.mem_ascii c a = false -> Strings.cut (a +:+ String c b) (String c "") = Some (a, b).
Proof.
  unfold Strings.mem_ascii. induction a as [|d a IH].
  - intros _. change ("" +:+ String c b) with (String c b). cbn [Strings.cut Strings.strip_prefix]. by rewrite Ascii.eqb_refl.
  - change (String d a +:+ String c b) with (String d (a +:+ String c b)). cbn. intros [Hd Ha]%orb_false_iff. by rewrite Hd, IH.
Qed.
Lemma Contains_char s c : Strings.Contains s (String c "") = Strings.mem_ascii c s.
Proof.
  destruct (Strings.mem_ascii c s) eqn:E; unfold Strings.Contains.
  - by apply cut_char in E as (a & b & _ & _ & ->).
  - unfold Strings.mem_ascii in *. induction s as [|d s IH]; [done|]. cbn in *. apply orb_false_iff in E as [-> E].
    specialize (IH E). by destruct (Strings.cut s _) as [[??]|].
Qed.
Lemma mem_ascii_app c a b : Strings.mem_ascii c (a +:+ b) = Strings.mem_ascii c a || Strings.mem_ascii c b.
Proof.
  unfold Strings.mem_ascii. induction a as [|d a IH]; [done|].
  change (String d a +:+ b) with (String d (a +:+ b)). cbn. by rewrite IH, orb_assoc.
Qed.

Definition plain_host (h : string) : bool :=
  negb (Strings.mem_ascii ":" h) && negb (Strings.mem_ascii "[" h) && negb (Strings.mem_ascii "]" h).
Lemma Itoa_no_char c n : 0 <= n -> Strconv.is_digit c = false -> Strings.mem_ascii c (Strconv.Itoa n) = false.
Proof.
  intros Hn Hc. destruct (Strconv.Itoa_digits n Hn) as [Hd _]. apply negb_true_iff, (Strconv.digits_no_char c); done.
Qed.
Lemma strip_bracket h r : Strings.mem_ascii "[" h = false -> Strings.strip_prefix "[" (h +:+ String ":" r) = None.
Proof.
  intros Hh. destruct (Strings.strip_prefix _ _) as [x|] eqn:E; [|done]. apply Strings.strip_prefix_spec in E.
  destruct h as [|d h]; [discriminate E|]. injection E as -> _. done.
Qed.
Lemma SplitHostPort_plain h n : plain_host h = true -> 0 <= n ->
  Net.SplitHostPort (h +:+ ":" +:+ Strconv.Itoa n) = Ret (h, Strconv.Itoa n).
Proof.
  unfold plain_host. rewrite !andb_true_iff, !negb_true_iff. intros [[H1 H2] H3] Hn.
  change (":" +:+ Strconv.Itoa n) with (String ":" (Strconv.Itoa n)). unfold Net.SplitHostPort.
  rewrite (strip_bracket _ _ H2), (cut_app _ _ _ H1). rewrite !Contains_char, !mem_ascii_app, H2, H3.
  change (String ":" (Strconv.Itoa n)) with (":" +:+ Strconv.Itoa n). rewrite !mem_ascii_app.
  by rewrite !(Itoa_no_char _ n) by done.
Qed.
(** An IPv6 address that is not bracketed. *)
Lemma SplitHostPort_colon h r : Strings.strip_prefix "[" h = None -> Strings.mem_ascii ":" h = true ->
  exists e, Net.SplitHostPort (h +:+ String ":" r) = Err e.
Proof.
  intros Hb Hc. destruct (cut_char h ":" Hc) as (a & b & -> & Ha & _). unfold Net.SplitHostPort.
  assert ((a +:+ String ":" b) +:+ String ":" r = a +:+ String ":" (b +:+ String ":" r)) as ->.
  { clear. induction a as [|d a IH]; [done|]. change (String d ((a +:+ String ":" b) +:+ String ":" r) = String d (a +:+ String ":" (b +:+ String ":" r))).
    by rewrite IH. }
  destruct (Strings.strip_prefix "[" (a +:+ String ":" (b +:+ String ":" r))) as [x|] eqn:E.
  { apply Strings.strip_prefix_spec in E. destruct a as [|d a]; [discriminate E|]. injection E as -> _. discriminate Hb. }
  rewrite (cut_app _ _ _ Ha), Contains_char, mem_ascii_app. unfold Strings.mem_ascii at 2. cbn.
  rewrite orb_true_r. eauto.
Qed.

(** ** The certificate of Party B *)
Section Link.
Context {pp : Type} `{X509} `{Unicode}.
Notation WizardState := (WizardState pp).

(** What [VerifyHostname] looks at. *)
Definition covers (t : Certificate) (host : string) : Prop :=
  if is_ip host then In host (c_IPAddresses t) else In host (c_DNSNames t).

Lemma dedup_from_In h ss : forall seen, In h ss -> h ∉ seen -> In h (dedup_from seen ss).
Proof.
  induction ss as [|s ss IH]; intros seen; [done|]. cbn [dedup_from]. intros [->|Hs] Hh.
  - rewrite bool_decide_eq_false_2 by done. by left.
  - case_bool_decide; [by apply IH|]. destruct (decide (h = s)) as [->|Hne]; [by left|].
    right. apply IH; [done|]. set_solver.
Qed.
(** A certificate covers every host it was asked for. *)
Lemma party_template_covers serial now name hosts h : In h hosts -> covers (party_template serial now name (sans hosts)) h.
Proof.
  intros Hh. assert (In h (sans hosts)) as Hs.
  { apply dedup_from_In; [|set_solver]. right; by right. }
  unfold covers, party_template. cbn [c_IPAddresses c_DNSNames].
  set (ips := filter _ _). set (names := filter _ _).
  destruct (is_ip h) eqn:E.
  - assert (In h ips) as Hi by (apply list_elem_of_In, list_elem_of_filter; split; [done|by apply list_elem_of_In]).
    rewrite (bool_decide_eq_false_2 (ips = [])); [done|]. by intros ->.
  - assert (In h names) as Hi by (apply list_elem_of_In, list_elem_of_filter; split; [done|by apply list_elem_of_In]).
    rewrite (bool_decide_eq_false_2 (names = [])) by (by intros ->). by rewrite andb_false_r.
Qed.
Lemma GetTransportPort_pos (s : WizardState) : 0 < GetTransportPort s.
Proof. unfold GetTransportPort. case_match; lia. Qed.

End Link.

#[local] Instance no_x509 : X509 := {|
  PrivateKey := unit; GenerateKey := fun _ => Ret tt; RandInt128 := fun _ => Ret 1; CreateCertificate := fun _ _ _ _ _ => Ret [];
  ParseCertificate := fun _ => Err ""; MarshalECPrivateKey := fun _ => Ret []; pem_Encode := fun _ b => b;
  is_ip := fun h => bool_decide (h = "192.0.2.7"); KeyPair := unit; X509KeyPair := fun _ _ => Ret tt; AppendCertsFromPEM := fun _ => None |}.
