(* ===== verification/SweepFacts.v ===== *)
(** * SweepFacts: what a sweep sends

    The two sweeps hold the scalar of an address. What leaves the process: queries
    about public keys, and one signed transaction. *)
From S2P Require Import Prelude GoStd Codec Crypto Protocol Transport Tss TssFacts Vm Solana EdwardsPoint Mnemonic MnemonicFacts Wizard Effects Deploy Handlers Sweep.
Local Open Scope Z_scope.

(** What a pure part returned. *)
Lemma safe_lift {pp A} (K : Shared pp -> Prop) P (m : go A) : safe K P (fun a => m = Ret a) (lift m).
Proof. by intros a Ha. Qed.
Lemma safe_wrap_lift {pp A} (K : Shared pp -> Prop) P w (m : go A) : safe K P (fun a => m = Ret a) (wrap w (lift m)).
Proof. apply safe_wrap, safe_lift. Qed.

Section Sends.
Context {pp : Type} `{Unicode} `{Bip39} `{AddressLibs} `{SolanaGo} `{SolanaWorld} `{Edwards25519} `{SweepJson}.
Context (Edwards : EllipticCurve) (p : Z) (ed25519_Verify : bytes -> bytes -> bytes -> bool).
Context (rpcURL : string) (scalar : Z) (pubKey : bytes).

(** A transaction of [instructions] alone, paid by [from] and signed with the
    scalar, with a signature that was checked. *)
Definition swept_transaction (instructions : list Instruction) (from txBytes : bytes) : Prop :=
  exists tx h msgBytes sig,
    NewTransaction instructions (repeat x00 32) from = Ret tx /\
    let msg := with_blockhash (st_Message tx) h in
    MarshalMessage msg = Ret msgBytes /\
    signEd25519WithScalar scalar pubKey msgBytes = Ret sig /\ ed25519_Verify pubKey msgBytes sig = true /\
    MarshalTransaction (mkTransaction [fill_slot sig (repeat x00 64)] msg) = Ret txBytes.

(** Requests go to [rpcURL], with a body that satisfies [B]; the calls of a sweep
    other than requests are none. *)
Definition posts (B : string -> Prop) (A : Type) (e : effect pp A) (_ : A) : Prop :=
  match e with
  | NewRequest url => url = rpcURL
  | HttpPost url headers body => url = rpcURL /\ headers = [json_header] /\ B body
  | _ => False
  end.
Section Bodies.
Context (B : string -> Prop).
Notation sends := (safe (fun _ : Shared pp => True) (posts B)).

Lemma sends_rpc body limit : B body -> sends (fun _ => True) (rpc rpcURL body limit).
Proof.
  intros HB. unfold rpc. eapply (safe_bind _ _ (fun _ => True)); [split; [done|]; by split|]. intros _ _.
  eapply (safe_bind _ _ (fun _ => True)); [split; [done|]; by split|]. by intros [st b] _.
Qed.
(** A query: its answer is parsed. *)
Lemma sends_query {A} body limit (parse : bytes -> go (option string * A)) : B body ->
  sends (fun a => exists b, parse b = Ret (None, a)) (b ← rpc rpcURL body limit; r ← lift (parse b); no_rpc_error r).
Proof.
  intros HB. eapply safe_bind; [by apply sends_rpc|]. intros b _. eapply safe_bind; [apply safe_lift|].
  intros [[e|] a] Hr; [done|]. intros ? [= <-]. eauto.
Qed.
Lemma sends_fetchBlockhash : B blockhash_body -> sends (fun _ => True) (fetchBlockhash rpcURL).
Proof.
  intros HB. unfold fetchBlockhash. eapply (safe_bind _ _ (fun _ => True)); [by apply sends_rpc|]. intros b _.
  eapply (safe_bind _ _ (fun _ => True)); [done|]. intros r _.
  eapply (safe_bind _ _ (fun _ => True)); [by destruct r as [[?|] ?]|]. intros bh _. by case_bool_decide.
Qed.
Lemma sends_sign_and_send instructions from :
  B blockhash_body -> (forall txBytes, swept_transaction instructions from txBytes -> B (send_body txBytes)) ->
  sends (fun _ => True) (sign_and_send ed25519_Verify scalar pubKey instructions from rpcURL).
Proof.
  intros Hb Ht. unfold sign_and_send. eapply safe_bind; [apply safe_wrap_lift|]. intros tx Htx.
  eapply (safe_bind _ _ (fun _ => True)); [by apply safe_wrap, sends_fetchBlockhash|]. intros bh _.
  eapply (safe_bind _ _ (fun _ => True)); [by intros ? ?|]. intros h _.
  eapply safe_bind; [apply safe_wrap_lift|]. intros msgBytes Hm.
  eapply safe_bind; [apply safe_wrap_lift|]. intros sig Hs.
  destruct (ed25519_Verify pubKey msgBytes sig) eqn:Hv; [|done]. cbn [negb].
  eapply safe_bind; [apply safe_wrap_lift|]. intros txBytes Hx.
  apply safe_wrap. unfold sendTransaction. eapply safe_mono; [apply sends_query, Ht|done].
  by exists tx, h, msgBytes, sig.
Qed.
End Bodies.

(** The bodies of a sweep of SOL and of a token. *)
Definition sol_body (from to : bytes) (body : string) : Prop :=
  body = balance_body (PublicKeyString from) \/ body = blockhash_body \/
  exists balance b txBytes, fee < balance /\ parse_balance b = Ret (None, balance) /\
    swept_transaction [TransferInstruction (balance - fee) from to] from txBytes /\ body = send_body txBytes.
Definition token_body (from to mint : bytes) (body : string) : Prop :=
  body = account_info_body mint \/ body = blockhash_body \/
  (exists address, body = rpc_body 1 "getTokenAccountBalance" (quoted (PublicKeyString address))) \/
  exists amount b program fromATA toATA txBytes, parse_token_amount b = Ret (None, amount) /\ scanned amount <> 0 /\
    swept_transaction (token_instructions from to mint program fromATA toATA (scanned amount)) from txBytes /\
    body = send_body txBytes.
End Sends.

Section Sweeps.
Context {pp : Type} `{Unicode} `{Bip39} `{AddressLibs} `{SolanaGo} `{SolanaWorld} `{Edwards25519} `{SweepJson}.
Context (Edwards : EllipticCurve) (p : Z) (ed25519_Verify : bytes -> bytes -> bytes -> bool).

Definition sol_call (mnemonic path destination rpcURL : string) (A : Type) (e : effect pp A) (a : A) : Prop :=
  exists scalar pubKey to, deriveScalarAtPath Edwards p mnemonic path = Ret (scalar, pubKey) /\
    PublicKeyFromBase58 destination = Ret to /\
    posts rpcURL (sol_body ed25519_Verify scalar pubKey (PublicKeyFromBytes pubKey) to) A e a.
Definition token_call (mnemonic path destination mint rpcURL : string) (A : Type) (e : effect pp A) (a : A) : Prop :=
  exists scalar pubKey to mintPK, deriveScalarAtPath Edwards p mnemonic path = Ret (scalar, pubKey) /\
    PublicKeyFromBase58 destination = Ret to /\ PublicKeyFromBase58 mint = Ret mintPK /\
    posts rpcURL (token_body ed25519_Verify scalar pubKey (PublicKeyFromBytes pubKey) to mintPK) A e a.
Lemma safe_weaken {R} (K : Shared pp -> Prop) (P P' : forall A, effect pp A -> A -> Prop) (Q : R -> Prop) m :
  (forall A e a, P A e a -> P' A e a) -> safe K P Q m -> safe K P' Q m.
Proof.
  intros HP. induction m as [r|A e k IH]; cbn; [done|]. intros [Hk Hm]. split; [done|]. intros a Ha.
  destruct (Hm a Ha). auto.
Qed.
Lemma Must_inv {A} (m : go A) a : Must m = Ret a -> m = Ret a.
Proof. by destruct m. Qed.

Lemma safe_sweepSOL mnemonic path destination rpcURL :
  safe (fun _ => True) (sol_call mnemonic path destination rpcURL) (fun _ => True)
    (sweepSOL Edwards p ed25519_Verify mnemonic path destination rpcURL).
Proof.
  unfold sweepSOL. eapply safe_bind; [apply safe_wrap_lift|]. intros [scalar pubKey] Hd. cbv beta in Hd.
  eapply safe_bind; [apply safe_lift|]. intros to Hto%Must_inv.
  set (from := PublicKeyFromBytes pubKey).
  apply (safe_weaken _ (posts rpcURL (sol_body ed25519_Verify scalar pubKey from to)));
    [intros A e a HP; by exists scalar, pubKey, to|].
  eapply safe_bind; [apply safe_wrap, sends_query; by left|]. intros balance (b & Hb).
  destruct (balance =? 0); [done|]. destruct (Z.leb_spec balance fee); [done|].
  apply sends_sign_and_send; [right; by left|]. intros txBytes Ht. right; right. by exists balance, b, txBytes.
Qed.
Lemma safe_sweepSPLToken mnemonic path destination mint rpcURL :
  safe (fun _ => True) (token_call mnemonic path destination mint rpcURL) (fun _ => True)
    (sweepSPLToken Edwards p ed25519_Verify mnemonic path destination mint rpcURL).
Proof.
  unfold sweepSPLToken. eapply safe_bind; [apply safe_wrap_lift|]. intros [scalar pubKey] Hd. cbv beta in Hd.
  eapply safe_bind; [apply safe_lift|]. intros to Hto%Must_inv.
  eapply safe_bind; [apply safe_lift|]. intros mintPK Hmint%Must_inv.
  set (from := PublicKeyFromBytes pubKey).
  apply (safe_weaken _ (posts rpcURL (token_body ed25519_Verify scalar pubKey from to mintPK)));
    [intros A e a HP; by exists scalar, pubKey, to, mintPK|].
  eapply (safe_bind _ _ (fun _ => True)).
  { apply safe_wrap. unfold detectTokenProgramRPC. eapply (safe_bind _ _ (fun _ => True)); [apply sends_rpc; by left|]. intros b _.
    eapply (safe_bind _ _ (fun _ => True)); [done|]. by intros [o|] _. }
  intros program _. eapply (safe_bind _ _ (fun _ => True)); [apply safe_wrap; by intros ? ?|]. intros [fromATA bump] _.
  eapply (safe_bind _ _ (fun n => exists amount b, parse_token_amount b = Ret (None, amount) /\ n = scanned amount)).
  { apply safe_wrap. unfold getTokenBalance. eapply (safe_bind _ _ (fun _ => True)); [apply sends_rpc; right; right; left; eauto|].
    intros b _. eapply safe_bind; [apply safe_lift|]. intros [[e|] amount] Hb; [done|].
    eapply safe_bind; [by intros ? [= <-]; apply (eq_refl amount)|]. intros ? <- ? [= <-]. eauto. }
  intros n (amount & b & Hb & ->). destruct (Z.eqb_spec (scanned amount) 0) as [|Hn]; [done|].
  eapply (safe_bind _ _ (fun _ => True)); [apply safe_wrap; by intros ? ?|]. intros [toATA bump'] _.
  apply sends_sign_and_send; [right; by left|]. intros txBytes Ht. right; right; right.
  by exists amount, b, program, fromATA, toATA, txBytes.
Qed.

End Sweeps.

(** 12000 lamports on a small curve. *)
Module ToySweep.
#[export] Instance json : SweepJson := {|
  parse_balance := fun _ => Ret (None, 12000); parse_token_amount := fun _ => Ret (None, "0");
  parse_accounts := fun _ => Ret []; parse_txid := fun _ => Ret (None, "txid") |}.
Definition oracle (A : Type) (e : effect unit A) : option A :=
  match e in Effects.effect _ A return option A with
  | NewRequest _ => Some (Ret tt) | HttpPost _ _ _ => Some (Ret (200, bytes_of "hash")) | _ => None
  end.
Definition start : Shared unit := {| wizard := new_state; mu := false; deploying := false; updating := false |}.
End ToySweep.
#[local] Existing Instances Toy.unicode ToyMnemonic.bip39 ToyMnemonic.addresses ToyMnemonic.edwards25519
  ToySolana.solana_go ToySolana.world ToySweep.json.
Definition example : prog unit string :=
  sweepSOL Small.curve Small.p (fun _ _ _ => true) ToyMnemonic.mnemonic "m/0" "destination" "https://rpc".
Lemma sweep_example_result : let '(t, _, r) := run ToySweep.oracle ToySweep.start example in r = Some (Ret "txid") /\ length t = 6%nat.
Proof. unfold example, sweepSOL. rewrite ToyMnemonic.sol_scalar_eq. vm_compute. split; reflexivity. Qed.

