(* ===== verification/PathFacts.v ===== *)
(** * PathFacts: joined paths are different

    What [filepath.Join] appends is the end of the path it returns, whatever the
    directory: files with different names, or of directories with different names,
    have different paths. *)
From S2P Require Import Prelude GoStd.
Local Open Scope Z_scope.

Section Paths.
(** A path element that [filepath.Clean] leaves alone. *)
Definition plain (a : string) : bool :=
  Strings.no_char "/" a && negb (bool_decide (a = "")) && negb (bool_decide (a = ".")) && negb (bool_decide (a = "..")).
Lemma plain_spec a : plain a = true -> Strings.no_char "/" a = true /\ a <> "" /\ a <> "." /\ a <> "..".
Proof. unfold plain. rewrite !andb_true_iff, !negb_true_iff, !bool_decide_eq_false. tauto. Qed.

Lemma Split_snoc d a : Strings.no_char "/" a = true -> Strings.Split (d +:+ "/" +:+ a) "/" = Strings.Split d "/" ++ [a].
Proof.
  intros Ha. induction d as [|c d IH].
  - change ("" +:+ "/" +:+ a) with (String "/" a). cbn. by rewrite Strings.Split_no_sep.
  - change (String c d +:+ "/" +:+ a) with (String c (d +:+ "/" +:+ a)). cbn. rewrite IH.
    destruct (Ascii.eqb c "/"); [done|]. pose proof (Strings.Split_not_nil d "/") as Hn. by destruct (Strings.Split d "/").
Qed.
Lemma Split_no_char s c : Forall (fun w => Strings.no_char c w = true) (Strings.Split s c).
Proof.
  induction s as [|d s IH]; cbn; [by repeat constructor|]. destruct (Ascii.eqb_spec d c) as [->|Hn]; [by constructor|].
  destruct (Strings.Split s c) as [|w ws] eqn:E; [by apply Strings.Split_not_nil in E|]. apply Forall_cons in IH as [Hw Hws].
  constructor; [|done]. unfold Strings.no_char, Strings.mem_ascii in *. cbn. destruct (Ascii.eqb_spec c d); [congruence|done].
Qed.

Lemma resolve_snoc rooted l a : plain a = true -> forall acc,
  Filepath.resolve rooted acc (l ++ [a]) = Filepath.resolve rooted acc l ++ [a].
Proof.
  intros (_ & H1 & H2 & H3)%plain_spec. induction l as [|p l IH]; intros acc.
  - cbn. by rewrite !bool_decide_eq_false_2.
  - cbn [app Filepath.resolve]. repeat case_match; apply IH.
Qed.
Lemma resolve_no_slash rooted l : forall acc, Forall (fun w => Strings.no_char "/" w = true) acc ->
  Forall (fun w => Strings.no_char "/" w = true) l -> Forall (fun w => Strings.no_char "/" w = true) (Filepath.resolve rooted acc l).
Proof.
  induction l as [|p l IH]; intros acc Hacc Hl; cbn [Filepath.resolve]; [by apply Forall_rev|].
  apply Forall_cons in Hl as [Hp Hl]. repeat case_match; subst; apply IH; try done; try by constructor.
  by apply Forall_cons in Hacc as [_ ?].
Qed.

(** The last elements of a cleaned path. *)
Lemma Split_Clean path l a : Filepath.resolve (Strings.HasPrefix path "/") [] (Strings.Split path "/") = l ++ [a] -> a <> "" ->
  exists pre, Strings.Split (Filepath.Clean path) "/" = pre ++ l ++ [a].
Proof.
  intros Hl Ha. assert (l ++ [a] <> []) as Hne by by destruct l.
  assert (Forall (fun w => Strings.no_char "/" w = true) (l ++ [a])) as Hno.
  { rewrite <- Hl. apply resolve_no_slash; [constructor|apply Split_no_char]. }
  pose proof (Strings.Split_Join "/" _ Hne Hno) as HS. unfold Filepath.Clean. rewrite Hl.
  destruct (Strings.HasPrefix path "/").
  - exists [""]. change ("/" +:+ ?x) with (String "/" x). cbn. by rewrite HS.
  - exists []. case_bool_decide as E; [|done]. rewrite E in HS. cbn in HS. destruct l as [|? [|]]; simplify_eq.
Qed.
Lemma Split_Join_path d a : plain a = true -> exists pre,
  Strings.Split (Filepath.Join d a) "/" = pre ++ [a].
Proof.
  intros Hp. pose proof (plain_spec a Hp) as (Hs & Ha & _). unfold Filepath.Join. rewrite (bool_decide_eq_false_2 (a = "")) by done.
  case_bool_decide as Hd.
  - destruct (Split_Clean a [] a) as (pre & E); [|done|by exists pre].
    rewrite (Strings.Split_no_sep "/" a Hs). apply (resolve_snoc _ [] a Hp []).
  - destruct (Split_Clean (d +:+ "/" +:+ a) (Filepath.resolve (Strings.HasPrefix (d +:+ "/" +:+ a) "/") [] (Strings.Split d "/")) a)
      as (pre & E); [|done|eexists; by rewrite E, app_assoc].
    by rewrite Split_snoc, resolve_snoc.
Qed.

Lemma Join_inj d a d' a' : plain a = true -> plain a' = true -> Filepath.Join d a = Filepath.Join d' a' -> a = a'.
Proof.
  intros Ha Ha' E. destruct (Split_Join_path d a Ha) as (pre & E1). destruct (Split_Join_path d' a' Ha') as (pre' & E2).
  rewrite E in E1. rewrite E1 in E2. by apply app_inj_tail in E2 as [_ ->].
Qed.

(** A file [b] in a directory [a] of [d]. *)
Lemma Split_Join_path2 d a b : plain a = true -> plain b = true -> exists pre,
  Strings.Split (Filepath.Join (Filepath.Join d a) b) "/" = pre ++ [a; b].
Proof.
  intros Ha Hb. destruct (Split_Join_path d a Ha) as (pre & E). pose proof (plain_spec a Ha) as (_ & Hna & _).
  pose proof (plain_spec b Hb) as (Hsb & Hnb & _).
  set (d' := Filepath.Join d a) in *. assert (d' <> "") as Hd' by (intros Hd'; rewrite Hd' in E; destruct pre as [|? [|]]; cbn in E; congruence).
  unfold Filepath.Join. rewrite (bool_decide_eq_false_2 (b = "")), (bool_decide_eq_false_2 (d' = "")) by done.
  set (r := Strings.HasPrefix (d' +:+ "/" +:+ b) "/").
  destruct (Split_Clean (d' +:+ "/" +:+ b) (Filepath.resolve r [] pre ++ [a]) b) as (pre' & E'); [|done|].
  { rewrite (Split_snoc d' b Hsb), E. fold r. by rewrite !resolve_snoc. }
  rewrite E'. exists (pre' ++ Filepath.resolve r [] pre). by rewrite <- !app_assoc.
Qed.

Lemma Join_inj2 d a b d' a' b' : plain a = true -> plain b = true -> plain a' = true -> plain b' = true ->
  Filepath.Join (Filepath.Join d a) b = Filepath.Join (Filepath.Join d' a') b' -> a = a' /\ b = b'.
Proof.
  intros Ha Hb Ha' Hb' E. destruct (Split_Join_path2 d a b Ha Hb) as (pre & E1). destruct (Split_Join_path2 d' a' b' Ha' Hb') as (pre' & E2).
  rewrite E in E1. rewrite E1 in E2. apply (f_equal (@rev string)) in E2. rewrite !rev_app_distr in E2. by injection E2 as -> -> _.
Qed.
End Paths.
