(* ===== verification/Machine.v ===== *)
(** * Machine: what calls do to a machine's files and databases

    The files and databases below the installer, how each call of a program reads
    and changes them, and a weakest-precondition rule for programs on them. *)
From S2P Require Import Prelude GoStd Tss Config Store EdwardsPoint Mnemonic Wizard Effects DeployLocal PathFacts.
Local Open Scope Z_scope.

(** ** The machine *)

(** Files by path, databases by connection string as the view of [Store.v],
    environment variables, the names of the temporary directories made so far, and
    whether files can be written. *)
Record World := {
  files : gmap string bytes; db : string -> StoreView; env : string -> string; temps : gset string; disk : bool }.
Definition with_files (w : World) (f : gmap string bytes) : World :=
  {| files := f; db := db w; env := env w; temps := temps w; disk := disk w |}.
Definition with_db (w : World) (dsn : string) (v : StoreView) : World :=
  {| files := files w; db := fun d => if bool_decide (d = dsn) then v else db w d; env := env w; temps := temps w; disk := disk w |}.
Definition with_temp (w : World) (name : string) : World :=
  {| files := files w; db := db w; env := env w; temps := {[name]} ∪ temps w; disk := disk w |}.
(** The names of the directories [os.MkdirTemp] makes for the pattern
    "claw-import-*", and a file in one of them. *)
Definition temp_name (name : string) : bool := plain name && Strings.HasPrefix name "claw-import-".
Definition child (name path : string) : Prop :=
  exists base f, temp_name name = true /\ plain f = true /\ temp_name f = false /\ path = Filepath.Join (Filepath.Join base name) f.
Lemma temp_name_plain name : temp_name name = true -> plain name = true.
Proof. by intros [? _]%andb_true_iff. Qed.
Lemma child_inj n n' path : child n path -> child n' path -> n = n'.
Proof.
  intros (b & f & Hn%temp_name_plain & Hf & _ & ->) (b' & f' & Hn'%temp_name_plain & Hf' & _ & E). by apply Join_inj2 in E as [-> _].
Qed.
(** A temporary directory is neither another one nor a file in one. *)
Lemma temp_dir_child base n n' path : temp_name n = true -> child n' path -> n <> n' ->
  (forall base', Filepath.Join base n <> Filepath.Join base' n') /\ Filepath.Join base n <> path.
Proof.
  intros Hn (b & f & Hn' & Hf & Hf' & ->) Hne. pose proof (temp_name_plain n Hn) as Hp. split.
  - intros b' E. apply Join_inj in E; [done..|by apply temp_name_plain].
  - intros E. apply Join_inj in E; [congruence|done..].
Qed.

Section World.
Context {pp : Type}.
Notation prog := (prog pp).
Notation effect := (effect pp).

(** How the machine answers a call and what becomes of it. Files are read as they
    were written; a write that fails may have changed its file. A temporary
    directory has a name no other one has, and removing one leaves the files of the
    others. The operations on a database are those of the store's contract. Commands,
    sessions and requests touch neither these files nor these tables. *)
Definition reacts (w : World) {A} (e : effect A) : A -> World -> Prop :=
  match e in Effects.effect _ A return A -> World -> Prop with
  | ReadFile path => fun a w' => w' = w /\ match files w !! path with Some d => a = Ret d | None => exists e, a = Err e end
  | WriteFile path data => fun a w' =>
      match a with
      | Ret _ => w' = with_files w (<[path := data]> (files w))
      | _ => disk w = false /\ exists o, w' = with_files w (partial_alter (fun _ => o) path (files w))
      end
  | MkdirTemp => fun a w' =>
      match a with
      | Ret d => exists base name, d = Filepath.Join base name /\ temp_name name = true /\ name ∉ temps w /\ w' = with_temp w name
      | _ => w' = w
      end
  | Remove d => fun _ w' => exists f, f ⊆ files w /\ w' = with_files w f /\
      forall name path, name ∈ temps w -> child name path -> (forall base, d <> Filepath.Join base name) -> d <> path ->
      f !! path = files w !! path
  | Getenv name => fun a w' => w' = w /\ a = env w name
  | GetMasterShare dsn curve => fun a w' => w' = w /\ forall ks, a = Ret ks -> v_shares (db w dsn) !! curve = Some ks
  | SaveMasterShare dsn share => fun a w' =>
      match a with Ret _ => w' = with_db w dsn (Spec.SaveMasterShare (db w dsn) share) | _ => w' = w end
  | ClearDerivedKeys dsn => fun a w' =>
      match a with Ret _ => w' = with_db w dsn (Spec.ClearDerivedKeys (db w dsn)) | _ => w' = w end
  | _ => fun _ w' => w' = w
  end.
Fixpoint replay (w : World) (t : list (event pp)) (w' : World) : Prop :=
  match t with
  | [] => w' = w
  | Called e a :: t => exists w1, reacts w e a w1 /\ replay w1 t w'
  end.

(** ** Weakest preconditions

    [wlp Q p w]: started on the machine [w] where the shared state satisfies [K],
    [p] keeps [K], and a value it returns satisfies [Q]. *)
Context (K : Shared pp -> Prop).

Fixpoint wlp {R} (Q : R -> World -> Prop) (p : prog R) (w : World) : Prop :=
  match p with
  | Done r => forall a, r = Ret a -> Q a w
  | Do e k => keeps K e /\ forall a w', possible K e a -> reacts w e a w' -> wlp Q (k a) w'
  end.

Lemma wlp_mono {R} (Q Q' : R -> World -> Prop) p w : wlp Q p w -> (forall a w', Q a w' -> Q' a w') -> wlp Q' p w.
Proof.
  intros Hp HQ. revert w Hp. induction p as [r|A e k IH]; cbn; [eauto|]. intros w [Hk Hp]. split; [done|]. eauto.
Qed.
Lemma wlp_ret {R} (Q : R -> World -> Prop) a w : Q a w -> wlp Q (Done (Ret a)) w.
Proof. by intros HQ ? [= <-]. Qed.
Lemma wlp_bind {A B} (Q : B -> World -> Prop) (m : prog A) (f : A -> prog B) w :
  wlp (fun a => wlp Q (f a)) m w -> wlp Q (m ≫= f) w.
Proof.
  revert w. induction m as [[a|e|]|A' e k IH]; cbn; intros w Hm; [by apply Hm|done|done|].
  destruct Hm as [Hk Hm]. split; [done|]. eauto.
Qed.
Lemma wlp_wrap {A} (Q : A -> World -> Prop) what (m : prog A) w : wlp Q m w -> wlp Q (wrap what m) w.
Proof.
  revert w. induction m as [r|A' e k IH]; cbn; intros w; [by destruct r|]. intros [Hk Hm]. split; [done|]. eauto.
Qed.

(** Calls that change neither files nor databases. *)
Definition neutral (A : Type) (e : effect A) (_ : A) : Prop :=
  match e with WriteFile _ _ | MkdirTemp | Remove _ | SaveMasterShare _ _ | ClearDerivedKeys _ => False | _ => True end.
Lemma reacts_neutral w A (e : effect A) a w' : neutral A e a -> reacts w e a w' -> w' = w.
Proof. destruct e; cbn; try done; by intros _ [-> _]. Qed.
Lemma wlp_neutral {R} (Q : R -> Prop) (p : prog R) w : safe K neutral Q p -> wlp (fun a w' => w' = w /\ Q a) p w.
Proof.
  induction p as [r|A e k IH]; cbn; [eauto|]. intros [Hk Hp]. split; [done|]. intros a w' Ha Hw.
  destruct (Hp a Ha) as [HP Hs]. apply reacts_neutral in Hw as ->; [|done]. by apply IH.
Qed.
Lemma wlp_skip {A B} (Q : B -> World -> Prop) (Q' : A -> Prop) (m : prog A) (f : A -> prog B) w :
  safe K neutral Q' m -> (forall a, Q' a -> wlp Q (f a) w) -> wlp Q (m ≫= f) w.
Proof.
  intros Hm Hf. apply wlp_bind. eapply wlp_mono; [by apply wlp_neutral|]. intros a w' [-> Ha]. auto.
Qed.

(** Soundness, among goroutines that keep [K]. *)
Lemma wlp_sound rely {R} (Q : R -> World -> Prop) (p : prog R) s t s' r w w' a :
  (forall s1 s2, rely s1 s2 -> K s1 -> K s2) -> K s -> wlp Q p w ->
  exec rely s p t s' r -> replay w t w' -> r = Some (Ret a) -> Q a w'.
Proof.
  intros HR. assert (forall s1 s2, rtc rely s1 s2 -> K s1 -> K s2) as HR' by (induction 1; eauto).
  revert s t w. induction p as [r0|A e k IH]; intros s t w Hs Hp (s1 & Hrt & Hx) Hw Hr; apply (HR' _ _ Hrt) in Hs; cbn in Hp.
  - destruct Hx as (-> & -> & [->| ->]); [|done]. cbn in Hw. subst w'. injection Hr as ->. by apply Hp.
  - destruct Hp as [Hk Hp]. destruct Hx as [(-> & -> & ->)|(s2 & b & t' & Ha & -> & Hx)]; [done|].
    destruct Hw as (w1 & Hw1 & Hw). assert (possible K e b /\ K s2) as [Hposs HK2].
    { destruct e; cbn in *; subst; eauto. split; [eauto|]. eapply Hk; eauto. }
    eapply IH; eauto.
Qed.
(** An execution on a machine, whose other answers are an oracle's. *)
Context (oracle : forall A, effect A -> option A).
Definition react (w : World) {A} (e : effect A) : option (A * World) :=
  match e in Effects.effect _ A return effect A -> option (A * World) with
  | ReadFile path => fun _ => Some (match files w !! path with Some d => Ret d | None => Err "no such file" end, w)
  | WriteFile path data => fun _ =>
      if disk w then Some (Ret tt, with_files w (<[path := data]> (files w))) else Some (Err "no space left on device", w)
  | MkdirTemp => fun _ =>
      let name := "claw-import-" +:+ pretty (size (temps w)) in
      if temp_name name && bool_decide (name ∉ temps w) then Some (Ret (Filepath.Join "/tmp" name), with_temp w name) else None
  | Remove path => fun _ => Some (tt, with_files w (delete path (files w)))
  | Getenv name => fun _ => Some (env w name, w)
  | GetMasterShare dsn curve => fun _ => Some (match v_shares (db w dsn) !! curve with Some ks => Ret ks | None => Err "not found" end, w)
  | SaveMasterShare dsn share => fun _ => Some (Ret tt, with_db w dsn (Spec.SaveMasterShare (db w dsn) share))
  | ClearDerivedKeys dsn => fun _ => Some (Ret tt, with_db w dsn (Spec.ClearDerivedKeys (db w dsn)))
  | _ => fun e => a ← oracle _ e; Some (a, w)
  end e.
Definition step (s : Shared pp) (w : World) {A} (e : effect A) : option (Shared pp * A * World) :=
  match e in Effects.effect _ A return effect A -> option (Shared pp * A * World) with
  | State f => fun _ => match f s with Some (s', a) => Some (s', a, w) | None => None end
  | _ => fun e => match react w e with Some (a, w') => Some (s, a, w') | None => None end
  end e.
Fixpoint simulate {R} (s : Shared pp) (w : World) (p : prog R) : list (event pp) * Shared pp * World * option (go R) :=
  match p with
  | Done r => ([], s, w, Some r)
  | Do e k => match step s w e with
              | Some (s', a, w') => let '(t, s'', w'', r) := simulate s' w' (k a) in (Called e a :: t, s'', w'', r)
              | None => ([], s, w, None)
              end
  end.
Lemma react_reacts w A (e : effect A) a w' : react w e = Some (a, w') -> reacts w e a w'.
Proof.
  destruct e; cbn; try (intros (x & _ & E)%bind_Some; by injection E as <- <-); try case_match eqn:Ec; try (intros [= <- <-]; done);
    intros [= <- <-].
  - split; [done|]. by eexists.
  - split; [done|]. exists (files w !! path). rewrite partial_alter_self. by destruct w.
  - apply andb_true_iff in Ec as [Hp Hn%bool_decide_eq_true]. by eexists _, _.
  - eexists. split; [apply delete_subseteq|]. split; [done|]. intros name p _ _ _ Hne. by apply lookup_delete_ne.
  - split; [done|]. by intros ks [= <-].
Qed.
Lemma simulate_spec rely {R} (p : prog R) s w t s' w' r : simulate s w p = (t, s', w', r) ->
  exec rely s p t s' r /\ replay w t w'.
Proof.
  revert s w t. induction p as [r0|A e k IH]; intros s w t; cbn [simulate].
  - intros [= <- <- <- <-]. split; [exists s; split; [apply rtc_refl|auto]|done].
  - destruct (step s w e) as [[[s1 a] w1]|] eqn:E.
    + destruct (simulate s1 w1 (k a)) as [[[t' s2] w2] r'] eqn:Er. intros [= <- <- <- <-].
      apply IH in Er as [Hx Hw]. assert (answers e s s1 a /\ reacts w e a w1) as [Ha Hr].
      { destruct e; unfold step in E; case_match eqn:Er; try done; case_match; subst; injection E as <- <- <-;
          try (apply react_reacts in Er); done. }
      split; [|by exists w1]. exists s. split; [apply rtc_refl|]. right. by exists s1, a, t'.
    + intros [= <- <- <- <-]. split; [|done]. exists s. split; [apply rtc_refl|]. auto.
Qed.

(** That some execution on the machine returns [a]. *)
Definition runs (rely : Shared pp -> Shared pp -> Prop) (s : Shared pp) (w : World) {R} (p : prog R) (s' : Shared pp) (w' : World) (a : R) : Prop :=
  exists t, exec rely s p t s' (Some (Ret a)) /\ replay w t w'.
Lemma runs_ret rely {R} (a : R) s w : runs rely s w (Done (Ret a)) s w a.
Proof. exists []. split; [exists s; split; [apply rtc_refl|auto]|done]. Qed.
Lemma runs_do rely {A R} (e : effect A) (k : A -> prog R) s w s1 w1 a s' w' r :
  answers e s s1 a -> reacts w e a w1 -> runs rely s1 w1 (k a) s' w' r -> runs rely s w (Do e k) s' w' r.
Proof.
  intros Ha Hr (t & Hx & Hw). exists (Called e a :: t). split; [|by exists w1]. exists s. split; [apply rtc_refl|]. right. by exists s1, a, t.
Qed.
Lemma exec_later rely {R} (p : prog R) s s1 t s' r : rtc rely s s1 -> exec rely s1 p t s' r -> exec rely s p t s' r.
Proof. intros Hs. destruct p; intros (s2 & Hs2 & Hx); exists s2; (split; [by etrans|exact Hx]). Qed.
Lemma runs_bind rely {A B} (m : prog A) (f : A -> prog B) s w s1 w1 a s' w' r :
  runs rely s w m s1 w1 a -> runs rely s1 w1 (f a) s' w' r -> runs rely s w (m ≫= f) s' w' r.
Proof.
  intros (t & Hx & Hw). revert s w t Hx Hw. induction m as [r0|A' e k IH]; intros s w t (s0 & Hs & Hx) Hw Hf.
  - destruct Hx as (-> & -> & [[= <-]|]); [|done]. cbn in Hw. subst w1. destruct Hf as (t & Hx & Hw). exists t. split; [|done].
    change (exec rely s (f a) t s' (Some (Ret r))). by eapply exec_later.
  - destruct Hx as [(-> & -> & ?)|(s2 & b & t' & Ha & -> & Hx)]; [done|]. destruct Hw as (w2 & Hr & Hw).
    destruct (IH b s2 w2 t' Hx Hw Hf) as (t2 & Hx2 & Hw2). exists (Called e b :: t2). split; [|by exists w2].
    exists s0. split; [done|]. right. by exists s2, b, t2.
Qed.
Lemma runs_wrap rely {A} what (m : prog A) s w s' w' a : runs rely s w m s' w' a -> runs rely s w (wrap what m) s' w' a.
Proof.
  intros (t & Hx & Hw). exists t. split; [|done]. clear Hw w w'. revert s t Hx. induction m as [r0|A' e k IH]; intros s t (s0 & Hs & Hx).
  - destruct Hx as (-> & -> & [[= <-]|]); [|done]. exists s0. auto.
  - exists s0. split; [done|]. destruct Hx as [?|(s2 & b & t' & Ha & -> & Hx)]; [by left|right]. exists s2, b, t'. split; [done|]. split; [done|]. by apply IH.
Qed.
Lemma runs_attempt rely {A} (m : prog A) s w s' w' a : runs rely s w m s' w' a -> runs rely s w (attempt m) s' w' (Ret a).
Proof.
  intros (t & Hx & Hw). exists t. split; [|done]. clear Hw w w'. revert s t Hx. induction m as [r0|A' e k IH]; intros s t (s0 & Hs & Hx).
  - destruct Hx as (-> & -> & [[= <-]|]); [|done]. exists s0. auto.
  - exists s0. split; [done|]. destruct Hx as [(_ & _ & [=])|(s2 & b & t' & Ha & -> & Hx)]. right. exists s2, b, t'. split; [done|]. split; [done|]. by apply IH.
Qed.
Lemma runs_read rely {A} (f : WizardState pp -> A) s w : mu s = false -> runs rely s w (read f) s w (f (wizard s)).
Proof. intros Hmu. eapply runs_do; [|reflexivity|apply runs_ret]. cbn. rewrite Hmu. by destruct s. Qed.
Lemma runs_log rely msg s w : mu s = false -> runs rely s w (log msg) (with_wizard s (AppendLog (wizard s) msg)) w tt.
Proof. intros Hmu. eapply runs_do; [|reflexivity|apply runs_ret]. cbn. by rewrite Hmu. Qed.
End World.

