(* ===== verification/ImportFacts.v ===== *)
(** * ImportFacts: what a local installation leaves in the databases

    After a local installation the database of each party holds its shares of the
    keys that were dealt. *)
From S2P Require Import Prelude GoStd Codec Protocol Transport Tss TssFacts Config Store EdwardsPoint Mnemonic MnemonicFacts Wizard Effects Certs Deploy DeployLocal Install DeployFacts Handlers HandlersFacts InstallFacts PathFacts Machine.
Local Open Scope Z_scope.

(** ** A local installation *)
Section Local.
Context {pp : Type} `{Unicode} `{MapOrder} `{!MapOrderLaws} `{ConfigJson} `{Codec KeyShare} `{!CodecLaws KeyShare}.
(** The shares in the installer's state. *)
Context (a b ea eb : KeyShare).
Definition shares_are (s : Shared pp) : Prop :=
  let k := keys (wizard s) in ShareA k = Some a /\ ShareB k = Some b /\ EdShareA k = Some ea /\ EdShareB k = Some eb.
Notation K := shares_are.
Notation wlp := (wlp K).
Notation neutral := (neutral (pp := pp)).
Definition ecdsa_of (p : string) : KeyShare := if bool_decide (p = "a") then a else b.
Definition eddsa_of (p : string) : KeyShare := if bool_decide (p = "a") then ea else eb.
Definition is_party (p : string) : Prop := p = "a" \/ p = "b".
Context (ecdsa_share : forall p, is_party p -> representable (ecdsa_of p) /\ ks_Curve (ecdsa_of p) = CurveSecp256k1)
        (eddsa_share : forall p, is_party p -> representable (eddsa_of p) /\ ks_Curve (eddsa_of p) = CurveEd25519).

Lemma others_shares s s' : others s s' -> K s -> K s'.
Proof.
  intros [(_ & w & [Hw|(Hw & Ek & _)] & ->)|(x & ->)] HK; [..|done].
  - unfold shares_are in *. destruct Hw; try done.
    match goal with HG : generation_done _ _ _ = _ |- _ => apply generation_done_pre in HG as (q & ->) end. done.
  - unfold shares_are. cbn. by rewrite Ek.
Qed.
#[local] Instance quiet_neutral : Quiet K neutral.
Proof. split; [by intros A [] x|]. done. Qed.

(** The file of a party's share. *)
Definition file_of (baseDir p f : string) : string := Filepath.Join (party_dir baseDir p) f.
Definition ecdsa_file : string := "ecdsa_share.json".
Definition eddsa_file : string := "eddsa_share.json".
Definition party_file (f : string) : Prop := In f ["ca.pem"; "cert.pem"; "key.pem"; ecdsa_file; eddsa_file; "config.json"].
Lemma file_of_inj baseDir p f p' f' : is_party p -> is_party p' -> party_file f -> party_file f' ->
  file_of baseDir p f = file_of baseDir p' f' -> p = p' /\ f = f'.
Proof.
  intros Hp Hp' Hf Hf' E. apply Join_inj2 in E as [E ->].
  - split; [|done]. by destruct Hp as [-> | ->], Hp' as [-> | ->].
  - by destruct Hp as [-> | ->].
  - unfold party_file in Hf. cbn in Hf. by destruct_or?; subst.
  - by destruct Hp' as [-> | ->].
  - unfold party_file in Hf'. cbn in Hf'. by destruct_or?; subst.
Qed.

(** A file that holds a share. *)
Definition holds (w : World) (path : string) (share : KeyShare) : Prop :=
  exists d, files w !! path = Some d /\ Unmarshal d = Ret share.
Definition party_files (baseDir p : string) (w : World) : Prop :=
  holds w (file_of baseDir p ecdsa_file) (ecdsa_of p) /\ holds w (file_of baseDir p eddsa_file) (eddsa_of p).
(** Only files of [p] changed. *)
Definition only_party (baseDir p : string) (w w' : World) : Prop :=
  db w' = db w /\ env w' = env w /\
  forall q f, is_party q -> party_file f -> q <> p -> files w' !! file_of baseDir q f = files w !! file_of baseDir q f.

#[local] Instance only_party_preorder baseDir p : PreOrder (only_party baseDir p).
Proof.
  split; [done|]. intros w1 w2 w3 (Hd & He & Hf) (Hd' & He' & Hf'). split; [congruence|]. split; [congruence|].
  intros q f Hq Hpf Hn. by rewrite Hf', Hf.
Qed.
Lemma only_party_write baseDir p f d w : is_party p -> party_file f ->
  only_party baseDir p w (with_files w (<[file_of baseDir p f := d]> (files w))).
Proof.
  intros Hp Hf. split; [done|]. split; [done|]. intros q g Hq Hg Hn. cbn. apply lookup_insert_ne.
  intros E. by apply file_of_inj in E as [-> _].
Qed.
Lemma holds_write baseDir p f g d w share : is_party p -> party_file f -> party_file g -> f <> g ->
  holds w (file_of baseDir p g) share -> holds (with_files w (<[file_of baseDir p f := d]> (files w))) (file_of baseDir p g) share.
Proof.
  intros Hp Hf Hg Hn (d' & Hd & Hu). exists d'. split; [|done]. cbn. rewrite lookup_insert_ne; [done|].
  intros E. by apply file_of_inj in E as [_ ->].
Qed.
Lemma party_files_frame baseDir p q w w' : is_party p -> is_party q -> p <> q ->
  only_party baseDir q w w' -> party_files baseDir p w -> party_files baseDir p w'.
Proof.
  intros Hp Hq Hn (_ & _ & Hf) [(d & Hd & Hu) (d' & Hd' & Hu')]. unfold party_files, holds.
  rewrite !Hf by (done || (unfold party_file; cbn; tauto)). eauto 10.
Qed.

Lemma wlp_write what path data w :
  wlp (fun _ w' => w' = with_files w (<[path := data]> (files w))) (wrap what (answer (WriteFile path data))) w.
Proof. apply wlp_wrap. split; [done|]. intros [u|e|] w' _ Hw; [by intros ? _|done..]. Qed.
Lemma wlp_each {A} (I : World -> Prop) (l : list A) (f : A -> prog pp unit) w :
  (forall x w, In x l -> I w -> wlp (fun _ => I) (f x) w) -> I w -> wlp (fun _ => I) (each l f) w.
Proof.
  revert w. induction l as [|x l IH]; intros w Hf Hw; cbn [each]; [by apply wlp_ret|].
  apply wlp_bind. eapply wlp_mono; [apply Hf; [by left|done]|]. intros [] w' Hw'. apply IH; [|done].
  intros y w1 Hy. apply Hf. by right.
Qed.
Lemma wlp_quiet {A B} (Q : B -> World -> Prop) (m : prog pp A) (f : A -> prog pp B) w :
  safe K neutral (fun _ => True) m -> (forall x, wlp Q (f x) w) -> wlp Q (m ≫= f) w.
Proof. intros Hm Hf. eapply wlp_skip; [exact Hm|]. auto. Qed.

(** Writing a share and reading it back. *)
Lemma wlp_write_share share baseDir p f label w : representable share -> is_party p -> party_file f ->
  wlp (fun _ w' => only_party baseDir p w w' /\ holds w' (file_of baseDir p f) share /\
         forall g s, party_file g -> g <> f -> holds w (file_of baseDir p g) s -> holds w' (file_of baseDir p g) s)
    (write_share (Some share) (party_dir baseDir p) f label) w.
Proof.
  intros Hrep Hp Hf. unfold write_share. eapply wlp_skip; [apply safe_marshal|]. intros d Hd.
  eapply wlp_mono; [apply wlp_write|]. intros [] w' ->. split; [by apply only_party_write|]. split.
  - exists d. split; [apply lookup_insert_eq|]. by eapply Unmarshal_Marshal.
  - intros g s Hg Hn. by apply holds_write.
Qed.
Lemma wlp_writeKeyShares k baseDir p w : is_party p -> party_shares k p = (Some (ecdsa_of p), Some (eddsa_of p)) ->
  wlp (fun _ w' => only_party baseDir p w w' /\ party_files baseDir p w') (writeKeyShares k p (party_dir baseDir p)) w.
Proof.
  intros Hp Hk. unfold writeKeyShares. rewrite Hk. apply wlp_bind.
  eapply wlp_mono; [apply wlp_write_share; [by apply ecdsa_share|done|unfold party_file, ecdsa_file; cbn; tauto]|]. intros [] w1 (Ho & Hh & _).
  eapply wlp_mono; [apply wlp_write_share; [by apply eddsa_share|done|unfold party_file, eddsa_file; cbn; tauto]|]. intros [] w2 (Ho' & Hh' & Hk').
  split; [by etrans|]. split; [|done]. apply Hk'; [unfold party_file, ecdsa_file; cbn; tauto|done|done].
Qed.
Lemma K_party_shares s p : K s -> is_party p -> party_shares (keys (wizard s)) p = (Some (ecdsa_of p), Some (eddsa_of p)).
Proof. intros (HA & HB & HEA & HEB) [-> | ->]; unfold party_shares, ecdsa_of, eddsa_of; simpl; by rewrite ?HA, ?HB, ?HEA, ?HEB. Qed.

Lemma wlp_write_party baseDir p w : is_party p ->
  wlp (fun _ w' => only_party baseDir p w w' /\ party_files baseDir p w') (write_party baseDir p) w.
Proof.
  intros Hp. unfold write_party. do 2 (apply wlp_quiet; [effects|intros _]).
  apply wlp_quiet; [apply ok_peek; exact _|]. intros c. apply wlp_bind.
  eapply wlp_mono; [apply (wlp_each (only_party baseDir p w)); [|done]|].
  { intros [name data] w1 Hin Hw1. eapply wlp_mono; [apply wlp_write|]. intros [] w2 ->. etrans; [done|].
    apply only_party_write; [done|]. apply list_elem_of_In in Hin. rewrite range_perm in Hin. apply elem_of_map_to_list in Hin.
    rewrite !lookup_insert_Some, lookup_empty in Hin. unfold party_file; cbn. naive_solver. }
  intros [] w1 Hw1. apply wlp_quiet; [effects|intros _].
  eapply wlp_skip; [apply (safe_peek K neutral keys (fun k => party_shares k p = (Some (ecdsa_of p), Some (eddsa_of p)))); intros s Hs; by apply K_party_shares|].
  intros k Hk. apply wlp_bind, wlp_wrap. eapply wlp_mono; [by apply wlp_writeKeyShares|]. intros [] w2 [Ho Hf].
  apply wlp_quiet; [apply ok_peek; exact _|]. intros s. eapply wlp_skip; [apply safe_marshal|]. intros cfg _.
  apply wlp_bind. eapply wlp_mono; [apply wlp_write|]. intros [] w3 ->.
  eapply wlp_mono; [apply (wlp_neutral _ (fun _ => True)), ok_log; exact _|]. intros [] w4 [-> _].
  assert (party_file "config.json") as Hc by (unfold party_file; cbn; tauto). split.
  - do 2 (etrans; [done|]). by apply only_party_write.
  - destruct Hf as [He Hd]. split; apply holds_write; try done; unfold party_file, ecdsa_file, eddsa_file; cbn; tauto.
Qed.

(** *** Importing

    What the import of a share makes of a database: the share is that of its
    curve; the derived keys are kept or cleared; the rest is as it was. *)
Definition imported (v v' : StoreView) (share : KeyShare) : Prop :=
  v_shares v' = <[ks_Curve share := share]> (v_shares v) /\ (v_keys v' = v_keys v \/ v_keys v' = ∅) /\
  v_txs v' = v_txs v /\ v_whitelist v' = v_whitelist v.
(** Only the database [dsn] changed. *)
Definition only_db (dsn : string) (w w' : World) : Prop :=
  files w' = files w /\ env w' = env w /\ forall d, d <> dsn -> db w' d = db w d.
#[local] Instance only_db_preorder dsn : PreOrder (only_db dsn).
Proof.
  split; [done|]. intros w1 w2 w3 (Hf & He & Hd) (Hf' & He' & Hd'). split; [congruence|]. split; [congruence|].
  intros d Hn. by rewrite Hd', Hd.
Qed.
Lemma only_db_with w dsn v : only_db dsn w (with_db w dsn v).
Proof. split; [done|]. split; [done|]. intros d Hn. cbn. by rewrite bool_decide_eq_false_2. Qed.
Lemma db_with w dsn v : db (with_db w dsn v) dsn = v.
Proof. cbn. by rewrite bool_decide_eq_true_2. Qed.

(** The derived keys may have been cleared before the share is saved. *)
Lemma imported_saved v v1 share : v1 = v \/ v1 = Spec.ClearDerivedKeys v -> imported v (Spec.SaveMasterShare v1 share) share.
Proof. intros [-> | ->]; (split; [done|]; split; [by auto|done]). Qed.

Lemma wlp_importShare dsn p path curve label share w : holds w path share -> ks_Curve share = curve ->
  wlp (fun _ w' => only_db dsn w w' /\ imported (db w dsn) (db w' dsn) share) (importShare dsn p path curve label) w.
Proof.
  intros (d & Hd & Hu) Hc. unfold importShare. apply wlp_bind. split; [done|]. intros r w1 _ [-> Hr]. rewrite Hd in Hr. subst r.
  apply wlp_ret. eapply wlp_skip; [apply safe_marshal|]. intros s Hs. rewrite Hu in Hs. injection Hs as <-.
  apply wlp_quiet; [effects|intros old]. apply wlp_bind.
  apply (wlp_mono K (fun _ w1 => only_db dsn w w1 /\ (db w1 dsn = db w dsn \/ db w1 dsn = Spec.ClearDerivedKeys (db w dsn)))).
  - destruct old as [old|e|]; [case_match|..]; try (apply wlp_ret; by split; [reflexivity|left]).
    apply wlp_quiet; [effects|intros _]. apply wlp_bind. split; [done|]. intros [[]|e|] w1 _ Hw1; cbn in Hw1; [| |done].
    + subst w1. do 2 apply wlp_ret. split; [apply only_db_with|]. right. apply db_with.
    + subst w1. do 2 apply wlp_ret. by split; [reflexivity|left].
  - intros [] w1 [Ho Hdb]. apply wlp_bind, wlp_wrap. split; [done|]. intros [[]|e|] w2 _ Hw2; cbn in Hw2; [|done..].
    subst w2. apply wlp_ret. eapply wlp_mono; [apply (wlp_neutral _ (fun _ => True)), ok_log; exact _|].
    intros [] w3 [-> _]. split; [etrans; [done|apply only_db_with]|]. rewrite db_with. by apply imported_saved.
Qed.

(** Both shares of a party. *)
Definition installed (v v' : StoreView) (ecdsa eddsa : KeyShare) : Prop :=
  v_shares v' = <[CurveEd25519 := eddsa]> (<[CurveSecp256k1 := ecdsa]> (v_shares v)) /\
  (v_keys v' = v_keys v \/ v_keys v' = ∅) /\ v_txs v' = v_txs v /\ v_whitelist v' = v_whitelist v.
Lemma wlp_importSharesToDB dsn baseDir p w : is_party p -> party_files baseDir p w ->
  wlp (fun _ w' => only_db dsn w w' /\ installed (db w dsn) (db w' dsn) (ecdsa_of p) (eddsa_of p)) (importSharesToDB dsn (party_dir baseDir p) p) w.
Proof.
  intros Hp [He Hd]. unfold importSharesToDB. apply wlp_quiet; [effects|intros _]. apply wlp_bind.
  eapply wlp_mono; [by eapply wlp_importShare; [exact He|apply ecdsa_share]|]. intros [] w1 [Ho (E1 & E2 & E3 & E4)].
  assert (holds w1 (file_of baseDir p eddsa_file) (eddsa_of p)) as Hd1.
  { destruct Hd as (d & Hd & Hu). exists d. split; [|done]. destruct Ho as (-> & _). done. }
  eapply wlp_mono; [by eapply wlp_importShare; [exact Hd1|apply eddsa_share]|]. intros [] w2 [Ho' (F1 & F2 & F3 & F4)].
  split; [by etrans|]. rewrite (proj2 (ecdsa_share p Hp)) in E1. rewrite (proj2 (eddsa_share p Hp)) in F1. split; [by rewrite F1, E1|].
  split; [|by rewrite F3, F4]. destruct F2 as [F2|F2]; rewrite F2; tauto.
Qed.

Lemma party_files_db baseDir p dsn w w' : only_db dsn w w' -> party_files baseDir p w -> party_files baseDir p w'.
Proof. intros (Hf & _) Hp. unfold party_files, holds. by rewrite Hf. Qed.
(** The databases after an installation. *)
Definition both_installed (w w' : World) : Prop :=
  installed (db w (localDSN "a")) (db w' (localDSN "a")) a ea /\ installed (db w (localDSN "b")) (db w' (localDSN "b")) b eb /\
  forall d, d <> localDSN "a" -> d <> localDSN "b" -> db w' d = db w d.
Lemma wlp_import_both baseDir w : party_files baseDir "a" w -> party_files baseDir "b" w ->
  wlp (fun _ => both_installed w)
    (each ["a"; "b"] (fun party => wrap ("import shares for party " +:+ party) (importSharesToDB (localDSN party) (party_dir baseDir party) party))) w.
Proof.
  intros HA HB. assert (localDSN "a" <> localDSN "b") as Hn by discriminate. cbn [each].
  apply wlp_bind, wlp_wrap. eapply wlp_mono; [apply wlp_importSharesToDB; [by left|done]|]. intros [] w1 [Ho HI].
  apply wlp_bind, wlp_wrap. eapply wlp_mono; [apply wlp_importSharesToDB; [by right|by eapply party_files_db]|]. intros [] w2 [Ho' HI'].
  apply wlp_ret. pose proof (proj2 (proj2 Ho)) as Hd. pose proof (proj2 (proj2 Ho')) as Hd'.
  split; [by rewrite Hd'|]. split; [by rewrite <- (Hd (localDSN "b"))|]. intros d Ha Hb. by rewrite Hd', Hd.
Qed.

Lemma wlp_start_local baseDir w : party_files baseDir "a" w -> party_files baseDir "b" w ->
  wlp (fun _ => both_installed w) (start_local baseDir) w.
Proof.
  intros HA HB. unfold start_local. apply wlp_quiet; [effects|intros docker]. case_match; [done|].
  do 4 (apply wlp_quiet; [first [effects; apply ok_each_acc; intros; unfold kill_container, kill_port; effects|apply ok_killExistingParties; exact _|apply ok_wrap, ok_ensureLocalPostgres; exact _|effects]|intros _]).
  apply wlp_quiet; [effects|intros _]. apply wlp_bind. eapply wlp_mono; [by apply wlp_import_both|]. intros [] w1 Hw1.
  eapply (wlp_mono K (fun _ w2 => w2 = w1 /\ True)); [apply (wlp_neutral _ (fun _ => True))|by intros [] w2 [-> _]].
  effects; first [apply ok_findProjectRoot|apply ok_build_image|apply ok_start_container|apply ok_verify_containers]; exact _.
Qed.
Lemma wlp_DeployLocal w : env w "CRYPTO_CLAW_NO_PROCESSES" = "" -> wlp (fun _ => both_installed w) DeployLocal w.
Proof.
  intros Henv. unfold DeployLocal. apply wlp_quiet; [apply ok_localBaseDir; exact _|intros baseDir].
  apply wlp_quiet; [effects|intros _]. apply wlp_bind. cbn [each].
  apply wlp_bind. eapply wlp_mono; [by apply wlp_write_party; left|]. intros [] w1 [Ho HA].
  apply wlp_bind. eapply wlp_mono; [by apply wlp_write_party; right|]. intros [] w2 [Ho' HB].
  apply wlp_ret. pose proof Ho as (Hd & He & _). pose proof Ho' as (Hd' & He' & _).
  apply wlp_bind. split; [done|]. intros no w3 _ [-> ->]. apply wlp_ret. rewrite He', He, Henv. cbn [nonempty].
  eapply wlp_mono; [apply wlp_start_local; [|done]|].
  - eapply party_files_frame; [by left|by right|done|exact Ho'|done].
  - intros [] w3 HI. unfold both_installed in *. by rewrite Hd', Hd in HI.
Qed.
End Local.

(** ** The claim *)
Section Installed.
Context {pp aux : Type} `{Unicode} `{MapOrder} `{!MapOrderLaws} `{ConfigJson} `{Codec KeyShare} `{!CodecLaws KeyShare} `{TssLib}
        `{Codec (SaveData aux)} `{Codec (SaveData unit)} `{Bip39} `{X509}.
Context (mk_aux : list pp -> nat -> aux) (S256 Edwards : EllipticCurve).

Lemma build_shares_curve {x} `{Codec (SaveData x)} curve pub chain sorted (auxs : list x) shares ids pts q l :
  build_shares curve pub chain sorted auxs shares ids pts q = Ret l -> forall ks, In ks l -> ks_Curve ks = curve.
Proof.
  unfold build_shares. intros Hb ks Hin. destruct (go_mapM_In _ _ _ _ Hb Hin) as (i & _ & Hi). by go_inv.
Qed.
Lemma dealt_ECDSA_curve mnemonic a b : dealt_ECDSA mk_aux S256 Edwards mnemonic a b ->
  ks_Curve a = CurveSecp256k1 /\ ks_Curve b = CurveSecp256k1.
Proof.
  intros (k & rand & pps & _ & HD). unfold DealerSetupECDSA in HD. case_match; [done|]. go_inv.
  match goal with HB : build_shares _ _ _ _ _ _ _ _ _ = _ |- _ => pose proof (build_shares_curve _ _ _ _ _ _ _ _ _ _ HB) as HC end.
  split; apply HC; cbn; tauto.
Qed.
Lemma dealt_EdDSA_curve mnemonic a b : dealt_EdDSA S256 Edwards mnemonic a b ->
  ks_Curve a = CurveEd25519 /\ ks_Curve b = CurveEd25519.
Proof.
  intros (k & rand & _ & HD). unfold DealerSetupEdDSA in HD. go_inv.
  match goal with HB : build_shares _ _ _ _ _ _ _ _ _ = _ |- _ => pose proof (build_shares_curve _ _ _ _ _ _ _ _ _ _ HB) as HC end.
  split; apply HC; cbn; tauto.
Qed.

Lemma local_install mnemonic sA sB (s s' : Shared pp) t w w' a b ea eb :
  session mk_aux S256 Edwards mnemonic sA sB s ->
  ShareA (keys (wizard s)) = Some a -> ShareB (keys (wizard s)) = Some b ->
  EdShareA (keys (wizard s)) = Some ea -> EdShareB (keys (wizard s)) = Some eb ->
  Forall representable [a; b; ea; eb] -> env w "CRYPTO_CLAW_NO_PROCESSES" = "" ->
  exec others s DeployLocal t s' (Some (Ret tt)) -> replay w t w' ->
  dealt_ECDSA mk_aux S256 Edwards mnemonic a b /\ dealt_EdDSA S256 Edwards mnemonic ea eb /\
  installed (db w (localDSN "a")) (db w' (localDSN "a")) a ea /\
  installed (db w (localDSN "b")) (db w' (localDSN "b")) b eb /\
  forall d, d <> localDSN "a" -> d <> localDSN "b" -> db w' d = db w d.
Proof.
  intros [He Hd _ _] Ea Eb Eea Eeb HR Henv Hx Hw. rewrite Ea, Eb in He. rewrite Eea, Eeb in Hd. split; [done|]. split; [done|].
  apply dealt_ECDSA_curve in He as [Ca Cb]. apply dealt_EdDSA_curve in Hd as [Cea Ceb].
  rewrite !Forall_cons in HR. destruct HR as (Ra & Rb & Rea & Reb & _).
  refine (wlp_sound (shares_are a b ea eb) others _ _ _ _ _ _ _ _ _ (others_shares _ _ _ _) _
    (wlp_DeployLocal a b ea eb _ _ _ Henv) Hx Hw eq_refl); [done|..]; by intros p [-> | ->].
Qed.

(** C13: A local installation puts each half of each key into the database of its
    party. In every execution of [DeployLocal] among the other handlers, from a
    session whose shares were dealt, on a machine whose files can be read as they
    were written and whose databases satisfy the store's contract: if it returns
    without an error (and was not told to start no processes), the database of
    Party A holds Party A's shares of one dealing per curve of the keys of the
    recovery phrase, that of Party B holds Party B's, under the curves the parties
    look them up by; transactions and whitelists are as they were, derived keys are
    as they were or cleared, and no other database changed. These are the stores
    from which the parties derive the same addresses. The shares travel as JSON
    files, whose paths are different for different parties. *)
Theorem local_install_stores_shares mnemonic sA sB (s s' : Shared pp) t w w' a b ea eb :
  session mk_aux S256 Edwards mnemonic sA sB s ->
  ShareA (keys (wizard s)) = Some a -> ShareB (keys (wizard s)) = Some b ->
  EdShareA (keys (wizard s)) = Some ea -> EdShareB (keys (wizard s)) = Some eb ->
  Forall representable [a; b; ea; eb] -> env w "CRYPTO_CLAW_NO_PROCESSES" = "" ->
  exec others s DeployLocal t s' (Some (Ret tt)) -> replay w t w' ->
  dealt_ECDSA mk_aux S256 Edwards mnemonic a b /\ dealt_EdDSA S256 Edwards mnemonic ea eb /\
  installed (db w (localDSN "a")) (db w' (localDSN "a")) a ea /\
  installed (db w (localDSN "b")) (db w' (localDSN "b")) b eb /\
  forall d, d <> localDSN "a" -> d <> localDSN "b" -> db w' d = db w d.
Proof. apply local_install. Qed.
End Installed.

(** ** A small local installation *)
#[local] Existing Instances Toy.unicode number_parties Toy.toy_save_codec Toy.curve_laws ToyMnemonic.bip39 ToyInstall.order
  ToyInstall.order_laws ToyInstall.config_json ToyInstall.x509.
Module ToyLocal.
Definition share_of (m : go (list KeyShare)) (i : nat) : KeyShare := Toy.nth_key m i.
Definition rand (i : nat) : go Z := Ret 987654321.
Definition ecdsa : go (list KeyShare) :=
  let k := ToyMnemonic.keys in
  DealerSetupECDSA ToyInstall.mk_aux Toy.curve rand
    (mk_ECDSAPrivKey k) (mk_ECDSAPubKey k) (mk_ECDSAChainCode k) party_ids [tt; tt].
Definition eddsa : go (list KeyShare) :=
  let k := ToyMnemonic.keys in
  DealerSetupEdDSA Small.curve rand
    (mk_EdDSAPrivKey k) (mk_EdDSAPubKey k) (mk_EdDSAChainCode k) party_ids.
Definition a : KeyShare := Eval vm_compute in share_of ecdsa 0.
Definition b : KeyShare := Eval vm_compute in share_of ecdsa 1.
Definition ea : KeyShare := Eval vm_compute in share_of eddsa 0.
Definition eb : KeyShare := Eval vm_compute in share_of eddsa 1.

(** A codec of these four shares: their curve and party. *)
Definition tag_of (s : KeyShare) : bytes := bytes_of (ks_Curve s +:+ pid_ID (ks_PartyID s)).
Definition untag (d : bytes) : go KeyShare :=
  match filter (fun s => bool_decide (tag_of s = d) = true) [a; b; ea; eb] with s :: _ => Ret s | [] => Err "invalid character" end.
#[export] Instance share_codec : Codec KeyShare := {|
  Marshal := fun s => Ret (tag_of s); Unmarshal := untag; representable := fun s => In s [a; b; ea; eb] |}.
#[export] Instance share_laws : CodecLaws KeyShare.
Proof.
  split; [by eexists|]. intros s d Hs [= <-]. cbn in Hs. destruct_or! Hs; subst; reflexivity || done.
Qed.

(** The phrase is entered, the keys are dealt, and a key was there before. *)
Definition start : Shared unit :=
  let s := ToyInstall.start ToyInstall.generated in
  with_wizard s (SetEdDSAKeys (SetECDSAKeys (wizard s) a b) ea eb).
Definition old_share : KeyShare :=
  {| ks_Curve := CurveSecp256k1; ks_PartyID := party_a; ks_Share := []; ks_PublicKey := []; ks_ChainCode := [] |}.
Definition empty_view : StoreView := {| v_shares := ∅; v_keys := ∅; v_txs := ∅; v_whitelist := ∅ |}.
Definition machine : World := {|
  files := ∅; db := fun dsn => if bool_decide (dsn = localDSN "a") then Spec.SaveMasterShare empty_view old_share else empty_view;
  env := fun _ => ""; temps := ∅; disk := true |}.
(** Commands succeed. *)
Definition oracle (A : Type) (e : effect unit A) : option A :=
  match e in Effects.effect _ A return option A with
  | MkdirAll _ => Some (Ret tt) | UserHomeDir => Some (Ret "/home/u") | Getwd => Some (Ret "/src") | Stat _ => Some Found
  | LookPath _ => Some true | Exec _ _ => Some ("true", None) | ExecLines _ _ => Some (Ret (["done"], None)) | Sleep _ => Some tt
  | NewPostgresStore _ _ => Some (Ret tt) | Now => Some 1 | RandInts => Some rand | RandKeys => Some 7%nat
  | _ => None
  end.
Definition run : list (event unit) * Shared unit * World * option (go unit) :=
  simulate oracle start machine DeployLocal.
Lemma run_result : let '(t, s, w, r) := run in
  r = Some (Ret tt) /\ existsb (fun x => match x with Called (ClearDerivedKeys dsn) _ => bool_decide (dsn = localDSN "a") | _ => false end) t = true.
Proof. vm_compute. split; reflexivity. Qed.
End ToyLocal.
#[local] Existing Instances ToyLocal.share_codec ToyLocal.share_laws.

Lemma toy_dealt : dealt_ECDSA ToyInstall.mk_aux Toy.curve Small.curve ToyMnemonic.mnemonic ToyLocal.a ToyLocal.b /\
  dealt_EdDSA Toy.curve Small.curve ToyMnemonic.mnemonic ToyLocal.ea ToyLocal.eb.
Proof.
  split; [exists ToyMnemonic.keys, ToyLocal.rand, [tt; tt]|exists ToyMnemonic.keys, ToyLocal.rand];
    (split; [exact ToyMnemonic.keys_eq|vm_compute; reflexivity]).
Qed.
Lemma toy_session : session ToyInstall.mk_aux Toy.curve Small.curve ToyMnemonic.mnemonic (ToyInstall.server "a.example")
  (ToyInstall.server "b.example") ToyLocal.start.
Proof.
  split; [exact (proj1 toy_dealt)|exact (proj2 toy_dealt)| |done]. split; [by left|]. split; by left.
Qed.

Lemma toy_representable : Forall representable [ToyLocal.a; ToyLocal.b; ToyLocal.ea; ToyLocal.eb].
Proof. apply Forall_forall. intros s Hs. apply list_elem_of_In. exact Hs. Qed.

Lemma local_install_stores_shares_witness :
  exists t s' w', exec others ToyLocal.start DeployLocal t s' (Some (Ret tt)) /\ replay ToyLocal.machine t w' /\
    v_shares (db w' (localDSN "a")) !! CurveSecp256k1 = Some ToyLocal.a /\ v_shares (db w' (localDSN "a")) !! CurveEd25519 = Some ToyLocal.ea /\
    v_shares (db w' (localDSN "b")) !! CurveSecp256k1 = Some ToyLocal.b /\ v_shares (db w' (localDSN "b")) !! CurveEd25519 = Some ToyLocal.eb.
Proof.
  pose proof ToyLocal.run_result as HE. destruct ToyLocal.run as [[[t s'] w'] r] eqn:E. destruct HE as (-> & _).
  apply (simulate_spec _ others) in E as [Hx Hw].
  destruct (local_install_stores_shares ToyInstall.mk_aux Toy.curve Small.curve ToyMnemonic.mnemonic (ToyInstall.server "a.example")
    (ToyInstall.server "b.example") ToyLocal.start s' t ToyLocal.machine w' ToyLocal.a ToyLocal.b ToyLocal.ea ToyLocal.eb
    toy_session eq_refl eq_refl eq_refl eq_refl toy_representable eq_refl Hx Hw) as (_ & _ & (Ha & _) & (Hb & _) & _).
  exists t, s', w'. split; [exact Hx|]. split; [exact Hw|]. rewrite Ha, Hb.
  repeat split; apply lookup_insert_eq || (rewrite lookup_insert_ne by discriminate; apply lookup_insert_eq).
Defined.
