(* ===== verification/Zones.v ===== *)
(** * Zones: two goroutines on one machine

    A rely-guarantee rule for goroutines that write only to temporary directories of
    their own and to databases of their own: each is verified alone, and [wlp_par]
    puts them together in every interleaving. *)
From S2P Require Import Prelude GoStd Tss Config Store EdwardsPoint Mnemonic Wizard Effects PathFacts Machine.
Local Open Scope Z_scope.

(** A zone: the files of the temporary directories named in [own] and the databases
    in [D]. *)
Section Zone.
Context (own : gset string) (D : string -> Prop).
(** The zone is as it was. *)
Record untouched (w w' : World) : Prop := {
  un_files name path : name ∈ own -> child name path -> files w' !! path = files w !! path;
  un_db d : D d -> db w' d = db w d;
  un_temps : temps w ⊆ temps w';
  un_disk : disk w' = disk w }.
(** Nothing but the zone has changed in what belongs to somebody. *)
Record within (w w' : World) : Prop := {
  wi_files name path : name ∈ temps w -> name ∉ own -> child name path -> files w' !! path = files w !! path;
  wi_db d : ~ D d -> db w' d = db w d;
  wi_temps : temps w ⊆ temps w';
  wi_disk : disk w' = disk w }.
#[export] Instance untouched_preorder : PreOrder untouched.
Proof.
  split; [done|]. intros w1 w2 w3 [F1 B1 T1 E1] [F2 B2 T2 E2]. split; [|..|congruence].
  - intros name path Hn Hc. by rewrite (F2 name), (F1 name).
  - intros d Hd. by rewrite B2, B1.
  - by etrans.
Qed.
Lemma within_refl w : within w w.
Proof. done. Qed.
End Zone.

(** What one zone's owner does leaves another zone untouched. *)
Lemma within_untouched own D own' D' w w' : within own D w w' -> own' ⊆ temps w -> own ## own' -> (forall d, D d -> D' d -> False) ->
  untouched own' D' w w'.
Proof.
  intros [HF HB HT HE] Hsub Hdis HD. split; [|..|done|done].
  - intros name path Hn Hc. apply (HF name); [set_solver..|done].
  - intros d Hd. apply HB. intros Hd'. by eapply HD.
Qed.
Lemma untouched_weaken own D (D' : string -> Prop) w w' : (forall d, D' d -> D d) -> untouched own D w w' -> untouched own D' w w'.
Proof. intros HD [HF HB HT HE]. split; auto. Qed.

Section Threads.
Context {pp : Type} (K : Shared pp -> Prop).
Notation prog := (prog pp).
Notation effect := (effect pp).
Notation neutral := (neutral (pp := pp)).

(** [rg own D Q p w]: started on [w] as the owner of the zone, among goroutines that
    leave the zone untouched, [p] stays within its zone - which grows by the
    directories it makes - and a value it returns satisfies [Q] from then on. *)
Fixpoint rg {R} (own : gset string) (D : string -> Prop) (Q : R -> gset string -> World -> Prop) (p : prog R) (w : World) : Prop :=
  match p with
  | Done r => forall a w', untouched own D w w' -> r = Ret a -> Q a own w'
  | Do e k => keeps K e /\ forall w1 a w2, untouched own D w w1 -> possible K e a -> reacts w1 e a w2 ->
      let own' := own ∪ temps w2 ∖ temps w1 in within own' D w1 w2 /\ rg own' D Q (k a) w2
  end.

Lemma rg_mono {R} (Q Q' : R -> gset string -> World -> Prop) own D p w :
  rg own D Q p w -> (forall a own' w', Q a own' w' -> Q' a own' w') -> rg own D Q' p w.
Proof.
  intros Hp HQ. revert own w Hp. induction p as [r|A e k IH]; cbn; [eauto|]. intros own w [Hk Hp]. split; [done|].
  intros w1 a w2 Hw Ha Hr. destruct (Hp w1 a w2 Hw Ha Hr) as [Hi Hg]. eauto.
Qed.
Lemma rg_untouched {R} (Q : R -> gset string -> World -> Prop) own D p w w' : untouched own D w w' -> rg own D Q p w -> rg own D Q p w'.
Proof.
  intros Hw. destruct p as [r|A e k]; cbn.
  - intros Hp a w2 Hw2. apply Hp. by etrans.
  - intros [Hk Hp]. split; [done|]. intros w1 a w2 Hw1. apply Hp. by etrans.
Qed.
Lemma rg_ret {R} (Q : R -> gset string -> World -> Prop) own D a w : (forall w', untouched own D w w' -> Q a own w') -> rg own D Q (Done (Ret a)) w.
Proof. intros HQ a' w' Hw [= <-]. by apply HQ. Qed.
Lemma rg_bind {A B} (Q : B -> gset string -> World -> Prop) own D (m : prog A) (f : A -> prog B) w :
  rg own D (fun a own' w' => rg own' D Q (f a) w') m w -> rg own D Q (m ≫= f) w.
Proof.
  revert own w. induction m as [[a|e|]|A' e k IH]; cbn; intros own w Hm; [by apply Hm|done|done|].
  destruct Hm as [Hk Hm]. split; [done|]. intros w1 a w2 Hw Ha Hr. destruct (Hm w1 a w2 Hw Ha Hr). eauto.
Qed.
Lemma rg_wrap {A} (Q : A -> gset string -> World -> Prop) own D what (m : prog A) w : rg own D Q m w -> rg own D Q (wrap what m) w.
Proof.
  revert own w. induction m as [r|A' e k IH]; cbn; intros own w; [by destruct r|]. intros [Hk Hm]. split; [done|].
  intros w1 a w2 Hw Ha Hr. destruct (Hm w1 a w2 Hw Ha Hr). eauto.
Qed.
Lemma rg_attempt {A} (Q : A -> gset string -> World -> Prop) own D (m : prog A) w :
  rg own D Q m w -> rg own D (fun r own' w' => own ⊆ own' /\ forall a, r = Ret a -> Q a own' w') (attempt m) w.
Proof.
  revert own w. induction m as [r|A' e k IH]; cbn; intros own w Hm.
  - destruct r as [x|e|]; cbn; try done; intros r w' Hw [= <-]; (split; [done|]); [by intros a' [= <-]; apply Hm|by intros a' [=]].
  - destruct Hm as [Hk Hm]. split; [done|]. intros w1 a w2 Hw Ha Hr. destruct (Hm w1 a w2 Hw Ha Hr) as [Hi Hg]. split; [done|].
    eapply rg_mono; [by apply IH|]. intros r own' w' [Hs HQ]. split; [set_solver|done].
Qed.

(** Calls that change neither files nor databases. *)
Lemma own_same (own : gset string) w : own ∪ temps w ∖ temps w = own.
Proof. set_solver. Qed.
Lemma rg_neutral {R} (Q : R -> Prop) own D (p : prog R) w : safe K neutral Q p ->
  rg own D (fun a own' w' => own' = own /\ untouched own D w w' /\ Q a) p w.
Proof.
  revert w. induction p as [r|A e k IH]; cbn [rg safe]; intros w Hp; [eauto|]. destruct Hp as [Hk Hp]. split; [done|].
  intros w1 a w2 Hw Ha Hr. destruct (Hp a Ha) as [HP Hs]. apply reacts_neutral in Hr as ->; [|done]. rewrite own_same.
  split; [apply within_refl|]. eapply rg_mono; [by apply IH|]. intros b own' w' (-> & Hw' & Hb). split; [done|]. split; [by etrans|done].
Qed.
Lemma rg_skip {A B} (Q : B -> gset string -> World -> Prop) own D (Q' : A -> Prop) (m : prog A) (f : A -> prog B) w :
  safe K neutral Q' m -> (forall a w', untouched own D w w' -> Q' a -> rg own D Q (f a) w') -> rg own D Q (m ≫= f) w.
Proof.
  intros Hm Hf. apply rg_bind. eapply rg_mono; [by apply rg_neutral|]. intros a own' w' (-> & Hw & Ha). auto.
Qed.
(** One call, from a state that others have left alone. *)
Lemma rg_call {A} (Q : A -> gset string -> World -> Prop) own D (e : effect A) w : keeps K e ->
  (forall w1 a w2, untouched own D w w1 -> reacts w1 e a w2 -> let own' := own ∪ temps w2 ∖ temps w1 in
     within own' D w1 w2 /\ forall w3, untouched own' D w2 w3 -> Q a own' w3) -> rg own D Q (call e) w.
Proof.
  intros Hk He. split; [done|]. intros w1 a w2 Hw _ Hr. destruct (He w1 a w2 Hw Hr) as [Hi HQ]. split; [done|].
  intros a' w3 Hw3 [= <-]. by apply HQ.
Qed.
Lemma rg_answer {A} (Q : A -> gset string -> World -> Prop) own D (e : effect (go A)) w : keeps K e ->
  (forall w1 r w2, untouched own D w w1 -> reacts w1 e r w2 -> let own' := own ∪ temps w2 ∖ temps w1 in
     within own' D w1 w2 /\ forall a w3, r = Ret a -> untouched own' D w2 w3 -> Q a own' w3) -> rg own D Q (answer e) w.
Proof.
  intros Hk He. split; [done|]. intros w1 r w2 Hw _ Hr. destruct (He w1 r w2 Hw Hr) as [Hi HQ]. split; [done|].
  intros a w3 Hw3 ->. by apply HQ.
Qed.

(** ** Two goroutines *)

(** What the owner of a zone makes its own was nobody's. *)
Lemma grown_apart (own own' : gset string) D w w2 : own ## own' -> own' ⊆ temps w -> within (own ∪ temps w2 ∖ temps w) D w w2 ->
  own ∪ temps w2 ∖ temps w ## own'.
Proof. set_solver. Qed.
(** One goroutine after the other has ended. *)
Definition outcome {R} (Q : R -> gset string -> World -> Prop) (r : go R) (w : World) : Prop :=
  r <> Panic /\ forall a, r = Ret a -> exists own, Q a own w.
Lemma rg_alone {R} (Q : R -> gset string -> World -> Prop) own D own' D' (p : prog R) w :
  own' ⊆ temps w -> own ## own' -> (forall d, D d -> D' d -> False) -> rg own D Q p w ->
  wlp K (fun r w' => outcome Q r w' /\ untouched own' D' w w' /\ forall d, ~ D d -> db w' d = db w d) (attempt p) w.
Proof.
  intros Hs Ha HD. revert own w Hs Ha. induction p as [r|A e k IH]; cbn [rg attempt]; intros own w Hs Ha Hp.
  - assert (forall a, r = Ret a -> exists own1, Q a own1 w) as HQ by (intros a Hr; exists own; by apply Hp).
    by destruct r; try done; intros r [= <-]; (split; [|done]).
  - destruct Hp as [Hk Hp]. split; [done|]. intros a w2 Hposs Hr. destruct (Hp w a w2 ltac:(reflexivity) Hposs Hr) as [Hi Hg].
    pose proof (grown_apart own own' D w w2 Ha Hs Hi) as Ha'.
    assert (untouched own' D' w w2) as Hu by (by eapply within_untouched).
    eapply wlp_mono; [eapply (IH a); [|exact Ha'|exact Hg]|]; [by etrans; [exact Hs|apply Hu]|].
    intros r w' (HQ & Hu' & Hd). split; [done|]. split; [by etrans|]. intros d Hn. rewrite Hd by done. by apply Hi.
Qed.

(** The results of both, and the databases that belong to neither. *)
Definition both_outcomes {A B} (Q1 : A -> gset string -> World -> Prop) (Q2 : B -> gset string -> World -> Prop) (D1 D2 : string -> Prop)
    (w : World) (r : go A * go B) (w' : World) : Prop :=
  outcome Q1 r.1 w' /\ outcome Q2 r.2 w' /\ forall d, ~ D1 d -> ~ D2 d -> db w' d = db w d.
Lemma both_outcomes_later {A B} Q1 Q2 own D D1 D2 w w2 (r : go A * go B) w' : within own D w w2 -> (forall d, D d -> D1 d \/ D2 d) ->
  both_outcomes Q1 Q2 D1 D2 w2 r w' -> both_outcomes Q1 Q2 D1 D2 w r w'.
Proof.
  intros Hi HD (H1 & H2 & Hd). split; [done|]. split; [done|]. intros d Hn1 Hn2. rewrite Hd by done. apply Hi. by intros [?|?]%HD.
Qed.
Lemma wlp_par {A B} (Q1 : A -> gset string -> World -> Prop) (Q2 : B -> gset string -> World -> Prop) own1 D1 own2 D2 (p : prog A) (q : prog B) w :
  own1 ⊆ temps w -> own2 ⊆ temps w -> own1 ## own2 -> (forall d, D1 d -> D2 d -> False) ->
  rg own1 D1 Q1 p w -> rg own2 D2 Q2 q w -> wlp K (both_outcomes Q1 Q2 D1 D2 w) (par p q) w.
Proof.
  intros Hs1 Hs2 Hap HD. revert own1 own2 q w Hs1 Hs2 Hap. induction p as [r|A' e k IH]; intros own1 own2 q w Hs1 Hs2 Hap Hp Hq.
  - assert (r <> Panic -> wlp K (fun r' => both_outcomes Q1 Q2 D1 D2 w (r, r')) (attempt q) w) as Hw.
    { intros Hn. eapply wlp_mono; [apply (rg_alone Q2 own2 D2 own1 D1); [done|done|intros d ??; by eapply HD|done]|]. intros r' w' (HQ & Hu & Hd).
      split; [|split; [done|auto]]. split; [done|]. intros a Hr. exists own1. by apply Hp. }
    destruct r as [a|e|]; cbn [par]; [..|done]; (apply wlp_bind; eapply wlp_mono; [by apply Hw|]); intros r' w' HQ; by apply wlp_ret.
  - revert own2 w Hs1 Hs2 Hap Hp Hq. induction q as [r|B' e' k' IHq]; intros own2 w Hs1 Hs2 Hap Hp Hq.
    + assert (r <> Panic -> wlp K (fun r' => both_outcomes Q1 Q2 D1 D2 w (r', r)) (attempt (Do e k)) w) as Hw.
      { intros Hn. eapply wlp_mono; [apply (rg_alone Q1 own1 D1 own2 D2); [done..|exact HD|exact Hp]|]. intros r' w' (HQ & Hu & Hd).
        split; [done|]. split; [|auto]. split; [done|]. intros b Hr. exists own2. by apply Hq. }
      destruct r as [b|e0|]; cbn [par]; [..|done]; (apply wlp_bind; eapply wlp_mono; [by apply Hw|]); intros r' w' HQ; by apply wlp_ret.
    + split; [done|]. intros b w0 _ Hr0. cbn in Hr0. subst w0. destruct b.
      * destruct Hp as [Hk Hp]. split; [done|]. intros a w2 Hposs Hr. destruct (Hp w a w2 ltac:(reflexivity) Hposs Hr) as [Hi Hg].
        pose proof (grown_apart _ _ _ _ _ Hap Hs2 Hi) as Hap'. assert (untouched own2 D2 w w2) as Hu by (by eapply within_untouched).
        eapply wlp_mono; [eapply IH; [|by etrans; [exact Hs2|apply Hu]|exact Hap'|exact Hg|by eapply rg_untouched]|].
        { pose proof (un_temps _ _ _ _ Hu). set_solver. }
        intros r w'. eapply both_outcomes_later; [exact Hi|auto].
      * destruct Hq as [Hk Hq]. split; [done|]. intros a w2 Hposs Hr. destruct (Hq w a w2 ltac:(reflexivity) Hposs Hr) as [Hi Hg].
        assert (own2 ## own1) as Hap2 by done. pose proof (grown_apart _ _ _ _ _ Hap2 Hs1 Hi) as Hap'.
        assert (untouched own1 D1 w w2) as Hu by (eapply within_untouched; [done..|]; intros d ??; by eapply HD).
        eapply wlp_mono; [eapply IHq; [by etrans; [exact Hs1|apply Hu]| |by symmetry|by eapply rg_untouched|exact Hg]|].
        { pose proof (un_temps _ _ _ _ Hu). set_solver. }
        intros r w'. eapply both_outcomes_later; [exact Hi|auto].
Qed.
End Threads.
