(* ===== verification/BorshTypes.v ===== *)
(** * BorshTypes: what the bytes of an Anchor call say of its arguments

    The IDL's types as a type system of the encoder of [Anchor.v]: the values of a
    type are encoded as a prefix code, so that a reader with the type can tell where
    each argument ends; which types break this, and which have no values. *)
From S2P Require Import Prelude GoStd Codec Crypto Protocol Transport Tss Vm Solana Idl Anchor BorshFacts.
Local Open Scope Z_scope.

(** A type that mentions [bytes], under its options. *)
Fixpoint has_bytes (t : IDLType) : bool :=
  match t with
  | mkIDLType prim o _ _ _ _ => bool_decide (prim = "bytes") || match o with Some i => has_bytes i | None => false end
  end.
(** No field of the IDL's structs does. *)
Definition sized (types : list IDLTypeDef) : Prop :=
  forall td f, In td types -> In f (td_Fields td) -> has_bytes (fd_Type f) = false.
(** Every value is shorter than 4 GiB. *)
Definition short (args : gmap string string) : Prop := forall k v, args !! k = Some v -> slen v < 2 ^ 32.

Section Types.
Context `{Unicode} `{SolanaGo} `{MapOrder} `{!MapOrderLaws}.
Context (pubkey_size : forall s b, PublicKeyFromBase58 s = Ret b -> length b = 32%nat).

(** ** Primitives *)
Lemma int_encoder_width prim enc : int_encoder prim = Some enc -> exists w, forall n, length (enc n) = w.
Proof.
  unfold int_encoder. intros E. repeat (case_bool_decide; [apply (inj Some) in E as <-; eexists; intros n; first [apply (proj1 (fillLE_spec _ _))|apply Binary.length_le_bytes]|]). done.
Qed.
Lemma string_length_inj (v1 v2 : string) : slen v1 < 2 ^ 32 -> slen v2 < 2 ^ 32 ->
  Binary.le_bytes 4 (slen v1) = Binary.le_bytes 4 (slen v2) -> length (bytes_of v1) = length (bytes_of v2).
Proof.
  intros Hs1 Hs2 E%(f_equal Binary.le_Z). rewrite !Binary.le_Z_le_bytes in E. change (256 ^ Z.of_nat 4) with (2 ^ 32) in E.
  assert (forall s, length (bytes_of s) = String.length s) as Hl by (intros s; unfold bytes_of, String.list_byte_of_string; induction s as [|c s IH]; [done|]; cbn in *; by rewrite IH).
  unfold slen in *. do 2 rewrite Z.mod_small in E by lia. rewrite !Hl. lia.
Qed.
Lemma primitive_prefix prim v1 v2 b1 b2 r1 r2 : prim <> "bytes" -> slen v1 < 2 ^ 32 -> slen v2 < 2 ^ 32 ->
  serializePrimitive v1 prim = Ret b1 -> serializePrimitive v2 prim = Ret b2 -> b1 ++ r1 = b2 ++ r2 -> b1 = b2.
Proof.
  intros Hp Hs1 Hs2 E1 E2 Ea. assert (length b1 = length b2) as Hl; [|by apply app_inj_1 in Ea as [? _]].
  revert E1 E2. unfold serializePrimitive. destruct (int_encoder prim) as [enc|] eqn:Ei.
  { apply int_encoder_width in Ei as (w & Hw). unfold integer. repeat (case_match; [|done]). intros [= <-] [= <-]. by rewrite !Hw. }
  case_bool_decide; [by intros [= <-] [= <-]|]. case_bool_decide.
  - intros <-%Ret_inj <-%Ret_inj. apply (f_equal (take 4)) in Ea. rewrite <- !app_assoc in Ea.
    rewrite !(take_app_length' (Binary.le_bytes 4 _)) in Ea by (by rewrite Binary.length_le_bytes).
    rewrite !length_app, !Binary.length_le_bytes. f_equal. by apply string_length_inj.
  - destruct (_ || _).
    + unfold Must. intros E1 E2. destruct (PublicKeyFromBase58 v1) eqn:F1; simplify_eq. destruct (PublicKeyFromBase58 v2) eqn:F2; simplify_eq.
      by rewrite (pubkey_size _ _ F1), (pubkey_size _ _ F2).
    + by rewrite bool_decide_eq_false_2.
Qed.

(** ** Values and argument lists *)

(** The encodings [ser] gives the values of a type form a prefix code. *)
Definition prefix_code (ser : string -> IDLType -> option (go bytes)) (t : IDLType) : Prop :=
  forall v1 v2 b1 b2 r1 r2, slen v1 < 2 ^ 32 -> slen v2 < 2 ^ 32 ->
    ser v1 t = Some (Ret b1) -> ser v2 t = Some (Ret b2) -> b1 ++ r1 = b2 ++ r2 -> b1 = b2.
(** Both argument maps give a field a value, encoded as the same bytes. *)
Definition same_value (ser : string -> IDLType -> option (go bytes)) (args1 args2 : gmap string string) (f : IDLField) : Prop :=
  exists v1 v2 b, lookup_arg args1 (fd_Name f) = Some v1 /\ lookup_arg args2 (fd_Name f) = Some v2 /\
    ser v1 (fd_Type f) = Some (Ret b) /\ ser v2 (fd_Type f) = Some (Ret b).

Lemma lookup_arg_short args name v : short args -> lookup_arg args name = Some v -> slen v < 2 ^ 32.
Proof.
  intros Hs. unfold lookup_arg. destruct (args !! name) eqn:E; [intros [= <-]; by eapply Hs|].
  intros (k & Hk & _)%find_snake_Some. by eapply Hs.
Qed.
Lemma args_with_cons ser f fields args b : args_with ser (f :: fields) args = Some (Ret b) ->
  exists v b1 b2, lookup_arg args (fd_Name f) = Some v /\ ser v (fd_Type f) = Some (Ret b1) /\
    args_with ser fields args = Some (Ret b2) /\ b = b1 ++ b2.
Proof.
  cbn [args_with]. destruct (lookup_arg _ _) as [v|]; [|done]. destruct (ser v (fd_Type f)) as [[b1| |]|] eqn:Ev; [|done..].
  destruct (args_with ser fields args) as [[b2| |]|]; [|done..]. intros [= <-]. by exists v, b1, b2.
Qed.
Lemma args_with_prefix ser fields args1 args2 : short args1 -> short args2 ->
  (forall f, In f fields -> prefix_code ser (fd_Type f)) -> forall b1 b2 r1 r2,
  args_with ser fields args1 = Some (Ret b1) -> args_with ser fields args2 = Some (Ret b2) -> b1 ++ r1 = b2 ++ r2 ->
  b1 = b2 /\ Forall (same_value ser args1 args2) fields.
Proof.
  intros S1 S2. induction fields as [|f fields IH]; intros Hp b1 b2 r1 r2; [by intros [= <-] [= <-]|].
  intros (v1 & x1 & y1 & L1 & E1 & A1 & ->)%args_with_cons (v2 & x2 & y2 & L2 & E2 & A2 & ->)%args_with_cons Ea.
  rewrite <- !app_assoc in Ea.
  assert (x1 = x2) as <- by (refine (Hp f (or_introl eq_refl) v1 v2 x1 x2 _ _ (lookup_arg_short _ _ _ S1 L1) (lookup_arg_short _ _ _ S2 L2) E1 E2 Ea)).
  apply app_inv_head in Ea. destruct (IH (fun g Hg => Hp g (or_intror Hg)) _ _ _ _ A1 A2 Ea) as [-> HF].
  split; [done|]. constructor; [|done]. by exists v1, v2, x1.
Qed.
Lemma value_prefix types fuel typ : sized types -> has_bytes typ = false -> prefix_code (serializeBorshValue fuel types) typ.
Proof.
  intros Ht. revert typ. induction fuel as [|fuel IH]; intros typ Hb v1 v2 b1 b2 r1 r2 Hs1 Hs2; [done|].
  rewrite !serializeBorshValue_S. unfold value_step. destruct typ as [prim o vec n elem len]. cbn [has_bytes ty_Primitive ty_OptionInner ty_DefinedName] in *.
  apply orb_false_iff in Hb as [Hprim Ho]. apply bool_decide_eq_false in Hprim.
  destruct (negb (bool_decide (prim = ""))); [intros [= E1] [= E2]; by apply (primitive_prefix prim v1 v2)|].
  destruct o as [inner|].
  - destruct (_ || _), (_ || _); [by intros [= <-] [= <-]|..].
    + intros [= <-]. by destruct (serializeBorshValue fuel types v2 inner) as [[]|]; intros [= <-].
    + destruct (serializeBorshValue fuel types v1 inner) as [[]|]; intros [= <-]. by intros [= <-].
    + destruct (serializeBorshValue fuel types v1 inner) as [[x1| |]|] eqn:E1; intros [= <-].
      destruct (serializeBorshValue fuel types v2 inner) as [[x2| |]|] eqn:E2; intros [= <-]. cbn. intros [= Ea].
      f_equal. by apply (IH inner Ho v1 v2 x1 x2 r1 r2).
  - destruct (negb _); [|done]. destruct (find_type types n) as [td|] eqn:Eft; [|done]. apply List.find_some in Eft as [Hin _].
    destruct (td_Fields td) as [|f0 fs] eqn:Ef; [done|]. intros E1 E2 Ea.
    assert (forall v, slen v < 2 ^ 32 -> short {[fd_Name f0 := v]}) as Hs by (intros v Hv k w [_ <-]%lookup_singleton_Some; done).
    refine (proj1 (args_with_prefix _ _ _ _ (Hs _ Hs1) (Hs _ Hs2) _ _ _ _ _ E1 E2 Ea)).
    intros f Hf. apply IH, (Ht td); [done|by rewrite Ef].
Qed.

(** ** Structs *)
Lemma args_with_fields ser fields args b : args_with ser fields args = Some (Ret b) ->
  forall f, In f fields -> is_Some (lookup_arg args (fd_Name f)).
Proof.
  revert b. induction fields as [|g fields IH]; intros b; [done|].
  intros (v & x & y & L & _ & A & _)%args_with_cons f [<-|Hf]; [by eexists|by eapply IH].
Qed.
Lemma lookup_arg_singleton name val name' v : lookup_arg {[name := val]} name' = Some v -> toSnakeCase name' = toSnakeCase name.
Proof.
  unfold lookup_arg. destruct ({[name := val]} !! name') eqn:E; [by apply lookup_singleton_Some in E as [-> _]|].
  intros (k & [-> _]%lookup_singleton_Some & Hs)%find_snake_Some. done.
Qed.

Definition bytes_field (name : string) : IDLField := {| fd_Name := name; fd_Type := primitive "bytes" |}.

(** C38: The IDL types the bytes that get signed. Where no type mentions [bytes] and
    values are shorter than 4 GiB, the encodings of a list of arguments form a
    prefix code: when two argument maps are encoded to bytes that agree up to what
    follows, what follows agrees, and every field has the same encoding in both; so
    a program that reads by the IDL's types finds each argument, and only it, in the
    bytes of its field. A struct is only as typeable as its first field: one with a
    further field of another name has no value, whatever the argument, because the
    encoder passes it the first field alone. And [bytes] breaks the typing: it is
    written without a length, so two calls with different arguments have one
    encoding. *)
Theorem borsh_typing types fields :
  (sized types -> (forall f, In f fields -> has_bytes (fd_Type f) = false) ->
   forall fuel args1 args2 b1 b2 r1 r2, short args1 -> short args2 ->
     serializeBorshArgs fuel types fields args1 = Some (Ret b1) -> serializeBorshArgs fuel types fields args2 = Some (Ret b2) ->
     b1 ++ r1 = b2 ++ r2 ->
     r1 = r2 /\ Forall (same_value (serializeBorshValue fuel types) args1 args2) fields) /\
  (forall td f0 rest f, find_type types (td_Name td) = Some td -> td_Name td <> "" -> td_Fields td = f0 :: rest ->
     In f rest -> toSnakeCase (fd_Name f) <> toSnakeCase (fd_Name f0) ->
     forall fuel val b, serializeBorshValue fuel types val (defined (td_Name td)) <> Some (Ret b)) /\
  serializeBorshArgs 1 types [bytes_field "key"; bytes_field "data"] {["key" := "01"; "data" := "0203"]}
  = serializeBorshArgs 1 types [bytes_field "key"; bytes_field "data"] {["key" := "0102"; "data" := "03"]}.
Proof.
  split; [|split; [|reflexivity]].
  - intros Ht Hf fuel args1 args2 b1 b2 r1 r2 S1 S2 E1 E2 Ea.
    destruct (args_with_prefix _ _ _ _ S1 S2 (fun f Hin => value_prefix types fuel _ Ht (Hf f Hin)) _ _ _ _ E1 E2 Ea) as [-> HF].
    split; [by apply app_inv_head in Ea|done].
  - intros td f0 rest f Hfind Hname Hfields Hin Hn [|fuel] val b; [done|].
    rewrite serializeBorshValue_S. unfold value_step. cbn [defined ty_Primitive ty_OptionInner ty_DefinedName].
    rewrite bool_decide_eq_true_2, bool_decide_eq_false_2, Hfind, Hfields by done. cbn [negb].
    intros HA. destruct (args_with_fields _ _ _ _ HA f (or_intror Hin)) as (v & Hv). by apply lookup_arg_singleton in Hv.
Qed.
End Types.

(** ** A concrete IDL *)
Import Solana.ToySolana ToyAnchor.
Module ToyTypes.
(** A program library whose keys are 32 bytes. *)
Definition key32 (s : string) : bytes := take 32 (bytes_of s ++ repeat x00 32).
Definition solana_go : SolanaGo := {|
  msg_rest := msg_rest; PublicKeyFromBase58 := fun s => Ret (key32 s); PublicKeyFromBytes := PublicKeyFromBytes;
  PublicKeyString := PublicKeyString; HashFromBase58 := HashFromBase58; TransferInstruction := TransferInstruction;
  NewTransaction := NewTransaction; MarshalMessage := MarshalMessage; MarshalTransaction := MarshalTransaction;
  TransactionFromBytes := TransactionFromBytes; FindProgramAddress := FindProgramAddress; SystemProgramID := SystemProgramID;
  TokenProgramID := TokenProgramID; Token2022ProgramID := Token2022ProgramID;
  SPLAssociatedTokenAccountProgramID := SPLAssociatedTokenAccountProgramID; ed25519_Public := ed25519_Public; ed25519_Sign := ed25519_Sign |}.
Lemma key32_size (s : string) b : PublicKeyFromBase58 (SolanaGo := solana_go) s = Ret b -> length b = 32%nat.
Proof. intros [= <-]. unfold key32. rewrite length_take, length_app, List.repeat_length. lia. Qed.
Definition fields : list IDLField :=
  [{| fd_Name := "memo"; fd_Type := primitive "string" |}; {| fd_Name := "amount"; fd_Type := mkIDLType "" (Some (primitive "u64")) None "" None 0 |}].
Definition args (amount : string) : gmap string string := {["memo" := "hi"; "amount" := amount]}.
Definition pair : IDLTypeDef :=
  {| td_Name := "Pair"; td_Fields := [{| fd_Name := "x"; fd_Type := primitive "u8" |}; {| fd_Name := "y"; fd_Type := primitive "u8" |}] |}.
Lemma args_short amount : slen amount < 2 ^ 32 -> short (args amount).
Proof.
  intros Ha k v. unfold args. intros [[_ <-]|[_ [_ <-]%lookup_singleton_Some]]%lookup_insert_Some; [reflexivity|exact Ha].
Qed.
End ToyTypes.
Import ToyTypes.

(** Two spellings of one amount; and a struct of two fields has no value. *)
Lemma borsh_typing_witness :
  let ser := serializeBorshValue (H0 := solana_go) 2 [pair] in
  Forall (same_value ser (args "7") (args "+07")) fields /\ forall fuel val b, serializeBorshValue (H0 := solana_go) fuel [pair] val (defined "Pair") <> Some (Ret b).
Proof.
  destruct (borsh_typing (H0 := solana_go) key32_size [pair] fields) as (HP & HS & _). split.
  - refine (proj2 (HP _ _ 2%nat (args "7") (args "+07") _ _ [] [] (args_short _ _) (args_short _ _) _ _ _)); try (vm_compute; reflexivity).
    + intros td f [<-|[]] [<-|[<-|[]]]; reflexivity.
    + intros f [<-|[<-|[]]]; reflexivity.
  - apply (HS pair {| fd_Name := "x"; fd_Type := primitive "u8" |} [{| fd_Name := "y"; fd_Type := primitive "u8" |}]
      {| fd_Name := "y"; fd_Type := primitive "u8" |}); [reflexivity|discriminate|reflexivity|by left|vm_compute; discriminate].
Defined.
