(* ===== verification/StoreOpen.v ===== *)
(** * StoreOpen: opening and closing the PostgreSQL store (internal/store/postgres.go)

    The database outlives the process: the four tables, which the migration creates
    where they do not exist, and what a restart finds in them. *)
From S2P Require Import Prelude GoStd Codec Crypto Protocol Transport Tss TssFacts Store StoreFacts.
Local Open Scope Z_scope.
Local Open Scope go_scope.

(** A database: the tables that exist. *)
Record Database := {
  t_master_shares : option (gmap string MasterRow); t_derived_keys : option (gmap string DerivedRow);
  t_transactions : option (gmap string TxRecord); t_whitelist : option (gmap string WhitelistEntry) }.
Definition empty_database : Database :=
  {| t_master_shares := None; t_derived_keys := None; t_transactions := None; t_whitelist := None |}.
(** What the server answers while the store is opened: an error of the connection,
    of the ping and of the migration, if any. *)
Record Opening := { op_connect : option string; op_ping : option string; op_migrate : option string }.

Section Open.
Context `{Aead}.

(** [CREATE TABLE IF NOT EXISTS]; the indices hold no contents of their own. The
    statements are one implicit transaction. *)
Definition create_table {V} (t : option (gmap string V)) : option (gmap string V) := Some (default ∅ t).
Definition migrate (d : Database) (fault : option string) : Database * go unit :=
  match fault with
  | Some e => (d, Err e)
  | None => ({| t_master_shares := create_table (t_master_shares d); t_derived_keys := create_table (t_derived_keys d);
                t_transactions := create_table (t_transactions d); t_whitelist := create_table (t_whitelist d) |}, Ret tt)
  end.
(** The store over the tables of [d]; the world's later answers are arguments. *)
Definition pg_open (d : Database) (encKey : bytes) (faults : list (option string)) (nonces : list (string + bytes)) (now : Z) : PostgresStore := {|
  pg_encKey := encKey; pg_master_shares := default ∅ (t_master_shares d); pg_derived_keys := default ∅ (t_derived_keys d);
  pg_transactions := default ∅ (t_transactions d); pg_whitelist := default ∅ (t_whitelist d);
  pg_faults := faults; pg_nonces := nonces; pg_now := now |}.
(** The passphrase is not checked against what the tables hold. *)
Definition NewPostgresStore (o : Opening) (d : Database) (passphrase : string) (faults : list (option string))
    (nonces : list (string + bytes)) (now : Z) : Database * go PostgresStore :=
  match op_connect o with
  | Some e => (d, Err ("connect to postgres: " +:+ e))
  | None =>
    match op_ping o with
    | Some e => (d, Err ("ping postgres: " +:+ e))
    | None =>
      let encKey := Postgres.deriveKey passphrase in
      let '(d, r) := migrate d (op_migrate o) in
      (d, _ ← r ?: "migrate schema"; Ret (pg_open d encKey faults nonces now))
    end
  end.
(** What the process leaves behind. *)
Definition pg_Close (s : PostgresStore) : Database * go unit :=
  ({| t_master_shares := Some (pg_master_shares s); t_derived_keys := Some (pg_derived_keys s);
      t_transactions := Some (pg_transactions s); t_whitelist := Some (pg_whitelist s) |}, Ret tt).
End Open.

Section Reopen.
Context `{Unicode} `{Aead} `{!AeadLaws}.
Import Postgres.

Lemma NewPostgresStore_cases o d passphrase faults nonces now :
  (exists e, NewPostgresStore o d passphrase faults nonces now = (d, Err e)) \/
  (exists d', NewPostgresStore o d passphrase faults nonces now = (d', Ret (pg_open d (deriveKey passphrase) faults nonces now)) /\
     d' = (migrate d None).1).
Proof.
  unfold NewPostgresStore. destruct (op_connect o); [by left; eexists|]. destruct (op_ping o); [by left; eexists|].
  destruct (op_migrate o); [by left; eexists|right; by eexists].
Qed.

End Reopen.

(** ** A concrete restart *)
Module ToyReopen.
(** A cipher that puts its key in front. *)
#[export] Instance aead : Aead := {|
  Seal := fun k _ m => k ++ m;
  Open := fun k _ c => if decide (take (length k) c = k) then Some (drop (length k) c) else None;
  pbkdf2_Key := fun p _ _ _ => take 32 p |}.
#[export] Instance aead_laws : AeadLaws.
Proof. intros k n m. cbn. rewrite take_app_length, drop_app_length. by rewrite decide_True. Qed.
Definition store : PostgresStore :=
  (Postgres.pg_SaveMasterShare (pg_open empty_database (Postgres.deriveKey "p") [] [inr (repeat x00 12)] 0) ToyStore.share).1.
Definition fine : Opening := {| op_connect := None; op_ping := None; op_migrate := None |}.
Definition reopened (passphrase : string) : go PostgresStore :=
  (NewPostgresStore fine (pg_Close store).1 passphrase [] [] 0).2.
End ToyReopen.
Import ToyReopen.
#[local] Existing Instance Toy.unicode.

