(* ===== verification/Dkg.v ===== *)
(** * Dkg: the installer's in-process key generation (cmd/installer/dkg.go)

    Two goroutines run the ceremony of [Tss.v] against each other over channels in
    memory. The ceremony is a transition system whose steps are those of the
    goroutines: registering a channel, draining the messages of tss-lib, one send,
    and what the [select] of a loop takes. Theorems: the router delivers every
    message once, in order and from its sender; and a party that sends before the
    other has registered ends the ceremony for good. *)
From S2P Require Import Prelude GoStd Codec Protocol Transport Tss TssProtocolFacts.
Local Open Scope Z_scope.
Local Open Scope go_scope.

(** ** The router *)

Record DKGResult := { dr_ShareA : KeyShare; dr_ShareB : KeyShare }.
Notation inMemoryRouter := (gmap string (chan IncomingMessage)).
Definition newInMemoryRouter : inMemoryRouter := ∅.
Definition forParty (r : inMemoryRouter) (id : PartyID) : inMemoryRouter :=
  match r !! pid_ID id with None => <[pid_ID id := Chan 1024 []]> r | Some _ => r end.
(** [None] blocks. *)
Definition router_Send_to (r : inMemoryRouter) (self to : PartyID) (msg : bytes) : option (inMemoryRouter * go unit) :=
  match r !! pid_ID to with
  | None => Some (r, Err ("no channel for party " +:+ pid_ID to))
  | Some ch =>
    match chan_send {| im_From := self; im_Payload := msg |} ch with
    | Some ch => Some (<[pid_ID to := ch]> r, Ret tt)
    | None => None
    end
  end.
Definition router_Receive (r : inMemoryRouter) (self : PartyID) : option (chan IncomingMessage) := r !! pid_ID self.

(** ** The two parties *)
Inductive side := SideA | SideB.
#[export] Instance side_eq_dec : EqDecision side.
Proof. solve_decision. Defined.
Definition other (x : side) : side := match x with SideA => SideB | SideB => SideA end.
Definition partyA : PartyID := {| pid_ID := "party-a"; pid_Index := 0 |}.
Definition partyB : PartyID := {| pid_ID := "party-b"; pid_Index := 1 |}.
Definition parties : list PartyID := [partyA; partyB].
Definition id_of (x : side) : PartyID := match x with SideA => partyA | SideB => partyB end.

(** [routeMessage] through a router that only notes the sends: the goroutine makes
    them one at a time. *)
#[local] Instance planner : MessageRouter (list (PartyID * bytes)) := fun r to data => (r ++ [(to, data)], None).

(** The goroutine that drains a party's output channel: [Lost] has returned
    because a send found no channel, [Returned] for another reason. *)
Inductive task := Draining | Sending (l : list (PartyID * bytes)) | Lost (to : string) | Returned.

Section Ceremony.
Context {save : Type} `{Codec wireMessage}.
Notation event := (event save).

(** One party: whether its goroutine has its channel, tss-lib's output channel,
    the goroutine that drains it, [routeErrCh], and what its loop has taken. *)
Record Member := {
  m_started : bool; m_out : list tss_Message; m_task : task; m_routeErr : option string; m_evs : list event }.
Record Ceremony := { channels : inMemoryRouter; member : side -> Member; ctxErr : option string }.
Definition newMember : Member := {| m_started := false; m_out := []; m_task := Draining; m_routeErr := None; m_evs := [] |}.
Definition newCeremony : Ceremony := {| channels := newInMemoryRouter; member := fun _ => newMember; ctxErr := None |}.
Definition set_member (c : Ceremony) (x : side) (m : Member) : Ceremony :=
  {| channels := channels c; member := fun y => if decide (y = x) then m else member c y; ctxErr := ctxErr c |}.
Definition set_channels (c : Ceremony) (r : inMemoryRouter) : Ceremony :=
  {| channels := r; member := member c; ctxErr := ctxErr c |}.
Definition set_out (m : Member) l : Member :=
  {| m_started := m_started m; m_out := l; m_task := m_task m; m_routeErr := m_routeErr m; m_evs := m_evs m |}.
Definition set_task (m : Member) t : Member :=
  {| m_started := m_started m; m_out := m_out m; m_task := t; m_routeErr := m_routeErr m; m_evs := m_evs m |}.
Definition route_failed (m : Member) (t : task) (e : string) : Member :=
  {| m_started := m_started m; m_out := m_out m; m_task := t; m_routeErr := Some e; m_evs := m_evs m |}.
Definition take_event (m : Member) (err : option string) (e : event) : Member :=
  {| m_started := m_started m; m_out := m_out m; m_task := m_task m; m_routeErr := err; m_evs := m_evs m ++ [e] |}.

(** The party's [DKG] on the events its loop took; [None] while it waits. *)
Context (sortedIDs : list tss_PartyID) (dkg : side -> list event -> option (go KeyShare)).
(** tss-lib: what a party may emit, end with and fail with after the events. *)
Context (may_emit : side -> list event -> tss_Message -> Prop) (may_end : side -> list event -> save -> Prop)
        (may_fail : side -> list event -> string -> Prop).

Definition waiting (c : Ceremony) (x : side) : Prop := m_started (member c x) = true /\ dkg x (m_evs (member c x)) = None.

(** What happens to messages. *)
Inductive label := Sent (from : side) (to : PartyID) (data : bytes) | Taken (x : side) (m : IncomingMessage) | Tau.

(** One send of the draining goroutine. *)
Definition send_step (c : Ceremony) (x : side) (to : PartyID) (data : bytes) (rest : list (PartyID * bytes)) : option (label * Ceremony) :=
  match router_Send_to (channels c) (id_of x) to data with
  | Some (r, Ret _) => Some (Sent x to data, set_channels (set_member c x (set_task (member c x) (Sending rest))) r)
  | Some (_, Err e) =>
    Some (Tau, set_member c x (route_failed (member c x) (Lost (pid_ID to)) ("send to " +:+ pid_ID to +:+ ": " +:+ e)))
  | _ => None
  end.
(** The next message of the output channel. *)
Definition drain_step (c : Ceremony) (x : side) (msg : tss_Message) (out : list tss_Message) : Ceremony :=
  let m := set_out (member c x) out in
  set_member c x (match routeMessage msg sortedIDs [] with
                  | (l, Ret _) => set_task m (Sending l)
                  | (_, Err e) => route_failed m Returned e
                  | (_, Panic) => set_task m Returned
                  end).

Inductive step : Ceremony -> label -> Ceremony -> Prop :=
| s_start c x : m_started (member c x) = false ->
    step c Tau (set_channels (set_member c x {| m_started := true; m_out := []; m_task := Draining; m_routeErr := None; m_evs := [] |})
                 (forParty (channels c) (id_of x)))
| s_emit c x msg : m_started (member c x) = true -> may_emit x (m_evs (member c x)) msg -> (length (m_out (member c x)) < length sortedIDs * 20)%nat ->
    step c Tau (set_member c x (set_out (member c x) (m_out (member c x) ++ [msg])))
| s_drain c x msg out : m_task (member c x) = Draining -> m_out (member c x) = msg :: out -> step c Tau (drain_step c x msg out)
| s_send c x to data rest l c' : m_task (member c x) = Sending ((to, data) :: rest) -> send_step c x to data rest = Some (l, c') -> step c l c'
| s_sent c x : m_task (member c x) = Sending [] -> step c Tau (set_member c x (set_task (member c x) Draining))
| s_stop c x e : m_started (member c x) = true -> m_task (member c x) = Draining -> ctxErr c = Some e -> step c Tau (set_member c x (set_task (member c x) Returned))
| s_cancel c e : ctxErr c = None -> step c Tau {| channels := channels c; member := member c; ctxErr := Some e |}
| s_done c x e : waiting c x -> ctxErr c = Some e ->
    step c Tau (set_member c x (take_event (member c x) (m_routeErr (member c x)) (CtxDone e)))
| s_fail c x e : waiting c x -> may_fail x (m_evs (member c x)) e ->
    step c Tau (set_member c x (take_event (member c x) (m_routeErr (member c x)) (PartyErr e)))
| s_routeErr c x e : waiting c x -> m_routeErr (member c x) = Some e ->
    step c Tau (set_member c x (take_event (member c x) None (RouteErr e)))
| s_incoming c x ch m ch' : waiting c x -> router_Receive (channels c) (id_of x) = Some ch -> chan_recv ch = Some (m, ch') ->
    step c (Taken x m) (set_channels (set_member c x (take_event (member c x) (m_routeErr (member c x)) (Incoming m)))
                          (<[pid_ID (id_of x) := ch']> (channels c)))
| s_end c x s : waiting c x -> may_end x (m_evs (member c x)) s ->
    step c Tau (set_member c x (take_event (member c x) (m_routeErr (member c x)) (End_ s))).

Inductive steps : Ceremony -> list label -> Ceremony -> Prop :=
| steps_nil c : steps c [] c
| steps_snoc c t c1 l c2 : steps c t c1 -> step c1 l c2 -> steps c (t ++ [l]) c2.

(** [wg.Wait()] and the outcome, of Party A first. *)
Definition runDKGForCurve (c : Ceremony) : option (go DKGResult) :=
  let result x := if m_started (member c x) then dkg x (m_evs (member c x)) else None in
  match result SideA, result SideB with
  | Some rA, Some rB =>
    Some (shareA ← rA ?: "party A"; shareB ← rB ?: "party B"; Ret {| dr_ShareA := shareA; dr_ShareB := shareB |})
  | _, _ => None
  end.

(** ** Delivery *)
Definition buffered (c : Ceremony) (x : side) : list IncomingMessage :=
  match router_Receive (channels c) (id_of x) with Some ch => ch_buf ch | None => [] end.
Definition received_by (x : side) (l : label) : list IncomingMessage :=
  match l with
  | Sent y to data => if bool_decide (pid_ID to = pid_ID (id_of x)) then [{| im_From := id_of y; im_Payload := data |}] else []
  | _ => []
  end.
Definition taken_by (x : side) (l : label) : list IncomingMessage :=
  match l with Taken y m => if decide (y = x) then [m] else [] | _ => [] end.
Definition incoming (evs : list event) : list IncomingMessage :=
  omap (fun e => match e with Incoming m => Some m | _ => None end) evs.

Lemma id_of_inj x y : pid_ID (id_of x) = pid_ID (id_of y) -> x = y.
Proof. by destruct x, y. Qed.
Lemma member_set c x m y : member (set_member c x m) y = if decide (y = x) then m else member c y.
Proof. done. Qed.
Lemma buffered_set_member c x m y : buffered (set_member c x m) y = buffered c y.
Proof. done. Qed.
Lemma member_set_channels c r y : member (set_channels c r) y = member c y.
Proof. done. Qed.

(** What a send does. *)
Lemma send_step_spec c x to data rest l c' : send_step c x to data rest = Some (l, c') ->
  (exists ch, channels c !! pid_ID to = Some ch /\ (length (ch_buf ch) < ch_cap ch)%nat /\ l = Sent x to data /\
     c' = set_channels (set_member c x (set_task (member c x) (Sending rest)))
            (<[pid_ID to := Chan (ch_cap ch) (ch_buf ch ++ [{| im_From := id_of x; im_Payload := data |}])]> (channels c))) \/
  (channels c !! pid_ID to = None /\ l = Tau /\ exists e, c' = set_member c x (route_failed (member c x) (Lost (pid_ID to)) e)).
Proof.
  unfold send_step, router_Send_to, chan_send. destruct (channels c !! pid_ID to) as [ch|].
  - case_decide; [|done]. intros [= <- <-]. left. eauto 10.
  - intros [= <- <-]. right. eauto.
Qed.

Lemma step_buffer c l c' x : step c l c' -> taken_by x l ++ buffered c' x = buffered c x ++ received_by x l.
Proof.
  destruct 1; cbn [taken_by received_by app]; rewrite ?app_nil_r; try done.
  - unfold buffered, router_Receive, forParty; cbn [channels set_channels set_member]. destruct (channels c !! pid_ID (id_of x0)) eqn:E; [done|].
    destruct (decide (x0 = x)) as [->|Hn]; [by rewrite lookup_insert_eq, E|]. rewrite lookup_insert_ne; [done|]. by intros <-%id_of_inj.
  - apply send_step_spec in H1 as [(ch & Ech & _ & -> & ->)|(_ & -> & e & ->)]; cbn [taken_by received_by app]; [|by rewrite app_nil_r].
    unfold buffered, router_Receive; cbn [channels set_channels set_member]. case_bool_decide as Hto.
    + by rewrite <- Hto, Ech, lookup_insert_eq.
    + by rewrite lookup_insert_ne, app_nil_r.
  - unfold router_Receive in *. unfold buffered, router_Receive; cbn [channels set_channels set_member]. unfold chan_recv in *. destruct (ch_buf ch) as [|m0 l0] eqn:Eb; [done|].
    match goal with HE : Some _ = Some _ |- _ => injection HE as <- <- end. case_decide as Hx.
    + subst. by rewrite lookup_insert_eq, H1, Eb.
    + rewrite lookup_insert_ne; [done|]. by intros ->%id_of_inj.
Qed.

(** ** An invariant of every ceremony

    tss-lib's messages are from the party that emits them, to the other one. *)
Definition ok_msg (x : side) (msg : tss_Message) : Prop :=
  Id (tm_From msg) = pid_ID (id_of x) /\ (exists b, tm_WireBytes msg = Ret b) /\
  (tm_IsBroadcast msg = false -> forall to, In to (tm_To msg) -> Id to = pid_ID (id_of (other x))).
Definition to_other (x : side) (p : PartyID * bytes) : Prop := pid_ID p.1 = pid_ID (id_of (other x)).
Definition ok_task (x : side) (t : task) : Prop :=
  match t with Sending l => Forall (to_other x) l | Lost to => to = pid_ID (id_of (other x)) | _ => True end.
Record ok_member (x : side) (registered : bool) (m : Member) : Prop := {
  om_started : m_started m = registered;
  om_fresh : registered = false -> m_out m = [] /\ m_task m = Draining /\ m_routeErr m = None /\ m_evs m = [];
  om_out : Forall (ok_msg x) (m_out m);
  om_task : ok_task x (m_task m) }.
Definition ok_ceremony (c : Ceremony) : Prop :=
  forall x, ok_member x (bool_decide (is_Some (channels c !! pid_ID (id_of x)))) (member c x) /\
    forall ch, channels c !! pid_ID (id_of x) = Some ch -> (length (ch_buf ch) <= ch_cap ch)%nat /\ ch_cap ch = 1024%nat.

Context (emits : forall x evs msg, may_emit x evs msg -> ok_msg x msg)
        (members : forall pid, In pid sortedIDs -> Id pid = pid_ID partyA \/ Id pid = pid_ID partyB)
        (wire_total : forall m : wireMessage, exists d, Marshal m = Ret d).

Lemma planned_sends (r : list (PartyID * bytes)) data tos :
  send_all r data tos = (r ++ map (fun pid => (party_of pid, data)) tos, Ret tt).
Proof.
  revert r. induction tos as [|p tos IH]; intros r; cbn; [by rewrite app_nil_r|]. by rewrite IH, <- app_assoc.
Qed.
Lemma routeMessage_plan x msg : ok_msg x msg -> exists l, routeMessage msg sortedIDs [] = (l, Ret tt) /\ Forall (to_other x) l.
Proof.
  intros (Hf & (b & Hb) & Hto). unfold routeMessage. rewrite Hb. cbn [wrap_err].
  destruct (wire_total {| wm_From := Id (tm_From msg); wm_IsBroadcast := tm_IsBroadcast msg; wm_Payload := b |}) as (d & ->). cbn [wrap_err].
  rewrite planned_sends. eexists. split; [done|]. apply Forall_forall. intros p (pid & -> & Hin)%list_elem_of_fmap. unfold to_other; cbn.
  destruct (tm_IsBroadcast msg).
  - apply list_elem_of_filter in Hin as [Hn Hin%list_elem_of_In%members]. rewrite Hf in Hn. by destruct x, Hin.
  - apply Hto; [done|]. by apply list_elem_of_In.
Qed.

Lemma ok_newCeremony : ok_ceremony newCeremony.
Proof. intros x. split; [|done]. split; cbn; try done; try constructor. Qed.
(** A step of one member keeps what the other steps need of it. *)
Lemma ok_set_member c x m : ok_ceremony c ->
  (forall reg, ok_member x reg (member c x) -> ok_member x reg m) -> ok_ceremony (set_member c x m).
Proof.
  intros Hc Hm y. destruct (Hc y) as [Ho Hb]. split; [|done]. rewrite member_set. case_decide; [subst; by apply Hm|done].
Qed.
(** A channel that changes its contents. *)
Lemma ok_set_channel c x id ch ch' : ok_ceremony c -> channels c !! id = Some ch -> ch_cap ch' = ch_cap ch -> (length (ch_buf ch') <= ch_cap ch')%nat ->
  ok_ceremony (set_channels (set_member c x (member c x)) (<[id := ch']> (channels c))).
Proof.
  intros Hc Hch Hcap Hl y. destruct (Hc y) as [Ho Hb]. rewrite member_set_channels, member_set. cbn [channels set_channels].
  assert (member_eq : (if decide (y = x) then member c x else member c y) = member c y) by (by case_decide; subst). rewrite member_eq.
  destruct (decide (id = pid_ID (id_of y))) as [->|Hn].
  - rewrite lookup_insert_eq. rewrite Hch in Ho. split; [exact Ho|]. intros ch0 [= <-]. destruct (Hb _ Hch). split; [done|congruence].
  - rewrite lookup_insert_ne by done. by split.
Qed.

Lemma ok_update x reg m m' : ok_member x reg m -> m_started m = true -> m_started m' = true ->
  Forall (ok_msg x) (m_out m') -> ok_task x (m_task m') -> ok_member x reg m'.
Proof. intros [Hs _ _ _] H1 H2 Ho Ht. split; [congruence| |done..]. intros ->. congruence. Qed.
(** A member that has work to do was started. *)
Lemma started_of c x : ok_ceremony c -> m_out (member c x) <> [] \/ m_task (member c x) <> Draining -> m_started (member c x) = true.
Proof.
  intros Hc Hw. destruct (Hc x) as [[Hs Hf _ _] _]. destruct (m_started (member c x)) eqn:E; [done|].
  symmetry in Hs. apply Hf in Hs as (Ho & Ht & _). tauto.
Qed.
Lemma ok_set_started c x m : ok_ceremony c -> m_started (member c x) = true -> m_started m = true ->
  Forall (ok_msg x) (m_out m) -> ok_task x (m_task m) -> ok_ceremony (set_member c x m).
Proof. intros Hc H1 H2 Ho Ht. apply ok_set_member; [done|]. intros reg Hm. by eapply ok_update. Qed.

Lemma ok_drain c x msg out : ok_ceremony c -> m_task (member c x) = Draining -> m_out (member c x) = msg :: out -> ok_ceremony (drain_step c x msg out).
Proof.
  intros Hc Ht Ho. destruct (Hc x) as [[_ _ HF _] _]. rewrite Ho in HF. apply Forall_cons in HF as [Hm HF].
  assert (m_started (member c x) = true) as Hs by (apply started_of; [done|left; by rewrite Ho]).
  unfold drain_step. destruct (routeMessage_plan x msg Hm) as (l & -> & Hl). by apply ok_set_started.
Qed.
Lemma ok_send c x to data rest l c' : ok_ceremony c -> m_task (member c x) = Sending ((to, data) :: rest) ->
  send_step c x to data rest = Some (l, c') -> ok_ceremony c'.
Proof.
  intros Hc Ht Hs. assert (m_started (member c x) = true) as Hst by (apply started_of; [done|right; by rewrite Ht]).
  destruct (Hc x) as [[_ _ HF Hok] _]. rewrite Ht in Hok. apply Forall_cons in Hok as [Hto Hrest].
  apply send_step_spec in Hs as [(ch & Hch & Hl & _ & ->)|(_ & _ & e & ->)]; [|by apply ok_set_started].
  assert (ok_ceremony (set_member c x (set_task (member c x) (Sending rest)))) as Hc' by by apply ok_set_started.
  intros y. pose proof (ok_set_channel _ x (pid_ID to) ch (Chan (ch_cap ch) (ch_buf ch ++ [{| im_From := id_of x; im_Payload := data |}]))
    Hc' Hch eq_refl ltac:(cbn; rewrite length_app; cbn; lia) y) as Hy.
  rewrite !member_set_channels, !member_set in *. by repeat case_decide; subst.
Qed.
Lemma ok_take c x err e : ok_ceremony c -> waiting c x -> ok_ceremony (set_member c x (take_event (member c x) err e)).
Proof. intros Hc [Hs _]. destruct (Hc x) as [[_ _ HF Ht] _]. by apply ok_set_started. Qed.

Lemma ok_step c l c' : step c l c' -> ok_ceremony c -> ok_ceremony c'.
Proof.
  intros Hs Hc. destruct Hs as [c x Hst|c x msg Hst He|c x|c x|c x Ht|c x e Hst|c e| | | |c x ch m ch' Hw Hch Hr| ];
    try (by apply ok_take); try (by eapply ok_drain); try (by eapply ok_send).
  - intros y. destruct (Hc y) as [Ho Hb]. rewrite member_set_channels, member_set. cbn [channels set_channels]. unfold forParty.
    destruct (Hc x) as [[Hx _ _ _] _].
    assert (channels c !! pid_ID (id_of x) = None) as Hn by (destruct (channels c !! pid_ID (id_of x)); [rewrite Hst in Hx; discriminate Hx|done]).
    rewrite Hn. case_decide as Hy.
    + subst y. rewrite lookup_insert_eq. split; [by split; cbn|]. intros ch [= <-]. cbn. lia.
    + rewrite lookup_insert_ne by (by intros ?%id_of_inj). by split.
  - destruct (Hc x) as [[_ _ HF Ht] _]. apply ok_set_started; try done. cbn. apply Forall_app. split; [done|]. repeat constructor; by eapply emits.
  - destruct (Hc x) as [[_ _ HF _] _].
    assert (m_started (member c x) = true) as Hst by (apply started_of; [done|right; by rewrite Ht]). by apply ok_set_started.
  - destruct (Hc x) as [[_ _ HF _] _]. by apply ok_set_started.
  - done.
  - assert (ok_ceremony (set_member c x (take_event (member c x) (m_routeErr (member c x)) (Incoming m)))) as Hc' by by apply ok_take.
    unfold chan_recv in Hr. destruct (ch_buf ch) as [|m0 l0] eqn:Eb; [done|]. injection Hr as <- <-.
    destruct (Hc x) as [_ Hb]. destruct (Hb _ Hch) as [Hl _]. rewrite Eb in Hl. cbn in Hl.
    intros y. pose proof (ok_set_channel _ x (pid_ID (id_of x)) ch (Chan (ch_cap ch) l0) Hc' Hch eq_refl ltac:(cbn; lia) y) as Hy.
    rewrite !member_set_channels, !member_set in *. by repeat case_decide; subst.
Qed.
Lemma ok_steps t c : steps newCeremony t c -> ok_ceremony c.
Proof.
  intros Hs. remember newCeremony as c0 eqn:E. induction Hs; subst; [apply ok_newCeremony|]. eapply ok_step; eauto.
Qed.

(** Messages are taken from the channel only. *)
Lemma step_taken c l c' x : step c l c' -> ok_ceremony c ->
  incoming (m_evs (member c' x)) = incoming (m_evs (member c x)) ++ taken_by x l.
Proof.
  assert (forall c y m, m_evs m = m_evs (member c y) -> m_evs (member (set_member c y m) x) = m_evs (member c x)) as Hsame
    by (intros c0 y m Hm; rewrite member_set; case_decide; by subst).
  assert (forall c y err e, incoming (m_evs (member (set_member c y (take_event (member c y) err e)) x))
      = incoming (m_evs (member c x)) ++ (if decide (y = x) then incoming [e] else [])) as Htake.
  { intros c0 y err e. rewrite member_set. destruct (decide (x = y)) as [->|Hn].
    - rewrite decide_True by done. unfold incoming. cbn [take_event m_evs]. by rewrite omap_app.
    - by rewrite decide_False, app_nil_r by congruence. }
  intros Hs Hc. destruct Hs; cbn [taken_by]; rewrite ?member_set_channels; try (rewrite Hsame, app_nil_r by done; done).
  - destruct (Hc x0) as [[Hx Hf _ _] _]. rewrite app_nil_r, member_set. case_decide; [subst|done].
    destruct Hf as (_ & _ & _ & ->); [congruence|done].
  - rewrite app_nil_r. unfold drain_step. rewrite Hsame; [done|]. by destruct (routeMessage _ _ _) as [? []].
  - apply send_step_spec in H1 as [(ch & _ & _ & -> & ->)|(_ & -> & e & ->)]; cbn [taken_by]; by rewrite ?member_set_channels, Hsame, app_nil_r.
  - by rewrite app_nil_r.
  - rewrite Htake. by case_decide.
  - rewrite Htake. by case_decide.
  - rewrite Htake. by case_decide.
  - rewrite Htake. by case_decide.
  - rewrite Htake. by case_decide.
Qed.
Lemma steps_delivery t c x : steps newCeremony t c ->
  flat_map (received_by x) t = incoming (m_evs (member c x)) ++ buffered c x.
Proof.
  intros Hs. remember newCeremony as c0 eqn:E. revert E. induction Hs as [c|c t c1 l c2 H1 IH H2]; intros ->; [done|].
  rewrite flat_map_app, (IH eq_refl), (step_taken _ _ _ _ H2 (ok_steps _ _ H1)), <- !app_assoc. f_equal. cbn [flat_map].
  by rewrite app_nil_r, (step_buffer _ _ _ _ H2).
Qed.

(** ** The race of the registrations *)

(** What can reach a loop that hears nothing. *)
Definition own_error (e : event) : Prop := match e with CtxDone _ | PartyErr _ => True | _ => False end.
Definition is_lost (t : task) : bool := match t with Lost _ => true | _ => false end.
(** The other party of one whose send was lost. *)
Record deaf (c : Ceremony) (y : side) : Prop := {
  df_buffer : buffered c y = [];
  df_evs : Forall own_error (m_evs (member c y));
  df_routeErr : m_routeErr (member c y) = None;
  df_task : is_lost (m_task (member c y)) = false }.
Definition raced (c : Ceremony) : Prop := forall x, is_lost (m_task (member c x)) = true -> deaf c (other x).

(** A party ends only after it heard from the other. *)
Context (ends : forall x evs s, may_end x evs s -> exists m, In (Incoming m) evs).

Lemma other_other x : other (other x) = x.
Proof. by destruct x. Qed.
Lemma started_channel c x : ok_ceremony c -> m_started (member c x) = true -> exists ch, channels c !! pid_ID (id_of x) = Some ch.
Proof. intros Hc Hs. destruct (Hc x) as [[Hst _ _ _] _]. rewrite Hs in Hst. symmetry in Hst. by apply bool_decide_eq_true in Hst. Qed.

(** A deaf member stays deaf whatever it does itself. *)
Record silent (m : Member) : Prop := {
  sl_evs : Forall own_error (m_evs m); sl_routeErr : m_routeErr m = None; sl_task : is_lost (m_task m) = false }.
Lemma silent_set c z m y : (y = z -> silent m) -> silent (member c y) -> silent (member (set_member c z m) y).
Proof. intros Hm Hy. rewrite member_set. case_decide; auto. Qed.
Lemma silent_step c l c' y : ok_ceremony c -> step c l c' -> silent (member c y) -> buffered c y = [] ->
  m_started (member c (other y)) = true -> silent (member c' y).
Proof.
  intros Hc Hs Hy Hb Ho. pose proof Hy as [He Hr Ht].
  destruct Hs as [c z Hst|c z msg Hst Hem|c z msg out Htask Hout|c z to data rest l c' Htask Hsend|c z Htask|c z e Hst Htask|c e
    |c z e Hw He'|c z e Hw Hf|c z e Hw He'|c z ch m ch' Hw Hch Hrecv|c z sv Hw Hend]; rewrite ?member_set_channels; try (apply silent_set; [intros <-; by split|done]).
  - unfold drain_step. apply silent_set; [intros <-|done]. destruct (Hc y) as [[_ _ HF _] _]. rewrite Hout in HF. apply Forall_cons in HF as [Hm _].
    destruct (routeMessage_plan y msg Hm) as (l & -> & _). by split.
  - apply send_step_spec in Hsend as [(ch & _ & _ & _ & ->)|(Hn & _ & e & ->)].
    + rewrite member_set_channels. apply silent_set; [intros <-; by split|done].
    + apply silent_set; [intros <-|done]. exfalso. destruct (started_channel c (other y) Hc Ho) as (ch & Hch).
      destruct (Hc y) as [[_ _ _ Hok] _]. rewrite Htask in Hok. apply Forall_cons in Hok as [Hto _]. unfold to_other in Hto; cbn in Hto. congruence.
  - done.
  - apply silent_set; [intros <-; split; [apply Forall_app; split; [done|by repeat constructor]|done..]|done].
  - apply silent_set; [intros <-; split; [apply Forall_app; split; [done|by repeat constructor]|done..]|done].
  - apply silent_set; [intros <-; congruence|done].
  - apply silent_set; [intros <-|done]. unfold buffered in Hb. rewrite Hch in Hb. unfold chan_recv in Hrecv. by rewrite Hb in Hrecv.
  - apply silent_set; [intros <-|done]. exfalso. apply ends in Hend as (m & Hm). rewrite List.Forall_forall in He. by apply He in Hm.
Qed.

(** The party whose send was lost sends no more. *)
Lemma lost_buffer c l c' x : ok_ceremony c -> step c l c' -> is_lost (m_task (member c x)) = true -> buffered c (other x) = [] ->
  buffered c' (other x) = [].
Proof.
  intros Hc Hs Hx Hb. pose proof (step_buffer c l c' (other x) Hs) as HB. rewrite Hb in HB. cbn [app] in HB.
  assert (received_by (other x) l = []) as Hr; [|rewrite Hr in HB; by apply app_nil in HB as [_ ?]].
  destruct Hs as [| | |c z to data rest l c' Htask Hsend| | | | | | | | ]; try done.
  apply send_step_spec in Hsend as [(ch & _ & _ & -> & _)|(_ & -> & _)]; [|done]. cbn [received_by].
  destruct (Hc z) as [[_ _ _ Hok] _]. rewrite Htask in Hok. apply Forall_cons in Hok as [Hto _]. unfold to_other in Hto; cbn in Hto.
  rewrite bool_decide_eq_false_2; [done|]. rewrite Hto. intros E%id_of_inj. destruct z, x; try done; by rewrite Htask in Hx.
Qed.

(** Who is lost stays lost, and got lost by a send that found no channel. *)
Lemma lost_step c l c' x : ok_ceremony c -> step c l c' -> is_lost (m_task (member c' x)) = true ->
  is_lost (m_task (member c x)) = true \/
  (m_started (member c x) = true /\ m_started (member c (other x)) = false /\ buffered c' (other x) = [] /\
   member c' (other x) = member c (other x)).
Proof.
  assert (forall c z m, (z = x -> is_lost (m_task m) = true -> is_lost (m_task (member c z)) = true) ->
      is_lost (m_task (member (set_member c z m) x)) = true -> is_lost (m_task (member c x)) = true) as Hset
    by (intros c0 z m Hm; rewrite member_set; case_decide; [subst; by apply Hm|done]).
  intros Hc Hs. destruct Hs as [| |c z msg out Htask Hout|c z to data rest l c' Htask Hsend| | | | | | | | ];
    rewrite ?member_set_channels; try (intros Hl; left; revert Hl; apply Hset; by intros _; try done).
  - intros Hl; left; revert Hl. unfold drain_step. apply Hset. intros ->. destruct (Hc x) as [[_ _ HF _] _]. rewrite Hout in HF.
    apply Forall_cons in HF as [Hm _]. by destruct (routeMessage_plan x msg Hm) as (l & -> & _).
  - apply send_step_spec in Hsend as [(ch & _ & _ & _ & ->)|(Hn & _ & e & ->)].
    + rewrite member_set_channels. intros Hl; left; revert Hl. by apply Hset.
    + destruct (Hc z) as [[_ _ _ Hok] _]. rewrite Htask in Hok. apply Forall_cons in Hok as [Hto _]. unfold to_other in Hto; cbn in Hto.
      destruct (decide (z = x)) as [->|Hne].
      * intros _. right. split; [apply started_of; [done|right; by rewrite Htask]|]. rewrite Hto in Hn.
        destruct (Hc (other x)) as [[Hst _ _ _] _]. rewrite Hn in Hst. split; [done|].
        rewrite buffered_set_member. unfold buffered, router_Receive. rewrite Hn. split; [done|]. rewrite member_set. by destruct x.
      * rewrite member_set, decide_False by congruence. auto.
  - by left.
Qed.
Lemma raced_step c l c' : ok_ceremony c -> raced c -> step c l c' -> raced c'.
Proof.
  intros Hc HR Hs x Hx. apply (lost_step c l c' x Hc Hs) in Hx as [Hx|(Hst & Hn & Hb & Hm)].
  - destruct (HR x Hx) as [Hb He Hr Ht].
    assert (m_started (member c x) = true) as Hst by (apply started_of; [done|right; by destruct (m_task (member c x))]).
    destruct (silent_step c l c' (other x) Hc Hs) as [He' Hr' Ht']; [by split|done|by rewrite other_other|].
    split; try done. by eapply lost_buffer.
  - destruct (Hc (other x)) as [[Hs' Hf _ _] _]. rewrite Hn in Hs'. symmetry in Hs'. destruct (Hf Hs') as (_ & Ht & Hr & He).
    split; rewrite ?Hm, ?He, ?Hr, ?Ht; done.
Qed.
Lemma steps_raced t c : steps newCeremony t c -> raced c.
Proof.
  intros Hs. remember newCeremony as c0 eqn:E. revert E. induction Hs as [c|c t c1 l c2 H1 IH H2]; intros ->; [by intros []|].
  eapply raced_step; eauto using ok_steps.
Qed.
Lemma lost_forever c l c' x to : ok_ceremony c -> step c l c' -> m_task (member c x) = Lost to -> m_task (member c' x) = Lost to.
Proof.
  assert (forall c z m, (z = x -> m_task (member c z) = Lost to -> m_task m = Lost to) ->
      m_task (member c x) = Lost to -> m_task (member (set_member c z m) x) = Lost to) as Hset
    by (intros c0 z m Hm Hx; rewrite member_set; case_decide; [subst; by apply Hm|done]).
  intros Hc Hs. destruct Hs as [c z Hst| |c z msg out Htask Hout|c z to' data rest l c' Htask Hsend| | | | | | | | ];
    rewrite ?member_set_channels; try (apply Hset; intros _; cbn; congruence); try done.
  - apply Hset. intros -> Hl. pose proof (started_of c x Hc) as Hs. rewrite Hl in Hs. rewrite Hs in Hst; [done|by right].
  - apply send_step_spec in Hsend as [(ch & _ & _ & _ & ->)|(_ & _ & e & ->)]; rewrite ?member_set_channels; apply Hset; intros _; congruence.
Qed.

(** The other party's loop ends with an error, or not at all. *)
Lemma lost_result c x : (forall y evs, Forall own_error evs -> (evs = [] -> dkg y evs = None) /\ forall ks, dkg y evs <> Some (Ret ks)) ->
  deaf c (other x) ->
  (forall r, runDKGForCurve c <> Some (Ret r)) /\ (m_evs (member c (other x)) = [] -> runDKGForCurve c = None).
Proof.
  intros Hd [_ He _ _]. destruct (Hd (other x) _ He) as [Hn Hk]. unfold runDKGForCurve. split.
  - intros r. destruct x; cbn [other] in *; repeat case_match; try done; intros [= Hr];
      apply go_bind_Ret in Hr as (a & Ha%wrap_err_Ret & Hr); apply go_bind_Ret in Hr as (b & Hb%wrap_err_Ret & _); subst; by eapply Hk.
  - intros E. specialize (Hn E). destruct x; cbn [other] in *; rewrite Hn; by repeat case_match.
Qed.

(** The first message is sent before the other party has registered. *)
Lemma lost_reachable x msg to data rest : sortedIDs <> [] -> dkg x [] = None -> may_emit x [] msg ->
  routeMessage msg sortedIDs [] = ((to, data) :: rest, Ret tt) -> exists t c, steps newCeremony t c /\ m_task (member c x) = Lost (pid_ID to).
Proof.
  intros Hids Hd Hm Hp. set (c1 := set_channels (set_member newCeremony x (Build_Member true [] Draining None [])) (forParty newInMemoryRouter (id_of x))).
  set (c2 := set_member c1 x (set_out (member c1 x) (m_out (member c1 x) ++ [msg]))).
  assert (member c1 x = Build_Member true [] Draining None []) as E1 by (cbn; by rewrite decide_True).
  assert (member c2 x = Build_Member true [msg] Draining None []) as E2 by (unfold c2; rewrite member_set, decide_True, E1 by done; done).
  set (c3 := drain_step c2 x msg []).
  assert (member c3 x = Build_Member true [] (Sending ((to, data) :: rest)) None []) as E3
    by (unfold c3, drain_step; rewrite Hp, E2, member_set, decide_True by done; done).
  assert (channels c3 = forParty newInMemoryRouter (id_of x)) as Ech by done.
  assert (pid_ID to = pid_ID (id_of (other x))) as Hto.
  { destruct (routeMessage_plan x msg (emits _ _ _ Hm)) as (l & Hl & HF). rewrite Hl in Hp. injection Hp as ->. by apply Forall_cons in HF as [? _]. }
  eexists _, _. split.
  - eapply steps_snoc; [eapply steps_snoc; [eapply steps_snoc; [eapply steps_snoc; [apply steps_nil|]|]|]|].
    + by apply (s_start newCeremony x).
    + apply (s_emit c1 x msg); rewrite E1; [done|done|]. cbn. destruct sortedIDs; [done|cbn; lia].
    + apply (s_drain c2 x msg []); by rewrite E2.
    + eapply (s_send c3 x to data rest); [by rewrite E3|]. unfold send_step, router_Send_to. rewrite Ech.
      assert (forParty newInMemoryRouter (id_of x) !! pid_ID to = None) as -> by (rewrite Hto; by destruct x). reflexivity.
  - rewrite member_set, decide_True by done. done.
Qed.
End Ceremony.

(** ** The installer's key generation *)
Section Installer.
Context `{TssLib} {preParams aux : Type} `{Codec (SaveData aux)} `{Codec (SaveData unit)} `{Codec wireMessage} {P : Type} `{PartyMachine P}.
Context (S256 : EllipticCurve) (GeneratePreParams : go preParams)
        (new_dkgECDSA : list tss_PartyID -> tss_PartyID -> Z -> preParams -> P) (new_dkgEdDSA : list tss_PartyID -> tss_PartyID -> Z -> P).

Definition installer_preParams (ppA ppB : preParams) (pid : PartyID) : go preParams :=
  if bool_decide (pid_ID pid = "party-a") then Ret ppA
  else if bool_decide (pid_ID pid = "party-b") then Ret ppB
  else Err ("no pre-params for party " +:+ pid_ID pid).
Definition installer_protocol (ppA ppB : preParams) : TSSProtocol preParams :=
  {| Threshold := Threshold (NewProtocol (preParams := preParams) 0); GetPreParams := Some (installer_preParams ppA ppB) |}.
(** The goroutine of a party: its [DKG]; messages leave through the ceremony. *)
Definition party_dkg (p : TSSProtocol preParams) (curve : Curve) (x : side) (evs : list (event (SaveData aux))) (evs' : list (event (SaveData unit))) :
    option (go KeyShare) :=
  DKG (R := list (PartyID * bytes)) S256 GeneratePreParams new_dkgECDSA new_dkgEdDSA p curve (id_of x) parties [] evs evs'.

(** The ceremonies end with [ecdsa] and [eddsa]; [None] blocks. [ctx] is what
    [ctx.Err] answers the first and the second time. *)
Definition RunInstallerDKG (ctx : bool -> option string) (ppA ppB : go preParams)
    (ceremony : TSSProtocol preParams -> Curve -> option (go DKGResult)) : option (go (DKGResult * DKGResult)) :=
  let logged (r : DKGResult) := _ ← Slice.sub (ks_PublicKey (dr_ShareA r)) 0 8; Ret r in
  match ctx false with
  | Some e => Some (Err e)
  | None =>
    match a ← ppA ?: "generate pre-params for party-a"; b ← ppB ?: "generate pre-params for party-b"; Ret (installer_protocol a b) with
    | Err e => Some (Err e)
    | Panic => Some Panic
    | Ret protocol =>
      match ceremony protocol CurveSecp256k1 with
      | None => None
      | Some r =>
        match r ← r ?: "ECDSA DKG"; logged r with
        | Err e => Some (Err e)
        | Panic => Some Panic
        | Ret ecdsa =>
          match ctx true with
          | Some e => Some (Err e)
          | None =>
            match ceremony protocol CurveEd25519 with
            | None => None
            | Some r => Some (r ← r ?: "EdDSA DKG"; eddsa ← logged r; Ret (ecdsa, eddsa))
            end
          end
        end
      end
    end
  end.

(** tss-lib's sort keeps the parties. *)
Context (sorts : forall l, Permutation (map Id (SortPartyIDs l)) (map Id l)).
Notation sortedIDs := (makeSortedPartyIDs parties).
Lemma sorted_members pid : In pid sortedIDs -> Id pid = pid_ID partyA \/ Id pid = pid_ID partyB.
Proof.
  intros Hin%(in_map Id). unfold makeSortedPartyIDs in Hin. eapply Permutation_in in Hin; [|apply sorts]. cbn in Hin. naive_solver.
Qed.
Lemma sorted_has x : exists pid, findPartyID sortedIDs (pid_ID (id_of x)) = Some pid.
Proof.
  assert (In (pid_ID (id_of x)) (map Id sortedIDs)) as Hin.
  { unfold makeSortedPartyIDs. eapply Permutation_in; [symmetry; apply sorts|]. destruct x; vm_compute; tauto. }
  apply in_map_iff in Hin as (pid & Hid & Hin). unfold findPartyID. destruct (List.find _ _) as [q|] eqn:E; [by exists q|].
  apply (List.find_none _ _ E) in Hin. by rewrite bool_decide_eq_false in Hin.
Qed.
Lemma sorted_nonempty : sortedIDs <> [].
Proof. destruct (sorted_has SideA) as (pid & Hp). intros E. by rewrite E in Hp. Qed.

(** A loop that hears only of cancellation and tss-lib's own failure. *)
Lemma run_loop_own_errors {save out} err (finish : save -> go out) ids (party : P) (r : list (PartyID * bytes)) evs : Forall own_error evs ->
  (evs = [] -> run_loop err finish ids party r evs = None) /\ forall a, run_loop err finish ids party r evs <> Some (Ret a).
Proof. intros [|[] evs0 He _]; done. Qed.
Lemma ecdsa_waits ppA ppB x evs : Forall own_error evs ->
  (evs = [] -> party_dkg (installer_protocol ppA ppB) CurveSecp256k1 x evs [] = None) /\
  forall ks, party_dkg (installer_protocol ppA ppB) CurveSecp256k1 x evs [] <> Some (Ret ks).
Proof.
  intros He. destruct (sorted_has x) as (pid & Hp). unfold party_dkg, DKG, dkgECDSA, this_party. rewrite bool_decide_eq_true_2, Hp by done.
  cbn [from_option_err cause start]. assert (exists pp, pre_params GeneratePreParams (installer_protocol ppA ppB) (id_of x) = Ret pp) as (pp & ->)
    by (destruct x; cbn; eauto).
  by apply run_loop_own_errors.
Qed.

(** C29: The in-process key generation races with itself. Each of its two goroutines
    registers its own channel and then sends to the other's: as soon as a party
    emits its first message, it can be sent before the other party has registered.
    Then the send is lost for good and nobody tries again: in every later state the
    other party has heard nothing, its loop never returns a share, and it returns at
    all only if the context is cancelled or tss-lib itself fails, so the whole
    ceremony never yields shares and otherwise blocks for ever. This holds for every
    tss-lib whose parties address their messages to each other and cannot finish
    before they hear from each other. *)
Theorem installer_dkg_race ppA ppB
    (may_emit : side -> list (event (SaveData aux)) -> tss_Message -> Prop) may_end may_fail :
  (forall x evs msg, may_emit x evs msg -> ok_msg x msg) -> (forall m : wireMessage, exists d, Marshal m = Ret d) ->
  (forall x evs s, may_end x evs s -> exists m, In (Incoming m) evs) ->
  let dkg := fun x evs => party_dkg (installer_protocol ppA ppB) CurveSecp256k1 x evs [] in
  let steps := steps sortedIDs dkg may_emit may_end may_fail in
  (forall x msg to data rest, may_emit x [] msg -> routeMessage msg sortedIDs [] = ((to, data) :: rest, Ret tt) ->
     exists t c, steps newCeremony t c /\ m_task (member c x) = Lost (pid_ID to)) /\
  (forall t c x to, steps newCeremony t c -> m_task (member c x) = Lost to ->
     (forall l c', step sortedIDs dkg may_emit may_end may_fail c l c' -> m_task (member c' x) = Lost to) /\
     Forall own_error (m_evs (member c (other x))) /\ (forall r, runDKGForCurve dkg c <> Some (Ret r)) /\
     (m_evs (member c (other x)) = [] -> runDKGForCurve dkg c = None)).
Proof.
  intros Hemit Hwire Hend dkg st. split.
  - intros x msg to data rest Hm Hr. eapply (lost_reachable sortedIDs dkg may_emit may_end may_fail Hemit sorted_members Hwire); try done.
    + apply sorted_nonempty.
    + by apply (ecdsa_waits ppA ppB x []).
  - intros t c x to Hs Hl. pose proof (ok_steps _ _ _ _ _ Hemit sorted_members Hwire _ _ Hs) as Hc.
    assert (deaf c (other x)) as Hdeaf
      by (apply (steps_raced _ _ _ _ _ Hemit sorted_members Hwire Hend _ _ Hs); by rewrite Hl).
    split; [intros l c' Hs'; by eapply lost_forever|]. split; [by destruct Hdeaf|].
    apply lost_result; [|done]. intros y evs. apply ecdsa_waits.
Qed.

(** C28: The in-memory router is a reliable, ordered link. In every reachable state
    of a ceremony, what was sent to a party is what its loop has taken followed by
    what its channel holds, in the order of the sends and each with its sender; the
    channel holds at most 1024 messages; and once both parties have registered, a
    send to either blocks while the channel is full and never fails. *)
Theorem in_memory_delivery {save} (dkg : side -> list (event save) -> option (go KeyShare)) may_emit may_end may_fail t c x :
  (forall x evs msg, may_emit x evs msg -> ok_msg x msg) -> (forall m : wireMessage, exists d, Marshal m = Ret d) ->
  steps sortedIDs dkg may_emit may_end may_fail newCeremony t c ->
  flat_map (received_by x) t = incoming (m_evs (member c x)) ++ buffered c x /\ (length (buffered c x) <= 1024)%nat /\
  (m_started (member c SideA) = true -> m_started (member c SideB) = true ->
   forall y to data rest, m_task (member c y) = Sending ((to, data) :: rest) ->
     match send_step c y to data rest with
     | Some (l, _) => l = Sent y to data
     | None => length (buffered c (other y)) = 1024%nat
     end).
Proof.
  intros Hemit Hwire Hs. pose proof (ok_steps _ _ _ _ _ Hemit sorted_members Hwire _ _ Hs) as Hc.
  split; [by apply (steps_delivery sortedIDs dkg may_emit may_end may_fail Hemit sorted_members Hwire)|]. split.
  - unfold buffered, router_Receive. destruct (channels c !! _) as [ch|] eqn:E; [|cbn; lia]. destruct (proj2 (Hc x) _ E). lia.
  - intros HA HB y to data rest Ht. assert (m_started (member c (other y)) = true) as Ho by by destruct y.
    destruct (started_channel c _ Hc Ho) as (ch & Hch). destruct (proj2 (Hc (other y)) _ Hch) as [Hl Hcap].
    destruct (Hc y) as [[_ _ _ Hok] _]. rewrite Ht in Hok. apply Forall_cons in Hok as [Hto _]. unfold to_other in Hto; cbn in Hto.
    unfold send_step, router_Send_to, chan_send. rewrite Hto, Hch. case_decide as Hd; [done|].
    unfold buffered, router_Receive. rewrite Hch. lia.
Qed.
End Installer.

(** ** A small tss-lib

    Each party broadcasts one message and ends when it has heard from the other. *)
Module ToyDkg.
Definition hello (x : side) : tss_Message :=
  {| tm_From := NewPartyID (pid_ID (id_of x)) "" 0; tm_IsBroadcast := true; tm_To := []; tm_WireBytes := Ret [x01] |}.
Definition may_emit {save} (x : side) (evs : list (event save)) (msg : tss_Message) : Prop := msg = hello x.
Definition may_end {save} (x : side) (evs : list (event save)) (s : save) : Prop := exists m, In (Incoming m) evs.
Definition may_fail {save} (x : side) (evs : list (event save)) (e : string) : Prop := False.
Lemma emits {save} x (evs : list (event save)) msg : may_emit x evs msg -> ok_msg x msg.
Proof. intros ->. split; [done|]. split; [by eexists|done]. Qed.
#[export] Instance machine : PartyMachine unit := {| UpdateFromBytes := fun p _ _ _ => (p, Ret tt) |}.
Lemma sorts l : Permutation (map Id (SortPartyIDs (TssLib := TssFacts.number_parties) l)) (map Id l).
Proof. 
  unfold SortPartyIDs, TssFacts.number_parties. change (Id <$> imap (fun i p => {| Id := Id p; Moniker := Moniker p; Key := Key p; Index := Z.of_nat i |}) l ≡ₚ Id <$> l).
  rewrite fmap_imap. by rewrite <- (imap_const Id l).
Qed.
Lemma wire_total (m : wireMessage) : exists d, Marshal (Codec := TssProtocolFacts.wireMessage_codec) m = Ret d.
Proof. by eexists. Qed.
Definition dkg := party_dkg (H := TssFacts.number_parties) (H0 := TssFacts.Toy.toy_save_codec) (H1 := TssFacts.Toy.toy_save_codec)
  (H2 := TssProtocolFacts.wireMessage_codec) TssFacts.Toy.curve (Ret tt) (fun _ _ _ _ => tt) (fun _ _ _ => tt) (installer_protocol tt tt) CurveSecp256k1.
End ToyDkg.
#[local] Existing Instances TssFacts.number_parties TssProtocolFacts.wireMessage_codec TssFacts.Toy.toy_save_codec ToyDkg.machine.

Lemma installer_dkg_race_witness :
  exists t c, steps (makeSortedPartyIDs parties) (fun x evs => ToyDkg.dkg x evs []) ToyDkg.may_emit ToyDkg.may_end ToyDkg.may_fail newCeremony t c /\
    m_task (member c SideA) = Lost "party-b" /\ forall r, runDKGForCurve (fun x evs => ToyDkg.dkg x evs []) c <> Some (Ret r).
Proof.
  destruct (installer_dkg_race TssFacts.Toy.curve (Ret tt) (fun _ _ _ _ => tt) (fun _ _ _ => tt) ToyDkg.sorts tt tt
    ToyDkg.may_emit ToyDkg.may_end ToyDkg.may_fail ToyDkg.emits ToyDkg.wire_total (fun x evs s Hm => Hm)) as [HR HL].
  destruct (routeMessage (ToyDkg.hello SideA) (makeSortedPartyIDs parties) []) as [l r] eqn:E.
  destruct (HR SideA (ToyDkg.hello SideA) partyB (snd (default (partyB, []) (head l))) (tail l) eq_refl) as (t & c & Hs & Hc).
  { vm_compute in E. injection E as <- <-. vm_compute. reflexivity. }
  exists t, c. split; [exact Hs|]. split; [exact Hc|]. exact (proj1 (proj2 (proj2 (HL t c SideA _ Hs Hc)))).
Defined.

(** Both parties register, and Party A's message is sent. *)
Module ToyRun.
Notation ids := (makeSortedPartyIDs parties).
Notation steps := (steps ids (fun x evs => ToyDkg.dkg x evs []) ToyDkg.may_emit ToyDkg.may_end ToyDkg.may_fail).
Definition registered (c : Ceremony (save := SaveData unit)) (x : side) : Ceremony :=
  set_channels (set_member c x {| m_started := true; m_out := []; m_task := Draining; m_routeErr := None; m_evs := [] |})
    (forParty (channels c) (id_of x)).
Definition both_registered : Ceremony := registered (registered newCeremony SideA) SideB.
Definition emitted : Ceremony := set_member both_registered SideA (set_out (member both_registered SideA) (m_out (member both_registered SideA) ++ [ToyDkg.hello SideA])).
Definition planned : Ceremony := drain_step ids emitted SideA (ToyDkg.hello SideA) [].
Definition data : bytes := Eval vm_compute in
  match m_task (member planned SideA) with Sending ((_, d) :: _) => d | _ => [] end.
Definition partyB' : PartyID := {| pid_ID := "party-b"; pid_Index := 1 |}.
Definition sent : Ceremony := match send_step planned SideA partyB' data [] with Some (_, c) => c | None => planned end.
Lemma planned_task : m_task (member planned SideA) = Sending [(partyB', data)].
Proof. vm_compute. reflexivity. Qed.
Lemma run : steps newCeremony ([] ++ [Tau] ++ [Tau] ++ [Tau] ++ [Tau] ++ [Sent SideA partyB' data]) sent.
Proof.
  cbn [app]. change [Tau; Tau; Tau; Tau; Sent SideA partyB' data] with (((([] ++ [Tau]) ++ [Tau]) ++ [Tau]) ++ [Tau] ++ [Sent SideA partyB' data]).
  rewrite app_assoc. eapply steps_snoc; [eapply steps_snoc; [eapply steps_snoc; [eapply steps_snoc; [eapply steps_snoc; [apply steps_nil|]|]|]|]|].
  - exact (s_start _ _ _ _ _ newCeremony SideA eq_refl).
  - exact (s_start _ _ _ _ _ (registered newCeremony SideA) SideB eq_refl).
  - refine (s_emit _ _ _ _ _ both_registered SideA (ToyDkg.hello SideA) eq_refl eq_refl _). vm_compute. lia.
  - exact (s_drain _ _ _ _ _ emitted SideA (ToyDkg.hello SideA) [] eq_refl eq_refl).
  - refine (s_send _ _ _ _ _ planned SideA partyB' data [] _ sent planned_task _). reflexivity.
Qed.
End ToyRun.
Lemma in_memory_delivery_witness :
  incoming (m_evs (member ToyRun.sent SideB)) ++ buffered ToyRun.sent SideB = [{| im_From := partyA; im_Payload := ToyRun.data |}].
Proof.
  destruct (in_memory_delivery ToyDkg.sorts (fun x evs => ToyDkg.dkg x evs []) ToyDkg.may_emit ToyDkg.may_end ToyDkg.may_fail
    _ ToyRun.sent SideB ToyDkg.emits ToyDkg.wire_total ToyRun.run) as [HD _].
  rewrite <- HD. reflexivity.
Defined.
