(* ===== verification/Programs.v ===== *)
(** * Programs: the main functions (cmd/party-a, cmd/party-b, cmd/installer)

    How the two parties' programs start, where each failure ends the process, and
    the installer's own HTTP front: its port, its headers and its embedded user
    interface. A fatal log message is an error; flags are arguments. *)
From S2P Require Import Prelude GoStd Codec Protocol Transport Tss Config Vm Solana Store Llm Analyzer Telegram PartyB PartyA Main Wizard Effects Deploy DeployLocal.
Local Open Scope Z_scope.
Local Open Scope go_scope.

(** ** The parties *)
Section Parties.
Context `{Unicode} `{AbiWorld} `{LlmWorld} `{PartyACodecs} {S : Type} `{Store S} {T tls : Type} `{TransportClient T}.
(** What the programs ask of their surroundings: the configuration file, the
    database, the certificates, the connection and the listening socket. *)
Context (load : string -> go Config) (open_store : string -> string -> go S) (LoadCerts : string -> string -> string -> go tls)
        (Connect : string -> tls -> go T) (Start : string -> tls -> go unit) (api : go unit) (now : nat -> Z).
Context (evm solana tendermint : Adapter).

Definition load_certs (cfg : Config) : go tls :=
  let t := cfg_Transport cfg in LoadCerts (tc_CertFile t) (tc_KeyFile t) (tc_CACertFile t) ?: "failed to load TLS certs".
Definition wrong_party (want : string) (cfg : Config) : string :=
  "config party must be '" +:+ want +:+ "', got '" +:+ cfg_Party cfg +:+ "'".

(** Party A's program with the address of its API. *)
Definition party_a_program (configPath passphrase : string) : go (ProgramA (SA := S) (T := T) * string) :=
  cfg ← load configPath ?: "failed to load config";
  if negb (bool_decide (cfg_Party cfg = "a")) then Err (wrong_party "a" cfg)
  else
    st ← open_store (DSN (cfg_Database cfg)) passphrase ?: "failed to init store";
    tlsCfg ← load_certs cfg;
    client ← Connect (tc_RemoteAddr (cfg_Transport cfg)) tlsCfg ?: "failed to connect to Party B";
    Ret (party_a_main st client (main_registry evm solana tendermint), api_ListenAddr (cfg_API cfg)).
Definition party_b_program (configPath passphrase : string) : go (ProgramB (S := S)) :=
  cfg ← load configPath ?: "failed to load config";
  if negb (bool_decide (cfg_Party cfg = "b")) then Err (wrong_party "b" cfg)
  else
    st ← open_store (DSN (cfg_Database cfg)) passphrase ?: "failed to init store";
    program ← party_b_main cfg st (main_registry evm solana tendermint) api now ?: "failed to init Party B service";
    tlsCfg ← load_certs cfg;
    _ ← Start (tc_ListenAddr (cfg_Transport cfg)) tlsCfg ?: "failed to start transport server";
    Ret program.
End Parties.

(** ** The installer's port *)

(** [net.DialTimeout] and [net.Listen] on 127.0.0.1, at the n-th candidate; a
    listener is the port it has. *)
Section Port.
Context (dial : nat -> Z -> bool) (listen : nat -> Z -> go Z).
Definition portInUse (n : nat) (port : Z) : bool := dial n port.
Definition candidates (preferred : Z) : list Z := preferred :: map (fun i => preferred + 1 + Z.of_nat i) (seq 0 19).
Fixpoint first_free (n : nat) (l : list Z) : option Z :=
  match l with
  | [] => None
  | p :: l =>
    if portInUse n p then first_free (S n) l
    else match listen n p with Ret port => Some port | _ => first_free (S n) l end
  end.
Definition findAvailableListener (preferred : Z) : go Z :=
  match first_free 0 (candidates preferred) with
  | Some port => Ret port
  | None => listen (length (candidates preferred)) 0 ?: "cannot find available port"
  end.

(** The listener found is that of the first of twenty ports from the preferred one
    where nothing answers and listening succeeds; where there is none the system
    chooses, and only if that fails too is there an error. *)
Lemma first_free_spec l n : match first_free n l with
  | Some port => exists i p, l !! i = Some p /\ dial (n + i) p = false /\ listen (n + i) p = Ret port /\
      forall j q, (j < i)%nat -> l !! j = Some q -> dial (n + j) q = true \/ forall port, listen (n + j) q <> Ret port
  | None => forall j q, l !! j = Some q -> dial (n + j) q = true \/ forall port, listen (n + j) q <> Ret port
  end.
Proof.
  revert n. induction l as [|p l IH]; intros n; [done|]. cbn [first_free]. unfold portInUse.
  assert (dial n p = true \/ (forall port, listen n p <> Ret port) ->
    forall i, (forall j q, (j < i)%nat -> l !! j = Some q -> dial (S n + j)%nat q = true \/ forall port, listen (S n + j)%nat q <> Ret port) ->
    forall j q, (j < S i)%nat -> (p :: l) !! j = Some q -> dial (n + j) q = true \/ forall port, listen (n + j) q <> Ret port) as Hcons.
  { intros Hp i Hi [|j] q Hj Hq; [injection Hq as <-; by rewrite Nat.add_0_r|].
    replace (n + S j)%nat with (S n + j)%nat by lia. apply Hi; [lia|done]. }
  assert (dial n p = true \/ (forall port, listen n p <> Ret port) -> match first_free (S n) l with
    | Some port => exists i q, (p :: l) !! i = Some q /\ dial (n + i) q = false /\ listen (n + i) q = Ret port /\
        forall j q, (j < i)%nat -> (p :: l) !! j = Some q -> dial (n + j) q = true \/ forall port, listen (n + j) q <> Ret port
    | None => forall j q, (p :: l) !! j = Some q -> dial (n + j) q = true \/ forall port, listen (n + j) q <> Ret port end) as Hskip.
  { intros Hp. specialize (IH (S n)). destruct (first_free (S n) l) as [port|].
    - destruct IH as (i & q & Hq & Hd & Hl & Hb). exists (S i), q. replace (n + S i)%nat with (S n + i)%nat by lia.
      split; [done|]. split; [done|]. split; [done|]. by apply Hcons.
    - intros j q Hq. apply (Hcons Hp j) with (j := j); [|lia|done]. intros j' q' _ Hq'. by apply IH. }
  destruct (dial n p) eqn:Ed; [apply Hskip; by left|].
  destruct (listen n p) as [port|e|] eqn:El; [|apply Hskip; by right..].
  exists 0%nat, p. rewrite Nat.add_0_r. split; [done|]. split; [done|]. split; [done|]. intros j q Hj; lia.
Qed.
End Port.

(** ** The installer's handlers *)

(** [corsMiddleware]: the headers it sets, and whether the next handler runs. *)
Definition corsMiddleware {A} (method : string) (next : A) : list (string * string) * (Z + A) :=
  ([("Access-Control-Allow-Origin", "*"); ("Access-Control-Allow-Methods", "GET, POST, OPTIONS");
    ("Access-Control-Allow-Headers", "Content-Type")],
   if bool_decide (method = "OPTIONS") then inl 204 else inr next).

(** What a request to the user interface is answered with: a file of the embedded
    directory, the page that says it was not built, or 404. *)
Inductive page := File (path : string) | FallbackPage | PageNotFound.
Definition fallbackHandler (path : string) : page :=
  if negb (bool_decide (path = "/")) && negb (bool_decide (path = "/index.html")) then PageNotFound else FallbackPage.
(** [built]: the directory has an index; [opens]: a file of it can be opened. An
    empty path cannot be sliced. *)
Definition frontendHandler (built : bool) (opens : string -> bool) (path : string) : go page :=
  if negb built then Ret (fallbackHandler path)
  else match path with
       | EmptyString => Panic
       | String _ name => if bool_decide (path = "/") then Ret (File path) else if opens name then Ret (File path) else Ret (File "/")
       end.

Definition openBrowser (goos url : string) : option (list string) :=
  if bool_decide (goos = "darwin") then Some ["open"; url]
  else if bool_decide (goos = "linux") then Some ["xdg-open"; url]
  else if bool_decide (goos = "windows") then Some ["rundll32"; "url.dll,FileProtocolHandler"; url]
  else None.

(** The installer's [main] once the routes are registered: the URL it serves and
    the command that opens it. *)
Definition installer_main (dial : nat -> Z -> bool) (listen : nat -> Z -> go Z) (goos : string) (port : Z) (noBrowser : bool) :
    go (string * option (list string)) :=
  ln ← findAvailableListener dial listen port ?: "no available port";
  let url := "http://127.0.0.1:" +:+ Strconv.Itoa ln in
  Ret (url, if noBrowser then None else openBrowser goos url).
