(* ===== verification/Addresses.v ===== *)
(** * Addresses: the address the API returns is the address the export prints

    Party A derives an address through its chain adapters, the installer prints one
    next to the key it exports, each with its own code. They are equal where both
    sides call the same libraries. *)
From S2P Require Import Prelude GoStd Codec Protocol Transport Tss TssFacts Vm Evm Tendermint Solana EdwardsPoint Mnemonic MnemonicFacts.
Local Open Scope Z_scope.

(** The installer and the adapters import the same packages: go-ethereum's
    [PubkeyToAddress] hashes the coordinates, 32 bytes each, and keeps the last 20
    bytes; cosmos-sdk's key address and bech32; solana-go's base58. *)
Class SameLibs `{Geth} `{Cosmos} `{SolanaGo} `{AddressLibs} := {
  same_hex p : 0 <= p.1 < 2 ^ 256 -> 0 <= p.2 < 2 ^ 256 ->
    PubkeyToAddress_Hex p = AddressHex (drop 12 (Keccak256 (Binary.be_bytes 32 p.1 ++ Binary.be_bytes 32 p.2)));
  same_cosmos b : cosmos_Address b = PubKey_Address b;
  same_bech32 prefix b : bech32_Encode prefix b = bech32_ConvertAndEncode prefix b;
  same_base58 b : length b = 32%nat -> PublicKeyString (PublicKeyFromBytes b) = base58_Encode b }.

Section Addresses.
Context `{Unicode} `{Geth} `{Cosmos} `{SolanaGo} `{AddressLibs} `{!SameLibs} `{Codec unsignedTxEnvelope}.

Lemma evm_address p pub opts : 0 <= p.1 < 2 ^ 256 -> 0 <= p.2 < 2 ^ 256 -> uncompressed p = Ret pub ->
  evm_DeriveAddress pub opts = export_address p [].
Proof.
  intros Hx Hy. rewrite uncompressed_spec by done. intros <-%Ret_inj. unfold evm_DeriveAddress, is_uncompressed, zlen.
  cbn [length]. rewrite length_app, !Binary.length_be_bytes. cbn [head]. rewrite bool_decide_eq_true_2 by done.
  cbn [export_address drop]. by rewrite same_hex.
Qed.
(** The prefix a request or the adapter gives. *)
Definition cosmos_prefix (a : TendermintAdapter) (prefix : string) : string := Tendermint.or_default prefix (ta_Prefix a).
Lemma tendermint_address a p pub prefix addr : 0 <= p.1 < 2 ^ 256 -> 0 <= p.2 < 2 ^ 256 -> uncompressed p = Ret pub ->
  cosmos_prefix a prefix <> "" ->
  tendermint_DeriveAddress a pub (if bool_decide (prefix = "") then [] else [WithPrefix prefix]) = Ret addr ->
  export_address p [cosmos_prefix a prefix] = Ret addr.
Proof.
  intros Hx Hy Hu Hne. unfold tendermint_DeriveAddress, export_address. rewrite (bool_decide_eq_false_2 (cosmos_prefix a prefix = "")) by done.
  assert (Tendermint.or_default (do_Prefix (ApplyDeriveOpts (if bool_decide (prefix = "") then [] else [WithPrefix prefix]))) (ta_Prefix a)
    = cosmos_prefix a prefix) as -> by (case_bool_decide as E; [by rewrite E|done]).
  rewrite (compressPubKey_agrees p pub Hx Hy Hu). unfold Mnemonic.compressPubKey. intros (c & -> & HX)%go_bind_Ret. cbn [mbind go_bind].
  rewrite same_cosmos. apply go_bind_Ret in HX as (b & -> & HX%wrap_err_Ret). cbn [mbind go_bind]. by rewrite same_bech32, HX.
Qed.
Lemma solana_address pub opts : length pub = 32%nat -> solana_DeriveAddress pub opts = Ret (base58_Encode pub).
Proof. intros Hl. unfold solana_DeriveAddress, zlen. rewrite Hl. cbn. by rewrite same_base58. Qed.
End Addresses.
