(* ===== verification/EndToEnd.v ===== *)
(** * EndToEnd: from the recovery phrase to an address of the installed wallet

    An installation, local or remote, the databases it leaves, the two party programs
    that open them, a derivation through both, and the export of the key and of its
    address from the phrase. *)
From S2P Require Import Prelude GoStd Codec Protocol Transport Tss TssFacts Vm Evm Tendermint Store StoreFacts Llm Analyzer AnalyzerFacts Solana PartyB PartyBFacts PartyA PartyAFacts Config EdwardsPoint Mnemonic MnemonicFacts Wizard Effects Certs Deploy DeployLocal Install DeployFacts Handlers HandlersFacts InstallFacts PathFacts Machine ImportFacts RemoteFacts Addresses.
Local Open Scope Z_scope.

Section EndToEnd.
Context {pp aux : Type} `{Unicode} `{MapOrder} `{!MapOrderLaws} `{ConfigJson} `{Codec KeyShare} `{!CodecLaws KeyShare} `{TssLib}
        `{Codec (SaveData aux)} `{Codec (SaveData unit)} `{Bip39} `{AddressLibs} `{X509}.
Context `{SolanaGo} `{Geth} `{Cosmos} `{Codec unsignedTxEnvelope} `{!SameLibs} `{SolanaWorld} `{PartyACodecs} `{AbiWorld} `{LlmWorld} `{Codec Signature}.
Context {SA SB T : Type} `{Store SA} `{!StoreLaws SA} `{Store SB} `{!StoreLaws SB} `{TransportClient T}.
Context (mk_aux : list pp -> nat -> aux) (S256 Edwards : EllipticCurve) `{!CurveLaws S256} `{!SaveCodecLaws S256 aux}.
Context (P : Z) `{!CurveLaws Edwards} `{!EdwardsLaws Edwards P} `{!SaveCodecLaws Edwards unit}.
Notation derive_key := (DeriveKey (aux := aux) S256 Edwards).
Notation ServiceA := (ServiceA (S := SA) (T := T)).
Notation ServiceB := (PartyB.Service (S := SB)).

(** The connection strings through which an installation reaches the databases. *)
Definition reached (localMode : bool) (dsnA dsnB : string) : Prop :=
  if localMode then dsnA = localDSN "a" /\ dsnB = localDSN "b"
  else exists portA portB, dsnA = tunnel_dsn portA "a" /\ dsnB = tunnel_dsn portB "b".
(** The parties open the databases of an installation: they find the master shares
    it left there. *)
Definition opened (w : World) (dsnA dsnB : string) (wA : ServiceA) (wB : ServiceB) : Prop :=
  store_ok (sa_store wA) /\ store_ok (sb_store wB) /\
  v_shares (view (sa_store wA)) = v_shares (db w dsnA) /\ v_shares (view (sb_store wB)) = v_shares (db w dsnB).

Lemma installed_shares v v' ecdsa eddsa : installed v v' ecdsa eddsa ->
  v_shares v' !! CurveSecp256k1 = Some ecdsa /\ v_shares v' !! CurveEd25519 = Some eddsa.
Proof.
  intros (-> & _). split; [rewrite lookup_insert_ne by discriminate|]; apply lookup_insert_eq.
Qed.

(** Party A answered with the public key [pub] and the address its adapter gives it,
    and stored them; Party B stored the same public key, or its store failed. *)
Definition derived (pub : bytes) path prefix (adapter : Adapter) r (wA' : ServiceA) (wB wB' : ServiceB) (rB : go unit) : Prop :=
  dr_PublicKey r = hex0x pub /\
  DeriveAddress adapter pub (if bool_decide (prefix = "") then [] else [WithPrefix prefix]) = Ret (dr_Address r) /\
  (exists key, v_keys (view (sa_store wA')) !! path = Some key /\ dkr_PublicKey key = pub /\ dkr_Address key = dr_Address r) /\
  ((rB = Ret tt /\ exists key, v_keys (view (sb_store wB')) !! path = Some key /\ dkr_PublicKey key = pub) \/
   (exists err, rB = Err err /\ view (sb_store wB') = view (sb_store wB))).

(** Party A's derivation returns the public key of the share it finds. *)
Lemma Derive_of_share now path label prefix (wA wA' : ServiceA) r adapter ks dk :
  store_ok (sa_store wA) -> ForPath (sa_vmRegistry wA) path = Some adapter ->
  v_shares (view (sa_store wA)) !! AdapterCurve adapter = Some ks -> derive_key ks path = Ret dk ->
  Derive derive_key now path label prefix wA = (wA', Ret r) ->
  dr_PublicKey r = hex0x (dk_PublicKey dk) /\
  DeriveAddress adapter (dk_PublicKey dk) (if bool_decide (prefix = "") then [] else [WithPrefix prefix]) = Ret (dr_Address r) /\
  exists key, v_keys (view (sa_store wA')) !! path = Some key /\ dkr_PublicKey key = dk_PublicKey dk /\ dkr_Address key = dr_Address r.
Proof.
  intros Hok Hfor Hs Hdk HA.
  destruct (Derive_Ret _ _ _ _ _ _ _ _ Hok HA) as (ad & ks' & dk' & addr & Ha & Hs' & Hdk' & Hr & <- & Hda & Hv & _).
  rewrite Hfor in Ha. injection Ha as <-. rewrite Hs in Hs'. injection Hs' as <-. rewrite Hdk in Hdk'. injection Hdk' as <-.
  split; [exact Hr|]. split; [exact Hda|]. rewrite Hv.
  edestruct SaveDerivedKey_lookup as (key & E & Pk & Ad & _). exists key. split; [exact E|]. split; [exact Pk|exact Ad].
Qed.
(** Party B's derivation stores the public key of the share it finds, or its store failed. *)
Lemma HandleDeriveRequest_of_share now path (wB wB' : ServiceB) r ks dk :
  store_ok (sb_store wB) -> v_shares (view (sb_store wB)) !! derive_curve (sb_vmReg wB) path = Some ks ->
  derive_key ks path = Ret dk -> HandleDeriveRequest derive_key wB now path = (wB', r) ->
  (r = Ret tt /\ exists key, v_keys (view (sb_store wB')) !! path = Some key /\ dkr_PublicKey key = dk_PublicKey dk) \/
  (exists e, r = Err e /\ view (sb_store wB') = view (sb_store wB)).
Proof.
  intros Hok Hs Hdk HB. destruct (HandleDeriveRequest_spec _ _ _ _ _ _ Hok HB) as [_ HBr].
  destruct r as [[]|e|]; [left|right; by exists e|exfalso].
  - destruct HBr as (share & d & Hs' & Hd & Hv). unfold contents in *. rewrite Hs in Hs'. injection Hs' as <-. rewrite Hdk in Hd. injection Hd as <-.
    split; [done|]. rewrite Hv. edestruct SaveDerivedKey_lookup as (key & E & Pk & _). exists key. split; [exact E|exact Pk].
  - destruct HBr as (share & Hs' & Hd). unfold contents in *. congruence.
Qed.

(** Either installation. *)
Lemma installed_halves mnemonic sA sB (localMode : bool) (s s' : Shared pp) t w w' a b ea eb :
  session mk_aux S256 Edwards mnemonic sA sB s ->
  ShareA (keys (wizard s)) = Some a -> ShareB (keys (wizard s)) = Some b ->
  EdShareA (keys (wizard s)) = Some ea -> EdShareB (keys (wizard s)) = Some eb ->
  Forall representable [a; b; ea; eb] -> (if localMode then env w "CRYPTO_CLAW_NO_PROCESSES" = "" else disk w = true) ->
  exec others s (if localMode then DeployLocal else deployRemote) t s' (Some (Ret tt)) -> replay w t w' ->
  dealt_ECDSA mk_aux S256 Edwards mnemonic a b /\ dealt_EdDSA S256 Edwards mnemonic ea eb /\
  exists dsnA dsnB, reached localMode dsnA dsnB /\
    (v_shares (db w' dsnA) !! CurveSecp256k1 = Some a /\ v_shares (db w' dsnA) !! CurveEd25519 = Some ea) /\
    (v_shares (db w' dsnB) !! CurveSecp256k1 = Some b /\ v_shares (db w' dsnB) !! CurveEd25519 = Some eb).
Proof.
  intros Hs Ea Eb Eea Eeb HR Hm Hx Hw. destruct localMode.
  - destruct (local_install mk_aux S256 Edwards mnemonic sA sB s s' t w w' a b ea eb Hs Ea Eb Eea Eeb HR Hm Hx Hw)
      as (HD & HDe & HsA%installed_shares & HsB%installed_shares & _).
    split; [done|]. split; [done|]. by exists (localDSN "a"), (localDSN "b").
  - destruct (remote_install mk_aux S256 Edwards mnemonic sA sB s s' t w w' a b ea eb Hs Ea Eb Eea Eeb HR Hm Hx Hw)
      as (HD & HDe & (pA & HsA%installed_shares & _) & (pB & HsB%installed_shares & _) & _).
    split; [done|]. split; [done|]. exists (tunnel_dsn pA "a"), (tunnel_dsn pB "b"). split; [by exists pA, pB|done].
Qed.

(** What both halves of a dealing derive, the parties that hold them do. *)
Lemma derived_of_shares nowA nowB path label prefix adapter r (wA wA' : ServiceA) (wB wB' : ServiceB) rB a b dkA dkB :
  store_ok (sa_store wA) -> store_ok (sb_store wB) ->
  ForPath (sa_vmRegistry wA) path = Some adapter -> derive_curve (sb_vmReg wB) path = AdapterCurve adapter ->
  v_shares (view (sa_store wA)) !! AdapterCurve adapter = Some a -> v_shares (view (sb_store wB)) !! AdapterCurve adapter = Some b ->
  derive_key a path = Ret dkA -> derive_key b path = Ret dkB -> dk_PublicKey dkA = dk_PublicKey dkB ->
  Derive derive_key nowA path label prefix wA = (wA', Ret r) ->
  HandleDeriveRequest derive_key wB nowB path = (wB', rB) ->
  derived (dk_PublicKey dkB) path prefix adapter r wA' wB wB' rB.
Proof.
  intros HokA HokB Hfor HcB HsA HsB DA DB E HA HB. rewrite <- HcB in HsB.
  destruct (Derive_of_share nowA path label prefix wA wA' r adapter a dkA HokA Hfor HsA DA HA) as (Hr & Hda & HK).
  pose proof (HandleDeriveRequest_of_share nowB path wB wB' rB b dkB HokB HsB DB HB) as HRB.
  rewrite E in *. by repeat (split; [done|]).
Qed.
(** The address of Party A's adapter is the one the export prints. *)
Lemma derived_evm p pub path prefix adapter r wA' wB wB' rB addr : derived pub path prefix adapter r wA' wB wB' rB ->
  0 <= p.1 < 2 ^ 256 -> 0 <= p.2 < 2 ^ 256 -> uncompressed p = Ret pub -> export_address p [] = Ret addr ->
  adapter = evm_adapter -> addr = dr_Address r.
Proof. intros (_ & Hda & _) Hx Hy Hu HE ->. cbn in Hda. rewrite (evm_address p) in Hda by done. congruence. Qed.
Lemma derived_tendermint t p pub path prefix adapter r wA' wB wB' rB addr : derived pub path prefix adapter r wA' wB wB' rB ->
  0 <= p.1 < 2 ^ 256 -> 0 <= p.2 < 2 ^ 256 -> uncompressed p = Ret pub -> cosmos_prefix t prefix <> "" ->
  export_address p [cosmos_prefix t prefix] = Ret addr -> adapter = tendermint_adapter t -> addr = dr_Address r.
Proof. intros (_ & Hda & _) Hx Hy Hu Hp HE ->. apply (tendermint_address t p) in Hda; [congruence|done..]. Qed.

(** C5: The addresses of an installed wallet are recoverable from its recovery
    phrase, from the dealing of the keys through the installation, local or remote,
    to a derivation by the running parties. After any execution of the deployment
    that returns without an error, among the other handlers and whatever the servers
    answer, on the databases it leaves, Party A derives a path and Party B handles
    its request. On secp256k1, whatever key [DeriveECDSAKeyTSS] exports for that path
    from the phrase alone is the discrete logarithm of the public key Party A returns
    and both parties store (Party B, unless its store failed and is as it was), and
    the exported address is the one Party A returns, for the EVM adapter and, with
    its bech32 prefix, for the Tendermint adapters. On ed25519,
    [ExportSolanaKeyAtPath] always exports the scalar of that public key, and its
    address is the one the Solana adapter returns. *)
Theorem installed_address_recoverable mnemonic sA sB (localMode : bool) (s s' : Shared pp) t w w' a b ea eb :
  ec_N S256 <= 2 ^ 256 -> ec_N Edwards <= 2 ^ 256 ->
  session mk_aux S256 Edwards mnemonic sA sB s ->
  ShareA (keys (wizard s)) = Some a -> ShareB (keys (wizard s)) = Some b ->
  EdShareA (keys (wizard s)) = Some ea -> EdShareB (keys (wizard s)) = Some eb ->
  Forall representable [a; b; ea; eb] -> (if localMode then env w "CRYPTO_CLAW_NO_PROCESSES" = "" else disk w = true) ->
  exec others s (if localMode then DeployLocal else deployRemote) t s' (Some (Ret tt)) -> replay w t w' ->
  exists dsnA dsnB, reached localMode dsnA dsnB /\
  forall (wA wA' : ServiceA) (wB wB' : ServiceB) nowA nowB path label prefix adapter l r rB,
  opened w' dsnA dsnB wA wB -> parsePath path = Ret l -> l <> [] ->
  ForPath (sa_vmRegistry wA) path = Some adapter -> derive_curve (sb_vmReg wB) path = AdapterCurve adapter ->
  Derive derive_key nowA path label prefix wA = (wA', Ret r) ->
  HandleDeriveRequest derive_key wB nowB path = (wB', rB) ->
  (AdapterCurve adapter = CurveSecp256k1 -> forall exportPrefix e, DeriveECDSAKeyTSS S256 mnemonic path exportPrefix = Ret e ->
   exists key pub, 0 < key < ec_N S256 /\ ex_PrivKeyHex e = Hex.EncodeToString (Binary.be_bytes 32 key) /\
     uncompressed (mulG S256 key) = Ret pub /\ derived pub path prefix adapter r wA' wB wB' rB /\
     (adapter = evm_adapter -> exportPrefix = [] -> ex_Address e = dr_Address r) /\
     (forall t, adapter = tendermint_adapter t -> cosmos_prefix t prefix <> "" ->
        exportPrefix = [cosmos_prefix t prefix] -> ex_Address e = dr_Address r)) /\
  (AdapterCurve adapter = CurveEd25519 ->
   exists scalar pub addr, edwardsPointToEd25519PubKey (mulG Edwards scalar) = Ret pub /\
     ExportSolanaKeyAtPath Edwards P mnemonic path
       = Ret {| ex_Path := path; ex_PrivKeyHex := base58_Encode (Binary.le_bytes 32 scalar ++ pub); ex_Address := addr |} /\
     derived pub path prefix adapter r wA' wB wB' rB /\ (forall calls, adapter = solana_adapter calls -> addr = dr_Address r)).
Proof.
  intros HN HNe Hs Ea Eb Eea Eeb HR Hm Hx Hw.
  destruct (installed_halves mnemonic sA sB localMode s s' t w w' a b ea eb Hs Ea Eb Eea Eeb HR Hm Hx Hw)
    as (HD & HDe & dsnA & dsnB & Hdsn & [HsA HsA'] & [HsB HsB']). exists dsnA, dsnB. split; [done|].
  intros wA wA' wB wB' nowA nowB path label prefix adapter l r rB (HokA & HokB & HvA & HvB) Hl Hne Hfor HcB HA HB.
  rewrite <- HvA in HsA, HsA'. rewrite <- HvB in HsB, HsB'. split; intros Hcurve.
  - intros exportPrefix e HE.
    destruct (dealt_ECDSA_recovers mk_aux S256 Edwards mnemonic a b path exportPrefix e l HD HN Hl Hne HE)
      as (key & pub & dkA & dkB & DA & DB & PA & PB & Hkey & Hpub & Hhex & Hadr).
    rewrite <- Hcurve in HsA, HsB. assert (derived pub path prefix adapter r wA' wB wB' rB) as HP.
    { rewrite <- PB. eapply (derived_of_shares nowA nowB path label prefix adapter r wA wA' wB wB' rB a b dkA dkB); congruence || done. }
    destruct (mulG_coords (c := S256) key). exists key, pub. do 4 (split; [done|]). split.
    + intros Ha ->. by eapply (derived_evm (mulG S256 key)).
    + intros t0 Ha Hp ->. by eapply (derived_tendermint t0 (mulG S256 key)).
  - destruct (dealt_EdDSA_recovers (aux := aux) S256 Edwards P mnemonic ea eb path l HDe HNe Hl Hne)
      as (scalar & pub & dkA & dkB & DA & DB & PA & PB & Hpub & HE).
    rewrite <- Hcurve in HsA', HsB'. assert (derived pub path prefix adapter r wA' wB wB' rB) as HP.
    { rewrite <- PB. eapply (derived_of_shares nowA nowB path label prefix adapter r wA wA' wB wB' rB ea eb dkA dkB); congruence || done. }
    exists scalar, pub, (base58_Encode pub). do 3 (split; [done|]). intros calls ->. destruct HP as (_ & Hda & _).
    cbn in Hda. rewrite solana_address in Hda by (by eapply length_ed25519). congruence.
Qed.
End EndToEnd.

(** ** A small wallet: installed, opened and used *)
Import Toy ToyStore ToySolana ToyAnalyzer ToyB Postgres ToyA.
#[local] Existing Instances Toy.unicode number_parties Toy.toy_save_codec Toy.curve_laws Toy.save_codec_laws ToyMnemonic.bip39
  ToyMnemonic.addresses ToyCosmos.codec ToyInstall.order ToyInstall.order_laws ToyInstall.config_json ToyInstall.x509 ToyLocal.share_codec ToyLocal.share_laws.
Module ToyWallet.
(** go-ethereum and cosmos-sdk as the installer calls them. *)
#[export] Instance geth : Geth := {|
  Transaction := LegacyTx; NewTx := fun t => t; Evm.tx_Value := lt_Value; Evm.tx_ChainId := lt_V; Evm.tx_Gas := lt_Gas;
  Evm.tx_To := fun t => Some (lt_To t); Evm.tx_Data := lt_Data; rlp_EncodeToBytes := fun _ => Err ""; rlp_DecodeBytes := fun _ => Err "";
  EIP155_Hash := fun _ _ => []; WithSignature := fun _ _ _ => Err ""; LatestSender := fun _ _ => Err "";
  Keccak256 := fun b => repeat x00 12 ++ take 32 b; HexToAddress := bytes_of;
  AddressHex := fun b => Strconv.Itoa (Binary.be_Z b) |}.
#[export] Instance cosmos : Cosmos := {|
  Any := bytes; NewAnyMsg := fun _ => Err ""; NewAnyPubKey := fun b => Ret b;
  NewInt64Coin := fun d x => Ret {| coin_Denom := d; coin_Amount := x |}; NewCoins := fun l => Ret l;
  proto_TxBody := fun _ => Err ""; proto_AuthInfo := fun _ => Err ""; proto_SignDoc := fun _ => Err "";
  proto_TxRaw := fun _ => Err ""; PubKey_Address := fun b => Ret b;
  bech32_ConvertAndEncode := fun prefix b => Ret (prefix +:+ string_of b) |}.
#[export] Instance same_libs : SameLibs.
Proof.
  split; [|done..]. intros p Hx _. cbn [PubkeyToAddress_Hex AddressHex Keccak256 ToyMnemonic.addresses geth].
  rewrite (drop_app_length' (repeat x00 12)) by done. rewrite take_app_length' by (symmetry; apply Binary.length_be_bytes).
  rewrite Binary.be_Z_be_bytes, Z.mod_small; [done|exact Hx].
Qed.
Definition registry : Registry := Register NewRegistry ["60"] evm_adapter.
Definition save (s : PostgresStore) (ks : KeyShare) : PostgresStore := (Store.SaveMasterShare s ks).1.
Definition store_a : PostgresStore := save (save (save ToyStore.empty ToyLocal.old_share) ToyLocal.a) ToyLocal.ea.
Definition store_b : PostgresStore := save (save ToyStore.empty ToyLocal.b) ToyLocal.eb.
Definition party_a : PartyA.ServiceA (S := PostgresStore) (T := list Message) := NewService store_a [] registry.
Definition party_b : PartyB.Service (S := PostgresStore) :=
  mkService config None true true store_b (analyzer false) None ∅ ∅ None ∅ [] [] [] None [].
Lemma save_ok s ks : pg_ok s -> pg_ok (save s ks).
Proof. intros Hok. exact (proj1 (law_SaveMasterShare s ks Hok)). Qed.
Lemma save_view s ks : pg_ok s -> (Store.SaveMasterShare s ks).2 = Ret tt ->
  v_shares (view (save s ks)) = <[ks_Curve ks := ks]> (v_shares (view s)).
Proof.
  intros Hok. pose proof (law_SaveMasterShare s ks Hok) as [_ HV]. unfold save.
  destruct (Store.SaveMasterShare s ks) as [s' r]. cbn [fst snd] in *. intros ->. by rewrite HV.
Qed.
Lemma stores : v_shares (view store_a) = <[CurveEd25519 := ToyLocal.ea]> (<[CurveSecp256k1 := ToyLocal.a]> {[CurveSecp256k1 := ToyLocal.old_share]}) /\
  v_shares (view store_b) = <[CurveEd25519 := ToyLocal.eb]> (<[CurveSecp256k1 := ToyLocal.b]> ∅).
Proof.
  unfold store_a, store_b. rewrite !save_view by first [repeat apply save_ok; exact ToyStore.empty_ok | vm_compute; reflexivity].
  split; reflexivity.
Qed.

Definition derive : KeyShare -> string -> go DerivedKey := DeriveKey (aux := unit) Toy.curve Small.curve.
Lemma a_derives key dk : derive ToyLocal.a ToyMnemonic.path = Ret dk -> uncompressed (mulG Toy.curve key) = Ret (dk_PublicKey dk) ->
  exists w' r, Derive derive 0 ToyMnemonic.path "" "" party_a = (w', Ret r).
Proof.
  intros Hdk Hu. destruct (mulG_coords (c := Toy.curve) key) as [Hx Hy].
  assert (exists addr, evm_DeriveAddress (dk_PublicKey dk) [] = Ret addr) as [addr Ha] by (eexists; by apply (evm_address _ _ [] Hx Hy Hu)).
  edestruct (Derive_run derive 0 ToyMnemonic.path "" "" party_a evm_adapter ToyLocal.a dk) as (w' & E);
    [reflexivity|vm_compute; reflexivity|exact Hdk|exact Ha|vm_compute; reflexivity|reflexivity|discriminate|].
  exists w'. eexists. exact E.
Qed.
End ToyWallet.

#[local] Existing Instances ToyWallet.geth ToyWallet.cosmos ToyWallet.same_libs small_codec_laws.

Lemma installed_address_recoverable_witness :
  exists t s' w' wA' r wB' rB key pub,
    Effects.exec others ToyLocal.start DeployLocal t s' (Some (Ret tt)) /\ replay ToyLocal.machine t w' /\
    Derive ToyWallet.derive 0 ToyMnemonic.path "" "" ToyWallet.party_a = (wA', Ret r) /\
    HandleDeriveRequest ToyWallet.derive ToyWallet.party_b 0 ToyMnemonic.path = (wB', rB) /\
    ex_PrivKeyHex ToyMnemonic.exported = Hex.EncodeToString (Binary.be_bytes 32 key) /\
    uncompressed (mulG Toy.curve key) = Ret pub /\ dr_PublicKey r = hex0x pub /\ ex_Address ToyMnemonic.exported = dr_Address r.
Proof.
  pose proof ToyLocal.run_result as HE. destruct ToyLocal.run as [[[t s'] w'] r0] eqn:E. destruct HE as (-> & _).
  apply (simulate_spec _ others) in E as [Hx Hw].
  destruct (local_install ToyInstall.mk_aux Toy.curve Small.curve ToyMnemonic.mnemonic (ToyInstall.server "a.example")
    (ToyInstall.server "b.example") ToyLocal.start s' t ToyLocal.machine w' ToyLocal.a ToyLocal.b ToyLocal.ea ToyLocal.eb
    toy_session eq_refl eq_refl eq_refl eq_refl toy_representable eq_refl Hx Hw) as (HD & _ & (Ha & _) & (Hb & _) & _).
  destruct (dealt_ECDSA_recovers (aux := unit) ToyInstall.mk_aux Toy.curve Small.curve _ _ _ ToyMnemonic.path [] _ [2147483692; 2147483708] HD
    ltac:(discriminate) eq_refl ltac:(discriminate) ToyMnemonic.exported_eq) as (k0 & pub0 & dk & _ & Hdk & _ & Hpk & _ & _ & Hu & _).
  rewrite <- Hpk in Hu. destruct (ToyWallet.a_derives k0 dk Hdk Hu) as (wA' & r & HA).
  destruct (HandleDeriveRequest ToyWallet.derive ToyWallet.party_b 0 ToyMnemonic.path) as [wB' rB] eqn:HB.
  destruct (installed_address_recoverable (aux := unit) ToyInstall.mk_aux Toy.curve Small.curve Small.p ToyMnemonic.mnemonic
    (ToyInstall.server "a.example") (ToyInstall.server "b.example") true ToyLocal.start s' t ToyLocal.machine w'
    ToyLocal.a ToyLocal.b ToyLocal.ea ToyLocal.eb ltac:(discriminate) ltac:(discriminate)
    toy_session eq_refl eq_refl eq_refl eq_refl toy_representable eq_refl Hx Hw) as (dsnA & dsnB & [-> ->] & HW).
  destruct (HW ToyWallet.party_a wA' ToyWallet.party_b wB' 0 0 ToyMnemonic.path "" ""
    evm_adapter [2147483692; 2147483708] r rB) as [HS _]; [|reflexivity|discriminate|reflexivity|reflexivity|exact HA|exact HB|].
  - destruct ToyWallet.stores as [SA SB].
    split; [|split; [|split]]; [repeat apply ToyWallet.save_ok; exact ToyStore.empty_ok..| |];
      [rewrite Ha; exact SA|rewrite Hb; exact SB].
  - destruct (HS eq_refl [] _ ToyMnemonic.exported_eq) as (key & pub & _ & Hhex & Hpub & (Hr & _) & Hev & _).
    exists t, s', w', wA', r, wB', rB, key, pub. split; [exact Hx|]. split; [exact Hw|]. split; [exact HA|].
    split; [reflexivity|]. split; [exact Hhex|]. split; [exact Hpub|]. split; [exact Hr|exact (Hev eq_refl eq_refl)].
Defined.
